(* ===== verification/_CoqProject ===== *)
-Q . S2P
Prelude.v
JsString.v
JsNumber.v
JsDecimal.v
JsRegex.v
JsValue.v
JsJson.v
JsBase64.v
StatusCodes.v
QrPayment.v
BillingExpr.v
BillingSplit.v
BillingRoundTrip.v
TierExpr.v
ModelMapping.v
SettingsForms.v
Playground.v
ChannelUtils.v
ChannelForm.v
ParamOverride.v
ParamOverrideEditor.v
Navigation.v
NavigationFacts.v
TableUrl.v
Currency.v
Pricing.v
PricingFacts.v
SettingsHook.v
SecureVerification.v
EntityForms.v
Wallet.v
WalletFacts.v
Dashboard.v
DashboardFacts.v
UsageLogs.v
UsageLogsFacts.v
Notifications.v
ApiClient.v
PlaygroundSession.v
UpstreamUpdates.v
ChatLinks.v
