(* ===== verification/Prelude.v ===== *)
(** * Verification of the uk72-api web console

    uk72-api is a gateway for language model services.  Its console,
    [src/web/default/src], is a TypeScript program; this library models the parts
    of it that decide something (what a text means, what is sent to the server,
    what a user is told) as functions and step relations, and proves what makes
    them correct.  Paths below are relative to [src/web/default/src].

    ** Layers

    - [Prelude] (this file): notations, tactics, hint database [jsdb], the
      [outcome] monad for code that may throw, list operations of the language
      ([uniq], [sort_by]) with their laws.
    - [JsString], [JsNumber], [JsDecimal], [JsRegex], [JsValue], [JsJson],
      [JsBase64]: the language and its library.  Strings are
      lists of UTF-16 units ([jstr]); numbers are IEEE 754 binary64 values
      ([num], rounding written out on unbounded integers); regular expressions
      have the backtracking semantics of the standard, every way to match in the
      order the engine tries them; objects are ordered property lists ([jsobj])
      with JSON parsing and printing.  [JsDecimal] proves that a printed number
      is read back as the same number, [JsJson] that printed JSON (compact or
      indented) is read back as the value it was printed from, and [JsBase64] that
      base 64 and UTF-8 are inverted by their decoders.

    ** Components

    - [StatusCodes]: [lib/http-status-code-rules.ts] (module [Rules]) and
      [features/channels/lib/status-code-risk-guard.ts] (module [RiskGuard]).
      Parsing gives canonical ranges that cover exactly the codes written;
      normalized text is a fixed point; errors are reported exactly; the
      redirect guard reports exactly the risky entries, and only new ones.
    - [QrPayment]: [features/wallet/qr-payment-session.ts] (module [Session]),
      [hooks/use-qr-payment-status-polling.ts] ([Polling]) and
      [hooks/use-qr-payment-success-close.ts] ([SuccessClose]).  The state and
      refs of a hook are a record; an asynchronous function is cut at its awaits
      and a suspended call is a task; [step] runs one uninterrupted piece.
      Invariants hold in every reachable state, for every interleaving of
      renders, timers, closes and responses: polling is single-flight, stale
      answers are inert, polling cannot wedge, a success is notified once,
      closing completes.  One theorem exhibits the remaining race.
    - [BillingExpr], [BillingSplit], [BillingRoundTrip]:
      [features/pricing/lib/billing-expr.ts], the language of tiered prices and
      request rules.  Parsed tiers are total; combining and splitting, printing
      and parsing of rules are inverse on the forms the editor produces; the
      forms that are not read back are exhibited.
    - [TierExpr]: [features/pricing/lib/tier-expr.ts], the visual tier editor on
      top of it: a tier survives printing and parsing, and an accepted
      expression regenerates its text except in the unchecked single-tier form.
    - [ModelMapping]: [features/channels/lib/model-mapping-validation.ts] and
      [upstream-update-utils.ts].  Missing and exposed models are exactly those
      of the mapping, and the offered repairs leave none.
    - [SettingsForms]: [features/system-settings/integrations/]: [utils.ts],
      [payment-settings-core.ts], [alipay-settings.ts], [wechat-pay-settings.ts],
      [piggy-withdraw-settings.ts], [qiniu-settings.ts].  The class
      [SettingsForm] is the interface all update builders meet.  Each of the seven
      builders sends exactly the changed options, each under its key with the value
      of its own field.  The ordering of the activation amounts never passes through
      a rejected state.
    - [Playground]: [features/playground/lib/message-utils.ts],
      [lib/payload-builder.ts], [hooks/use-chat-handler.ts].  The reasoning
      parser is exact, a stream writes only its own answer, an error is final,
      and the visible text of the finished answer does not depend on how the stream
      was cut (its reasoning can, when the reasoning is empty: one theorem shows it).
    - [ChannelUtils]: [features/channels/lib/channel-utils.ts] with the tables of
      [constants.ts]: aggregation by tag refines a two-pass specification, key
      deduplication, masking and group lists.
    - [ChannelForm]: [features/channels/lib/channel-form.ts].  Every key of the
      two JSON columns is written, removed or kept as the code says for the channel
      type (the upstream check is kept when the type changes); the update payload has
      exactly the documented fields; opening a channel and saving it unchanged keeps
      the stored fields outside the two columns.
    - [ParamOverride], [ParamOverrideEditor]:
      [features/channels/components/dialogs/param-override-editor-dialog.tsx],
      the rules that rewrite requests and the dialog that edits them.  Saved
      rules reopen as the same rules, validation accepts exactly the complete
      ones, moving a rule is the move the user made; the dialog's handlers are
      events over a record of its state, and every reachable state has rules with
      known modes and distinct identifiers.

    - [Navigation], [NavigationFacts]: the header and sidebar switches,
      [lib/nav-modules.ts] (module [Header]), [maintenance/config.ts] with the two
      settings pages ([Admin]), [hooks/use-sidebar-config.ts] and
      [use-sidebar-data.ts] ([Sidebar]), and the user's own switches
      [features/profile/components/sidebar-modules-card.tsx] ([Card]).  What an
      administrator saves is what the header and the sidebar show, the three
      readers of the same setting agree on what the pages write, and the user's
      card can hide but never reveal an entry.
    - [TableUrl]: [hooks/use-table-url-state.ts]: column filters and the page
      survive the URL; the correction of a page out of range ends after one step and
      leaves an empty table alone.
    - [Currency]: [lib/currency.ts], [lib/format.ts] and the stored configuration:
      amounts, abbreviations and the conversion between quota and money, which
      round-trips for whole units.
    - [Pricing], [PricingFacts]: [features/pricing/lib/] price, filters,
      dynamic-price, qiniu-market and model-helpers, with
      [hooks/use-filters.ts] and [use-pricing-data.ts]: the texts that
      are sanitised never name the supplier (model names and the keys of unnamed
      prices are not sanitised), the filtered list is exactly the matching models in order, the
      dynamic summary lists exactly the prices of the first tier.
    - [SettingsHook]: [features/system-settings/hooks/use-settings-form.ts]: a
      submission sends exactly the changed fields, list fields apart; dotted paths
      and nested values are inverse.
    - [SecureVerification]: [features/auth/secure-verification/]: the hook as a
      step relation; a protected call is made only after a verification.
    - [EntityForms]: the forms of API keys ([Keys]), redemption codes
      ([Redemptions]), users ([Users]), subscription plans ([Plans]) and models
      ([Models]): opening and saving a stored entity keeps it.
    - [Wallet], [WalletFacts]: [features/wallet/lib/payment.ts] ([Payment]),
      [hooks/use-topup-info.ts] ([Topup]), [lib/piggy-withdraw-amounts.ts]
      ([Piggy]) and the payment handlers of [index.tsx] with
      [hooks/use-payment.ts], [use-creem-payment.ts] and [use-waffo-payment.ts]
      ([Page], a step relation): which minimum, discount and route a payment has,
      which handlers start one, and when the price shown is that of the amount.
    - [Dashboard], [DashboardFacts]: [features/dashboard/lib/] charts, stats and
      filters with [lib/time.ts]: no call and no quota is lost between the
      totals, the series and their bucket of other models, and what is drawn is the
      rounded dollar amount of each; the charts of the users are exact; preferences
      reopen as saved.
    - [UsageLogs], [UsageLogsFacts]: [features/usage-logs/lib/] utils, filter and
      format with [api.ts]: the exact query of the log table, the restriction of
      users to their own records, the billing expression of a record through
      base 64 and UTF-8, and the prices shown for its tier.
    - [Notifications]: [stores/notification-store.ts] (module [Store]) and
      [hooks/use-notifications.ts] ([Hook]): the unread counts are a function of
      the tabs and dialogs opened before, announcements counted by their keys.
    - [ApiClient]: [lib/api.ts]: identical GET requests share one running request,
      and its interceptors.
    - [PlaygroundSession]: [hooks/use-stream-request.ts] of the playground (module
      [Stream]), on top of [Playground], and its stored settings ([Settings]): a
      stream shows the visible text of its whole content however it was cut, its end
      is final, and settings reopen as they were last written to a storage whose
      accesses may fail.
    - [UpstreamUpdates]: [features/channels/hooks/use-channel-upstream-updates.ts]:
      each operation runs once at a time and none stays blocked; the request of
      the dialog decides every pending model once.
    - [ChatLinks]: [features/chat/lib/chat-links.ts]: a link with a configuration
      is read back by the client as the address and the key.

    ** Bounds and fuel

    Loops that are not structural carry fuel that the callers choose large
    enough, and the theorems are about the callers: [think_loop] and
    [unwrap_loop] get the length of their text (every round consumes a tag or a
    pair of parentheses), [json_parse] twice the length plus two, regular
    expression iteration the length of the remaining text (every iteration
    consumes), [shortest] the 17 digits that identify a binary64 value.

    ** Parameters

    Code outside the repository is an argument: [toLowerCase] (Unicode case
    tables), [localeLe] and [localeCompare] (collation, a total preorder by
    hypothesis), the calendar ([Dayjs], the start of the local day), the number
    format of the locale, fresh identifiers, [saveOptions] and the answers of
    the server.  [getPollingTradeNo] is an option of the hook and arbitrary in
    the theorems.

    ** Not modelled

    React rendering, translations, network access, the routes, the formats of
    [Intl] and of the date library, the appearance of the charts,
    [evalExprLocally] (it compiles text), the zod schema of the Qiniu form, the
    exchange with the browser's credential interface, the Go server and the
    classic console.  Objects have own members only: a name that an object
    inherits ([constructor], [__proto__]) is an ordinary absent key.
    [number_of_string] leaves out hexadecimal, octal and binary literals.  Failing
    accesses to the browser's storage are modelled for the playground settings and
    for the cached status; elsewhere the storage works. *)

From Stdlib Require Export List NArith ZArith Lia Bool.
From stdpp Require Export base option list sorting.

#[export] Set Default Goal Selector "!".

(** ** Notations of the development *)

Declare Scope js_scope.
Delimit Scope js_scope with js.

(** Equality test of the source's [===] on values with decidable equality. *)
Notation "x =?= y" := (bool_decide (x = y)) (at level 70, no associativity) : js_scope.
Notation "x <?> y" := (negb (bool_decide (x = y))) (at level 70, no associativity) : js_scope.

Global Open Scope js_scope.

(** ** Tactics *)

(** Case analysis on a boolean test of the goal or of a hypothesis. *)
Ltac case_test :=
  match goal with
  | |- context [if ?b then _ else _] => destruct b eqn:?
  | H : context [if ?b then _ else _] |- _ => destruct b eqn:?
  end.

(** Turns decided boolean tests into the propositions they decide. *)
Ltac prop_tests :=
  repeat match goal with
  | H : bool_decide _ = true |- _ => apply bool_decide_eq_true_1 in H
  | H : bool_decide _ = false |- _ => apply bool_decide_eq_false_1 in H
  | H : negb _ = true |- _ => apply negb_true_iff in H
  | H : negb _ = false |- _ => apply negb_false_iff in H
  | H : _ && _ = true |- _ => apply andb_true_iff in H; destruct H
  | H : _ || _ = false |- _ => apply orb_false_iff in H; destruct H
  end.

(** [lia] with the defining inequalities of division and remainder. *)
Ltac divlia := zify; Z.to_euclidean_division_equations; lia.

Create HintDb jsdb.

(** ** Code that may throw *)

(** The outcome of an evaluation: a value, or an exception. *)
Inductive outcome (A : Type) :=
| Ret (a : A)
| Throws.
Arguments Ret {A} a.
Arguments Throws {A}.

#[export] Instance outcome_ret : MRet outcome := fun A a => Ret a.
#[export] Instance outcome_bind : MBind outcome :=
  fun A B f o => match o with Ret a => f a | Throws => Throws end.

(** A loop that evaluates [f] on the elements in turn and stops at the first
    [null] result, as in [const x = f(e); if (!x) return null]. *)
Fixpoint traverse {A B} (f : A -> outcome (option B)) (l : list A) : outcome (option (list B)) :=
  match l with
  | [] => Ret (Some [])
  | a :: l' =>
      b ← f a;
      match b with
      | None => Ret None
      | Some b => bs ← traverse f l'; Ret (option_map (cons b) bs)
      end
  end.

(** ** List operations of the language *)

Section Uniq.
Context {A : Type} `{EqDecision A}.
Implicit Types (x : A) (l seen : list A).

(** [Array.from(new Set(l))]: the elements in order of first occurrence. *)
Fixpoint uniq_from seen l : list A :=
  match l with
  | [] => []
  | x :: l' =>
      if bool_decide (x ∈ seen) then uniq_from seen l'
      else x :: uniq_from (x :: seen) l'
  end.

Definition uniq l : list A := uniq_from [] l.

(** [arr.includes(x)] and [set.has(x)]. *)
Definition includes x l : bool := bool_decide (x ∈ l).

Lemma includes_true x l : includes x l = true <-> x ∈ l.
Proof. apply bool_decide_eq_true. Qed.

Lemma includes_false x l : includes x l = false <-> x ∉ l.
Proof. apply bool_decide_eq_false. Qed.

Lemma elem_of_uniq_from x seen l :
  x ∈ uniq_from seen l <-> x ∈ l /\ x ∉ seen.
Proof.
  revert seen. induction l as [|y l IH]; intros seen; simpl.
  - rewrite elem_of_nil. tauto.
  - case_bool_decide as Hy.
    + rewrite IH, elem_of_cons. split; [tauto|].
      intros [[->|?] ?]; [contradiction|auto].
    + rewrite !elem_of_cons, IH, elem_of_cons.
      destruct (decide (x = y)) as [->|]; tauto.
Qed.

Lemma elem_of_uniq x l : x ∈ uniq l <-> x ∈ l.
Proof.
  unfold uniq. rewrite elem_of_uniq_from. split; [tauto|].
  intros; split; [done|apply not_elem_of_nil].
Qed.

Lemma NoDup_uniq_from seen l : NoDup (uniq_from seen l).
Proof.
  revert seen. induction l as [|y l IH]; intros seen; simpl; [constructor|].
  case_bool_decide as Hy; [apply IH|].
  constructor; [|apply IH].
  rewrite elem_of_uniq_from. intros [_ Hn]. apply Hn. by left.
Qed.

Lemma NoDup_uniq l : NoDup (uniq l).
Proof. apply NoDup_uniq_from. Qed.

Lemma uniq_from_id seen l :
  NoDup l -> (forall x, x ∈ l -> x ∉ seen) -> uniq_from seen l = l.
Proof.
  intros Hnd. revert seen.
  induction Hnd as [|y l Hy Hnd IH]; intros seen Hdis; simpl; [done|].
  rewrite bool_decide_false by (apply Hdis; by left).
  f_equal. apply IH. intros x Hx [->|Hs]%elem_of_cons; [contradiction|].
  apply (Hdis x); [by right|done].
Qed.

Lemma uniq_id l : NoDup l -> uniq l = l.
Proof. intros. apply uniq_from_id; [done|]. intros x _. apply not_elem_of_nil. Qed.

Lemma uniq_idemp l : uniq (uniq l) = uniq l.
Proof. apply uniq_id, NoDup_uniq. Qed.

Lemma uniq_from_nil_iff seen l :
  uniq_from seen l = [] <-> forall x, x ∈ l -> x ∈ seen.
Proof.
  split.
  - intros Hnil x Hx. destruct (decide (x ∈ seen)) as [|Hn]; [done|].
    exfalso. apply (not_elem_of_nil x). rewrite <- Hnil.
    by apply elem_of_uniq_from.
  - intros Hsub. destruct (uniq_from seen l) as [|y r] eqn:E; [done|].
    assert (y ∈ l /\ y ∉ seen) as [Hy Hn].
    { apply elem_of_uniq_from. rewrite E. by left. }
    exfalso. by apply Hn, Hsub.
Qed.

Lemma uniq_Forall (P : A -> Prop) l : Forall P l -> Forall P (uniq l).
Proof.
  rewrite !Forall_forall. intros H x Hx. apply H. by apply elem_of_uniq.
Qed.

Lemma uniq_from_snoc seen l x :
  uniq_from seen (l ++ [x]) =
  uniq_from seen l ++ (if bool_decide (x ∈ seen ++ l) then [] else [x]).
Proof.
  revert seen. induction l as [|y l IH]; intros seen; cbn [app uniq_from].
  - rewrite app_nil_r. by case_bool_decide.
  - assert (E : x ∈ seen ++ y :: l <-> x ∈ (y :: seen) ++ l).
    { rewrite !elem_of_app, !elem_of_cons. tauto. }
    rewrite (bool_decide_ext _ _ E), !IH. case_bool_decide as Hy; [|done].
    assert (E2 : x ∈ seen ++ l <-> x ∈ (y :: seen) ++ l).
    { cbn [app]. rewrite elem_of_cons, !elem_of_app. split; [tauto|]. intros [->|?]; tauto. }
    by rewrite (bool_decide_ext _ _ E2).
Qed.

Lemma uniq_snoc l x :
  uniq (l ++ [x]) = uniq l ++ (if bool_decide (x ∈ l) then [] else [x]).
Proof. apply (uniq_from_snoc []). Qed.

End Uniq.

#[export] Hint Resolve NoDup_uniq NoDup_uniq_from uniq_Forall : jsdb.

(** [Array.prototype.sort] with a comparator that is a total preorder has
    exactly one result, the stable one; [sort_by le] computes it, [le x y]
    being [compare(x, y) <= 0]. *)
Section Sort.
Context {A : Type} (le : A -> A -> bool).
Implicit Types (x : A) (l : list A).

Fixpoint insert_by x l : list A :=
  match l with
  | [] => [x]
  | y :: l' => if le x y then x :: y :: l' else y :: insert_by x l'
  end.

Fixpoint sort_by l : list A :=
  match l with
  | [] => []
  | x :: l' => insert_by x (sort_by l')
  end.

Lemma insert_by_perm x l : insert_by x l ≡ₚ x :: l.
Proof.
  induction l as [|y l IH]; simpl; [done|].
  destruct (le x y); [done|]. rewrite IH. apply Permutation_swap.
Qed.

Lemma sort_by_perm l : sort_by l ≡ₚ l.
Proof.
  induction l as [|x l IH]; simpl; [done|]. by rewrite insert_by_perm, IH.
Qed.

Lemma elem_of_sort_by x l : x ∈ sort_by l <-> x ∈ l.
Proof. by rewrite sort_by_perm. Qed.

(** The comparator need only be a total preorder on the elements at hand. *)
Section On.
Variable P : A -> Prop.
Hypothesis le_total_on : forall x y, P x -> P y -> le x y = false -> le y x = true.
Hypothesis le_trans_on : forall x y z, P x -> P y -> P z -> le x y = true -> le y z = true -> le x z = true.

Lemma insert_by_sorted_on x l :
  P x -> Forall P l -> StronglySorted (fun a b => le a b = true) l ->
  StronglySorted (fun a b => le a b = true) (insert_by x l).
Proof.
  intros Px Pl. induction 1 as [|y l Hl IH Hy]; simpl; [repeat constructor|].
  apply Forall_cons in Pl as [Py Pl]. rewrite Forall_forall in Hy. pose proof Pl as Pl'.
  rewrite Forall_forall in Pl'. destruct (le x y) eqn:E.
  - constructor; [constructor; [done|by apply Forall_forall]|]. constructor; [done|].
    apply Forall_forall. intros z Hz. apply (le_trans_on x y z); auto.
  - constructor; [by apply IH|]. apply Forall_forall. intros z Hz. rewrite insert_by_perm in Hz.
    apply elem_of_cons in Hz as [->|Hz]; [by apply le_total_on|by apply Hy].
Qed.

Lemma sort_by_sorted_on l : Forall P l -> StronglySorted (fun a b => le a b = true) (sort_by l).
Proof.
  induction 1 as [|x l Hx Hl IH]; simpl; [constructor|]. apply insert_by_sorted_on; [done| |done].
  apply Forall_forall. intros y Hy. rewrite sort_by_perm in Hy. rewrite Forall_forall in Hl. by apply Hl.
Qed.
End On.

Hypothesis le_total : forall x y, le x y = false -> le y x = true.
Hypothesis le_trans : forall x y z, le x y = true -> le y z = true -> le x z = true.

Lemma sort_by_sorted l : StronglySorted (fun a b => le a b = true) (sort_by l).
Proof. apply (sort_by_sorted_on (fun _ => True)); eauto. by apply Forall_true. Qed.

End Sort.

Lemma StronglySorted_weaken {A} (R S : A -> A -> Prop) l :
  (forall a b, R a b -> S a b) -> StronglySorted R l -> StronglySorted S l.
Proof.
  intros H. induction 1 as [|x l Hl IH Hx]; constructor; [done|].
  eapply Forall_impl; [exact Hx|]. apply H.
Qed.

Lemma sort_by_id {A} (le : A -> A -> bool) l :
  StronglySorted (fun a b => le a b = true) l -> sort_by le l = l.
Proof.
  induction 1 as [|x l Hl IH Hx]; simpl; [done|].
  rewrite IH. destruct l as [|y l]; [done|]. simpl.
  apply Forall_cons_1 in Hx as [-> _]. done.
Qed.

(** ** Generic facts about lists and options *)

Lemma filter_all {A} (f : A -> bool) l :
  Forall (fun x => f x = true) l -> List.filter f l = l.
Proof.
  induction 1 as [|x l Hx Hl IH]; simpl; [done|]. by rewrite Hx, IH.
Qed.

Lemma filter_none {A} (f : A -> bool) l :
  Forall (fun x => f x = false) l -> List.filter f l = [].
Proof.
  induction 1 as [|x l Hx Hl IH]; simpl; [done|]. by rewrite Hx.
Qed.

Lemma elem_of_lfilter {A} (f : A -> bool) l x :
  x ∈ List.filter f l <-> x ∈ l /\ f x = true.
Proof. rewrite !list_elem_of_In. apply filter_In. Qed.

Lemma NoDup_lfilter {A} (f : A -> bool) l : NoDup l -> NoDup (List.filter f l).
Proof.
  induction 1 as [|x l Hx Hl IH]; simpl; [constructor|].
  destruct (f x); [|done]. constructor; [|done].
  rewrite elem_of_lfilter. tauto.
Qed.

Lemma Forall_lfilter {A} (f : A -> bool) (P : A -> Prop) l :
  Forall P l -> Forall P (List.filter f l).
Proof.
  rewrite !Forall_forall. intros H x [Hx _]%elem_of_lfilter. auto.
Qed.

Lemma lfilter_app {A} (f : A -> bool) l k :
  List.filter f (l ++ k) = List.filter f l ++ List.filter f k.
Proof. apply List.filter_app. Qed.

#[export] Hint Resolve NoDup_lfilter Forall_lfilter : jsdb.

Lemma omap_ext_in {A B} (f g : A -> option B) (l : list A) :
  (forall t, t ∈ l -> f t = g t) -> omap f l = omap g l.
Proof.
  induction l as [|t l IH]; intros H; csimpl; [done|].
  rewrite (H t) by (by left). rewrite IH by (intros t' ?; apply H; by right). done.
Qed.

(** Two lists with the same elements: the equality of the sets they build. *)
Definition same_elements {A} (l k : list A) : Prop := forall x, x ∈ l <-> x ∈ k.

#[export] Instance same_elements_equiv {A} : Equivalence (@same_elements A).
Proof.
  split.
  - intros l x. tauto.
  - intros l k H x. symmetry. apply H.
  - intros l k m H1 H2 x. rewrite (H1 x). apply H2.
Qed.

#[export] Instance elem_of_same_elements {A} (x : A) :
  Proper (same_elements ==> iff) (fun l => x ∈ l).
Proof. intros l k H. apply H. Qed.

#[export] Instance app_same_elements {A} :
  Proper (same_elements ==> same_elements ==> same_elements) (@app A).
Proof. intros l l' Hl k k' Hk x. rewrite !elem_of_app, (Hl x), (Hk x). done. Qed.

Lemma uniq_same {A} `{EqDecision A} (l : list A) : same_elements (uniq l) l.
Proof. intros x. apply elem_of_uniq. Qed.
