(* ===== verification/JsString.v ===== *)
(** * Strings of the language

    A JavaScript string is a sequence of UTF-16 code units; it is modelled as
    a list of [N].  The operations are the ones of [String.prototype] the
    sources under [src/web/default/src] use: [trim], [split], [join], [slice],
    [indexOf], [includes], [startsWith], [endsWith], decimal conversion and the
    code unit order of the default [Array.prototype.sort]. *)

From Stdlib Require Import String Ascii.
From S2P Require Import Prelude.
Export StringSyntax.

Local Open Scope N_scope.

Abbreviation jstr := (list N).

(** ** Literals *)

Definition unit_of_ascii (a : ascii) : N := N_of_ascii a.

(** UTF-8 bytes to UTF-16 code units; four byte sequences become surrogate
    pairs.  Ill-formed input, which no literal of the development has, is cut. *)
Fixpoint utf16_of_bytes (l : list N) : jstr :=
  match l with
  | [] => []
  | b :: r =>
      if b <? 128 then b :: utf16_of_bytes r
      else if b <? 224 then
        match r with
        | c :: r' => ((b - 192) * 64 + (c - 128)) :: utf16_of_bytes r'
        | _ => []
        end
      else if b <? 240 then
        match r with
        | c :: d :: r' =>
            ((b - 224) * 4096 + (c - 128) * 64 + (d - 128)) :: utf16_of_bytes r'
        | _ => []
        end
      else
        match r with
        | c :: d :: e :: r' =>
            let p := (b - 240) * 262144 + (c - 128) * 4096
                     + (d - 128) * 64 + (e - 128) - 65536 in
            (55296 + p / 1024) :: (56320 + p mod 1024) :: utf16_of_bytes r'
        | _ => []
        end
  end.

Fixpoint bytes_of_string (s : string) : list N :=
  match s with
  | EmptyString => []
  | String a r => unit_of_ascii a :: bytes_of_string r
  end.

(** The string with the given UTF-8 source text. *)
Definition js (s : string) : jstr := utf16_of_bytes (bytes_of_string s).

(** The same, with an apostrophe standing for a double quote. *)
Definition jq (s : string) : jstr :=
  List.map (fun c => if c =? 39 then 34 else c) (js s).

Arguments js _%_string_scope : simpl never.
Arguments jq _%_string_scope : simpl never.

(** The units of a literal, evaluated where it is written: unlike those of
    [js], two different such literals are told apart by their constructors. *)
Notation "'lit' s" := (ltac:(let t := eval vm_compute in (js s%string) in exact t))
  (at level 10, s at level 9, only parsing).

(** Evaluates the literals of the goal. *)
Ltac js_eval :=
  repeat match goal with
  | |- context [js ?s] => let v := eval vm_compute in (js s) in change (js s) with v
  | |- context [jq ?s] => let v := eval vm_compute in (jq s) in change (jq s) with v
  | H : context [js ?s] |- _ =>
      let v := eval vm_compute in (js s) in change (js s) with v in H
  | H : context [jq ?s] |- _ =>
      let v := eval vm_compute in (jq s) in change (jq s) with v in H
  end.

(** ** Character classes *)

(** WhiteSpace and LineTerminator: what [trim] and [\s] match. *)
Definition is_ws (c : N) : bool :=
  ((9 <=? c) && (c <=? 13)) || (c =? 32) || (c =? 160) || (c =? 5760)
  || ((8192 <=? c) && (c <=? 8202)) || (c =? 8232) || (c =? 8233)
  || (c =? 8239) || (c =? 8287) || (c =? 12288) || (c =? 65279).

(** [\d]. *)
Definition is_digit (c : N) : bool := (48 <=? c) && (c <=? 57).

(** [\w]. *)
Definition is_word (c : N) : bool :=
  is_digit c || ((65 <=? c) && (c <=? 90)) || ((97 <=? c) && (c <=? 122)) || (c =? 95).

(** ** Trimming *)

Fixpoint drop_while (f : N -> bool) (s : jstr) : jstr :=
  match s with
  | [] => []
  | c :: r => if f c then drop_while f r else s
  end.

Definition trim_start (s : jstr) : jstr := drop_while is_ws s.
Definition trim_end (s : jstr) : jstr := reverse (drop_while is_ws (reverse s)).

(** [s.trim()]. *)
Definition trim (s : jstr) : jstr := trim_end (trim_start s).

(** Truthiness of a string: [Boolean(s)]. *)
Definition truthy_str (s : jstr) : bool :=
  match s with [] => false | _ => true end.

(** ** Splitting and joining *)

(** [s.split(c)] for a separator of one code unit. *)
Fixpoint split_on (c : N) (s : jstr) : list jstr :=
  match s with
  | [] => [[]]
  | x :: r =>
      if x =? c then [] :: split_on c r
      else match split_on c r with
           | w :: ws => (x :: w) :: ws
           | [] => [[x]]
           end
  end.

(** [l.join(sep)]. *)
Fixpoint join (sep : jstr) (l : list jstr) : jstr :=
  match l with
  | [] => []
  | [w] => w
  | w :: ws => w ++ sep ++ join sep ws
  end.

(** ** Searching and slicing *)

Fixpoint starts_with (p s : jstr) : bool :=
  match p, s with
  | [], _ => true
  | a :: p', b :: s' => (a =? b) && starts_with p' s'
  | _ :: _, [] => false
  end.

Definition ends_with (p s : jstr) : bool := starts_with (reverse p) (reverse s).

(** [s.indexOf(p)], [None] standing for [-1]. *)
Fixpoint index_of (p s : jstr) : option nat :=
  if starts_with p s then Some 0%nat
  else match s with
       | [] => None
       | _ :: s' => S <$> index_of p s'
       end.

(** [s.indexOf(p, i)] for [i <= s.length]. *)
Definition index_of_from (p s : jstr) (i : nat) : option nat :=
  (fun k => (i + k)%nat) <$> index_of p (drop i s).

(** [s.includes(p)]. *)
Definition includes_sub (p s : jstr) : bool :=
  match index_of p s with Some _ => true | None => false end.

(** [s.slice(i, j)] and [s.substring(i, j)] for [i <= j]. *)
Definition slice (i j : nat) (s : jstr) : jstr := take (j - i) (drop i s).

(** [s.slice(-n)]. *)
Definition slice_last (n : nat) (s : jstr) : jstr := drop (length s - n) s.

(** [s.toUpperCase()] and [s.toLowerCase()] on ASCII letters; used where the result
    is compared with a word whose letters no other unit is converted to. *)
Definition upper_unit (c : N) : N := if (97 <=? c) && (c <=? 122) then c - 32 else c.
Definition lower_unit (c : N) : N := if (65 <=? c) && (c <=? 90) then c + 32 else c.
Definition to_upper (s : jstr) : jstr := List.map upper_unit s.
Definition to_lower (s : jstr) : jstr := List.map lower_unit s.

(** [s.replace(/c/g, d)] on single code units. *)
Definition replace_unit (c : N) (d : jstr) (s : jstr) : jstr :=
  List.flat_map (fun x => if x =? c then d else [x]) s.

(** ** Decimal notation *)

Definition digit_value (c : N) : N := c - 48.

(** The value of a sequence of decimal digits. *)
Definition dec_value (s : jstr) : N :=
  fold_left (fun acc c => acc * 10 + digit_value c) s 0.

Fixpoint dec_digits (fuel : nat) (n : N) (acc : jstr) : jstr :=
  match fuel with
  | O => acc
  | S f =>
      let acc' := (48 + n mod 10) :: acc in
      if n <? 10 then acc' else dec_digits f (n / 10) acc'
  end.

(** Decimal notation of a natural number; [N.size_nat n] digits are enough. *)
Definition dec_of_N (n : N) : jstr := dec_digits (S (N.size_nat n)) n [].

Definition dec_of_Z (z : Z) : jstr :=
  match z with
  | Z0 => dec_of_N 0
  | Zpos p => dec_of_N (Npos p)
  | Zneg p => 45 :: dec_of_N (Npos p)
  end.

Definition all_digits (s : jstr) : bool := List.forallb is_digit s.

(** [/^\d+$/.test(s)]. *)
Definition is_decimal (s : jstr) : bool := truthy_str s && all_digits s.

(** ** Order of the default sort *)

Fixpoint str_leb (a b : jstr) : bool :=
  match a, b with
  | [], _ => true
  | _ :: _, [] => false
  | x :: a', y :: b' => (x <? y) || ((x =? y) && str_leb a' b')
  end.

(** * Facts *)

Lemma drop_while_app_stop f s r :
  (forall c, head s = Some c -> f c = false) -> s <> [] ->
  drop_while f (s ++ r) = s ++ r.
Proof.
  destruct s as [|c s]; [done|]. intros H _. simpl. by rewrite (H c).
Qed.

Lemma drop_while_id f s :
  (forall c, head s = Some c -> f c = false) -> drop_while f s = s.
Proof. destruct s as [|c s]; [done|]. intros H. simpl. by rewrite (H c). Qed.

Lemma drop_while_head f s c : head (drop_while f s) = Some c -> f c = false.
Proof.
  induction s as [|x s IH]; simpl; [done|].
  destruct (f x) eqn:E; [exact IH|]. by intros [= ->].
Qed.

Lemma drop_while_idemp f s : drop_while f (drop_while f s) = drop_while f s.
Proof. apply drop_while_id, drop_while_head. Qed.

Lemma drop_while_suffix f s : exists p, s = p ++ drop_while f s /\ Forall (fun c => f c = true) p.
Proof.
  induction s as [|c s [p [E F]]]; simpl.
  - exists []. split; [done|constructor].
  - destruct (f c) eqn:Ec.
    + exists (c :: p). split; [by simpl; f_equal|by constructor].
    + exists []. split; [done|constructor].
Qed.

(** A string is trimmed when neither end is white space. *)
Definition trimmed (s : jstr) : Prop :=
  (forall c, head s = Some c -> is_ws c = false) /\
  (forall c, last s = Some c -> is_ws c = false).

Lemma head_reverse_last (s : jstr) : head (reverse s) = last s.
Proof. by rewrite <- last_reverse, reverse_involutive. Qed.

Lemma trim_id s : trimmed s -> trim s = s.
Proof.
  intros [Hh Hl]. unfold trim, trim_start, trim_end.
  rewrite (drop_while_id _ s) by done.
  rewrite drop_while_id by (by rewrite head_reverse_last).
  apply reverse_involutive.
Qed.

Lemma last_app_r (p s : jstr) c : last s = Some c -> last (p ++ s) = Some c.
Proof. intros H. rewrite last_app. by rewrite H. Qed.

Lemma head_prefix (p s : jstr) c : head p = Some c -> head (p ++ s) = Some c.
Proof. by destruct p. Qed.

Lemma trim_trimmed s : trimmed (trim s).
Proof.
  unfold trim, trim_end, trim_start.
  set (t := drop_while is_ws s).
  destruct (drop_while_suffix is_ws (reverse t)) as [p [E _]].
  set (u := drop_while is_ws (reverse t)) in *.
  assert (Ht : t = reverse u ++ reverse p).
  { by rewrite <- reverse_app, <- E, reverse_involutive. }
  split; intros c Hc.
  - apply (drop_while_head is_ws s). fold t. rewrite Ht. by apply head_prefix.
  - rewrite last_reverse in Hc. by apply drop_while_head in Hc.
Qed.

Lemma trim_idemp s : trim (trim s) = trim s.
Proof. apply trim_id, trim_trimmed. Qed.

Lemma trimmed_no_ws s : Forall (fun c => is_ws c = false) s -> trimmed s.
Proof.
  rewrite Forall_forall. intros H. split; intros c Hc; apply H.
  - destruct s; [done|]. simpl in Hc. simplify_eq. by left.
  - apply last_Some in Hc as [s' ->]. apply elem_of_app. right. by left.
Qed.

Lemma trimmed_nil : trimmed [].
Proof. split; done. Qed.

Lemma trim_elem c s : c ∈ trim s -> c ∈ s.
Proof.
  unfold trim, trim_end, trim_start.
  destruct (drop_while_suffix is_ws s) as [p [E _]].
  set (t := drop_while is_ws s) in *.
  destruct (drop_while_suffix is_ws (reverse t)) as [q [E' _]].
  intros Hc. rewrite elem_of_reverse in Hc.
  rewrite E. apply elem_of_app. right.
  rewrite <- elem_of_reverse, E'. apply elem_of_app. by right.
Qed.

Lemma drop_while_nil f s : drop_while f s = [] <-> Forall (fun c => f c = true) s.
Proof.
  induction s as [|c s IH]; simpl; [by split|]. rewrite Forall_cons, <- IH.
  destruct (f c); [tauto|]. split; [done|by intros []].
Qed.

Lemma trim_nil s : trim s = [] <-> Forall (fun c => is_ws c = true) s.
Proof.
  unfold trim, trim_end, trim_start. split.
  - intros Hn. apply (f_equal reverse) in Hn. rewrite reverse_involutive in Hn.
    apply drop_while_nil, (proj1 (Forall_reverse _ _)) in Hn.
    destruct (drop_while_suffix is_ws s) as (p & E & Hp). rewrite E. by apply Forall_app.
  - intros H. by rewrite (proj2 (drop_while_nil is_ws s) H).
Qed.

#[export] Hint Resolve trim_trimmed trimmed_nil : jsdb.

(** ** Splitting and joining *)

Lemma split_on_ne c s : split_on c s <> [].
Proof.
  destruct s as [|x s]; simpl; [done|].
  destruct (x =? c); [done|]. by destruct (split_on c s).
Qed.

Lemma join_split c s : join [c] (split_on c s) = s.
Proof.
  induction s as [|x s IH]; simpl; [done|].
  pose proof (split_on_ne c s) as Hne.
  destruct (N.eqb_spec x c) as [->|].
  - destruct (split_on c s) eqn:E; [done|]. simpl in *. by rewrite IH.
  - destruct (split_on c s) as [|w [|w' ws]] eqn:E; [done| |]; simpl in *.
    + by rewrite IH.
    + by rewrite <- IH.
Qed.

Lemma split_on_free c s : Forall (fun w => c ∉ w) (split_on c s).
Proof.
  induction s as [|x s IH]; simpl.
  - constructor; [apply not_elem_of_nil|constructor].
  - destruct (N.eqb_spec x c) as [->|Hn].
    + constructor; [apply not_elem_of_nil|done].
    + destruct (split_on c s) as [|w ws].
      * constructor; [|constructor]. rewrite list_elem_of_singleton. congruence.
      * apply Forall_cons_1 in IH as [Hw Hws]. constructor; [|done].
        rewrite not_elem_of_cons. split; congruence.
Qed.

Lemma split_on_word c w : c ∉ w -> split_on c w = [w].
Proof.
  induction w as [|x w IH]; intros H; simpl; [done|].
  apply not_elem_of_cons in H as [Hx Hw].
  destruct (N.eqb_spec x c) as [->|]; [done|]. by rewrite IH.
Qed.

Lemma split_on_app c w r : c ∉ w -> split_on c (w ++ c :: r) = w :: split_on c r.
Proof.
  induction w as [|x w IH]; intros H; simpl.
  - by rewrite N.eqb_refl.
  - apply not_elem_of_cons in H as [Hx Hw].
    destruct (N.eqb_spec x c) as [->|]; [done|]. by rewrite IH.
Qed.

Lemma split_join c l :
  l <> [] -> Forall (fun w => c ∉ w) l -> split_on c (join [c] l) = l.
Proof.
  intros Hne HF. induction HF as [|w l Hw Hl IH]; [done|].
  destruct l as [|w' l]; [by apply split_on_word|].
  change (join [c] (w :: w' :: l)) with (w ++ c :: join [c] (w' :: l)).
  rewrite split_on_app by done. f_equal. by apply IH.
Qed.

(** The pieces of a list text: trimmed, not blank, without the separator. *)
Definition word (c : N) (w : jstr) : Prop := w <> [] /\ trimmed w /\ c ∉ w.

Definition words (c : N) (s : jstr) : list jstr :=
  List.filter truthy_str (List.map trim (split_on c s)).

Lemma words_word c s : Forall (word c) (words c s).
Proof.
  apply Forall_forall. intros m Hm. apply elem_of_lfilter in Hm as [Hm Ht].
  rewrite list_elem_of_In in Hm. apply in_map_iff in Hm as (w & <- & Hw). split_and!.
  - by destruct (trim w).
  - apply trim_trimmed.
  - intros Hin%trim_elem. pose proof (split_on_free c s) as Hf. rewrite Forall_forall in Hf.
    apply list_elem_of_In in Hw. by apply (Hf w).
Qed.

Lemma words_join c ws : ws <> [] -> Forall (word c) ws -> words c (join [c] ws) = ws.
Proof.
  intros Hne H. unfold words. rewrite split_join; [|done|].
  2:{ eapply Forall_impl; [exact H|]. by intros m (_ & _ & ?). }
  rewrite (map_ext_in _ id), map_id.
  - apply filter_all. eapply Forall_impl; [exact H|]. intros m [? _]. by destruct m.
  - intros m Hm. rewrite Forall_forall in H. apply list_elem_of_In, H in Hm as (_ & Ht & _).
    by apply trim_id.
Qed.

Lemma join_words_truthy c sep ws :
  ws <> [] -> Forall (word c) ws -> truthy_str (join sep ws) = true.
Proof.
  intros Hne H. destruct H as [|m ms [Hm _] _]; [done|]. cbn [join]. destruct ms; by destruct m.
Qed.

Lemma words_blank c s : trim s = [] -> words c s = [].
Proof.
  rewrite trim_nil. intros Hs. apply filter_none, Forall_forall. intros w Hw.
  rewrite list_elem_of_In in Hw. apply in_map_iff in Hw as (v & <- & Hv%list_elem_of_In).
  rewrite (proj2 (trim_nil v)); [done|]. rewrite Forall_forall in *. intros x Hx.
  apply Hs. rewrite <- (join_split c s). revert Hv Hx. generalize (split_on c s).
  induction l as [|y l IH]; [by intros ?%elem_of_nil|].
  intros [->|Hv]%elem_of_cons Hx; cbn [join]; destruct l as [|z l]; rewrite ?elem_of_app; auto.
  by apply elem_of_nil in Hv.
Qed.

Lemma split_on_cut c a b : split_on c (a ++ c :: b) = split_on c a ++ split_on c b.
Proof.
  induction a as [|x a IH]; cbn [app split_on]; [by rewrite N.eqb_refl|].
  rewrite IH. destruct (x =? c); [done|].
  pose proof (split_on_ne c a). by destruct (split_on c a).
Qed.

Lemma split_on_elem_sub c s w x : w ∈ split_on c s -> x ∈ w -> x ∈ s.
Proof.
  revert w. induction s as [|y s IH]; intros w; simpl.
  - rewrite list_elem_of_singleton. by intros ->.
  - destruct (y =? c).
    + intros [->|Hw]%elem_of_cons Hx; [by apply elem_of_nil in Hx|].
      right. by apply (IH w).
    + destruct (split_on c s) as [|v vs].
      * rewrite list_elem_of_singleton. intros ->.
        rewrite list_elem_of_singleton. intros ->. by left.
      * intros [->|Hw]%elem_of_cons Hx.
        -- apply elem_of_cons in Hx as [->|Hx]; [by left|].
           right. apply (IH v); [by left|done].
        -- right. apply (IH w); [by right|done].
Qed.

(** ** Decimal notation *)

Lemma is_digit_spec c : is_digit c = true <-> 48 <= c <= 57.
Proof.
  unfold is_digit. rewrite andb_true_iff, !N.leb_le. done.
Qed.

Lemma is_digit_not_ws c : is_digit c = true -> is_ws c = false.
Proof.
  rewrite is_digit_spec. intros H. unfold is_ws.
  rewrite !orb_false_iff, !andb_false_iff, !N.leb_gt, !N.eqb_neq. lia.
Qed.

Lemma dec_value_app s c : dec_value (s ++ [c]) = dec_value s * 10 + digit_value c.
Proof. unfold dec_value. by rewrite fold_left_app. Qed.

Lemma dec_digits_S f n acc :
  dec_digits (S f) n acc =
  if n <? 10 then (48 + n mod 10) :: acc else dec_digits f (n / 10) ((48 + n mod 10) :: acc).
Proof. done. Qed.

Lemma dec_digits_acc fuel n acc : dec_digits fuel n acc = dec_digits fuel n [] ++ acc.
Proof.
  revert n acc. induction fuel as [|f IH]; intros n acc; [done|].
  rewrite !dec_digits_S. case_test; [done|].
  rewrite IH, (IH _ [_]). by rewrite <- app_assoc.
Qed.

Lemma dec_digits_value fuel n :
  n < 2 ^ N.of_nat fuel -> dec_value (dec_digits (S fuel) n []) = n.
Proof.
  revert n. induction fuel as [|f IH]; intros n Hn.
  - assert (n = 0) as -> by (simpl in Hn; lia). done.
  - rewrite dec_digits_S. destruct (N.ltb_spec n 10) as [Hlt|Hge].
    + unfold dec_value. simpl. unfold digit_value. rewrite N.mod_small by lia. lia.
    + rewrite dec_digits_acc, dec_value_app.
      rewrite IH.
      * unfold digit_value. clear Hn IH Hge.
        rewrite (N.add_comm 48), N.add_sub, N.mul_comm. symmetry. by apply N.div_mod.
      * rewrite Nat2N.inj_succ, N.pow_succ_r' in Hn.
        apply N.Div0.div_lt_upper_bound. lia.
Qed.

Lemma size_nat_bound n : n < 2 ^ N.of_nat (N.size_nat n).
Proof.
  destruct n as [|p]; [simpl; lia|].
  pose proof (N.size_gt (Npos p)) as H.
  assert (E : N.of_nat (N.size_nat (Npos p)) = N.size (Npos p)).
  { cbn [N.size_nat N.size]. clear H.
    induction p as [p IH|p IH|]; cbn [Pos.size_nat Pos.size]; [| |done];
      by rewrite Nat2N.inj_succ, IH. }
  by rewrite E.
Qed.

(** Reading back the decimal notation of a number gives the number. *)
Lemma dec_value_of_N n : dec_value (dec_of_N n) = n.
Proof. apply dec_digits_value, size_nat_bound. Qed.

Lemma dec_digits_all fuel n acc :
  Forall (fun c => is_digit c = true) acc ->
  Forall (fun c => is_digit c = true) (dec_digits fuel n acc).
Proof.
  revert n acc. induction fuel as [|f IH]; intros n acc Hacc; [done|].
  assert (Hd : is_digit (48 + n mod 10) = true).
  { apply is_digit_spec. divlia. }
  rewrite dec_digits_S. case_test; [by constructor|]. apply IH. by constructor.
Qed.

Lemma dec_of_N_digits n : Forall (fun c => is_digit c = true) (dec_of_N n).
Proof. apply dec_digits_all. constructor. Qed.

Lemma dec_of_N_ne n : dec_of_N n <> [].
Proof.
  unfold dec_of_N. rewrite dec_digits_S. case_test; [done|].
  rewrite dec_digits_acc. by destruct (dec_digits _ _ []).
Qed.

Lemma forallb_Forall {A} (f : A -> bool) l :
  List.forallb f l = true <-> Forall (fun x => f x = true) l.
Proof. rewrite forallb_forall, Forall_forall. by setoid_rewrite list_elem_of_In. Qed.

Lemma is_decimal_of_N n : is_decimal (dec_of_N n) = true.
Proof.
  unfold is_decimal. apply andb_true_iff. split.
  - pose proof (dec_of_N_ne n). by destruct (dec_of_N n).
  - apply forallb_Forall, dec_of_N_digits.
Qed.

Lemma is_decimal_spec s :
  is_decimal s = true <-> s <> [] /\ Forall (fun c => is_digit c = true) s.
Proof.
  unfold is_decimal, all_digits. rewrite andb_true_iff, forallb_Forall.
  destruct s; split; intros []; done.
Qed.

#[export] Hint Resolve dec_of_N_digits dec_of_N_ne is_decimal_of_N : jsdb.

(** ** The order of the default sort *)

Lemma str_leb_total a b : str_leb a b = false -> str_leb b a = true.
Proof.
  revert b. induction a as [|x a IH]; intros [|y b]; simpl; try done.
  rewrite orb_false_iff, andb_false_iff, N.ltb_ge. intros [Hle [Hne|Hf]].
  - apply orb_true_iff. left. apply N.ltb_lt. apply N.eqb_neq in Hne. lia.
  - destruct (N.eqb_spec y x) as [->|]; [rewrite (IH _ Hf), orb_true_r; done|].
    apply orb_true_iff. left. apply N.ltb_lt. lia.
Qed.

Lemma str_leb_trans a b c : str_leb a b = true -> str_leb b c = true -> str_leb a c = true.
Proof.
  revert b c. induction a as [|x a IH]; intros [|y b] [|z c]; simpl; try done.
  rewrite !orb_true_iff, !andb_true_iff, !N.ltb_lt, !N.eqb_eq.
  intros [?|[-> ?]] [?|[-> ?]]; [left; lia|left; lia|left; lia|right].
  split; [done|]. by apply (IH b).
Qed.

Lemma str_leb_antisym a b : str_leb a b = true -> str_leb b a = true -> a = b.
Proof.
  revert b. induction a as [|x a IH]; intros [|y b]; simpl; try done.
  rewrite !orb_true_iff, !andb_true_iff, !N.ltb_lt, !N.eqb_eq.
  intros [?|[-> ?]] [?|[? ?]]; try lia. f_equal. auto.
Qed.

(** ** Prefix tests *)

Lemma starts_with_spec p s : starts_with p s = true <-> exists r, s = p ++ r.
Proof.
  revert s. induction p as [|a p IH]; intros s; simpl.
  - split; [by exists s|done].
  - destruct s as [|b s]; simpl.
    + split; [done|]. by intros [r ?].
    + rewrite andb_true_iff, N.eqb_eq, IH. split.
      * intros [-> [r ->]]. by exists r.
      * intros [r [= -> ->]]. split; [done|]. by exists r.
Qed.

Lemma starts_with_app p r : starts_with p (p ++ r) = true.
Proof. apply starts_with_spec. by exists r. Qed.

Lemma index_of_Some p s i :
  index_of p s = Some i -> starts_with p (drop i s) = true /\ (i + length p <= length s)%nat.
Proof.
  revert i. induction s as [|c s IH]; intros i; simpl.
  - destruct (starts_with p []) eqn:E; [|done]. intros [= <-].
    split; [done|]. destruct p; [done|discriminate].
  - destruct (starts_with p (c :: s)) eqn:E.
    + intros [= <-]. split; [done|].
      apply starts_with_spec in E as [r E]. apply (f_equal length) in E.
      rewrite length_app in E. simpl in E. lia.
    + destruct (index_of p s) as [k|] eqn:Ek; [|done]. intros [= <-].
      destruct (IH k eq_refl) as [H1 H2]. simpl. split; [done|lia].
Qed.

Lemma index_of_None p s : index_of p s = None -> forall i, starts_with p (drop i s) = false.
Proof.
  induction s as [|c s IH]; simpl.
  - destruct (starts_with p []) eqn:E; [done|]. intros _ i. by rewrite drop_nil.
  - destruct (starts_with p (c :: s)) eqn:E; [done|].
    destruct (index_of p s) eqn:Ek; [done|]. intros _ [|i]; simpl; [done|]. auto.
Qed.

Lemma index_of_first p s i j :
  index_of p s = Some i -> (j < i)%nat -> starts_with p (drop j s) = false.
Proof.
  revert i j. induction s as [|c s IH]; intros i j; simpl.
  - destruct (starts_with p []) eqn:E; [|done]. intros [= <-]. lia.
  - destruct (starts_with p (c :: s)) eqn:E; [intros [= <-]; lia|].
    destruct (index_of p s) as [k|] eqn:Ek; [|done]. intros [= <-] Hj.
    destruct j as [|j]; simpl; [done|]. apply (IH k); [done|lia].
Qed.

Lemma starts_with_longer p a b : starts_with p a = true -> starts_with p (a ++ b) = true.
Proof.
  rewrite !starts_with_spec. intros [r ->]. exists (r ++ b). by rewrite <- app_assoc.
Qed.

(** The text before the first occurrence does not contain the pattern. *)
Lemma index_of_cut p s i :
  p <> [] -> index_of p s = Some i ->
  exists r, s = take i s ++ p ++ r /\ index_of p (take i s) = None.
Proof.
  intros Hp. revert i. induction s as [|c s IH]; intros i; simpl.
  - destruct (starts_with p []) eqn:E; [|done]. by destruct p.
  - destruct (starts_with p (c :: s)) eqn:E.
    + intros [= <-]. apply starts_with_spec in E as [r E]. exists r. split; [done|]. by destruct p.
    + destruct (index_of p s) as [k|] eqn:Ek; [|done]. intros [= <-].
      destruct (IH k eq_refl) as (r & Hs & Hn). exists r. simpl. split; [by f_equal|].
      rewrite Hn. destruct (starts_with p (c :: take k s)) eqn:E2; [|done].
      exfalso. apply (starts_with_longer _ _ (drop k s)) in E2. simpl app in E2.
      rewrite take_drop in E2. congruence.
Qed.

Lemma includes_middle p a b : includes_sub p (a ++ p ++ b) = true.
Proof.
  unfold includes_sub. destruct (index_of p (a ++ p ++ b)) eqn:E; [done|].
  apply index_of_None with (i := length a) in E. by rewrite drop_app_length, starts_with_app in E.
Qed.
