(* ===== verification/JsNumber.v ===== *)
(** * Numbers of the language

    A JavaScript number is an IEEE 754 binary64 value.  Every finite value is
    an integer multiple of 2^-1074, so a finite number is modelled by its sign
    and the (unbounded) number of these units; the operations compute exactly
    and round to the nearest representable value, ties to even.  Conversions
    to and from decimal text follow ECMA-262: [Number(s)] for numeric
    literals, [String(x)] (shortest digits that read back as [x]) and
    [x.toFixed(f)]. *)

From S2P Require Import Prelude.
From S2P Require Import JsString.

Local Open Scope N_scope.

Inductive num :=
| NaN
| Inf (neg : bool)
| Fin (neg : bool) (mag : N).

#[export] Instance num_eq_dec : EqDecision num.
Proof. solve_decision. Defined.

(** ** Rounding *)

(** One, in units of 2^-1074. *)
Definition one_units : N := N.shiftl 1 1074.

(** The first magnitude beyond the finite range, 2^1024. *)
Definition overflow_units : N := N.shiftl 1 2098.

(** [a / b] units rounded to 53 significant bits, ties to even. *)
Definition round_units (a b : N) : N :=
  let q := a / b in
  let s := N.log2 q - 52 in
  let d := N.shiftl b s in
  let q' := a / d in
  let r := a mod d in
  let up := (d <? 2 * r) || ((d =? 2 * r) && N.odd q') in
  N.shiftl (if up then q' + 1 else q') s.

Definition mk_num (neg : bool) (a b : N) : num :=
  let m := round_units a b in
  if m <? overflow_units then Fin neg m else Inf neg.

(** ** Integers and constants *)

Definition num_of_Z (z : Z) : num := mk_num (z <? 0)%Z (N.shiftl (Z.abs_N z) 1074) 1.

Definition num_zero : num := Fin false 0.

(** The signed number of units of a finite number. *)
Definition units (neg : bool) (m : N) : Z := if neg then (- Z.of_N m)%Z else Z.of_N m.

(** ** Arithmetic *)

Definition num_neg (x : num) : num :=
  match x with
  | NaN => NaN
  | Inf s => Inf (negb s)
  | Fin s m => Fin (negb s) m
  end.

Definition num_add (x y : num) : num :=
  match x, y with
  | NaN, _ | _, NaN => NaN
  | Inf s, Inf t => if Bool.eqb s t then Inf s else NaN
  | Inf s, Fin _ _ => Inf s
  | Fin _ _, Inf t => Inf t
  | Fin s m, Fin t n =>
      let k := (units s m + units t n)%Z in
      if (k =? 0)%Z then Fin (s && t) 0 else mk_num (k <? 0)%Z (Z.abs_N k) 1
  end.

Definition num_sub (x y : num) : num := num_add x (num_neg y).

Definition num_mul (x y : num) : num :=
  match x, y with
  | NaN, _ | _, NaN => NaN
  | Inf s, Inf t => Inf (xorb s t)
  | Inf s, Fin t n => if n =? 0 then NaN else Inf (xorb s t)
  | Fin s m, Inf t => if m =? 0 then NaN else Inf (xorb s t)
  | Fin s m, Fin t n => mk_num (xorb s t) (m * n) one_units
  end.

Definition num_div (x y : num) : num :=
  match x, y with
  | NaN, _ | _, NaN => NaN
  | Inf _, Inf _ => NaN
  | Inf s, Fin t _ => Inf (xorb s t)
  | Fin s _, Inf t => Fin (xorb s t) 0
  | Fin s m, Fin t n =>
      if n =? 0 then (if m =? 0 then NaN else Inf (xorb s t))
      else mk_num (xorb s t) (m * one_units) n
  end.

(** ** Comparison *)

(** [None]: at least one operand is NaN. *)
Definition num_compare (x y : num) : option comparison :=
  match x, y with
  | NaN, _ | _, NaN => None
  | Inf s, Inf t => Some (if Bool.eqb s t then Eq else if s then Lt else Gt)
  | Inf s, Fin _ _ => Some (if s then Lt else Gt)
  | Fin _ _, Inf t => Some (if t then Gt else Lt)
  | Fin s m, Fin t n => Some (units s m ?= units t n)%Z
  end.

(** [x === y], [x < y], [x <= y], [x > y], [x >= y]. *)
Definition num_eqb (x y : num) : bool :=
  match num_compare x y with Some Eq => true | _ => false end.
Definition num_ltb (x y : num) : bool :=
  match num_compare x y with Some Lt => true | _ => false end.
Definition num_leb (x y : num) : bool :=
  match num_compare x y with Some Lt | Some Eq => true | _ => false end.
Definition num_gtb (x y : num) : bool := num_ltb y x.
Definition num_geb (x y : num) : bool := num_leb y x.

(** [Math.max] and [Math.min] of two numbers. *)
Definition num_max (x y : num) : num :=
  match num_compare x y with
  | None => NaN
  | Some Lt => y
  | Some Gt => x
  | Some Eq => match x with Fin true 0 => y | _ => x end
  end.

Definition num_min (x y : num) : num :=
  match num_compare x y with
  | None => NaN
  | Some Lt => x
  | Some Gt => y
  | Some Eq => match x with Fin true 0 => x | _ => y end
  end.

(** [Math.abs]. *)
Definition num_abs (x : num) : num :=
  match x with NaN => NaN | Inf _ => Inf false | Fin _ m => Fin false m end.

Definition is_finite (x : num) : bool :=
  match x with Fin _ _ => true | _ => false end.

Definition is_nan (x : num) : bool := match x with NaN => true | _ => false end.

(** [Number.isInteger]. *)
Definition is_integer (x : num) : bool :=
  match x with Fin _ m => m mod one_units =? 0 | _ => false end.

(** [Boolean(x)]. *)
Definition truthy_num (x : num) : bool :=
  match x with NaN => false | Fin _ 0 => false | _ => true end.

(** [x || d] on numbers. *)
Definition num_or (x d : num) : num := if truthy_num x then x else d.

(** [Math.floor] and [Math.round]. *)
Definition num_floor (x : num) : num :=
  match x with
  | Fin s m =>
      if m mod one_units =? 0 then x
      else num_of_Z (units s m / Z.of_N one_units)%Z
  | _ => x
  end.

Definition num_round (x : num) : num :=
  match x with
  | Fin s m =>
      if m mod one_units =? 0 then x
      else let k := ((2 * units s m + Z.of_N one_units) / (2 * Z.of_N one_units))%Z in
           if (k =? 0)%Z then Fin s 0 else num_of_Z k
  | _ => x
  end.

(** ** Decimal text to number *)

(** [digits * 10^e].  Beyond 10^400 the value is over the largest finite
    number and below 10^-400 under half the smallest positive one, so the
    exponent is not expanded there. *)
Definition num_of_dec (neg : bool) (digits : N) (e : Z) : num :=
  let n := Z.of_nat (length (dec_of_N digits)) in
  if digits =? 0 then Fin neg 0
  else if (400 <? e + n)%Z then Inf neg
  else if (e + n <? -400)%Z then Fin neg 0
  else mk_num neg (N.shiftl (digits * 10 ^ Z.to_N e) 1074) (10 ^ Z.to_N (- e)).

(** The longest prefix of digits and the rest. *)
Fixpoint span_digits (s : jstr) : jstr * jstr :=
  match s with
  | [] => ([], [])
  | c :: r =>
      if is_digit c then let '(d, t) := span_digits r in (c :: d, t) else ([], s)
  end.

(** An optional exponent part: [None] when an [e] has no digits after it. *)
Definition parse_exponent (s : jstr) : option (Z * jstr) :=
  match s with
  | c :: r =>
      if (c =? 101) || (c =? 69) then
        let '(neg, r') :=
          match r with
          | 45 :: r' => (true, r')
          | 43 :: r' => (false, r')
          | _ => (false, r)
          end in
        let '(d, t) := span_digits r' in
        match d with
        | [] => None
        | _ => Some ((if neg then - Z.of_N (dec_value d) else Z.of_N (dec_value d))%Z, t)
        end
      else Some (0%Z, s)
  | [] => Some (0%Z, [])
  end.

(** An unsigned decimal literal (StrUnsignedDecimalLiteral without Infinity):
    its value with the given sign, and the rest of the text. *)
Definition parse_unsigned (neg : bool) (s : jstr) : option (num * jstr) :=
  let '(i, r) := span_digits s in
  let '(f, r') :=
    match r with
    | 46 :: t => span_digits t
    | _ => ([], r)
    end in
  match i, f with
  | [], [] => None
  | _, _ =>
      match parse_exponent r' with
      | Some (e, t) =>
          Some (num_of_dec neg (dec_value (i ++ f)) (e - Z.of_nat (length f)), t)
      | None => None
      end
  end.

(** [Number(s)] for decimal text: the empty string is 0, a decimal literal
    or [Infinity] with an optional sign is its value, and anything else is
    NaN.  (The hexadecimal, octal and binary forms are not modelled.) *)
Definition number_of_string (s : jstr) : num :=
  let t := trim s in
  let signed (neg : bool) (r : jstr) : num :=
    if r =?= js "Infinity" then Inf neg
    else match parse_unsigned neg r with Some (x, []) => x | _ => NaN end in
  match t with
  | [] => num_zero
  | 45 :: r => signed true r
  | 43 :: r => signed false r
  | _ => signed false t
  end.

(** ** Number to decimal text *)

(** The largest [n <= fuel + lo] with [10^n <= m / 2^1074], for [m > 0]. *)
Fixpoint dec_exp_up (fuel : nat) (m : N) (n : Z) : Z :=
  match fuel with
  | O => n
  | S f =>
      let le := if (0 <=? n + 1)%Z
                then N.shiftl (10 ^ Z.to_N (n + 1)) 1074 <=? m
                else one_units <=? m * 10 ^ Z.to_N (- (n + 1)) in
      if le then dec_exp_up f m (n + 1)%Z else n
  end.

(** [floor (log10 (m / 2^1074))], starting below an estimate from the bits. *)
Definition dec_exp (m : N) : Z :=
  let b := (Z.of_N (N.log2 m) - 1074)%Z in
  dec_exp_up 4 m (b * 30103 / 100000 - 2)%Z.

(** Does [s * 10^e] read as [m] units? *)
Definition reads_as (m s : N) (e : Z) : bool := num_of_dec false s e =?= Fin false m.

(** Candidate [s] with [k] digits, [e] the power of ten of its last digit:
    the nearest multiple of [10^e] to [m] that reads as [m]. *)
Definition digits_at (m : N) (e : Z) : option N :=
  let '(a, b) :=
    if (0 <=? e)%Z then (m, N.shiftl (10 ^ Z.to_N e) 1074)
    else (m * 10 ^ Z.to_N (- e), one_units) in
  let lo := a / b in
  let hi := lo + 1 in
  let near_hi := b <=? 2 * (a mod b) in
  let ok s := negb (s =? 0) && reads_as m s e in
  if near_hi then (if ok hi then Some hi else if ok lo then Some lo else None)
  else (if ok lo then Some lo else if ok hi then Some hi else None).

(** The shortest digits: [k] from 1 to 17. *)
Fixpoint shortest (fuel : nat) (m : N) (top : Z) (k : Z) : N * Z :=
  let e := (top - k + 1)%Z in
  match digits_at m e with
  | Some s => (s, e)
  | None => match fuel with
            | O => (0, e)
            | S f => shortest f m top (k + 1)%Z
            end
  end.

(** Removes trailing zeros of [s * 10^e]. *)
Fixpoint strip_zeros (fuel : nat) (s : N) (e : Z) : N * Z :=
  match fuel with
  | O => (s, e)
  | S f => if (s mod 10 =? 0) && negb (s =? 0) then strip_zeros f (s / 10) (e + 1)%Z
           else (s, e)
  end.

Definition zeros (n : nat) : jstr := replicate n 48.

(** Digits [ds] (as text) times [10^e], laid out as [Number::toString] does. *)
Definition layout (ds : jstr) (e : Z) : jstr :=
  let k := Z.of_nat (length ds) in
  let n := (k + e)%Z in
  if ((k <=? n) && (n <=? 21))%Z then ds ++ zeros (Z.to_nat (n - k))
  else if ((0 <? n) && (n <=? 21))%Z then
    take (Z.to_nat n) ds ++ 46 :: drop (Z.to_nat n) ds
  else if ((-6 <? n) && (n <=? 0))%Z then
    48 :: 46 :: zeros (Z.to_nat (- n)) ++ ds
  else
    let ex := (n - 1)%Z in
    let sign := if (0 <=? ex)%Z then 43 else 45 in
    let exs := dec_of_N (Z.abs_N ex) in
    match ds with
    | [d] => d :: 101 :: sign :: exs
    | d :: rest => d :: 46 :: rest ++ 101 :: sign :: exs
    | [] => []
    end.

(** [String(x)], also what a template literal and [JSON.stringify] print for
    a finite number. *)
Definition string_of_num (x : num) : jstr :=
  match x with
  | NaN => js "NaN"
  | Inf false => js "Infinity"
  | Inf true => js "-Infinity"
  | Fin s m =>
      if m =? 0 then js "0"
      else
        let '(d, e) := shortest 17 m (dec_exp m) 1 in
        let '(d', e') := strip_zeros 30 d e in
        (if s then [45] else []) ++ layout (dec_of_N d') e'
  end.

(** [x.toFixed(f)] for finite [|x| < 10^21]; larger values print as
    [String(x)]. *)
Definition to_fixed (x : num) (f : N) : jstr :=
  match x with
  | Fin s m =>
      if N.shiftl (10 ^ 21) 1074 <=? m then string_of_num x
      else
        (* nearest integer to |x| * 10^f; for a tie the larger |x| *)
        let n := (2 * m * 10 ^ f + one_units) / (2 * one_units) in
        let ds := dec_of_N n in
        let ds' := zeros (N.to_nat f + 1 - length ds) ++ ds in
        let k := (length ds' - N.to_nat f)%nat in
        let sign := if s && negb (m =? 0) then [45] else [] in
        sign ++ take k ds' ++ (if f =? 0 then [] else 46 :: drop k ds')
  | _ => string_of_num x
  end.

(** * Facts *)

(** Round to nearest, ties to even, of [a / d]. *)
Definition nearest (a d : N) : N :=
  if (d <? 2 * (a mod d)) || ((d =? 2 * (a mod d)) && N.odd (a / d))
  then a / d + 1 else a / d.

Lemma round_units_1 a :
  round_units a 1 = nearest a (2 ^ (N.log2 a - 52)) * 2 ^ (N.log2 a - 52).
Proof.
  unfold round_units, nearest.
  by rewrite N.div_1_r, !N.shiftl_mul_pow2, N.mul_1_l.
Qed.

Lemma nearest_bounds a d : a / d <= nearest a d <= a / d + 1.
Proof. unfold nearest. case_test; lia. Qed.

Lemma nearest_mono a b d : 0 < d -> a <= b -> nearest a d <= nearest b d.
Proof.
  intros Hd Hab.
  assert (Hq : a / d <= b / d) by (apply N.Div0.div_le_mono; lia).
  destruct (N.eq_dec (a / d) (b / d)) as [E|Hn].
  2: { pose proof (nearest_bounds a d). pose proof (nearest_bounds b d). lia. }
  assert (Hr : a mod d <= b mod d).
  { pose proof (N.div_mod a d ltac:(lia)) as Ha. pose proof (N.div_mod b d ltac:(lia)) as Hb.
    rewrite E in Ha. lia. }
  unfold nearest. rewrite E.
  destruct (_ || _) eqn:U1 at 1; [|case_test; lia].
  destruct (_ || _) eqn:U2 at 1; [lia|exfalso].
  apply orb_false_iff in U2 as [U2 U3].
  apply N.ltb_ge in U2. apply orb_true_iff in U1 as [U1|U1].
  - apply N.ltb_lt in U1. lia.
  - apply andb_true_iff in U1 as [U1 Odd]. apply N.eqb_eq in U1.
    rewrite Odd, andb_true_r in U3. apply N.eqb_neq in U3. lia.
Qed.

Lemma pow2_pos n : 0 < 2 ^ n.
Proof. apply N.neq_0_lt_0, N.pow_nonzero. done. Qed.

Lemma round_1_upper a : round_units a 1 <= 2 ^ (N.log2 a + 1).
Proof.
  rewrite round_units_1. set (s := N.log2 a - 52).
  pose proof (pow2_pos s) as Hp.
  assert (Hs : s <= N.log2 a + 1) by (unfold s; lia).
  assert (Hlt : a < 2 ^ (N.log2 a + 1)).
  { destruct (N.eq_0_gt_0_cases a) as [->|Hpos]; [done|].
    rewrite N.add_1_r. by apply N.log2_spec. }
  assert (Hq : a / 2 ^ s < 2 ^ (N.log2 a + 1 - s)).
  { apply N.Div0.div_lt_upper_bound. rewrite <- N.pow_add_r.
    by replace (s + (N.log2 a + 1 - s)) with (N.log2 a + 1) by lia. }
  replace (2 ^ (N.log2 a + 1)) with (2 ^ (N.log2 a + 1 - s) * 2 ^ s).
  2: { rewrite <- N.pow_add_r. f_equal. lia. }
  apply N.mul_le_mono_r. pose proof (nearest_bounds a (2 ^ s)). lia.
Qed.

Lemma round_1_lower a : 0 < a -> 2 ^ N.log2 a <= round_units a 1.
Proof.
  intros Ha. rewrite round_units_1. set (s := N.log2 a - 52).
  pose proof (pow2_pos s) as Hp.
  replace (2 ^ N.log2 a) with (2 ^ (N.log2 a - s) * 2 ^ s).
  2: { rewrite <- N.pow_add_r. f_equal. unfold s. lia. }
  apply N.mul_le_mono_r.
  transitivity (a / 2 ^ s); [|apply nearest_bounds].
  apply N.div_le_lower_bound; [lia|].
  rewrite <- N.pow_add_r. replace (s + (N.log2 a - s)) with (N.log2 a) by (unfold s; lia).
  by apply N.log2_spec.
Qed.

(** Rounding never reverses the order of two magnitudes. *)
Lemma round_1_mono a b : a <= b -> round_units a 1 <= round_units b 1.
Proof.
  intros Hab. destruct (N.eq_dec (N.log2 a - 52) (N.log2 b - 52)) as [E|Hn].
  - rewrite !round_units_1, E. apply N.mul_le_mono_r.
    apply nearest_mono; [apply pow2_pos|done].
  - pose proof (N.log2_le_mono a b Hab) as Hl.
    assert (Hb : 0 < b) by (destruct (N.eq_0_gt_0_cases b) as [->|]; simpl in *; lia).
    transitivity (2 ^ (N.log2 a + 1)); [apply round_1_upper|].
    transitivity (2 ^ N.log2 b); [|by apply round_1_lower].
    apply N.pow_le_mono_r; lia.
Qed.

Lemma round_1_zero : round_units 0 1 = 0.
Proof. done. Qed.

(** A magnitude whose significant bits fit in 53 is not changed. *)
Lemma round_1_exact a : (2 ^ (N.log2 a - 52) | a) -> round_units a 1 = a.
Proof.
  intros [k E]. rewrite round_units_1. set (d := 2 ^ (N.log2 a - 52)) in *.
  pose proof (pow2_pos (N.log2 a - 52)) as Hd. fold d in Hd.
  assert (Hm : a mod d = 0) by (rewrite E; apply N.Div0.mod_mul).
  assert (Hq : a / d = k) by (rewrite E; apply N.div_mul; lia).
  unfold nearest. rewrite Hm, Hq, N.mul_0_r.
  rewrite (proj2 (N.ltb_ge d 0)) by lia.
  rewrite (proj2 (N.eqb_neq d 0)) by lia. simpl. by rewrite E.
Qed.

(** Integers below 2^53 in absolute value are represented exactly. *)
Lemma num_of_Z_exact z :
  (Z.abs z < 2 ^ 53)%Z -> num_of_Z z = Fin (z <? 0)%Z (Z.abs_N z * one_units).
Proof.
  intros Hz. unfold num_of_Z, mk_num.
  assert (Hu : one_units = 2 ^ 1074) by (unfold one_units; by rewrite N.shiftl_mul_pow2, N.mul_1_l).
  assert (Ho : overflow_units = 2 ^ 2098) by (unfold overflow_units; by rewrite N.shiftl_mul_pow2, N.mul_1_l).
  rewrite N.shiftl_mul_pow2, <- Hu. set (n := Z.abs_N z).
  assert (Hn : n < 2 ^ 53) by (unfold n; change (2 ^ 53) with (Z.to_N (2 ^ 53)); lia).
  assert (E : round_units (n * one_units) 1 = n * one_units).
  { apply round_1_exact. rewrite Hu.
    destruct (N.eq_0_gt_0_cases n) as [->|Hpos]; [exists 0; done|].
    rewrite N.log2_mul_pow2 by lia.
    assert (Hl : N.log2 n <= 52).
    { assert (N.log2 n < 53); [|lia]. apply N.log2_lt_pow2; lia. }
    exists (n * 2 ^ (1074 - (N.log2 n + 1074 - 52))).
    rewrite <- N.mul_assoc, <- N.pow_add_r. do 2 f_equal. lia. }
  rewrite E. rewrite (proj2 (N.ltb_lt _ _)); [done|].
  rewrite Ho, Hu. apply N.lt_le_trans with (2 ^ 53 * 2 ^ 1074).
  - apply N.mul_lt_mono_pos_r; [apply pow2_pos|done].
  - rewrite <- N.pow_add_r. apply N.pow_le_mono_r; lia.
Qed.

(** ** Order *)

Lemma num_compare_antisym x y : num_compare y x = CompOpp <$> num_compare x y.
Proof.
  destruct x as [|s|s m], y as [|t|t n]; try done; simpl.
  - by destruct s, t.
  - by destruct s.
  - by destruct t.
  - by rewrite (Z.compare_antisym (units s m)).
Qed.

Lemma num_leb_ltb x y : num_leb x y = true -> num_ltb y x = false.
Proof.
  unfold num_leb, num_ltb. rewrite (num_compare_antisym x y).
  by destruct (num_compare x y) as [[]|].
Qed.

Lemma num_ltb_leb x y : num_ltb x y = true -> num_leb x y = true.
Proof. unfold num_leb, num_ltb. by destruct (num_compare x y) as [[]|]. Qed.

(** A total preorder on the numbers other than NaN, as an extended integer. *)
Definition rank (x : num) : option Z :=
  match x with
  | NaN => None
  | Inf true => Some (- Z.of_N overflow_units)%Z
  | Inf false => Some (Z.of_N overflow_units)
  | Fin s m => Some (units s m)
  end.

(** Values of the type: finite magnitudes lie in the finite range. *)
Definition wf_num (x : num) : Prop :=
  match x with Fin _ m => m < overflow_units | _ => True end.

Lemma mk_num_wf neg a b : wf_num (mk_num neg a b).
Proof. unfold mk_num. case_test; simpl; [by apply N.ltb_lt|done]. Qed.

Lemma units_abs s m : Z.abs (units s m) = Z.of_N m.
Proof. unfold units. destruct s; lia. Qed.

Lemma overflow_pos : 0 < overflow_units.
Proof. done. Qed.

Lemma num_leb_rank x y :
  wf_num x -> wf_num y ->
  num_leb x y = true <-> exists a b, rank x = Some a /\ rank y = Some b /\ (a <= b)%Z.
Proof.
  unfold wf_num, rank. pose proof overflow_pos as Ho.
  generalize dependent overflow_units. intros o Ho Hx Hy.
  unfold num_leb. destruct x as [|s|s m], y as [|t|t n]; simpl in *;
    try (split; [done|intros (a & b & Ha & Hb & _); simplify_eq]; done).
  - destruct s, t; simpl; split; try done; try (intros _; do 2 eexists; split_and!; [done..|lia]).
    intros (a & b & Ha & Hb & Hab). simplify_eq. lia.
  - pose proof (units_abs t n). destruct s; simpl; split; try done.
    + intros _. do 2 eexists; split_and!; [done..|lia].
    + intros (a & b & Ha & Hb & Hab). simplify_eq. lia.
  - pose proof (units_abs s m). destruct t; simpl; split; try done.
    + intros (a & b & Ha & Hb & Hab). simplify_eq. lia.
    + intros _. do 2 eexists; split_and!; [done..|lia].
  - destruct (Z.compare_spec (units s m) (units t n)); split; try done;
      try (intros _; do 2 eexists; split_and!; [done..|lia]).
    intros (a & b & Ha & Hb & Hab). simplify_eq. lia.
Qed.

(** The rounded sum as an extended integer. *)
Definition round_Z (k : Z) : Z :=
  (Z.sgn k * Z.of_N (N.min (round_units (Z.abs_N k) 1) overflow_units))%Z.

Lemma rank_mk_num neg a :
  rank (mk_num neg a 1) =
  Some (units neg (N.min (round_units a 1) overflow_units)).
Proof.
  unfold mk_num. destruct (N.ltb_spec (round_units a 1) overflow_units) as [H|H].
  - rewrite N.min_l by lia. done.
  - rewrite N.min_r by lia. by destruct neg.
Qed.

Lemma num_add_rank s m t n :
  rank (num_add (Fin s m) (Fin t n)) = Some (round_Z (units s m + units t n)).
Proof.
  cbn [num_add]. set (k := (units s m + units t n)%Z). clearbody k.
  destruct (Z.eqb_spec k 0) as [->|Hk].
  - destruct (s && t); done.
  - rewrite rank_mk_num. unfold round_Z. f_equal.
    generalize (N.min (round_units (Z.abs_N k) 1) overflow_units). intros r.
    unfold units. destruct (Z.ltb_spec k 0); [rewrite Z.sgn_neg by lia|rewrite Z.sgn_pos by lia]; lia.
Qed.

Lemma round_Z_mono j k : (j <= k)%Z -> (round_Z j <= round_Z k)%Z.
Proof.
  intros Hjk. unfold round_Z.
  pose proof (round_1_mono (Z.abs_N j) (Z.abs_N k)) as H1.
  pose proof (round_1_mono (Z.abs_N k) (Z.abs_N j)) as H2.
  revert H1 H2. generalize (round_units (Z.abs_N j) 1), (round_units (Z.abs_N k) 1).
  generalize overflow_units. intros o rj rk H1 H2.
  destruct (Z.lt_trichotomy j 0) as [Hj|[Hj|Hj]];
    destruct (Z.lt_trichotomy k 0) as [Hk|[Hk|Hk]]; try lia;
    rewrite ?(Z.sgn_neg j), ?(Z.sgn_neg k), ?(Z.sgn_pos j), ?(Z.sgn_pos k) by lia;
    subst; simpl; lia.
Qed.

Lemma num_add_wf x y : wf_num x -> wf_num y -> wf_num (num_add x y).
Proof.
  destruct x as [|s|s m], y as [|t|t n]; cbn [num_add]; try done.
  - by destruct (Bool.eqb s t).
  - intros _ _. case_test; [done|apply mk_num_wf].
Qed.

(** Addition of finite numbers is monotone in both arguments. *)
Lemma num_add_mono x x' y y' :
  wf_num x -> wf_num x' -> wf_num y -> wf_num y' ->
  is_finite x = true -> is_finite x' = true ->
  is_finite y = true -> is_finite y' = true ->
  num_leb x x' = true -> num_leb y y' = true ->
  num_leb (num_add x y) (num_add x' y') = true.
Proof.
  intros Wx Wx' Wy Wy' Fx Fx' Fy Fy' Lx Ly.
  apply num_leb_rank in Lx as (a & a' & Ha & Ha' & Hle); [|done..].
  apply num_leb_rank in Ly as (b & b' & Hb & Hb' & Hle'); [|done..].
  apply num_leb_rank; [by apply num_add_wf..|].
  destruct x as [| |s m], x' as [| |s' m'], y as [| |t n], y' as [| |t' n']; try done.
  rewrite !num_add_rank. do 2 eexists. split_and!; [done..|].
  apply round_Z_mono. cbn [rank] in *. simplify_eq. lia.
Qed.

Lemma num_leb_trans x y z :
  wf_num x -> wf_num y -> wf_num z ->
  num_leb x y = true -> num_leb y z = true -> num_leb x z = true.
Proof.
  intros Wx Wy Wz. rewrite !num_leb_rank by done.
  intros (a & b & Ha & Hb & Hab) (b' & c & Hb' & Hc & Hbc).
  exists a, c. split_and!; [done..|]. simplify_eq. lia.
Qed.

(** On numbers other than NaN one of [x < y] and [y <= x] holds. *)
Lemma num_not_ltb x y :
  is_nan x = false -> is_nan y = false -> num_ltb x y = false -> num_leb y x = true.
Proof.
  intros Hx Hy. unfold num_ltb, num_leb. rewrite (num_compare_antisym x y).
  destruct (num_compare x y) as [[]|] eqn:E; simpl; try done.
  intros _. destruct x as [|s|s m], y as [|t|t n]; done.
Qed.

Lemma is_finite_not_nan x : is_finite x = true -> is_nan x = false.
Proof. by destruct x. Qed.

Lemma num_leb_refl x : is_nan x = false -> num_leb x x = true.
Proof.
  unfold num_leb. destruct x as [|s|s m]; [done| |]; intros _; simpl.
  - by rewrite eqb_reflx.
  - by rewrite Z.compare_refl.
Qed.

Lemma num_eqb_leb x y : num_eqb x y = true -> num_leb x y = true /\ num_leb y x = true.
Proof.
  unfold num_eqb, num_leb. rewrite (num_compare_antisym x y).
  by destruct (num_compare x y) as [[]|].
Qed.

Lemma num_eqb_refl x : is_nan x = false -> num_eqb x x = true.
Proof.
  unfold num_eqb. destruct x as [|s|s m]; [done| |]; intros _; simpl.
  - by rewrite eqb_reflx.
  - by rewrite Z.compare_refl.
Qed.

#[export] Hint Resolve mk_num_wf num_add_wf is_finite_not_nan num_leb_refl num_ltb_leb : jsdb.

(** ** Integers that are exact *)

(** Integers below 2^53 in absolute value. *)
Definition small (z : Z) : Prop := (Z.abs z < 2 ^ 53)%Z.

Lemma small_units z : units (z <? 0)%Z (Z.abs_N z * one_units) = (z * Z.of_N one_units)%Z.
Proof. generalize one_units. intros u. unfold units. destruct (Z.ltb_spec z 0); nia. Qed.

Lemma one_units_pos : 0 < one_units.
Proof. unfold one_units. rewrite N.shiftl_mul_pow2. pose proof (pow2_pos 1074). lia. Qed.

Lemma sum_of_Z (s t : bool) m n z :
  (units s m + units t n)%Z = (z * Z.of_N one_units)%Z -> (s && t = false \/ z <> 0%Z) ->
  num_add (Fin s m) (Fin t n) = num_of_Z z.
Proof.
  intros Hk Hz. cbn [num_add]. rewrite Hk. pose proof one_units_pos as Hu.
  destruct (Z.eqb_spec (z * Z.of_N one_units) 0) as [E|E].
  - assert (z = 0%Z) as -> by (revert E Hu; generalize one_units; nia). destruct Hz as [->|]; done.
  - unfold num_of_Z. f_equal.
    + revert E Hu. generalize one_units. intros u E Hu.
      destruct (Z.ltb_spec z 0), (Z.ltb_spec (z * Z.of_N u) 0); try done; nia.
    + rewrite N.shiftl_mul_pow2. assert (Hone : one_units = 2 ^ 1074).
      { unfold one_units. by rewrite N.shiftl_mul_pow2, N.mul_1_l. }
      rewrite <- Hone. generalize one_units. intros u. apply N2Z.inj.
      rewrite N2Z.inj_mul, !N2Z.inj_abs_N, Z.abs_mul. by rewrite (Z.abs_eq (Z.of_N u)) by lia.
Qed.

Lemma num_add_Z a b : small a -> small b -> num_add (num_of_Z a) (num_of_Z b) = num_of_Z (a + b).
Proof.
  intros Ha Hb. rewrite (num_of_Z_exact a), (num_of_Z_exact b) by done. apply sum_of_Z.
  - rewrite !small_units. lia.
  - destruct (Z.ltb_spec a 0), (Z.ltb_spec b 0); cbn [andb]; (by left) || (right; lia).
Qed.

Lemma num_sub_Z a b : small a -> small b -> num_sub (num_of_Z a) (num_of_Z b) = num_of_Z (a - b).
Proof.
  intros Ha Hb. unfold num_sub. rewrite (num_of_Z_exact a), (num_of_Z_exact b) by done. cbn [num_neg].
  apply sum_of_Z.
  - assert (Hn : forall s m, units (negb s) m = (- units s m)%Z) by (intros [] m; unfold units; cbn [negb]; lia).
    rewrite Hn, !small_units. lia.
  - destruct (Z.ltb_spec a 0), (Z.ltb_spec b 0); cbn [andb negb]; (by left) || (right; lia).
Qed.

Lemma num_compare_Z a b : small a -> small b -> num_compare (num_of_Z a) (num_of_Z b) = Some (a ?= b)%Z.
Proof.
  intros Ha Hb. rewrite (num_of_Z_exact a), (num_of_Z_exact b) by done. cbn [num_compare].
  rewrite !small_units. f_equal. pose proof one_units_pos as Hu. revert Hu. generalize one_units. intros u Hu.
  destruct (Z.compare_spec a b), (Z.compare_spec (a * Z.of_N u) (b * Z.of_N u)); subst; try done; nia.
Qed.
