(* ===== verification/JsDecimal.v ===== *)
(** * Decimal text of numbers

    [Number(String(x))] is [x] for every finite number except negative zero,
    which prints as zero: the digits [string_of_num] searches for are always
    found within seventeen, and the text it lays them out in is read with the
    same digits and exponent.  Both conversions are those of [JsNumber]. *)

From S2P Require Import Prelude.
From S2P Require Import JsString.
From S2P Require Import JsNumber.

Local Open Scope N_scope.

(** ** Rounding of a fraction *)

Lemma round_units_scale a b c : 0 < b -> 0 < c -> round_units (a * c) (b * c) = round_units a b.
Proof.
  intros Hb Hc. unfold round_units. rewrite N.Div0.div_mul_cancel_r by lia.
  set (s := N.log2 (a / b) - 52). rewrite !N.shiftl_mul_pow2.
  replace (b * c * 2 ^ s) with (b * 2 ^ s * c) by lia.
  rewrite N.Div0.div_mul_cancel_r by lia. rewrite N.Div0.mul_mod_distr_r.
  set (d := b * 2 ^ s). set (r := a mod d).
  replace (d * c <? 2 * (r * c)) with (d <? 2 * r).
  2:{ destruct (N.ltb_spec d (2 * r)), (N.ltb_spec (d * c) (2 * (r * c))); nia || done. }
  replace (d * c =? 2 * (r * c)) with (d =? 2 * r); [done|].
  destruct (N.eqb_spec d (2 * r)), (N.eqb_spec (d * c) (2 * (r * c))); nia || done.
Qed.

Lemma nearest_unique a d m : 0 < d -> 2 * a < 2 * (m * d) + d -> 2 * (m * d) < 2 * a + d -> nearest a d = m.
Proof.
  intros Hd H1 H2. unfold nearest.
  pose proof (N.div_mod a d ltac:(lia)) as E. pose proof (N.mod_lt a d ltac:(lia)) as Hr.
  set (q := a / d) in *. set (r := a mod d) in *. clearbody q r.
  assert (Hq : q = m \/ q + 1 = m) by nia.
  destruct (N.ltb_spec d (2 * r)) as [Hlt|Hge]; cbn [orb].
  - destruct Hq as [->|<-]; [|done]. nia.
  - destruct Hq as [->|<-]; [|nia]. destruct (N.eqb_spec d (2 * r)); [nia|done].
Qed.

(** A magnitude is representable when it is a multiple of its unit in the last
    place. *)
Definition representable (m : N) : Prop := (2 ^ (N.log2 m - 52) | m).

Lemma log2_upper m : m < 2 ^ (N.log2 m + 1).
Proof.
  destruct (N.eq_0_gt_0_cases m) as [->|Hm]; [done|]. rewrite N.add_1_r. by apply N.log2_spec.
Qed.

Lemma ulp_room m : 0 < m -> representable m ->
  m + 2 ^ (N.log2 m - 52) <= 2 ^ (N.log2 m + 1) /\ m < 2 ^ 53 * 2 ^ (N.log2 m - 52).
Proof.
  intros Hm Hr. pose proof (log2_upper m) as Hu. pose proof (N.log2_spec m Hm) as [Hl _].
  set (L := N.log2 m) in *. unfold representable in Hr. fold L in Hr. set (t := L - 52) in *.
  destruct Hr as [M HM]. pose proof (pow2_pos t) as Hp.
  assert (E : 2 ^ (L + 1) = 2 ^ (L + 1 - t) * 2 ^ t).
  { rewrite <- N.pow_add_r. f_equal. unfold t. lia. }
  split.
  - rewrite E in *. set (K := 2 ^ (L + 1 - t)) in *. set (P := 2 ^ t) in *. clearbody K P.
    assert (HMK : M < K) by (apply (N.mul_lt_mono_pos_r P); lia).
    rewrite HM. replace (M * P + P) with ((M + 1) * P) by lia. apply N.mul_le_mono_r. lia.
  - apply (N.lt_le_trans _ (2 ^ (L + 1))); [done|]. rewrite E. apply N.mul_le_mono_r.
    apply N.pow_le_mono_r; [lia|]. unfold t. lia.
Qed.

(** A fraction within one part in 2 * 10^16 of a representable magnitude rounds
    to it. *)
Section Close.
Context (A B m : N) (HB : 0 < B) (Hm : 0 < m) (Hrep : representable m).
Context (Hhi : A * (2 * 10 ^ 16) <= m * B * (2 * 10 ^ 16 + 1))
        (Hlo : m * B * (2 * 10 ^ 16 - 1) <= A * (2 * 10 ^ 16)).

Lemma close_quotient_upper : A / B < 2 ^ (N.log2 m + 1).
Proof using All.
  destruct (ulp_room m Hm Hrep) as [H1 H2]. apply N.Div0.div_lt_upper_bound.
  set (X := 2 ^ (N.log2 m + 1)) in *. set (U := 2 ^ (N.log2 m - 52)) in *. clearbody X U.
  apply (N.mul_lt_mono_pos_r (2 * 10 ^ 16)); [done|].
  apply (N.le_lt_trans _ _ _ Hhi).
  assert (Hs : m * (2 * 10 ^ 16 + 1) < X * (2 * 10 ^ 16)) by lia.
  replace (m * B * (2 * 10 ^ 16 + 1)) with (B * (m * (2 * 10 ^ 16 + 1))) by lia.
  replace (B * X * (2 * 10 ^ 16)) with (B * (X * (2 * 10 ^ 16))) by lia.
  by apply N.mul_lt_mono_pos_l.
Qed.

Lemma close_quotient_lower : 0 < N.log2 m -> 2 ^ (N.log2 m - 1) <= A / B.
Proof using All.
  intros HL. pose proof (N.log2_spec m Hm) as [Hl _].
  apply N.div_le_lower_bound; [lia|].
  assert (E : 2 ^ N.log2 m = 2 * 2 ^ (N.log2 m - 1)).
  { rewrite <- N.pow_succ_r'. f_equal. lia. }
  rewrite E in Hl. set (X := 2 ^ (N.log2 m - 1)) in *. clearbody X.
  apply (N.mul_le_mono_pos_r _ _ (2 * 10 ^ 16)); [done|].
  etransitivity; [|exact Hlo].
  replace (B * X * (2 * 10 ^ 16)) with (B * (X * (2 * 10 ^ 16))) by lia.
  replace (m * B * (2 * 10 ^ 16 - 1)) with (B * (m * (2 * 10 ^ 16 - 1))) by lia.
  apply N.mul_le_mono_l. lia.
Qed.

(** The exponent of the quotient is that of [m], or one less, and then [m] is a
    power of two. *)
Lemma close_exponent : m <= 2 ^ 53 * 2 ^ (N.log2 (A / B) - 52).
Proof using All.
  destruct (ulp_room m Hm Hrep) as [_ H2]. pose proof close_quotient_lower as Hq.
  set (t := N.log2 m - 52) in *.
  destruct (N.le_gt_cases (N.log2 m) (N.log2 (A / B))) as [Hge|Hlt].
  { transitivity (2 ^ 53 * 2 ^ t); [lia|]. apply N.mul_le_mono_l, N.pow_le_mono_r; [done|].
    unfold t. lia. }
  destruct (N.le_gt_cases (N.log2 m) 52) as [Hsmall|Hbig].
  { transitivity (2 ^ 53 * 2 ^ t); [lia|]. replace t with 0 by (unfold t; lia).
    apply N.mul_le_mono_l, N.pow_le_mono_r; [done|]. lia. }
  specialize (Hq ltac:(lia)). apply N.log2_le_mono in Hq. rewrite N.log2_pow2 in Hq by lia.
  replace (N.log2 (A / B) - 52) with (t - 1) by (unfold t; lia).
  assert (HA : A < 2 ^ N.log2 m * B).
  { assert (Hpos : 0 < A / B) by (destruct (A / B); [cbn in *; lia|lia]).
    assert (A / B < 2 ^ N.log2 m) by (apply N.log2_lt_pow2; done).
    pose proof (N.div_mod A B ltac:(lia)). pose proof (N.mod_lt A B ltac:(lia)). nia. }
  assert (EL : 2 ^ N.log2 m = 2 ^ 52 * 2 ^ t).
  { rewrite <- N.pow_add_r. f_equal. unfold t. lia. }
  assert (Et : 2 ^ 53 * 2 ^ (t - 1) = 2 ^ 52 * 2 ^ t).
  { rewrite <- !N.pow_add_r. f_equal. unfold t. lia. }
  rewrite Et. rewrite EL in HA. destruct Hrep as [M HM]. fold t in HM.
  pose proof (pow2_pos t) as Hp. set (U := 2 ^ t) in *. clearbody U.
  destruct (N.le_gt_cases M (2 ^ 52)) as [Hle|Hgt].
  { rewrite HM. by apply N.mul_le_mono_r. }
  exfalso. clear -HM HA Hlo Hgt Hp HB.
  assert (Hx : (2 ^ 52 + 1) * (U * B) <= m * B).
  { rewrite HM. replace (M * U * B) with (M * (U * B)) by lia. apply N.mul_le_mono_r. lia. }
  assert (HW : 0 < U * B) by nia.
  replace (2 ^ 52 * U * B) with (2 ^ 52 * (U * B)) in HA by lia.
  set (W := U * B) in *. set (V := m * B) in *. clearbody W V. lia.
Qed.

Lemma close_rounds : round_units A B = m.
Proof using All.
  pose proof close_quotient_upper as Hu. destruct (ulp_room m Hm Hrep) as [H1 H2].
  pose proof (N.log2_spec m Hm) as [Hl _].
  unfold round_units. set (s := N.log2 (A / B) - 52). rewrite !N.shiftl_mul_pow2.
  assert (Hs : s <= N.log2 m - 52).
  { unfold s. destruct (N.eq_0_gt_0_cases (A / B)) as [->|Hq]; [cbn; lia|].
    apply N.log2_lt_pow2 in Hu; [|done]. lia. }
  pose proof close_exponent as Hms. fold s in Hms.
  assert (Hdiv : (2 ^ s | m)).
  { eapply N.divide_trans; [|exact Hrep]. exists (2 ^ (N.log2 m - 52 - s)).
    rewrite <- N.pow_add_r. f_equal. lia. }
  destruct Hdiv as [M HM]. pose proof (pow2_pos s) as Hp.
  change (nearest A (B * 2 ^ s) * 2 ^ s = m). set (U := 2 ^ s) in *. clearbody U.
  assert (HM53 : M <= 2 ^ 53) by (apply (N.mul_le_mono_pos_r _ _ U); lia).
  assert (HW : 0 < B * U) by nia.
  assert (HV : M * (B * U) < 10 ^ 16 * (B * U)) by (apply N.mul_lt_mono_pos_r; lia).
  replace (m * B) with (M * (B * U)) in * by (rewrite HM; lia).
  rewrite (nearest_unique A _ M); [done|done|..].
  all: clear -Hhi Hlo HV HW; set (W := B * U) in *; set (V := M * W) in *; clearbody W V; lia.
Qed.
End Close.

(** Only the value of the fraction matters. *)
Lemma round_units_eq a b c d : 0 < b -> 0 < d -> a * d = c * b -> round_units a b = round_units c d.
Proof.
  intros Hb Hd E. rewrite <- (round_units_scale a b d), <- (round_units_scale c d b) by done.
  by rewrite E, (N.mul_comm b d).
Qed.

Lemma round_units_lower a b k : 0 < b -> 2 ^ k <= a / b -> 2 ^ k <= round_units a b.
Proof.
  intros Hb Hq. unfold round_units. set (s := N.log2 (a / b) - 52).
  rewrite !N.shiftl_mul_pow2. set (q := a / b) in *.
  assert (Eq : a / (b * 2 ^ s) = q / 2 ^ s) by (symmetry; apply N.Div0.div_div).
  rewrite Eq. clear Eq.
  assert (Hqs : 2 ^ k <= q / 2 ^ s * 2 ^ s).
  { assert (Hk : k <= N.log2 q) by (rewrite <- (N.log2_pow2 k) by lia; by apply N.log2_le_mono).
    pose proof (pow2_pos k). pose proof (N.log2_spec q ltac:(lia)) as [Hl _].
    destruct (N.eq_dec s 0) as [->|Hs]; [rewrite N.pow_0_r, N.div_1_r; lia|].
    assert (E : 2 ^ N.log2 q = 2 ^ 52 * 2 ^ s).
    { rewrite <- N.pow_add_r. f_equal. unfold s in *. lia. }
    assert (Hd : 2 ^ 52 <= q / 2 ^ s).
    { apply N.div_le_lower_bound; [pose proof (pow2_pos s); lia|]. lia. }
    transitivity (2 ^ N.log2 q); [apply N.pow_le_mono_r; lia|]. rewrite E.
    by apply N.mul_le_mono_r. }
  etransitivity; [exact Hqs|]. apply N.mul_le_mono_r. case_test; lia.
Qed.

Lemma round_units_tiny a b : 2 * a < b -> round_units a b = 0.
Proof.
  intros H. unfold round_units. rewrite (N.div_small a b) by lia.
  change (N.log2 0 - 52) with 0. rewrite !N.shiftl_0_r, (N.mod_small a b) by lia.
  rewrite ?(N.div_small a b) by lia.
  rewrite (proj2 (N.ltb_ge b (2 * a))) by lia. rewrite (proj2 (N.eqb_neq b (2 * a))) by lia. done.
Qed.

(** ** Digits *)

Lemma dec_digits_bounds fuel n :
  0 < n -> n < 2 ^ N.of_nat fuel ->
  let k := N.of_nat (length (dec_digits (S fuel) n [])) in
  10 ^ (k - 1) <= n /\ n < 10 ^ k /\ 0 < k.
Proof.
  cbv zeta. revert n. induction fuel as [|f IH]; intros n Hn Hf; [cbn in Hf; lia|].
  rewrite dec_digits_S. destruct (N.ltb_spec n 10) as [Hlt|Hge].
  { cbn [length]. change (N.of_nat 1 - 1) with 0. change (N.of_nat 1) with 1.
    rewrite N.pow_0_r, N.pow_1_r. lia. }
  rewrite dec_digits_acc, length_app. cbn [length]. rewrite Nat.add_1_r, Nat2N.inj_succ.
  destruct (IH (n / 10)) as (H1 & H2 & H3).
  { apply N.div_str_pos. lia. }
  { rewrite Nat2N.inj_succ, N.pow_succ_r' in Hf. apply N.Div0.div_lt_upper_bound. lia. }
  set (k := N.of_nat (length (dec_digits (S f) (n / 10) []))) in *.
  pose proof (N.div_mod n 10 ltac:(done)). pose proof (N.mod_lt n 10 ltac:(done)).
  replace (N.succ k - 1) with (N.succ (k - 1)) by lia. rewrite !N.pow_succ_r'.
  set (X := 10 ^ (k - 1)) in *. set (Y := 10 ^ k) in *. set (q := n / 10) in *.
  set (r := n mod 10) in *. clearbody X Y q r. lia.
Qed.

Lemma dec_length_bounds n :
  0 < n ->
  let k := N.of_nat (length (dec_of_N n)) in 10 ^ (k - 1) <= n /\ n < 10 ^ k /\ 0 < k.
Proof. intros Hn. apply dec_digits_bounds; [done|apply size_nat_bound]. Qed.

(** ** The value of a decimal *)

Definition dec_num (d : N) (e : Z) : N := N.shiftl (d * 10 ^ Z.to_N e) 1074.
Definition dec_den (e : Z) : N := 10 ^ Z.to_N (- e).

Lemma pow10_pos k : 0 < 10 ^ k.
Proof. apply N.neq_0_lt_0, N.pow_nonzero. done. Qed.

Lemma dec_den_pos e : 0 < dec_den e.
Proof. apply pow10_pos. Qed.

Lemma dec_overflow d e :
  0 < d -> (400 < e + Z.of_nat (length (dec_of_N d)))%Z ->
  overflow_units <= round_units (dec_num d e) (dec_den e).
Proof.
  intros Hd He. destruct (dec_length_bounds d Hd) as (Hl & _ & Hk).
  set (k := N.of_nat (length (dec_of_N d))) in *.
  change overflow_units with (2 ^ 2098).
  apply round_units_lower; [apply dec_den_pos|].
  apply N.div_le_lower_bound; [pose proof (dec_den_pos e); lia|].
  unfold dec_num, dec_den. rewrite N.shiftl_mul_pow2.
  transitivity (10 ^ (k - 1) * 10 ^ Z.to_N e * 2 ^ 1074).
  2:{ apply N.mul_le_mono_r, N.mul_le_mono_r, Hl. }
  replace (2 ^ 2098) with (2 ^ 1024 * 2 ^ 1074) by (by vm_compute). rewrite N.mul_assoc.
  apply N.mul_le_mono_r. rewrite <- N.pow_add_r.
  transitivity (10 ^ Z.to_N (- e) * 10 ^ 400).
  { apply N.mul_le_mono_l. by vm_compute. }
  rewrite <- N.pow_add_r. apply N.pow_le_mono_r; [done|]. lia.
Qed.

Lemma dec_underflow d e :
  0 < d -> (e + Z.of_nat (length (dec_of_N d)) < -400)%Z ->
  round_units (dec_num d e) (dec_den e) = 0.
Proof.
  intros Hd He. destruct (dec_length_bounds d Hd) as (_ & Hl & Hk).
  set (k := N.of_nat (length (dec_of_N d))) in *.
  apply round_units_tiny. unfold dec_num, dec_den. rewrite N.shiftl_mul_pow2.
  replace (Z.to_N e) with 0 by lia. rewrite N.pow_0_r, N.mul_1_r.
  apply (N.lt_le_trans _ (10 ^ k * (2 * 2 ^ 1074))).
  { replace (2 * (d * 2 ^ 1074)) with (d * (2 * 2 ^ 1074)) by lia.
    apply N.mul_lt_mono_pos_r; [by vm_compute|done]. }
  transitivity (10 ^ k * 10 ^ 400); [apply N.mul_le_mono_l; by vm_compute|].
  rewrite <- N.pow_add_r. apply N.pow_le_mono_r; [done|]. lia.
Qed.

(** The cut-offs of [num_of_dec] agree with rounding the exact value. *)
Lemma num_of_dec_mk neg d e :
  0 < d -> num_of_dec neg d e = mk_num neg (dec_num d e) (dec_den e).
Proof.
  intros Hd. unfold num_of_dec. rewrite (proj2 (N.eqb_neq d 0)) by lia. cbv zeta.
  destruct (Z.ltb_spec 400 (e + Z.of_nat (length (dec_of_N d)))) as [H|_].
  { unfold mk_num. by rewrite (proj2 (N.ltb_ge _ _)) by (by apply dec_overflow). }
  destruct (Z.ltb_spec (e + Z.of_nat (length (dec_of_N d))) (-400)) as [H|_]; [|done].
  unfold mk_num. by rewrite dec_underflow.
Qed.

(** Trailing zeros move between the digits and the exponent. *)
Lemma num_of_dec_shift neg d k e :
  0 < d -> num_of_dec neg (d * 10 ^ k) (e - Z.of_N k) = num_of_dec neg d e.
Proof.
  intros Hd. pose proof (pow10_pos k). rewrite !num_of_dec_mk by nia. unfold mk_num.
  rewrite (round_units_eq _ _ (dec_num d e) (dec_den e)); [done|apply dec_den_pos..|].
  unfold dec_num, dec_den. rewrite !N.shiftl_mul_pow2.
  assert (E : 10 ^ k * 10 ^ Z.to_N (e - Z.of_N k) * 10 ^ Z.to_N (- e) =
              10 ^ Z.to_N e * 10 ^ Z.to_N (- (e - Z.of_N k))).
  { rewrite <- !N.pow_add_r. f_equal. lia. }
  transitivity (d * 2 ^ 1074 * (10 ^ k * 10 ^ Z.to_N (e - Z.of_N k) * 10 ^ Z.to_N (- e))); [lia|].
  rewrite E. lia.
Qed.

(** ** The search for the digits *)

(** [10^n] is at most [m] units. *)
Definition pow10_le (n : Z) (m : N) : Prop :=
  10 ^ Z.to_N n * 2 ^ 1074 <= m * 10 ^ Z.to_N (- n).

Lemma dec_exp_up_le fuel m n : pow10_le n m -> pow10_le (dec_exp_up fuel m n) m.
Proof.
  revert n. induction fuel as [|f IH]; intros n Hn; [done|]. cbn [dec_exp_up].
  destruct (Z.leb_spec 0 (n + 1)) as [Hs|Hs].
  - destruct (N.leb_spec (N.shiftl (10 ^ Z.to_N (n + 1)) 1074) m) as [Hle|_]; [|done].
    apply IH. unfold pow10_le. rewrite N.shiftl_mul_pow2 in Hle.
    replace (Z.to_N (- (n + 1))) with 0 by lia. by rewrite N.pow_0_r, N.mul_1_r.
  - destruct (N.leb_spec one_units (m * 10 ^ Z.to_N (- (n + 1)))) as [Hle|_]; [|done].
    apply IH. unfold pow10_le. replace (Z.to_N (n + 1)) with 0 by lia.
    rewrite N.pow_0_r, N.mul_1_l. change (2 ^ 1074) with one_units. done.
Qed.

Lemma pow_root a b k : 0 < k -> a ^ k <= b ^ k -> a <= b.
Proof.
  intros Hk H. destruct (N.le_gt_cases a b) as [|Hlt]; [done|].
  apply (N.pow_lt_mono_l _ _ k) in Hlt; lia.
Qed.

(** 10^3 <= 2^10. *)
Lemma pow10_below n b : 10 * n <= 3 * b -> 10 ^ n <= 2 ^ b.
Proof.
  intros H. apply (pow_root _ _ 10); [done|]. rewrite <- !N.pow_mul_r.
  rewrite (N.mul_comm n), (N.mul_comm b), (N.pow_mul_r 2 10 b).
  transitivity (10 ^ (3 * b)); [by apply N.pow_le_mono_r|].
  rewrite N.pow_mul_r. apply N.pow_le_mono_l. by vm_compute.
Qed.

(** 2^93 <= 10^28. *)
Lemma pow10_above n b : 28 * b <= 93 * n -> 2 ^ b <= 10 ^ n.
Proof.
  intros H. apply (pow_root _ _ 93); [done|]. rewrite <- !N.pow_mul_r.
  rewrite (N.mul_comm n), (N.mul_comm b), (N.pow_mul_r 2 93 b).
  transitivity (10 ^ (28 * b)); [|by apply N.pow_le_mono_r].
  rewrite N.pow_mul_r. apply N.pow_le_mono_l. by vm_compute.
Qed.

Lemma dec_exp_le m : 0 < m -> m < overflow_units -> pow10_le (dec_exp m) m.
Proof.
  intros Hm Ho. unfold dec_exp. apply dec_exp_up_le.
  assert (HL : N.log2 m < 2098) by (apply N.log2_lt_pow2; [done|]; exact Ho).
  pose proof (N.log2_spec m Hm) as [Hl _]. set (L := N.log2 m) in *. clearbody L.
  set (b := (Z.of_N L - 1074)%Z). set (n := (b * 30103 / 100000 - 2)%Z).
  assert (Hn : (n * 100000 <= b * 30103 - 200000)%Z) by (pose proof (Z.mul_div_le (b * 30103) 100000); unfold n; lia).
  unfold pow10_le. apply (N.le_trans _ (2 ^ L * 10 ^ Z.to_N (- n))); [|by apply N.mul_le_mono_r].
  destruct (Z.le_gt_cases 0 n) as [Hs|Hs].
  - replace (Z.to_N (- n)) with 0 by lia. rewrite N.pow_0_r, N.mul_1_r.
    replace L with (Z.to_N b + 1074) by (unfold b in *; lia). rewrite N.pow_add_r.
    apply N.mul_le_mono_r, pow10_below. lia.
  - replace (Z.to_N n) with 0 by lia. rewrite N.pow_0_r, N.mul_1_l.
    destruct (Z.le_gt_cases 0 b) as [Hb|Hb].
    { transitivity (2 ^ L); [apply N.pow_le_mono_r; [done|]; unfold b in *; lia|].
      pose proof (pow10_pos (Z.to_N (- n))). nia. }
    replace 1074 with (L + Z.to_N (- b)) by (unfold b in *; lia). rewrite N.pow_add_r.
    apply N.mul_le_mono_l, pow10_above. lia.
Qed.

Lemma reads_as_close m s e :
  0 < m -> m < overflow_units -> representable m -> 0 < s ->
  2 * dec_num s e * 10 ^ 16 <= m * dec_den e * (2 * 10 ^ 16 + 1) ->
  m * dec_den e * (2 * 10 ^ 16 - 1) <= 2 * dec_num s e * 10 ^ 16 ->
  reads_as m s e = true.
Proof.
  intros Hm Ho Hr Hs H1 H2. unfold reads_as. apply bool_decide_eq_true.
  rewrite num_of_dec_mk by done. unfold mk_num. pose proof (dec_den_pos e).
  rewrite (close_rounds _ _ m); [by rewrite (proj2 (N.ltb_lt _ _) Ho)|done..|lia|lia].
Qed.

(** At seventeen digits the nearest candidate reads as the number. *)
Lemma digits_at_17 m top :
  0 < m -> m < overflow_units -> representable m -> pow10_le top m ->
  is_Some (digits_at m (top - 16)).
Proof.
  intros Hm Ho Hr Ht. set (e := (top - 16)%Z). unfold digits_at.
  assert (E : (if (0 <=? e)%Z then (m, N.shiftl (10 ^ Z.to_N e) 1074)
               else (m * 10 ^ Z.to_N (- e), one_units)) =
              (m * dec_den e, 10 ^ Z.to_N e * 2 ^ 1074)).
  { unfold dec_den. destruct (Z.leb_spec 0 e).
    - replace (Z.to_N (- e)) with 0 by lia. by rewrite N.pow_0_r, N.mul_1_r, N.shiftl_mul_pow2.
    - replace (Z.to_N e) with 0 by lia. rewrite N.pow_0_r, N.mul_1_l. done. }
  rewrite E. set (b := 10 ^ Z.to_N e * 2 ^ 1074). set (a := m * dec_den e).
  assert (Hb : 0 < b) by (pose proof (pow10_pos (Z.to_N e)); pose proof (pow2_pos 1074); unfold b; nia).
  assert (Hab : 10 ^ 16 * b <= a).
  { apply (N.mul_le_mono_pos_r _ _ (10 ^ Z.to_N (- top))); [apply pow10_pos|].
    unfold a, b, dec_den. unfold pow10_le in Ht.
    transitivity (10 ^ Z.to_N top * 2 ^ 1074 * 10 ^ Z.to_N (- e)); [|nia].
    apply N.eq_le_incl.
    replace (10 ^ 16 * (10 ^ Z.to_N e * 2 ^ 1074) * 10 ^ Z.to_N (- top))
      with (10 ^ 16 * 10 ^ Z.to_N e * 10 ^ Z.to_N (- top) * 2 ^ 1074) by lia.
    replace (10 ^ Z.to_N top * 2 ^ 1074 * 10 ^ Z.to_N (- e))
      with (10 ^ Z.to_N top * 10 ^ Z.to_N (- e) * 2 ^ 1074) by lia.
    rewrite <- !N.pow_add_r. do 2 f_equal. unfold e. lia. }
  assert (Hread : forall s, 0 < s -> 2 * (s * b) <= 2 * a + b -> 2 * a <= 2 * (s * b) + b ->
                            negb (s =? 0) && reads_as m s e = true).
  { intros s Hs H1 H2. rewrite (proj2 (N.eqb_neq s 0)) by lia. cbn [negb andb].
    assert (En : dec_num s e = s * b) by (unfold dec_num, b; rewrite N.shiftl_mul_pow2; lia).
    apply reads_as_close; [done..| |]; rewrite En; fold a;
      clear -H1 H2 Hab Hb; set (X := s * b) in *; clearbody X; lia. }
  pose proof (N.div_mod a b ltac:(lia)) as Ed. pose proof (N.mod_lt a b ltac:(lia)) as Hrm.
  assert (Hlo : 0 < a / b) by (apply N.div_str_pos; lia).
  destruct (N.leb_spec b (2 * (a mod b))) as [Hc|Hc].
  - rewrite (Hread (a / b + 1)); [by eexists|lia|..].
    all: rewrite N.mul_add_distr_r, (N.mul_comm (a / b)), N.mul_1_l.
    all: set (X := b * (a / b)) in *; set (r := a mod b) in *; clearbody X r; lia.
  - rewrite (Hread (a / b)); [by eexists|done|..].
    all: rewrite (N.mul_comm (a / b)).
    all: set (X := b * (a / b)) in *; set (r := a mod b) in *; clearbody X r; lia.
Qed.

Lemma digits_at_reads m e s : digits_at m e = Some s -> 0 < s /\ reads_as m s e = true.
Proof.
  assert (Hok : forall t, negb (t =? 0) && reads_as m t e = true -> 0 < t /\ reads_as m t e = true).
  { intros t [H1 H2]%andb_true_iff. split; [|done]. apply negb_true_iff, N.eqb_neq in H1. lia. }
  unfold digits_at. destruct (if (0 <=? e)%Z then _ else _) as [a b].
  intros H. repeat case_match; simplify_eq; by apply Hok.
Qed.

Lemma shortest_reads fuel m top k :
  is_Some (digits_at m (top - 16)) -> (k <= 17)%Z -> (17 <= k + Z.of_nat fuel)%Z ->
  let '(s, e) := shortest fuel m top k in 0 < s /\ reads_as m s e = true.
Proof.
  intros Hx. revert k. induction fuel as [|f IH]; intros k Hk Hf; cbn [shortest].
  - assert (k = 17%Z) as -> by lia. destruct Hx as [s Hs].
    replace (top - 17 + 1)%Z with (top - 16)%Z by lia. rewrite Hs. by eapply digits_at_reads.
  - destruct (digits_at m (top - k + 1)) as [s|] eqn:E; [by eapply digits_at_reads|].
    apply IH; [|lia]. destruct (Z.eq_dec k 17%Z) as [->|]; [|lia].
    replace (top - 17 + 1)%Z with (top - 16)%Z in E by lia. rewrite E in Hx. by destruct Hx.
Qed.

Lemma strip_zeros_reads fuel m s e :
  0 < s -> reads_as m s e = true ->
  let '(s', e') := strip_zeros fuel s e in 0 < s' /\ reads_as m s' e' = true.
Proof.
  revert s e. induction fuel as [|f IH]; intros s e Hs Hr; [done|]. cbn [strip_zeros].
  destruct (N.eqb_spec (s mod 10) 0) as [Hz|]; cbn [andb]; [|done].
  rewrite (proj2 (N.eqb_neq s 0)) by lia. cbn [negb].
  pose proof (N.div_mod s 10 ltac:(done)) as Hd. rewrite Hz in Hd.
  assert (Es : s = s / 10 * 10 ^ 1) by (rewrite N.pow_1_r; lia).
  assert (Hs' : 0 < s / 10) by lia.
  apply IH; [done|]. unfold reads_as in *. rewrite <- (num_of_dec_shift false _ 1) by done.
  rewrite <- Es. by replace (e + 1 - Z.of_N 1)%Z with e by lia.
Qed.

(** The digits found read as the number. *)
Lemma digits_read m :
  0 < m -> m < overflow_units -> representable m ->
  exists s e, strip_zeros 30 (shortest 17 m (dec_exp m) 1).1 (shortest 17 m (dec_exp m) 1).2 = (s, e) /\
              0 < s /\ num_of_dec false s e = Fin false m.
Proof.
  intros Hm Ho Hr. pose proof (shortest_reads 17 m (dec_exp m) 1) as Hs.
  specialize (Hs (digits_at_17 _ _ Hm Ho Hr (dec_exp_le _ Hm Ho)) ltac:(lia) ltac:(lia)).
  destruct (shortest 17 m (dec_exp m) 1) as [s e]. destruct Hs as [Hs Hre].
  pose proof (strip_zeros_reads 30 m s e Hs Hre) as Hz. cbn [fst snd].
  destruct (strip_zeros 30 s e) as [s' e']. exists s', e'. destruct Hz as [Hz Hre'].
  split_and!; [done..|]. by apply bool_decide_eq_true in Hre'.
Qed.

(** ** Reading the layout *)

Definition digits (s : jstr) : Prop := Forall (fun c => is_digit c = true) s.

Definition no_digit_head (s : jstr) : Prop :=
  match s with c :: _ => is_digit c = false | [] => True end.

Lemma span_digits_app d r : digits d -> no_digit_head r -> span_digits (d ++ r) = (d, r).
Proof.
  intros Hd Hr. induction Hd as [|c d Hc Hd IH].
  - destruct r as [|c r]; [done|]. cbn in *. by rewrite Hr.
  - cbn [app span_digits]. by rewrite Hc, IH.
Qed.

Lemma span_digits_all d : digits d -> span_digits d = (d, []).
Proof. intros Hd. rewrite <- (app_nil_r d) at 1. by apply span_digits_app. Qed.

Lemma digits_zeros n : digits (zeros n).
Proof. by apply Forall_replicate. Qed.

Lemma digits_take n d : digits d -> digits (take n d).
Proof. apply Forall_take. Qed.

Lemma digits_drop n d : digits d -> digits (drop n d).
Proof. apply Forall_drop. Qed.

Lemma dec_value_zeros_r d n : dec_value (d ++ zeros n) = dec_value d * 10 ^ N.of_nat n.
Proof.
  unfold zeros. induction n as [|n IH].
  - cbn [replicate]. rewrite app_nil_r, N.pow_0_r. lia.
  - rewrite replicate_S_end, app_assoc, dec_value_app, IH, Nat2N.inj_succ, N.pow_succ_r'.
    unfold digit_value. lia.
Qed.

Lemma dec_value_zeros_l d n : dec_value (zeros n ++ d) = dec_value d.
Proof.
  unfold dec_value. rewrite fold_left_app. f_equal.
  induction n as [|n IH]; [done|]. unfold zeros. rewrite replicate_S_end, fold_left_app. 
  fold (zeros n). by rewrite IH.
Qed.

Lemma dec_of_N_head n c : 0 < n -> head (dec_of_N n) = Some c -> c <> 48.
Proof.
  unfold dec_of_N. generalize (size_nat_bound n). generalize (N.size_nat n) as fuel.
  intros fuel. revert n. induction fuel as [|f IH]; intros n Hf Hn; [cbn in Hf; lia|].
  rewrite dec_digits_S. destruct (N.ltb_spec n 10) as [Hlt|Hge].
  { cbn [head]. intros [= <-]. rewrite N.mod_small by done. lia. }
  rewrite dec_digits_acc. assert (Hd : n / 10 < 2 ^ N.of_nat f).
  { rewrite Nat2N.inj_succ, N.pow_succ_r' in Hf. apply N.Div0.div_lt_upper_bound. lia. }
  intros H. apply (IH (n / 10)); [done|apply N.div_str_pos; lia|].
  destruct (dec_digits (S f) (n / 10) []) eqn:E; [|done].
  exfalso. rewrite dec_digits_S in E. case_test; [done|]. rewrite dec_digits_acc in E.
  by destruct (dec_digits f (n / 10 / 10) []).
Qed.

(** ** Decimal text *)

(** What follows a number ends it. *)
Definition num_stop (r : jstr) : Prop :=
  match r with c :: _ => is_digit c || (c =? 46) || (c =? 101) || (c =? 69) = false | [] => True end.

Definition frac (f : jstr) : jstr := match f with [] => [] | _ => 46 :: f end.

Definition exponent_text (x : option (bool * N)) : jstr :=
  match x with
  | None => []
  | Some (neg, a) => 101 :: (if neg then 45 else 43) :: dec_of_N a
  end.

Definition exponent_value (x : option (bool * N)) : Z :=
  match x with
  | None => 0
  | Some (neg, a) => if neg then - Z.of_N a else Z.of_N a
  end%Z.

(** Text of a decimal: an integer part without superfluous zeros, a fraction
    and an exponent, with the value [s * 10^e]. *)
Definition decimal_text (t : jstr) (s : N) (e : Z) : Prop :=
  exists (i f : jstr) x,
    t = i ++ frac f ++ exponent_text x /\
    digits i /\ digits f /\ i <> [] /\ (i = [48] \/ head i <> Some 48) /\
    forall neg, num_of_dec neg (dec_value (i ++ f)) (exponent_value x - Z.of_nat (length f)) =
                num_of_dec neg s e.

Lemma stop_no_digit r : num_stop r -> no_digit_head r.
Proof. destruct r as [|c r]; [done|]. cbn. by intros [[[? _]%orb_false_iff _]%orb_false_iff _]%orb_false_iff. Qed.

Lemma stop_no_dot {A} (r : jstr) (a : jstr -> A) b :
  num_stop r -> match r with 46 :: t => a t | _ => b end = b.
Proof.
  destruct r as [|c r]; [done|]. cbn. intros H. destruct (N.eqb_spec c 46) as [->|Hn]; [done|].
  do 7 (try (destruct c as [|c]; try done); try (destruct c as [c|c|]; try done)).
Qed.

Lemma parse_exponent_app x r :
  num_stop r -> parse_exponent (exponent_text x ++ r) = Some (exponent_value x, r).
Proof.
  intros Hr. destruct x as [[neg a]|]; cbn [exponent_text exponent_value app].
  - unfold parse_exponent. cbn [N.eqb Pos.eqb orb].
    pose proof (dec_of_N_ne a) as Hn. pose proof (dec_value_of_N a) as Hv.
    pose proof (span_digits_app _ _ (dec_of_N_digits a) (stop_no_digit r Hr)) as Hs.
    destruct neg; cbn [app]; rewrite Hs; destruct (dec_of_N a); try done; by rewrite Hv.
  - unfold parse_exponent. destruct r as [|c r]; [done|]. cbn in Hr.
    apply orb_false_iff in Hr as [Hr H69]. apply orb_false_iff in Hr as [_ H101].
    by rewrite H69, H101.
Qed.

Lemma exponent_no_digit x r : num_stop r -> no_digit_head (exponent_text x ++ r).
Proof. destruct x as [[neg a]|]; [done|apply stop_no_digit]. Qed.

Lemma exponent_no_dot {A} x (r : jstr) (a : jstr -> A) b :
  num_stop r -> match exponent_text x ++ r with 46 :: t => a t | _ => b end = b.
Proof. destruct x as [[neg n]|]; [done|apply stop_no_dot]. Qed.

(** Both readers read decimal text as its value. *)
Lemma parse_unsigned_text neg t s e r :
  decimal_text t s e -> num_stop r -> parse_unsigned neg (t ++ r) = Some (num_of_dec neg s e, r).
Proof.
  intros (i & f & x & -> & Di & Df & Hi & _ & Hv) Hr. rewrite <- Hv.
  unfold parse_unsigned. rewrite <- !app_assoc. destruct f as [|c f]; cbn [frac app].
  - rewrite span_digits_app by (done || by apply exponent_no_digit).
    rewrite exponent_no_dot by done. destruct i; [done|]. by rewrite parse_exponent_app.
  - rewrite span_digits_app by done. change (c :: f ++ ?y) with ((c :: f) ++ y).
    rewrite span_digits_app by (done || by apply exponent_no_digit).
    destruct i; [done|]. by rewrite parse_exponent_app.
Qed.

Lemma exponent_sign_text ex :
  (if (0 <=? ex)%Z then 43 else 45) :: dec_of_N (Z.abs_N ex) =
  (if (ex <? 0)%Z then 45 else 43) :: dec_of_N (Z.abs_N ex).
Proof. destruct (Z.leb_spec 0 ex), (Z.ltb_spec ex 0); lia || done. Qed.

(** Exponent notation. *)
Lemma exponent_layout_text (ds : jstr) s e :
  digits ds -> dec_value ds = s -> ds <> [] -> head ds <> Some 48 ->
  let ex := (Z.of_nat (length ds) + e - 1)%Z in
  let tail := 101 :: (if (0 <=? ex)%Z then 43 else 45) :: dec_of_N (Z.abs_N ex) in
  decimal_text (match ds with [d] => d :: tail | d :: rest => d :: 46 :: rest ++ tail | [] => [] end) s e.
Proof.
  intros Dd Hv Hne Hh ex tail. destruct ds as [|d rest]; [done|].
  inversion_clear Dd as [|? ? Hd Dr].
  exists [d], rest, (Some ((ex <? 0)%Z, Z.abs_N ex)). split_and!; [|by constructor|done|done|by right|].
  - cbn [exponent_text]. unfold tail. rewrite exponent_sign_text. by destruct rest.
  - intros neg. cbn [app exponent_value]. rewrite Hv. f_equal. unfold ex. cbn [length].
    destruct (Z.ltb_spec (Z.of_nat (S (length rest)) + e - 1) 0); lia.
Qed.

Lemma layout_text s e : 0 < s -> decimal_text (layout (dec_of_N s) e) s e.
Proof.
  intros Hs. pose proof (dec_of_N_digits s) as Dd. pose proof (dec_of_N_ne s) as Hne.
  pose proof (dec_value_of_N s) as Hv. pose proof (fun c => dec_of_N_head s c Hs) as Hh.
  unfold layout. set (ds := dec_of_N s) in *. clearbody ds. cbv zeta.
  set (k := Z.of_nat (length ds)). set (n := (k + e)%Z).
  assert (Hh48 : head ds <> Some 48) by (intros E; by apply (Hh 48)).
  destruct (Z.leb_spec k n) as [H1|H1], (Z.leb_spec n 21) as [H2|H2]; cbn [andb].
  1:{ exists (ds ++ zeros (Z.to_nat (n - k))), [], None.
      split_and!; [by rewrite app_nil_r|apply Forall_app; split; [done|apply digits_zeros]|constructor
        |by destruct ds|right; by destruct ds|].
      intros neg. rewrite app_nil_r, dec_value_zeros_r, Hv. cbn [exponent_value length].
      rewrite <- (num_of_dec_shift neg s (N.of_nat (Z.to_nat (n - k)))) by done.
      f_equal. unfold n. lia. }
  2: destruct (Z.ltb_spec 0 n) as [H3|H3]; cbn [andb].
  2:{ exists (take (Z.to_nat n) ds), (drop (Z.to_nat n) ds), None.
      assert (Hd : drop (Z.to_nat n) ds <> []).
      { intros E%(f_equal length). rewrite length_drop in E. unfold k in *. cbn in E. lia. }
      split_and!; [|by apply digits_take|by apply digits_drop| | |].
      - cbn [exponent_text]. rewrite app_nil_r. by destruct (drop (Z.to_nat n) ds).
      - destruct ds; [done|]. by destruct (Z.to_nat n) eqn:E; [lia|].
      - right. destruct ds; [done|]. by destruct (Z.to_nat n) eqn:E; [lia|].
      - intros neg. rewrite take_drop, Hv, length_drop. f_equal. cbn [exponent_value].
        unfold n, k in *. lia. }
  all: rewrite ?(proj2 (Z.ltb_lt 0 n)) by (unfold k in *; lia); cbn [andb].
  2: destruct (Z.ltb_spec (-6) n) as [H4|H4]; cbn [andb].
  2:{ rewrite (proj2 (Z.leb_le n 0)) by lia. exists [48], (zeros (Z.to_nat (- n)) ++ ds), None.
      split_and!; [|by repeat constructor|apply Forall_app; split; [apply digits_zeros|done]|done|by left|].
      - cbn [exponent_text app]. rewrite app_nil_r. destruct ds; [done|]. by destruct (zeros (Z.to_nat (- n))).
      - intros neg. change ([48] ++ ?y) with (zeros 1 ++ y). rewrite !dec_value_zeros_l, Hv.
        rewrite length_app. unfold zeros. rewrite length_replicate. f_equal. cbn [exponent_value].
        unfold n, k in *. lia. }
  all: pose proof (exponent_layout_text ds s e Dd Hv Hne Hh48) as Hx; cbv zeta in Hx; fold k in Hx; fold n in Hx.
  all: rewrite ?(proj2 (Z.leb_gt n 0)), ?andb_false_r by (unfold k in *; lia).
  all: exact Hx.
Qed.

(** ** Reading back what was printed *)

(** The code units of decimal text. *)
Definition text_unit (c : N) : bool :=
  is_digit c || (c =? 46) || (c =? 101) || (c =? 43) || (c =? 45).

Lemma digits_text_units d : digits d -> Forall (fun c => text_unit c = true) d.
Proof. intros H. eapply Forall_impl; [exact H|]. intros c Hc. unfold text_unit. by rewrite Hc. Qed.

Lemma text_unit_not_ws c : text_unit c = true -> is_ws c = false.
Proof.
  unfold text_unit. intros H. destruct (is_digit c) eqn:E; [by apply is_digit_not_ws|].
  cbn [orb] in H. repeat (apply orb_true_iff in H as [H|H]);
    apply N.eqb_eq in H; subst; by vm_compute.
Qed.

Lemma decimal_text_units t s e :
  decimal_text t s e ->
  Forall (fun c => text_unit c = true) t /\ exists c t', t = c :: t' /\ is_digit c = true.
Proof.
  intros (i & f & x & -> & Di & Df & Hi & _). split.
  - rewrite !Forall_app. split_and!; [by apply digits_text_units| |].
    + destruct f as [|c f]; [constructor|]. constructor; [done|by apply digits_text_units].
    + destruct x as [[neg a]|]; [|constructor]. constructor; [done|]. constructor; [by destruct neg|].
      apply digits_text_units, dec_of_N_digits.
  - destruct Di as [|c i Hc _]; [done|]. by exists c, (i ++ frac f ++ exponent_text x).
Qed.

Lemma digit_cases c : is_digit c = true -> c ∈ [48; 49; 50; 51; 52; 53; 54; 55; 56; 57].
Proof.
  intros [H1 H2]%is_digit_spec. rewrite !list_elem_of_In. cbn [In]. lia.
Qed.

Ltac each_digit Hc :=
  apply digit_cases in Hc; rewrite !elem_of_cons in Hc;
  repeat destruct Hc as [->|Hc]; [..|by apply not_elem_of_nil in Hc].

Lemma num_of_dec_sign neg s e m : num_of_dec false s e = Fin false m -> num_of_dec neg s e = Fin neg m.
Proof.
  unfold num_of_dec, mk_num. repeat case_test; intros H; simplify_eq; done.
Qed.

(** The numbers of the type: finite magnitudes are representable, and zero is
    positive. *)
Definition canonical (x : num) : Prop :=
  match x with
  | Fin s m => m < overflow_units /\ representable m /\ (m = 0 -> s = false)
  | _ => True
  end.

(** The text of a finite number other than zero: a sign and decimal text. *)
Lemma string_of_num_text s m :
  0 < m -> m < overflow_units -> representable m ->
  exists t d e, string_of_num (Fin s m) = (if s then [45] else []) ++ t /\
    decimal_text t d e /\ forall neg, num_of_dec neg d e = Fin neg m.
Proof.
  intros Hm Ho Hr. destruct (digits_read m Hm Ho Hr) as (d & e & E & Hd & Hn).
  exists (layout (dec_of_N d) e), d, e. split_and!; [|by apply layout_text|].
  - cbn [string_of_num]. rewrite (proj2 (N.eqb_neq m 0)) by lia.
    destruct (shortest 17 m (dec_exp m) 1) as [d0 e0]. cbn [fst snd] in E. by rewrite E.
  - intros neg. by apply num_of_dec_sign.
Qed.

Lemma number_of_text (s : bool) t d e :
  decimal_text t d e -> number_of_string ((if s then [45] else []) ++ t) = num_of_dec s d e.
Proof.
  intros Ht. destruct (decimal_text_units t d e Ht) as (Hu & c & t' & Et & Hc).
  unfold number_of_string. rewrite trim_id.
  2:{ apply trimmed_no_ws, Forall_app. split; [destruct s; by repeat constructor|].
      eapply Forall_impl; [exact Hu|]. apply text_unit_not_ws. }
  pose proof (fun neg => parse_unsigned_text neg t d e [] Ht I) as Hp.
  rewrite app_nil_r in Hp.
  assert (Hi : (t =?= js "Infinity") = false).
  { apply bool_decide_eq_false. intros E. rewrite Et in E. cbn in E. injection E as -> _. done. }
  destruct s; cbn [app]; [by rewrite Hi, Hp|].
  rewrite Et in *. each_digit Hc; by rewrite Hi, Hp.
Qed.

(** [Number(String(x))] is [x]. *)
Lemma number_of_string_of_num x : canonical x -> number_of_string (string_of_num x) = x.
Proof.
  destruct x as [|[]|s m]; [by vm_compute..|]. cbn [canonical]. intros (Ho & Hr & Hz).
  destruct (N.eq_0_gt_0_cases m) as [->|Hm]; [by rewrite Hz|].
  destruct (string_of_num_text s m Hm Ho Hr) as (t & d & e & -> & Ht & Hv).
  by rewrite (number_of_text s t d e Ht).
Qed.

(** ** The values of the type *)

(** A number of the model that is a double: a finite magnitude is below the
    overflow threshold and has at most 53 significant bits. *)
Definition double (x : num) : Prop :=
  match x with Fin _ m => m < overflow_units /\ representable m | _ => True end.

#[export] Instance double_dec x : Decision (double x).
Proof.
  destruct x as [|s|s m]; [left; done..|]. cbn [double].
  refine (if decide (m < overflow_units) then
            if decide (m mod 2 ^ (N.log2 m - 52) = 0) then left _ else right _ else right _).
  - split; [done|]. by apply N.Lcm0.mod_divide.
  - intros [_ H]. by apply N.Lcm0.mod_divide in H.
  - by intros [H _].
Defined.

Lemma representable_scaled M s : M <= 2 ^ 53 -> representable (M * 2 ^ s).
Proof.
  intros HM. unfold representable. destruct (N.eq_0_gt_0_cases M) as [->|Hp].
  { exists 0. lia. }
  rewrite N.log2_mul_pow2 by lia. destruct (N.eq_dec M (2 ^ 53)) as [->|Hn].
  - rewrite N.log2_pow2 by lia. exists (2 ^ (53 + s - (53 + s - 52))).
    rewrite <- !N.pow_add_r. f_equal. lia.
  - assert (Hl : N.log2 M < 53) by (apply N.log2_lt_pow2; [done|]; lia).
    exists (M * 2 ^ (s - (N.log2 M + s - 52))).
    rewrite <- N.mul_assoc, <- N.pow_add_r. do 2 f_equal. lia.
Qed.

Lemma round_units_representable a b : 0 < b -> representable (round_units a b).
Proof.
  intros Hb. unfold round_units. set (s := N.log2 (a / b) - 52).
  rewrite !N.shiftl_mul_pow2. apply representable_scaled.
  assert (Eq : a / (b * 2 ^ s) = a / b / 2 ^ s) by (symmetry; apply N.Div0.div_div).
  assert (Hq : a / b / 2 ^ s < 2 ^ 53).
  { apply N.Div0.div_lt_upper_bound. apply (N.lt_le_trans _ (2 ^ (N.log2 (a / b) + 1))).
    - apply log2_upper.
    - rewrite <- N.pow_add_r. apply N.pow_le_mono_r; [done|]. unfold s. lia. }
  rewrite Eq. case_test; lia.
Qed.

Lemma mk_num_double neg a b : 0 < b -> double (mk_num neg a b).
Proof.
  intros Hb. unfold mk_num. destruct (N.ltb_spec (round_units a b) overflow_units); [|done].
  split; [done|by apply round_units_representable].
Qed.

Lemma zero_double neg : double (Fin neg 0).
Proof. split; [done|]. exists 0. done. Qed.

Lemma num_of_dec_double neg d e : double (num_of_dec neg d e).
Proof.
  unfold num_of_dec. repeat case_test; [apply zero_double|done|apply zero_double|].
  apply mk_num_double, pow10_pos.
Qed.

Lemma num_of_Z_double z : double (num_of_Z z).
Proof. by apply mk_num_double. Qed.

Lemma parse_unsigned_double neg s x r : parse_unsigned neg s = Some (x, r) -> double x.
Proof.
  unfold parse_unsigned. intros H. repeat case_match; simplify_eq; apply num_of_dec_double.
Qed.

(** Reading text gives a double. *)
Lemma number_of_string_double s : double (number_of_string s).
Proof.
  assert (H : forall neg r, double (if r =?= js "Infinity" then Inf neg
      else match parse_unsigned neg r with Some (x, []) => x | _ => NaN end)).
  { intros neg r. case_test; [done|]. destruct (parse_unsigned neg r) as [[x []]|] eqn:E; [|done..].
    by eapply parse_unsigned_double. }
  unfold number_of_string. destruct (trim s) as [|[|c] r]; [apply zero_double|apply H|].
  do 6 (try destruct c as [c|c|]); apply H.
Qed.

Lemma num_add_double x y : double x -> double y -> double (num_add x y).
Proof.
  intros Hx Hy. destruct x as [|s|s m], y as [|t|t n]; cbn [num_add]; try done.
  - by destruct (Bool.eqb s t).
  - case_test; [apply zero_double|by apply mk_num_double].
Qed.

Lemma num_mul_double x y : double (num_mul x y).
Proof.
  destruct x as [|s|s m], y as [|t|t n]; cbn [num_mul]; repeat case_test; try done.
  by apply mk_num_double.
Qed.

Lemma num_div_double x y : double (num_div x y).
Proof.
  destruct x as [|s|s m], y as [|t|t n]; cbn [num_div]; try done; [apply zero_double|].
  destruct (N.eqb_spec n 0); [by destruct (m =? 0)|]. apply mk_num_double. lia.
Qed.

Lemma num_or_canonical x d : double x -> canonical d -> canonical (num_or x d).
Proof.
  intros Hx Hd. unfold num_or. destruct (truthy_num x) eqn:T; [|done].
  destruct x as [|s|s m]; [done..|]. destruct Hx as [Ho Hr]. split_and!; [done..|].
  intros ->. done.
Qed.

(** A finite number is printed with the units of decimal text. *)
Lemma string_of_num_units x :
  double x -> is_finite x = true ->
  string_of_num x <> [] /\ Forall (fun c => text_unit c = true) (string_of_num x).
Proof.
  destruct x as [|s|s m]; [done..|]. intros [Ho Hr] _.
  destruct (N.eq_0_gt_0_cases m) as [->|Hm]; [by split; [|repeat constructor]|].
  destruct (string_of_num_text s m Hm Ho Hr) as (t & d & e & -> & Ht & _).
  destruct (decimal_text_units t d e Ht) as (Hu & c & t' & -> & _).
  split; [by destruct s|]. apply Forall_app. split; [destruct s; by repeat constructor|done].
Qed.

#[export] Hint Resolve zero_double num_of_dec_double num_of_Z_double number_of_string_double
  num_add_double num_mul_double num_div_double num_or_canonical : jsdb.

(** ** Relative error

    [near k x y m]: [m] is within [k] relative roundings of [x / y]. *)

Definition ulp : N := 2 ^ 53.

Definition near (k x y m : N) : Prop :=
  (ulp - 1) ^ k * x <= ulp ^ k * (m * y) /\ ulp ^ k * (m * y) <= (ulp + 1) ^ k * x.

Lemma near_0 m : near 0 m 1 m.
Proof. unfold near. rewrite !N.pow_0_r. lia. Qed.

(** One rounding of a quotient with at least 53 bits. *)
Lemma round_units_near a b : 0 < b -> 2 ^ 52 <= a / b -> near 1 a b (round_units a b).
Proof.
  intros Hb Hq. set (s := N.log2 (a / b) - 52).
  assert (Hs : b * 2 ^ s * 2 ^ 52 <= a).
  { assert (Hl : 52 <= N.log2 (a / b)) by (rewrite <- (N.log2_pow2 52) by lia; by apply N.log2_le_mono).
    pose proof (N.log2_spec (a / b) ltac:(lia)) as [H _].
    rewrite <- N.mul_assoc, <- N.pow_add_r. replace (s + 52) with (N.log2 (a / b)) by (unfold s; lia).
    transitivity (b * (a / b)); [by apply N.mul_le_mono_l|]. apply N.Div0.mul_div_le. }
  assert (E : round_units a b = nearest a (b * 2 ^ s) * 2 ^ s).
  { unfold round_units, nearest. by rewrite !N.shiftl_mul_pow2. }
  rewrite E. set (d := b * 2 ^ s) in *.
  assert (Hd : 0 < d) by (apply N.mul_pos_pos; [done|apply pow2_pos]).
  assert (Hr : 2 * a <= 2 * (nearest a d * d) + d /\ 2 * (nearest a d * d) <= 2 * a + d).
  { unfold nearest. pose proof (N.div_mod a d ltac:(lia)). pose proof (N.mod_lt a d ltac:(lia)).
    set (q := a / d) in *. set (r := a mod d) in *. case_test.
    - assert (d <= 2 * r); [|lia].
      destruct (N.ltb_spec d (2 * r)); [lia|]. destruct (N.eqb_spec d (2 * r)); [lia|done].
    - destruct (N.ltb_spec d (2 * r)); [done|lia]. }
  unfold near. rewrite !N.pow_1_r.
  replace (nearest a d * 2 ^ s * b) with (nearest a d * d) by (unfold d; lia).
  revert Hr. generalize (nearest a d * d). intros v Hr. unfold ulp in *. lia.
Qed.

Lemma near_step k a b m c d m' :
  near k a b m -> near 1 (m * c) d m' -> near (k + 1) (a * c) (b * d) m'.
Proof.
  unfold near. rewrite !N.pow_add_r, !N.pow_1_r.
  generalize ((ulp - 1) ^ k) (ulp ^ k) ((ulp + 1) ^ k). intros A B C.
  generalize (ulp - 1) (ulp + 1). intros x z. generalize ulp. intros y [L1 U1] [L2 U2]. split.
  - replace (A * x * (a * c)) with (A * a * (x * c)) by lia.
    transitivity (B * (m * b) * (x * c)); [by apply N.mul_le_mono_r|].
    replace (B * (m * b) * (x * c)) with (B * b * (x * (m * c))) by lia.
    replace (B * y * (m' * (b * d))) with (B * b * (y * (m' * d))) by lia.
    by apply N.mul_le_mono_l.
  - replace (B * y * (m' * (b * d))) with (B * b * (y * (m' * d))) by lia.
    transitivity (B * b * (z * (m * c))); [by apply N.mul_le_mono_l|].
    replace (B * b * (z * (m * c))) with (B * (m * b) * (z * c)) by lia.
    replace (C * z * (a * c)) with (C * a * (z * c)) by lia.
    by apply N.mul_le_mono_r.
Qed.

Lemma near_cancel k a b c m : 0 < c -> near k (a * c) (b * c) m -> near k a b m.
Proof.
  unfold near. generalize ((ulp - 1) ^ k) (ulp ^ k) ((ulp + 1) ^ k). intros A B C Hc [L U].
  split; apply (N.mul_le_mono_pos_r _ _ c Hc); replace (B * (m * b) * c) with (B * (m * (b * c))) by lia;
    by rewrite <- N.mul_assoc.
Qed.

(** A few roundings stay within a factor of two. *)
Lemma near_factor k a b m : k <= 4 -> near k a b m -> a <= 2 * (m * b) /\ m * b <= 2 * a.
Proof.
  intros Hk [L U]. revert L U. generalize (m * b). intros v L U.
  assert (Hc : k = 0 \/ k = 1 \/ k = 2 \/ k = 3 \/ k = 4) by lia.
  destruct Hc as [->|[->|[->|[->| ->]]]]; unfold ulp in *; simpl in L, U; lia.
Qed.

(** Four roundings move an integer below 2^49 by less than a half. *)
Lemma near_integer n u m : n < 2 ^ 49 -> 0 < u -> near 4 (n * u) 1 m ->
  2 * m < 2 * (n * u) + u /\ 2 * (n * u) < 2 * m + u.
Proof.
  intros Hn Hu [L U]. rewrite N.mul_1_r in *. unfold ulp in *. simpl in L, U.
  assert (n * u <= (2 ^ 49 - 1) * u) by (apply N.mul_le_mono_r; lia).
  revert H L U. generalize (n * u). intros v H L U. simpl in H. lia.
Qed.

(** The signed product and quotient of finite numbers, rounded once. *)
Lemma mk_num_near neg a b : 0 < b -> 2 ^ 52 <= a / b -> a / b < 2 ^ 2096 ->
  exists m, mk_num neg a b = Fin neg m /\ near 1 a b m.
Proof.
  intros Hb Hl Hu. exists (round_units a b). pose proof (round_units_near a b Hb Hl) as Hn.
  split; [|done]. unfold mk_num. rewrite (proj2 (N.ltb_lt _ _)); [done|].
  destruct (near_factor 1 a b _ ltac:(lia) Hn) as [_ H].
  assert (Ha : a < b * 2 ^ 2096).
  { pose proof (N.div_mod a b ltac:(lia)). pose proof (N.mod_lt a b ltac:(lia)). nia. }
  assert (Ho : overflow_units = 2 * (2 * 2 ^ 2096)) by (vm_compute; reflexivity).
  rewrite Ho. revert Ha. generalize (2 ^ 2096). intros z Ha. nia.
Qed.

(** Magnitudes between two powers of two. *)
Definition within (i j m : N) : Prop := 2 ^ i <= m /\ m <= 2 ^ j.

Lemma within_mul i j k l m n : within i j m -> within k l n -> within (i + k) (j + l) (m * n).
Proof. intros [] []. unfold within. rewrite !N.pow_add_r. split; by apply N.mul_le_mono. Qed.

Lemma within_one : within 1074 1074 one_units.
Proof. unfold one_units. rewrite N.shiftl_mul_pow2, N.mul_1_l. by split. Qed.

Lemma pow2_cancel i j : 2 ^ i <= 2 ^ j -> i <= j.
Proof. intros H. by apply (N.pow_le_mono_r_iff 2 i j). Qed.

(** A quotient of magnitudes in range is rounded once, without overflow. *)
Lemma mk_num_within neg a b i j k l :
  within i j a -> within k l b -> l + 53 <= i -> j + 1 <= k + 2096 ->
  exists m, mk_num neg a b = Fin neg m /\ near 1 a b m /\ within (i - l - 1) (j - k + 1) m.
Proof.
  intros [Ha1 Ha2] [Hb1 Hb2] H1 H2. pose proof (pow2_pos k).
  destruct (mk_num_near neg a b) as (m & E & Hm); [lia| | |].
  - apply N.div_le_lower_bound; [lia|]. transitivity (2 ^ (l + 52)).
    + rewrite N.pow_add_r. by apply N.mul_le_mono_r.
    + transitivity (2 ^ i); [apply N.pow_le_mono_r; lia|done].
  - apply N.Div0.div_lt_upper_bound. apply (N.le_lt_trans _ (2 ^ j)); [done|].
    apply (N.lt_le_trans _ (2 ^ (k + 2096))); [apply N.pow_lt_mono_r; lia|].
    rewrite N.pow_add_r. by apply N.mul_le_mono_r.
  - exists m. split; [done|]. split; [done|]. destruct (near_factor 1 a b m ltac:(lia) Hm) as [L U].
    pose proof (pow2_pos l). split.
    + apply (N.mul_le_mono_pos_r _ _ (2 * 2 ^ l)); [lia|].
      replace (2 ^ (i - l - 1) * (2 * 2 ^ l)) with (2 ^ i);
        [|rewrite N.mul_assoc, (N.mul_comm _ 2), <- N.pow_succ_r', <- N.pow_add_r; f_equal; lia].
      transitivity (2 * (m * b)); [lia|]. replace (m * (2 * 2 ^ l)) with (2 * (m * 2 ^ l)) by lia.
      by apply N.mul_le_mono_l, N.mul_le_mono_l.
    + destruct (N.le_gt_cases k j) as [Hkj|Hkj].
      * apply (N.mul_le_mono_pos_r _ _ (2 ^ k)); [done|]. rewrite <- N.pow_add_r.
        replace (j - k + 1 + k) with (1 + j) by lia. rewrite N.pow_add_r, N.pow_1_r.
        transitivity (m * b); [by apply N.mul_le_mono_l|]. lia.
      * assert (2 ^ i <= 2 ^ j) as Hij by lia. apply pow2_cancel in Hij.
        assert (2 ^ k <= 2 ^ l) as Hkl by lia. apply pow2_cancel in Hkl. lia.
Qed.

(** An integer reached by rounding to the nearest. *)
Lemma num_round_near neg n m :
  n < 2 ^ 53 -> 2 * m < 2 * (n * one_units) + one_units -> 2 * (n * one_units) < 2 * m + one_units ->
  0 < n -> num_round (Fin neg m) = Fin neg (n * one_units).
Proof.
  intros Hn L U H0. pose proof one_units_pos as Hp. unfold num_round.
  destruct (N.eqb_spec (m mod one_units) 0) as [Hm|Hm].
  - f_equal. pose proof (N.div_mod m one_units ltac:(lia)) as E. rewrite Hm, N.add_0_r in E.
    revert E. generalize (m / one_units). intros k E. subst m. rewrite (N.mul_comm one_units k) in *.
    f_equal. nia.
  - set (k := if neg then (- Z.of_N n)%Z else Z.of_N n).
    assert (E : ((2 * units neg m + Z.of_N one_units) / (2 * Z.of_N one_units))%Z = k).
    { symmetry. apply (Z.div_unique _ _ _ (2 * units neg m + Z.of_N one_units - 2 * Z.of_N one_units * k)%Z);
        [left|lia]. unfold units, k. revert L U Hp. generalize one_units. intros u L U Hp.
      destruct neg; nia. }
    rewrite E. destruct (Z.eqb_spec k 0) as [Hk|Hk]; [unfold k in Hk; destruct neg; lia|].
    rewrite num_of_Z_exact by (unfold k; destruct neg; lia). unfold k. f_equal; [destruct neg; lia|].
    f_equal. destruct neg; lia.
Qed.

(** ** Exact products and quotients of integers *)

Lemma num_of_Z_units z : num_of_Z z = mk_num (z <? 0)%Z (Z.abs_N z * one_units) 1.
Proof. unfold num_of_Z, one_units. by rewrite !N.shiftl_mul_pow2, N.mul_1_l. Qed.

Lemma num_mul_Z a b : (0 <= a)%Z -> (0 <= b)%Z -> small a -> small b ->
  num_mul (num_of_Z a) (num_of_Z b) = num_of_Z (a * b).
Proof.
  intros Ha Hb Sa Sb. rewrite (num_of_Z_exact a), (num_of_Z_exact b), num_of_Z_units by done.
  rewrite !(proj2 (Z.ltb_ge _ _)) by lia. cbn [num_mul xorb]. unfold mk_num.
  rewrite (round_units_eq _ _ (Z.abs_N (a * b) * one_units) 1); [done|apply one_units_pos|done|].
  rewrite Zabs2N.inj_mul. lia.
Qed.

Lemma num_div_Z a b : (0 <= a)%Z -> (0 < b)%Z -> small (a * b) -> small b ->
  num_div (num_of_Z (a * b)) (num_of_Z b) = num_of_Z a.
Proof.
  intros Ha Hb Sa Sb. rewrite (num_of_Z_exact (a * b)), (num_of_Z_exact b), (num_of_Z_units a) by done.
  rewrite !(proj2 (Z.ltb_ge _ _)) by lia. pose proof one_units_pos as Hu. cbn [num_div].
  rewrite (proj2 (N.eqb_neq _ _)) by lia. cbn [xorb]. unfold mk_num.
  rewrite (round_units_eq _ _ (Z.abs_N a * one_units) 1); [done|lia|done|].
  rewrite Zabs2N.inj_mul. lia.
Qed.
