(* ===== verification/JsRegex.v ===== *)
(** * Regular expressions of the language

    The pattern constructs the sources use, with the backtracking semantics
    of ECMA-262: [matches r st] lists every way [r] can match at a state, in
    the order the engine tries them, so the first one is the match.  Greedy
    and lazy iteration differ only in that order; an iteration that consumes
    nothing is not repeated.  No pattern of the sources repeats a capture
    group, so captures need no reset between iterations. *)

From S2P Require Import Prelude.
From S2P Require Import JsString.

Local Open Scope N_scope.

Inductive regex :=
| RLit (w : jstr)
| RClass (f : N -> bool)
| RSeq (r1 r2 : regex)
| RAlt (r1 r2 : regex)
| RStar (r : regex)
| RLazyStar (r : regex)
| ROpt (r : regex)
| RGroup (n : nat) (r : regex)
| RBackref (n : nat)
| RBegin
| REnd
| RWordB.

Definition RPlus (r : regex) : regex := RSeq r (RStar r).

(** A position in the input with the captures so far (latest first). *)
Record mstate := MState {
  before : jstr;                (* consumed input, reversed *)
  after : jstr;                 (* input still to read *)
  caps : list (nat * jstr);
}.

Definition advance (k : nat) (st : mstate) : mstate :=
  MState (reverse (take k (after st)) ++ before st) (drop k (after st)) (caps st).

Definition capture (n : nat) (w : jstr) (st : mstate) : mstate :=
  MState (before st) (after st) ((n, w) :: caps st).

Fixpoint cap_lookup (n : nat) (l : list (nat * jstr)) : option jstr :=
  match l with
  | [] => None
  | (k, w) :: l' => if Nat.eqb k n then Some w else cap_lookup n l'
  end.

(** [m[n]]; [None] stands for [undefined]. *)
Definition cap (n : nat) (st : mstate) : option jstr := cap_lookup n (caps st).

(** The text between two positions of the same input. *)
Definition consumed (st st' : mstate) : jstr :=
  take (length (after st) - length (after st')) (after st).

Definition at_word_boundary (st : mstate) : bool :=
  let l := match before st with c :: _ => is_word c | [] => false end in
  let r := match after st with c :: _ => is_word c | [] => false end in
  xorb l r.

(** Repetition of [step]: at most [n] iterations, each consuming input. *)
Fixpoint iterate (lazy : bool) (step : mstate -> list mstate) (n : nat) (st : mstate)
  : list mstate :=
  let more :=
    match n with
    | O => []
    | S n' =>
        List.flat_map
          (fun st' => if Nat.ltb (length (after st')) (length (after st))
                      then iterate lazy step n' st' else [])
          (step st)
    end in
  if lazy then st :: more else more ++ [st].

Fixpoint matches (r : regex) (st : mstate) : list mstate :=
  match r with
  | RLit w => if starts_with w (after st) then [advance (length w) st] else []
  | RClass f =>
      match after st with
      | c :: _ => if f c then [advance 1 st] else []
      | [] => []
      end
  | RSeq r1 r2 => List.flat_map (matches r2) (matches r1 st)
  | RAlt r1 r2 => matches r1 st ++ matches r2 st
  | RStar r1 => iterate false (matches r1) (length (after st)) st
  | RLazyStar r1 => iterate true (matches r1) (length (after st)) st
  | ROpt r1 => matches r1 st ++ [st]
  | RGroup n r1 =>
      List.map (fun st' => capture n (consumed st st') st') (matches r1 st)
  | RBackref n =>
      match cap n st with
      | Some w => if starts_with w (after st) then [advance (length w) st] else []
      | None => [st]
      end
  | RBegin => match before st with [] => [st] | _ => [] end
  | REnd => match after st with [] => [st] | _ => [] end
  | RWordB => if at_word_boundary st then [st] else []
  end.

(** The match that starts at this position, if any. *)
Definition match_here (r : regex) (st : mstate) : option mstate := head (matches r st).

(** The first position, from here on, where the pattern matches: the state
    at the start and the state at the end of the match. *)
Fixpoint search_from (fuel : nat) (r : regex) (st : mstate) : option (mstate * mstate) :=
  match match_here r st with
  | Some st' => Some (st, st')
  | None =>
      match fuel, after st with
      | S f, _ :: _ => search_from f r (advance 1 st)
      | _, _ => None
      end
  end.

Definition start_state (s : jstr) : mstate := MState [] s [].

(** [r.exec(s)] from the start. *)
Definition exec (r : regex) (s : jstr) : option (mstate * mstate) :=
  search_from (length s) r (start_state s).

(** [s.match(r)], giving the captures. *)
Definition re_match (r : regex) (s : jstr) : option mstate := snd <$> exec r s.

(** [r.test(s)]. *)
Definition re_test (r : regex) (s : jstr) : bool :=
  match exec r s with Some _ => true | None => false end.

(** [while ((m = re.exec(s)) !== null)] for a global pattern that never
    matches the empty string: the ends of the successive matches. *)
Fixpoint exec_all_from (fuel : nat) (r : regex) (st : mstate) : list mstate :=
  match fuel with
  | O => []
  | S f =>
      match search_from (length (after st)) r st with
      | Some (_, st') =>
          st' :: exec_all_from f r (MState (before st') (after st') [])
      | None => []
      end
  end.

Definition exec_all (r : regex) (s : jstr) : list mstate :=
  exec_all_from (S (length s)) r (start_state s).

(** [s.replace(r, w)] for a global pattern that never matches the empty
    string. *)
Fixpoint replace_from (fuel : nat) (r : regex) (w : jstr) (st : mstate) : jstr :=
  match fuel with
  | O => after st
  | S f =>
      match search_from (length (after st)) r st with
      | Some (b, e) =>
          consumed st b ++ w ++ replace_from f r w (MState (before e) (after e) [])
      | None => after st
      end
  end.

Definition replace_all (r : regex) (w : jstr) (s : jstr) : jstr :=
  replace_from (S (length s)) r w (start_state s).

(** [s.split(r)] for a pattern that never matches the empty string. *)
Fixpoint split_from (fuel : nat) (r : regex) (st : mstate) : list jstr :=
  match fuel with
  | O => [after st]
  | S f =>
      match search_from (length (after st)) r st with
      | Some (b, e) => consumed st b :: split_from f r (MState (before e) (after e) [])
      | None => [after st]
      end
  end.

Definition split_re (r : regex) (s : jstr) : list jstr :=
  split_from (S (length s)) r (start_state s).

(** ** Common classes *)

Definition any_unit : regex := RClass (fun _ => true).
Definition ws_class : regex := RClass is_ws.
Definition digit_class : regex := RClass is_digit.

(** [\s*]. *)
Definition ws_star : regex := RStar ws_class.

(** A class given by its members. *)
Definition one_of (s : jstr) : N -> bool := fun c => includes c s.

(** Concatenation of a list of patterns. *)
Fixpoint seq_of (l : list regex) : regex :=
  match l with
  | [] => RLit []
  | [r] => r
  | r :: l' => RSeq r (seq_of l')
  end.

Fixpoint alt_of (l : list regex) : regex :=
  match l with
  | [] => RClass (fun _ => false)
  | [r] => r
  | r :: l' => RAlt r (alt_of l')
  end.

(** * Facts *)

Lemma advance_0 st : advance 0 st = st.
Proof. by destruct st. Qed.

Lemma advance_after k st : after (advance k st) = drop k (after st).
Proof. done. Qed.

Lemma advance_advance j k st : advance j (advance k st) = advance (k + j) st.
Proof.
  destruct st as [b a cs]. unfold advance. simpl. f_equal.
  - rewrite app_assoc, <- reverse_app. do 2 f_equal.
    rewrite <- (take_drop k (take (k + j) a)).
    rewrite take_take, skipn_firstn_comm.
    replace (k + j - k)%nat with j by lia.
    by replace (k `min` (k + j))%nat with k by lia.
  - by rewrite drop_drop.
Qed.

Lemma consumed_advance k st :
  (k <= length (after st))%nat -> consumed st (advance k st) = take k (after st).
Proof.
  intros H. unfold consumed. rewrite advance_after, length_drop. f_equal. lia.
Qed.

Lemma matches_lit w r b cs :
  matches (RLit w) (MState b (w ++ r) cs) = [MState (reverse w ++ b) r cs].
Proof.
  simpl. rewrite starts_with_app. unfold advance. simpl.
  by rewrite take_app_length, drop_app_length.
Qed.

Lemma matches_lit_fail w st :
  starts_with w (after st) = false -> matches (RLit w) st = [].
Proof. simpl. by intros ->. Qed.

(** ** Evaluation of patterns on symbolic input

    The following equations follow the engine through a pattern whose input is
    written as a concatenation; [K] is the rest of the pattern. *)

(** Matching anchored at the start of the input. *)
Lemma search_not_begin fuel r st :
  before st <> [] -> search_from fuel (RSeq RBegin r) st = None.
Proof.
  revert st. induction fuel as [|fuel IH]; intros st Hb; simpl; unfold match_here; simpl;
    destruct (before st) eqn:E; try done; simpl.
  destruct (after st) as [|c a] eqn:Ea; [done|]. apply IH. unfold advance. simpl.
  rewrite E. by intros [_ ?]%app_eq_nil.
Qed.

Lemma re_match_anchored r s :
  re_match (RSeq RBegin r) s = head (matches r (start_state s)).
Proof.
  unfold re_match, exec, start_state. destruct s as [|c s]; simpl; unfold match_here; simpl;
    rewrite app_nil_r; destruct (matches r _); simpl; try done.
  by rewrite search_not_begin.
Qed.

Lemma seq_assoc r1 r2 K st :
  matches (RSeq (RSeq r1 r2) K) st = matches (RSeq r1 (RSeq r2 K)) st.
Proof.
  simpl. induction (matches r1 st) as [|s l IH]; simpl; [done|]. by rewrite flat_map_app, IH.
Qed.

Lemma seq_lit w r b cs K :
  matches (RSeq (RLit w) K) (MState b (w ++ r) cs) = matches K (MState (reverse w ++ b) r cs).
Proof.
  simpl. rewrite starts_with_app. simpl. rewrite app_nil_r.
  unfold advance. simpl. by rewrite take_app_length, drop_app_length.
Qed.

Lemma seq_lit_fail w st K :
  starts_with w (after st) = false -> matches (RSeq (RLit w) K) st = [].
Proof. simpl. by intros ->. Qed.

Lemma seq_backref n w r b cs K :
  cap_lookup n cs = Some w ->
  matches (RSeq (RBackref n) K) (MState b (w ++ r) cs) = matches K (MState (reverse w ++ b) r cs).
Proof.
  intros H. simpl. unfold cap. simpl. rewrite H, starts_with_app. simpl. rewrite app_nil_r.
  unfold advance. simpl. by rewrite take_app_length, drop_app_length.
Qed.

(** A capture around a pattern that can match in one way only. *)
Lemma seq_group_one n r w b a cs K :
  matches r (MState b (w ++ a) cs) = [MState (reverse w ++ b) a cs] ->
  matches (RSeq (RGroup n r) K) (MState b (w ++ a) cs) =
  matches K (MState (reverse w ++ b) a ((n, w) :: cs)).
Proof.
  intros H. simpl. rewrite H. simpl. rewrite app_nil_r. unfold capture, consumed. simpl.
  rewrite length_app. replace (length w + length a - length a)%nat with (length w) by lia.
  by rewrite take_app_length.
Qed.

(** *** Runs of a class *)

(** The ways a greedy run over [w] can end, longest first. *)
Fixpoint peel (b w r : jstr) (cs : list (nat * jstr)) : list mstate :=
  match w with
  | [] => [MState b r cs]
  | c :: w' => peel (c :: b) w' r cs ++ [MState b (w ++ r) cs]
  end.

(** [r0] reads one unit of [f] at a time and stops at [r]. *)
Definition reads_units (f : N -> bool) (r0 : regex) (r : jstr) : Prop :=
  (forall b c a cs, f c = true -> matches r0 (MState b (c :: a) cs) = [MState (c :: b) a cs]) /\
  (forall b cs, matches r0 (MState b r cs) = []).

Lemma iterate_run f r0 r w b cs n :
  reads_units f r0 r -> Forall (fun c => f c = true) w -> (length w <= n)%nat ->
  iterate false (matches r0) n (MState b (w ++ r) cs) = peel b w r cs.
Proof.
  intros [Hs He] Hw. revert b n. induction Hw as [|c w Hc Hw IH]; intros b n Hn; simpl.
  - destruct n; simpl; [done|]. by rewrite He.
  - destruct n as [|n]; simpl in *; [lia|]. rewrite Hs by done. simpl.
    rewrite (proj2 (Nat.ltb_lt _ _)) by lia. by rewrite IH, app_nil_r by lia.
Qed.

Lemma star_run f r0 r w b cs :
  reads_units f r0 r -> Forall (fun c => f c = true) w ->
  matches (RStar r0) (MState b (w ++ r) cs) = peel b w r cs.
Proof. intros. cbn [matches]. apply (iterate_run f); [done..|]. simpl. rewrite length_app. lia. Qed.

Lemma class_reads f r :
  match r with c :: _ => f c = false | [] => True end -> reads_units f (RClass f) r.
Proof.
  intros Hr. split; simpl.
  - intros b c a cs ->. done.
  - intros b cs. destruct r; [done|]. by rewrite Hr.
Qed.

Lemma plus_run f r c w b cs :
  match r with c :: _ => f c = false | [] => True end -> Forall (fun c => f c = true) (c :: w) ->
  matches (RPlus (RClass f)) (MState b ((c :: w) ++ r) cs) = peel (c :: b) w r cs.
Proof.
  intros Hr [Hc Hw]%Forall_cons. unfold RPlus.
  change (matches (RSeq ?a ?b) ?s) with (List.flat_map (matches b) (matches a s)).
  simpl (matches (RClass f) _). rewrite Hc. simpl List.flat_map. rewrite app_nil_r.
  unfold advance. simpl. by apply (star_run f (RClass f)); [apply class_reads|].
Qed.

(** A continuation that cannot start inside the run sees only its end. *)
Lemma flat_map_peel {B} (k : mstate -> list B) f b w r cs :
  Forall (fun c => f c = true) w ->
  (forall b c a cs, f c = true -> k (MState b (c :: a) cs) = []) ->
  List.flat_map k (peel b w r cs) = k (MState (reverse w ++ b) r cs).
Proof.
  intros Hw Hk. revert b. induction Hw as [|c w Hc Hw IH]; intros b; simpl; [apply app_nil_r|].
  rewrite flat_map_app, IH. simpl. rewrite Hk by done. rewrite !app_nil_r.
  by rewrite reverse_cons, <- app_assoc.
Qed.

(** [K] cannot match where a unit of [f] comes next. *)
Definition refuses (f : N -> bool) (K : regex) : Prop :=
  forall b c a cs, f c = true -> matches K (MState b (c :: a) cs) = [].

Lemma refuses_lit f x w K : f x = false -> refuses f (RSeq (RLit (x :: w)) K).
Proof.
  intros Hx b c a cs Hc. apply seq_lit_fail. simpl.
  destruct (N.eqb_spec x c) as [->|]; [congruence|]. done.
Qed.

Lemma refuses_end f : refuses f REnd.
Proof. done. Qed.

Lemma seq_run f r0 r w b cs K :
  reads_units f r0 r -> Forall (fun c => f c = true) w -> refuses f K ->
  matches (RSeq (RStar r0) K) (MState b (w ++ r) cs) = matches K (MState (reverse w ++ b) r cs).
Proof.
  intros Hr Hw Hk. change (matches (RSeq ?a ?b) ?s) with (List.flat_map (matches b) (matches a s)).
  erewrite star_run by done. by apply (flat_map_peel _ f).
Qed.

Lemma flat_map_map {A B C} (g : A -> B) (k : B -> list C) l :
  List.flat_map k (List.map g l) = List.flat_map (fun x => k (g x)) l.
Proof. induction l as [|x l IH]; simpl; [done|]. by rewrite IH. Qed.

(** A captured run of a class. *)
Lemma seq_group_run f n r w b cs K :
  w <> [] -> match r with c :: _ => f c = false | [] => True end ->
  Forall (fun c => f c = true) w -> refuses f K ->
  matches (RSeq (RGroup n (RPlus (RClass f))) K) (MState b (w ++ r) cs) =
  matches K (MState (reverse w ++ b) r ((n, w) :: cs)).
Proof.
  intros Hne Hr Hw Hk. destruct w as [|c w]; [done|].
  change (matches (RSeq ?a ?b) ?s) with (List.flat_map (matches b) (matches a s)).
  change (matches (RGroup ?n ?r) ?s)
    with (List.map (fun st' => capture n (consumed s st') st') (matches r s)).
  rewrite plus_run by done. rewrite flat_map_map.
  apply Forall_cons in Hw as [Hc Hw].
  rewrite (flat_map_peel _ f) by (done || intros; by apply Hk).
  unfold capture, consumed. simpl before. simpl after. simpl caps.
  change (c :: w ++ r) with ((c :: w) ++ r). rewrite length_app.
  replace (length (c :: w) + length r - length r)%nat with (length (c :: w)) by lia.
  rewrite take_app_length. by rewrite reverse_cons, <- app_assoc.
Qed.

(** *** What a match can consume *)

(** Every unit the pattern can consume satisfies [f]. *)
Fixpoint only_units (f : N -> bool) (r : regex) : Prop :=
  match r with
  | RLit w => Forall (fun c => f c = true) w
  | RClass g => forall c, g c = true -> f c = true
  | RSeq r1 r2 | RAlt r1 r2 => only_units f r1 /\ only_units f r2
  | RStar r1 | RLazyStar r1 | ROpt r1 | RGroup _ r1 => only_units f r1
  | RBackref _ => False
  | RBegin | REnd | RWordB => True
  end.

Definition consumes (f : N -> bool) (st st' : mstate) : Prop :=
  exists w, after st = w ++ after st' /\ Forall (fun c => f c = true) w.

Lemma consumes_refl f st : consumes f st st.
Proof. exists []. done. Qed.

Lemma consumes_trans f st1 st2 st3 : consumes f st1 st2 -> consumes f st2 st3 -> consumes f st1 st3.
Proof.
  intros (w1 & E1 & F1) (w2 & E2 & F2). exists (w1 ++ w2). split; [|by apply Forall_app].
  rewrite E1, E2. by rewrite app_assoc.
Qed.

Lemma iterate_consumes f (g : mstate -> list mstate) lz n :
  (forall st st', In st' (g st) -> consumes f st st') ->
  forall st st', In st' (iterate lz g n st) -> consumes f st st'.
Proof.
  intros Hg. induction n as [|n IH]; intros st st' Hin.
  - destruct lz; simpl in Hin; destruct Hin as [<-|[]]; apply consumes_refl.
  - assert (Hd : In st' [st] \/ In st' (List.flat_map
          (fun st' => if Nat.ltb (length (after st')) (length (after st))
                      then iterate lz g n st' else []) (g st))).
    { destruct lz; simpl in Hin; [destruct Hin as [<-|Hin]|apply in_app_or in Hin as [Hin|Hin]];
        simpl; auto. }
    destruct Hd as [[<-|[]]|(s1 & H1 & H2)%in_flat_map]; [apply consumes_refl|].
    case_test; [|done]. eapply consumes_trans; [by apply Hg|by apply IH].
Qed.

Lemma matches_consumes f r st st' :
  only_units f r -> In st' (matches r st) -> consumes f st st'.
Proof.
  revert st st'. induction r as [w|g|r1 IH1 r2 IH2|r1 IH1 r2 IH2|r1 IH1|r1 IH1|r1 IH1|n r1 IH1|n| | |];
    intros st st' Hu Hin; simpl in *.
  - case_test; [|done]. destruct Hin as [<-|[]].
    apply starts_with_spec in Heqb as [r Hr]. exists w. split; [|done]. unfold advance. simpl.
    by rewrite Hr, drop_app_length.
  - destruct (after st) as [|c a] eqn:E; [done|]. case_test; [|done]. destruct Hin as [<-|[]].
    exists [c]. unfold advance. simpl. rewrite E. split; [done|]. constructor; [auto|done].
  - destruct Hu as [Hu1 Hu2]. apply in_flat_map in Hin as (s1 & H1 & H2).
    eapply consumes_trans; [by apply IH1|by apply IH2].
  - destruct Hu as [Hu1 Hu2]. apply in_app_or in Hin as [?|?]; eauto.
  - eapply iterate_consumes; [|done]. eauto.
  - eapply iterate_consumes; [|done]. eauto.
  - apply in_app_or in Hin as [?|[<-|[]]]; eauto using consumes_refl.
  - apply in_map_iff in Hin as (s1 & <- & H1). destruct (IH1 _ _ Hu H1) as (w & E & F).
    by exists w.
  - done.
  - destruct (before st); [|done]. destruct Hin as [<-|[]]. apply consumes_refl.
  - destruct (after st); [|done]. destruct Hin as [<-|[]]. apply consumes_refl.
  - case_test; [|done]. destruct Hin as [<-|[]]. apply consumes_refl.
Qed.

(** The pattern ends with the end of the input. *)
Fixpoint ends_input (r : regex) : bool :=
  match r with REnd => true | RSeq _ r2 => ends_input r2 | _ => false end.

Lemma ends_input_after r st st' :
  ends_input r = true -> In st' (matches r st) -> after st' = [].
Proof.
  revert st. induction r as [w|g|r1 _ r2 IH|r1 _ r2 _|r _|r _|r _|n r _|n| | |]; try done;
    intros st He Hin; simpl in *.
  - apply in_flat_map in Hin as (s1 & _ & H2). eauto.
  - destruct (after st) eqn:E; [|done]. by destruct Hin as [<-|[]].
Qed.

(** A pattern anchored at both ends admits only its units. *)
Lemma anchored_units f r s :
  only_units f r -> ends_input r = true ->
  re_test (RSeq RBegin r) s = true -> Forall (fun c => f c = true) s.
Proof.
  intros Hu He Ht.
  assert (Hm : is_Some (re_match (RSeq RBegin r) s)).
  { unfold re_test in Ht. unfold re_match. destruct (exec _ s); [by eexists|done]. }
  rewrite re_match_anchored in Hm. destruct Hm as [st Hst].
  assert (Hin : In st (matches r (start_state s))).
  { destruct (matches _ _); simplify_eq/=; auto. }
  destruct (matches_consumes f r _ _ Hu Hin) as (w & E & F). simpl in E.
  rewrite (ends_input_after r _ _ He Hin), app_nil_r in E. by rewrite E.
Qed.

(** ** Following the engine along its first choice

    [leads r st r' st']: the ways [r] matches at [st] begin with the ways [r']
    matches at [st'], so if the latter exist the first of them is the match. *)
Definition leads (r : regex) (st : mstate) (r' : regex) (st' : mstate) : Prop :=
  exists rest, matches r st = matches r' st' ++ rest.

Lemma leads_eq r st r' st' : matches r st = matches r' st' -> leads r st r' st'.
Proof. intros E. exists []. by rewrite app_nil_r. Qed.

Lemma leads_trans r1 s1 r2 s2 r3 s3 : leads r1 s1 r2 s2 -> leads r2 s2 r3 s3 -> leads r1 s1 r3 s3.
Proof. intros [x E] [y F]. exists (y ++ x). by rewrite E, F, app_assoc. Qed.

Lemma leads_head r st r' st' : leads r st r' st' -> matches r' st' <> [] ->
  head (matches r st) = head (matches r' st').
Proof. intros [x ->] H. by destruct (matches r' st'). Qed.

(** A run of a class, captured or not, under any continuation. *)
Lemma flat_map_peel_leads (k : mstate -> list mstate) b w r cs :
  exists rest, List.flat_map k (peel b w r cs) = k (MState (reverse w ++ b) r cs) ++ rest.
Proof.
  revert b. induction w as [|c w IH]; intros b; cbn [peel].
  - exists []. done.
  - destruct (IH (c :: b)) as [x E]. eexists. rewrite flat_map_app, E.
    by rewrite reverse_cons, <- !app_assoc.
Qed.

Definition stops (f : N -> bool) (r : jstr) : Prop :=
  match r with c :: _ => f c = false | [] => True end.

Lemma leads_star f w r b cs K :
  stops f r -> Forall (fun c => f c = true) w ->
  leads (RSeq (RStar (RClass f)) K) (MState b (w ++ r) cs) K (MState (reverse w ++ b) r cs).
Proof.
  intros Hr Hw. unfold leads.
  change (matches (RSeq ?a ?b) ?s) with (List.flat_map (matches b) (matches a s)).
  erewrite star_run by (done || by apply class_reads). apply flat_map_peel_leads.
Qed.

Lemma leads_group_star f n w r b cs K :
  stops f r -> Forall (fun c => f c = true) w ->
  leads (RSeq (RGroup n (RStar (RClass f))) K) (MState b (w ++ r) cs)
    K (MState (reverse w ++ b) r ((n, w) :: cs)).
Proof.
  intros Hr Hw. unfold leads.
  change (matches (RSeq ?a ?b) ?s) with (List.flat_map (matches b) (matches a s)).
  change (matches (RGroup ?n ?r) ?s)
    with (List.map (fun st' => capture n (consumed s st') st') (matches r s)).
  erewrite star_run by (done || by apply class_reads). rewrite flat_map_map.
  destruct (flat_map_peel_leads
    (fun x => matches K (capture n (consumed (MState b (w ++ r) cs) x) x)) b w r cs) as [x E].
  exists x. rewrite E. do 2 f_equal. unfold capture, consumed. cbn.
  rewrite length_app. replace (length w + length r - length r)%nat with (length w) by lia.
  by rewrite take_app_length.
Qed.

Lemma leads_group_plus f n w r b cs K :
  w <> [] -> stops f r -> Forall (fun c => f c = true) w ->
  leads (RSeq (RGroup n (RPlus (RClass f))) K) (MState b (w ++ r) cs)
    K (MState (reverse w ++ b) r ((n, w) :: cs)).
Proof.
  intros Hne Hr Hw. destruct w as [|c w]; [done|]. unfold leads.
  change (matches (RSeq ?a ?b) ?s) with (List.flat_map (matches b) (matches a s)).
  change (matches (RGroup ?n ?r) ?s)
    with (List.map (fun st' => capture n (consumed s st') st') (matches r s)).
  rewrite plus_run by done. rewrite flat_map_map.
  destruct (flat_map_peel_leads
    (fun x => matches K (capture n (consumed (MState b ((c :: w) ++ r) cs) x) x)) (c :: b) w r cs)
    as [x E].
  exists x. rewrite E. do 2 f_equal. unfold capture, consumed. cbn [before after caps].
  rewrite length_app.
  replace (length (c :: w) + length r - length r)%nat with (length (c :: w)) by lia.
  rewrite take_app_length. by rewrite reverse_cons, <- app_assoc.
Qed.

Lemma leads_lit w r b cs K :
  leads (RSeq (RLit w) K) (MState b (w ++ r) cs) K (MState (reverse w ++ b) r cs).
Proof. apply leads_eq, seq_lit. Qed.

Lemma leads_opt r K st : leads (RSeq (ROpt r) K) st (RSeq r K) st.
Proof.
  exists (matches K st). cbn [matches]. rewrite flat_map_app. cbn. by rewrite app_nil_r.
Qed.

Lemma leads_no_opt r K st : matches r st = [] -> leads (RSeq (ROpt r) K) st K st.
Proof. intros E. apply leads_eq. cbn [matches]. rewrite E. cbn. apply app_nil_r. Qed.

Lemma leads_assoc r1 r2 K st : leads (RSeq (RSeq r1 r2) K) st (RSeq r1 (RSeq r2 K)) st.
Proof. apply leads_eq, seq_assoc. Qed.

(** The same, for the remaining text and the captures only. *)
Definition goes (r : regex) (s : jstr) (cs : list (nat * jstr))
  (r' : regex) (s' : jstr) (cs' : list (nat * jstr)) : Prop :=
  forall b, exists b', leads r (MState b s cs) r' (MState b' s' cs').

Lemma goes_refl r s cs : goes r s cs r s cs.
Proof. intros b. exists b. by apply leads_eq. Qed.

Lemma goes_trans r1 s1 c1 r2 s2 c2 r3 s3 c3 :
  goes r1 s1 c1 r2 s2 c2 -> goes r2 s2 c2 r3 s3 c3 -> goes r1 s1 c1 r3 s3 c3.
Proof.
  intros H G b. destruct (H b) as [b' L]. destruct (G b') as [b'' L'].
  exists b''. by eapply leads_trans.
Qed.

Lemma goes_lit w r cs K : goes (RSeq (RLit w) K) (w ++ r) cs K r cs.
Proof. intros b. eexists. apply leads_lit. Qed.

Lemma goes_assoc r1 r2 K s cs : goes (RSeq (RSeq r1 r2) K) s cs (RSeq r1 (RSeq r2 K)) s cs.
Proof. intros b. exists b. apply leads_assoc. Qed.

Lemma goes_space r cs K : stops is_ws r -> goes (RSeq ws_star K) (32 :: r) cs K r cs.
Proof. intros Hr b. eexists. by apply (leads_star is_ws [32]); [|repeat constructor]. Qed.

(** Follows literals and single spaces; [side] shows where a space ends. *)
Ltac follow side :=
  repeat (eapply goes_trans;
          [first [apply goes_assoc | apply goes_lit | apply goes_space; solve [side]]|]).

Lemma goes_group_plus f n w r cs K :
  w <> [] -> stops f r -> Forall (fun c => f c = true) w ->
  goes (RSeq (RGroup n (RPlus (RClass f))) K) (w ++ r) cs K r ((n, w) :: cs).
Proof. intros. intros b. eexists. by apply leads_group_plus. Qed.

Lemma goes_group_star f n w r cs K :
  stops f r -> Forall (fun c => f c = true) w ->
  goes (RSeq (RGroup n (RStar (RClass f))) K) (w ++ r) cs K r ((n, w) :: cs).
Proof. intros. intros b. eexists. by apply leads_group_star. Qed.

Lemma goes_opt r K s cs : goes (RSeq (ROpt r) K) s cs (RSeq r K) s cs.
Proof. intros b. exists b. apply leads_opt. Qed.

Lemma goes_no_opt r K s cs :
  (forall b, matches r (MState b s cs) = []) -> goes (RSeq (ROpt r) K) s cs K s cs.
Proof. intros H b. exists b. by apply leads_no_opt. Qed.

Lemma seq_ws w r b cs x l K :
  Forall (fun c => is_ws c = true) w -> stops is_ws r -> is_ws x = false ->
  matches (RSeq ws_star (RSeq (RLit (x :: l)) K)) (MState b (w ++ r) cs) =
  matches (RSeq (RLit (x :: l)) K) (MState (reverse w ++ b) r cs).
Proof.
  intros Hw Hr Hx. apply (seq_run is_ws); [by apply class_reads|done|by apply refuses_lit].
Qed.

Lemma seq_of_cons r l : l <> [] -> seq_of (r :: l) = RSeq r (seq_of l).
Proof. by destruct l. Qed.

(** ** Searching *)

(** [s.replace(r, f)] for a pattern that is not global: the first match. *)
Definition replace_first (r : regex) (f : mstate -> jstr) (s : jstr) : jstr :=
  match exec r s with
  | Some (b, e) => consumed (start_state s) b ++ f e ++ after e
  | None => s
  end.

(** The pattern can only match where a unit of [f] comes next. *)
Definition starts_at (f : N -> bool) (r : regex) : Prop :=
  forall st, match after st with c :: _ => f c = false | [] => True end -> matches r st = [].

Lemma search_skip f r w b a cs fuel :
  starts_at f r -> Forall (fun c => f c = false) w ->
  search_from (length w + fuel) r (MState b (w ++ a) cs) = search_from fuel r (MState (reverse w ++ b) a cs).
Proof.
  intros Hr Hw. revert b. induction Hw as [|c w Hc Hw IH]; intros b; [done|].
  simpl. unfold match_here. rewrite Hr by done. simpl. unfold advance. simpl. rewrite IH.
  by rewrite reverse_cons, <- app_assoc.
Qed.

Lemma search_none f r w b cs fuel :
  starts_at f r -> Forall (fun c => f c = false) w -> search_from fuel r (MState b w cs) = None.
Proof.
  intros Hr Hw. revert b fuel. induction Hw as [|c w Hc Hw IH]; intros b fuel.
  - destruct fuel; simpl; unfold match_here; by rewrite Hr.
  - destruct fuel; simpl; unfold match_here; rewrite Hr by done; simpl; [done|]. apply IH.
Qed.

Lemma exec_none f r s : starts_at f r -> Forall (fun c => f c = false) s -> exec r s = None.
Proof. apply search_none. Qed.

Lemma exec_skip f r w a :
  starts_at f r -> Forall (fun c => f c = false) w ->
  exec r (w ++ a) = search_from (length a) r (MState (reverse w) a []).
Proof.
  intros. unfold exec, start_state. rewrite length_app. erewrite search_skip by done.
  by rewrite app_nil_r.
Qed.

Lemma starts_at_lit x w K : starts_at (N.eqb x) (RSeq (RLit (x :: w)) K).
Proof.
  intros [b [|c a] cs] H; apply seq_lit_fail; simpl in *; [done|]. by rewrite H.
Qed.

Lemma starts_at_group n f r K : starts_at f r -> starts_at f (RSeq (RGroup n r) K).
Proof. intros Hr st H. simpl. by rewrite Hr. Qed.

(** A lazy run offers its shorter ends first. *)
Lemma lazy_run f w z b cs n :
  Forall (fun c => f c = true) w -> (length (w ++ z) <= n)%nat ->
  exists l n', iterate true (matches (RClass f)) n (MState b (w ++ z) cs) =
    l ++ iterate true (matches (RClass f)) n' (MState (reverse w ++ b) z cs) /\ (length z <= n')%nat /\
    Forall (fun st => exists v, v <> [] /\ v `suffix_of` w /\ after st = v ++ z) l.
Proof.
  assert (Hg : forall b c a cs, f c = true -> matches (RClass f) (MState b (c :: a) cs) = [MState (c :: b) a cs]).
  { intros. simpl. by rewrite H. }
  revert Hg. generalize (matches (RClass f)). intros g Hg Hw. revert b n.
  induction Hw as [|c w Hc Hw IH]; intros b n Hn.
  - exists [], n. simpl in *. split_and!; [done..|constructor].
  - destruct n as [|n]; simpl in Hn; [lia|]. destruct (IH (c :: b) n) as (l & n' & E & Hn' & Hl); [lia|].
    exists (MState b (c :: w ++ z) cs :: l), n'. split_and!; [|done|].
    + simpl. rewrite Hg by done. simpl. rewrite (proj2 (Nat.ltb_lt _ _)) by lia.
      rewrite E, app_nil_r. by rewrite reverse_cons, <- app_assoc.
    + constructor; [exists (c :: w); done|]. eapply Forall_impl; [exact Hl|]. simpl.
      intros st (v & Hv & Hs & Ha). exists v. split_and!; [done|by apply suffix_cons_r|done].
Qed.

(** The positions a search tries. *)
Lemma search_found n r st b e :
  search_from n r st = Some (b, e) ->
  exists k, (k <= length (after st))%nat /\ b = advance k st /\ In e (matches r b) /\
    forall j, (j < k)%nat -> matches r (advance j st) = [].
Proof.
  revert st. induction n as [|n IH]; intros st H; simpl in H; unfold match_here in H.
  all: destruct (matches r st) as [|s l] eqn:E; simpl in H.
  all: try (injection H as <- <-; exists 0%nat; rewrite advance_0, E; split_and!; [lia|done|by left|intros; lia]).
  - done.
  - destruct (after st) as [|c a] eqn:Ea; [done|].
    destruct (IH (advance 1 st) H) as (k & Hk & -> & Hin & Hj). rewrite advance_advance in *.
    rewrite advance_after, Ea in Hk. simpl in Hk. rewrite drop_0 in Hk.
    exists (1 + k)%nat. split_and!; [simpl; lia|done|done|]. intros [|j] Hlt; [by rewrite advance_0|].
    rewrite <- (advance_advance j 1). apply Hj. lia.
Qed.

Lemma search_missed n r st :
  search_from n r st = None -> (length (after st) <= n)%nat ->
  forall j, (j <= length (after st))%nat -> matches r (advance j st) = [].
Proof.
  revert st. induction n as [|n IH]; intros st H Hn j Hj; simpl in H; unfold match_here in H.
  all: destruct (matches r st) as [|s l] eqn:E; simpl in H; [|done].
  - destruct j; [by rewrite advance_0|lia].
  - destruct j as [|j]; [by rewrite advance_0|]. destruct (after st) as [|c a] eqn:Ea; [simpl in Hj; lia|].
    rewrite <- (advance_advance j 1). simpl in Hn, Hj.
    apply IH; [done|..]; rewrite advance_after, Ea; simpl; rewrite drop_0; lia.
Qed.

(** ** Words given by classes *)

(** The text begins with units of the classes [p]. *)
Fixpoint fits (p : list (N -> bool)) (s : jstr) : bool :=
  match p, s with
  | [], _ => true
  | f :: p', c :: s' => f c && fits p' s'
  | _ :: _, [] => false
  end.

(** The text contains such a word. *)
Fixpoint occurs (p : list (N -> bool)) (s : jstr) : bool :=
  fits p s || match s with [] => false | _ :: s' => occurs p s' end.

Definition word_regex (p : list (N -> bool)) : regex := seq_of (List.map RClass p).

Lemma word_matches p st :
  p <> [] -> matches (word_regex p) st = if fits p (after st) then [advance (length p) st] else [].
Proof.
  unfold word_regex. revert st. induction p as [|f p IH]; intros st Hp; [done|].
  destruct p as [|g p].
  - simpl. destruct (after st) as [|c a]; [done|]. by rewrite andb_true_r.
  - change (matches (seq_of (List.map RClass (f :: g :: p))) st) with
      (List.flat_map (matches (seq_of (List.map RClass (g :: p)))) (matches (RClass f) st)).
    simpl (matches (RClass f) st). destruct (after st) as [|c a] eqn:Ea; [done|].
    change (fits (f :: g :: p) (c :: a)) with (f c && fits (g :: p) a).
    destruct (f c); [|done]. cbn [List.flat_map andb]. rewrite app_nil_r, IH by done.
    rewrite advance_after, Ea. change (drop 1 (c :: a)) with a.
    destruct (fits (g :: p) a); [|done]. by rewrite advance_advance.
Qed.

Lemma occurs_spec p s : occurs p s = true <-> exists i, (i <= length s)%nat /\ fits p (drop i s) = true.
Proof.
  induction s as [|c s IH]; cbn [occurs].
  - rewrite orb_false_r. split; [intros H; exists 0%nat; done|]. intros (i & _ & H). by rewrite drop_nil in H.
  - rewrite orb_true_iff, IH. split.
    + intros [H|(i & Hi & H)]; [exists 0%nat; by split; [lia|]|]. exists (S i). split; [simpl; lia|done].
    + intros ([|i] & Hi & H); [by left|right]. exists i. split; [simpl in Hi; lia|done].
Qed.

Lemma fits_longer p s t : fits p s = true -> fits p (s ++ t) = true.
Proof.
  revert s. induction p as [|f p IH]; intros [|c s]; simpl; try done.
  intros [-> H]%andb_true_iff. simpl. by apply IH.
Qed.

Lemma occurs_app_l p s t : occurs p s = true -> occurs p (s ++ t) = true.
Proof.
  rewrite !occurs_spec. intros (i & Hi & H). exists i. rewrite length_app. split; [lia|].
  rewrite drop_app_le by done. by apply fits_longer.
Qed.

Lemma occurs_app_r p s t : occurs p t = true -> occurs p (s ++ t) = true.
Proof. intros H. induction s as [|c s IH]; [done|]. simpl. by rewrite IH, orb_true_r. Qed.

(** [w] can be put into a text without making a word of [p]: none of its
    units begins such a word and its first unit belongs to none. *)
Definition inert (p : list (N -> bool)) (w : jstr) : bool :=
  match p, w with
  | f :: _, c :: _ => List.forallb (fun x => negb (f x)) w && List.forallb (fun g => negb (g c)) p
  | _, _ => false
  end.

Lemma fits_inert p x w y : inert p w = true -> fits p (x ++ w ++ y) = true -> fits p x = true.
Proof.
  destruct w as [|c w]; [by destruct p|]. intros Hi.
  assert (Hp : Forall (fun g => g c = false) p).
  { destruct p; [done|]. apply andb_true_iff in Hi as [_ Hi]. apply Forall_forall. intros g Hg.
    rewrite forallb_forall in Hi. apply list_elem_of_In in Hg. by apply Hi, negb_true_iff in Hg. }
  clear Hi. revert x. induction Hp as [|g p Hg Hp IH]; intros [|d x]; cbn [fits app]; try done.
  - by rewrite Hg.
  - intros [-> H]%andb_true_iff. by apply IH.
Qed.

Lemma occurs_inert p x w y :
  inert p w = true -> occurs p (x ++ w ++ y) = true -> occurs p x = true \/ occurs p y = true.
Proof.
  intros Hi. induction x as [|c x IH].
  - intros H. right. cbn [app] in H. destruct p as [|f p]; [done|]. destruct w as [|c0 w0]; [done|].
    cbn [inert] in Hi. apply andb_true_iff in Hi as [Hi _]. revert Hi H. generalize (c0 :: w0). clear.
    intros w. induction w as [|c w IH]; [done|]. cbn [List.forallb app occurs fits].
    intros [Hc Hw]%andb_true_iff. apply negb_true_iff in Hc. rewrite Hc. cbn [andb orb]. by apply IH.
  - cbn [app occurs]. intros [H|H]%orb_true_iff.
    + left. rewrite app_comm_cons in H. apply fits_inert in H; [|done]. by rewrite H.
    + destruct (IH H) as [->|?]; [left; apply orb_true_r|by right].
Qed.

Definition forward (r : regex) : Prop := only_units (fun _ => true) r.

Lemma search_forward n r st b e :
  forward r -> search_from n r st = Some (b, e) ->
  exists k, after st = consumed st b ++ drop k (after st) /\ b = advance k st /\ (k <= length (after st))%nat /\
    after e `suffix_of` after st.
Proof.
  intros Hf H. destruct (search_found _ _ _ _ _ H) as (k & Hk & -> & Hin & _). exists k.
  rewrite consumed_advance, take_drop by done. split_and!; [done..|].
  destruct (matches_consumes _ _ _ _ Hf Hin) as (w & Ew & _). rewrite advance_after in Ew.
  exists (take k (after st) ++ w). by rewrite <- app_assoc, <- Ew, take_drop.
Qed.

(** A replacement by an inert text makes no word. *)
Lemma replace_from_inert p r w fuel st :
  inert p w = true -> forward r ->
  occurs p (replace_from fuel r w st) = true -> occurs p (after st) = true.
Proof.
  intros Hi Hf. revert st. induction fuel as [|fuel IH]; intros st; [done|]. cbn [replace_from].
  destruct (search_from _ r st) as [[b e]|] eqn:E; [|done].
  destruct (search_forward _ _ _ _ _ Hf E) as (k & Es & _ & _ & [u Eu]).
  intros [H|H]%occurs_inert; [|by rewrite Eu; apply occurs_app_r, (IH _ H)|done].
  rewrite Es. by apply occurs_app_l.
Qed.

Lemma replace_all_inert p r w s :
  inert p w = true -> forward r -> occurs p s = false -> occurs p (replace_all r w s) = false.
Proof.
  intros Hi Hf. rewrite <- !not_true_iff_false. intros Hs H. apply Hs.
  exact (replace_from_inert p r w _ (start_state s) Hi Hf H).
Qed.

Lemma word_forward p : forward (word_regex p).
Proof.
  unfold word_regex, forward. induction p as [|f p IH]; [constructor|]. by destruct p.
Qed.

(** Replacing the words themselves by an inert text leaves none. *)
Lemma replace_words p w s : inert p w = true -> occurs p (replace_all (word_regex p) w s) = false.
Proof.
  intros Hi. assert (Hp : p <> []) by (by intros ->). unfold replace_all.
  change s with (after (start_state s)) at 1. generalize (start_state s). intros st.
  assert (Hn : (length (after st) < S (length (after st)))%nat) by lia. revert Hn.
  generalize (S (length (after st))) as n. intros n. revert st.
  induction n as [|n IH]; intros st Hn; [lia|]. cbn [replace_from].
  destruct (search_from _ _ st) as [[b e]|] eqn:E.
  - destruct (search_found _ _ _ _ _ E) as (k & Hk & -> & Hin & Hj).
    apply not_true_iff_false. intros [H|H]%occurs_inert; [| |done].
    + rewrite consumed_advance in H by done. apply occurs_spec in H as (i & Hi' & H).
      rewrite length_take in Hi'. destruct (decide (i < k)%nat) as [Hlt|Hge].
      * specialize (Hj i Hlt). rewrite word_matches in Hj by done. rewrite advance_after in Hj.
        replace (fits p (drop i (after st))) with true in Hj; [done|]. symmetry.
        rewrite <- (take_drop k (after st)), drop_app_le by (rewrite length_take; lia). by apply fits_longer.
      * rewrite drop_ge in H by (rewrite length_take; lia). by destruct p.
    + rewrite word_matches in Hin by done. case_test; [|done]. destruct Hin as [<-|[]].
      rewrite IH in H; [done|]. cbn [after]. rewrite !advance_after, !length_drop. destruct p; [done|]. cbn [length].
      assert (k < length (after st) \/ drop k (after st) = [])%nat as [?|Hnil]; [|lia|].
      { destruct (decide (k < length (after st))%nat); [by left|right; apply drop_ge; lia]. }
      by rewrite advance_after, Hnil in Heqb.
  - apply not_true_iff_false. intros (i & Hi' & H)%occurs_spec.
    pose proof (search_missed _ _ _ E ltac:(lia) i Hi') as Hm. rewrite word_matches in Hm by done.
    rewrite advance_after, H in Hm. done.
Qed.
