(* ===== verification/JsValue.v ===== *)
(** * Values of the language and JSON

    Untyped data ([unknown], [any], parsed JSON) as a sum type; objects as
    association lists in property order (array index keys in ascending order,
    then the others in order of creation); truthiness, [String(v)],
    [Number(v)], [JSON.parse] and [JSON.stringify]. *)

From S2P Require Import Prelude.
From S2P Require Import JsString.
From S2P Require Import JsNumber.

Local Open Scope N_scope.

#[local] Set Warnings "-register-all".

Inductive jsval :=
| VUndef
| VNull
| VBool (b : bool)
| VNum (x : num)
| VStr (s : jstr)
| VArr (l : list jsval)
| VObj (l : list (jstr * jsval)).

Abbreviation jsobj := (list (jstr * jsval)).

(** ** Objects *)

(** The number of an array index key: a canonical decimal below 2^32 - 1. *)
Definition index_key (k : jstr) : option N :=
  if is_decimal k && (dec_of_N (dec_value k) =?= k) && (dec_value k <? 4294967295)
  then Some (dec_value k) else None.

Fixpoint obj_get {V} (k : jstr) (o : list (jstr * V)) : option V :=
  match o with
  | [] => None
  | (k', v) :: o' => if k =?= k' then Some v else obj_get k o'
  end.

Definition obj_has {V} (k : jstr) (o : list (jstr * V)) : bool :=
  match obj_get k o with Some _ => true | None => false end.

(** Adds a key the object does not have, at its place in property order. *)
Fixpoint obj_add {V} (k : jstr) (v : V) (o : list (jstr * V)) : list (jstr * V) :=
  match o with
  | [] => [(k, v)]
  | (k', v') :: o' =>
      match index_key k, index_key k' with
      | Some n, Some n' =>
          if n <? n' then (k, v) :: (k', v') :: o' else (k', v') :: obj_add k v o'
      | Some _, None => (k, v) :: (k', v') :: o'
      | None, _ => (k', v') :: obj_add k v o'
      end
  end.

Fixpoint obj_update {V} (k : jstr) (v : V) (o : list (jstr * V)) : list (jstr * V) :=
  match o with
  | [] => []
  | (k', v') :: o' => if k =?= k' then (k', v) :: o' else (k', v') :: obj_update k v o'
  end.

(** [o[k] = v]. *)
Definition obj_set {V} (k : jstr) (v : V) (o : list (jstr * V)) : list (jstr * V) :=
  if obj_has k o then obj_update k v o else obj_add k v o.

(** [delete o[k]]. *)
Definition obj_delete {V} (k : jstr) (o : list (jstr * V)) : list (jstr * V) :=
  List.filter (fun kv => kv.1 <?> k) o.

(** [Object.keys], [Object.values]. *)
Definition obj_keys {V} (o : list (jstr * V)) : list jstr := List.map fst o.
Definition obj_values {V} (o : list (jstr * V)) : list V := List.map snd o.

(** [{ ...a, ...b }]. *)
Definition obj_merge {V} (a b : list (jstr * V)) : list (jstr * V) :=
  fold_left (fun o kv => obj_set kv.1 kv.2 o) b a.

(** [Object.fromEntries] and the effect of an object literal. *)
Definition obj_of {V} (l : list (jstr * V)) : list (jstr * V) := obj_merge [] l.

(** [v[k]] on an own property, [undefined] when it is absent; reading a
    property of a primitive other than [null] and [undefined] gives
    [undefined] for every key the sources use. *)
Definition get_prop (k : jstr) (v : jsval) : jsval :=
  match v with
  | VObj o => default VUndef (obj_get k o)
  | _ => VUndef
  end.

(** ** Conversions *)

Definition truthy (v : jsval) : bool :=
  match v with
  | VUndef | VNull => false
  | VBool b => b
  | VNum x => truthy_num x
  | VStr s => truthy_str s
  | VArr _ | VObj _ => true
  end.

(** [v || d]. *)
Definition val_or (v d : jsval) : jsval := if truthy v then v else d.

(** [v == null]. *)
Definition is_nullish (v : jsval) : bool :=
  match v with VUndef | VNull => true | _ => false end.

(** [String(v)]. *)
Fixpoint string_of_val (v : jsval) : jstr :=
  match v with
  | VUndef => js "undefined"
  | VNull => js "null"
  | VBool true => js "true"
  | VBool false => js "false"
  | VNum x => string_of_num x
  | VStr s => s
  | VArr l =>
      join (js ",")
        (List.map (fun x => match x with VUndef | VNull => [] | _ => string_of_val x end) l)
  | VObj _ => js "[object Object]"
  end.

(** [Number(v)]. *)
Definition number_of_val (v : jsval) : num :=
  match v with
  | VUndef => NaN
  | VNull => num_zero
  | VBool b => num_of_Z (if b then 1 else 0)
  | VNum x => x
  | VStr s => number_of_string s
  | VArr _ => number_of_string (string_of_val v)
  | VObj _ => NaN
  end.

(** The members [{ ...v }] copies, and the entries of [Object.entries(v)]. *)
Definition spread (v : jsval) : jsobj :=
  match v with
  | VObj o => o
  | VArr l => imap (fun i x => (dec_of_N (N.of_nat i), x)) l
  | VStr t => imap (fun i c => (dec_of_N (N.of_nat i), VStr [c])) t
  | _ => []
  end.

(** [typeof v === 'object'] and not an array, not [null]. *)
Definition as_object (v : jsval) : option jsobj :=
  match v with VObj o => Some o | _ => None end.

Definition as_array (v : jsval) : option (list jsval) :=
  match v with VArr l => Some l | _ => None end.

Definition as_string (v : jsval) : option jstr :=
  match v with VStr s => Some s | _ => None end.

(** [v === true], [v === false]. *)
Definition is_true (v : jsval) : bool := match v with VBool true => true | _ => false end.
Definition is_false (v : jsval) : bool := match v with VBool false => true | _ => false end.

(** ** JSON.stringify *)

Definition hex_digit (n : N) : N := if n <? 10 then 48 + n else 87 + n.

Definition unicode_escape (c : N) : jstr :=
  [92; 117; hex_digit (c / 4096); hex_digit (c / 256 mod 16);
   hex_digit (c / 16 mod 16); hex_digit (c mod 16)].

Definition is_high_surrogate (c : N) : bool := (55296 <=? c) && (c <=? 56319).
Definition is_low_surrogate (c : N) : bool := (56320 <=? c) && (c <=? 57343).

Definition quote_unit (c : N) : jstr :=
  if c =? 8 then [92; 98]
  else if c =? 9 then [92; 116]
  else if c =? 10 then [92; 110]
  else if c =? 12 then [92; 102]
  else if c =? 13 then [92; 114]
  else if c =? 34 then [92; 34]
  else if c =? 92 then [92; 92]
  else if c <? 32 then unicode_escape c
  else [c].

(** The body of QuoteJSONString; unpaired surrogates are escaped. *)
Fixpoint quote_body (s : jstr) : jstr :=
  match s with
  | [] => []
  | c :: r =>
      if is_high_surrogate c then
        match r with
        | d :: r' =>
            if is_low_surrogate d then c :: d :: quote_body r'
            else unicode_escape c ++ quote_body r
        | [] => unicode_escape c
        end
      else if is_low_surrogate c then unicode_escape c ++ quote_body r
      else quote_unit c ++ quote_body r
  end.

(** [JSON.stringify(s)] for a string. *)
Definition quote (s : jstr) : jstr := 34 :: quote_body s ++ [34].

(** [JSON.stringify(v)]; [None] stands for [undefined]. *)
Fixpoint stringify (v : jsval) : option jstr :=
  match v with
  | VUndef => None
  | VNull => Some (js "null")
  | VBool true => Some (js "true")
  | VBool false => Some (js "false")
  | VNum x => Some (if is_finite x then string_of_num x else js "null")
  | VStr s => Some (quote s)
  | VArr l =>
      Some (js "[" ++ join (js ",") (List.map (fun x => default (js "null") (stringify x)) l)
            ++ js "]")
  | VObj o =>
      Some (js "{" ++
            join (js ",")
              (List.flat_map
                 (fun kv => match stringify kv.2 with
                            | Some t => [quote kv.1 ++ js ":" ++ t]
                            | None => []
                            end) o)
            ++ js "}")
  end.

(** ** JSON.parse *)

Definition json_ws (c : N) : bool := (c =? 32) || (c =? 9) || (c =? 10) || (c =? 13).

Definition skip_ws (s : jstr) : jstr := drop_while json_ws s.

Definition hex_value (c : N) : option N :=
  if is_digit c then Some (c - 48)
  else if (97 <=? c) && (c <=? 102) then Some (c - 87)
  else if (65 <=? c) && (c <=? 70) then Some (c - 55)
  else None.

Definition simple_escape (c : N) : option N :=
  if c =? 34 then Some 34
  else if c =? 92 then Some 92
  else if c =? 47 then Some 47
  else if c =? 98 then Some 8
  else if c =? 102 then Some 12
  else if c =? 110 then Some 10
  else if c =? 114 then Some 13
  else if c =? 116 then Some 9
  else None.

(** The text after an opening quote: the string and what follows the closing
    quote. *)
Fixpoint parse_string_body (s : jstr) : option (jstr * jstr) :=
  match s with
  | [] => None
  | c :: r =>
      if c =? 34 then Some ([], r)
      else if c <? 32 then None
      else if c =? 92 then
        match r with
        | [] => None
        | e :: r1 =>
            if e =? 117 then
              match r1 with
              | h1 :: h2 :: h3 :: h4 :: r2 =>
                  match hex_value h1, hex_value h2, hex_value h3, hex_value h4 with
                  | Some a, Some b, Some c', Some d =>
                      '(w, t) ← parse_string_body r2;
                      Some ((a * 4096 + b * 256 + c' * 16 + d) :: w, t)
                  | _, _, _, _ => None
                  end
              | _ => None
              end
            else
              match simple_escape e with
              | Some x => '(w, t) ← parse_string_body r1; Some (x :: w, t)
              | None => None
              end
        end
      else '(w, t) ← parse_string_body r; Some (c :: w, t)
  end.

(** A JSON number: no leading zeros, a digit on both sides of the point. *)
Definition parse_json_number (s : jstr) : option (num * jstr) :=
  let '(neg, r) := match s with 45 :: r => (true, r) | _ => (false, s) end in
  let '(i, r1) := span_digits r in
  let int_ok := match i with [] => false | [_] => true | c :: _ => negb (c =? 48) end in
  let '(f, r2, frac_ok) :=
    match r1 with
    | 46 :: t => let '(f, r2) := span_digits t in (f, r2, truthy_str f)
    | _ => ([], r1, true)
    end in
  if int_ok && frac_ok then
    match parse_exponent r2 with
    | Some (e, t) =>
        Some (num_of_dec neg (dec_value (i ++ f)) (e - Z.of_nat (length f)), t)
    | None => None
    end
  else None.

Definition strip_prefix (p s : jstr) : option jstr :=
  if starts_with p s then Some (drop (length p) s) else None.

Fixpoint parse_value (fuel : nat) (s : jstr) : option (jsval * jstr) :=
  match fuel with
  | O => None
  | S f =>
      match skip_ws s with
      | 34 :: r => '(w, t) ← parse_string_body r; Some (VStr w, t)
      | 91 :: r =>
          match skip_ws r with
          | 93 :: t => Some (VArr [], t)
          | r' => '(l, t) ← parse_elems f r'; Some (VArr l, t)
          end
      | 123 :: r =>
          match skip_ws r with
          | 125 :: t => Some (VObj [], t)
          | r' => '(o, t) ← parse_members f [] r'; Some (VObj o, t)
          end
      | (116 :: _) as t => t' ← strip_prefix (js "true") t; Some (VBool true, t')
      | (102 :: _) as t => t' ← strip_prefix (js "false") t; Some (VBool false, t')
      | (110 :: _) as t => t' ← strip_prefix (js "null") t; Some (VNull, t')
      | t => '(x, t') ← parse_json_number t; Some (VNum x, t')
      end
  end
with parse_elems (fuel : nat) (s : jstr) : option (list jsval * jstr) :=
  match fuel with
  | O => None
  | S f =>
      '(v, t) ← parse_value f s;
      match skip_ws t with
      | 44 :: t' => '(l, u) ← parse_elems f t'; Some (v :: l, u)
      | 93 :: t' => Some ([v], t')
      | _ => None
      end
  end
with parse_members (fuel : nat) (o : jsobj) (s : jstr) : option (jsobj * jstr) :=
  match fuel with
  | O => None
  | S f =>
      match skip_ws s with
      | 34 :: r =>
          '(k, t) ← parse_string_body r;
          match skip_ws t with
          | 58 :: t' =>
              '(v, u) ← parse_value f t';
              let o' := obj_set k v o in
              match skip_ws u with
              | 44 :: u' => parse_members f o' u'
              | 125 :: u' => Some (o', u')
              | _ => None
              end
          | _ => None
          end
      | _ => None
      end
  end.

(** [JSON.parse(s)]; [None] stands for a thrown SyntaxError.  Every second
    call consumes input, so the fuel is enough. *)
Definition json_parse (s : jstr) : option jsval :=
  match parse_value (2 * length s + 2) s with
  | Some (v, t) => match skip_ws t with [] => Some v | _ => None end
  | None => None
  end.

(** * Facts *)

Section Objects.
Context {V : Type}.
Implicit Types (k : jstr) (v : V) (o : list (jstr * V)).

Lemma obj_get_add k k' v o :
  obj_get k o = None ->
  obj_get k' (obj_add k v o) = if k' =?= k then Some v else obj_get k' o.
Proof.
  intros Hk. induction o as [|[k1 v1] o IH]; simpl.
  - repeat case_bool_decide; done.
  - simpl in Hk. destruct (bool_decide (k = k1)) eqn:Ek; [done|].
    apply bool_decide_eq_false_1 in Ek.
    assert (Hrec : obj_get k' ((k1, v1) :: obj_add k v o) =
                   if k' =?= k then Some v else if k' =?= k1 then Some v1 else obj_get k' o).
    { simpl. rewrite IH by done. repeat case_bool_decide; congruence. }
    assert (Hfront : obj_get k' ((k, v) :: (k1, v1) :: o) =
                   if k' =?= k then Some v else if k' =?= k1 then Some v1 else obj_get k' o).
    { done. }
    destruct (index_key k), (index_key k1); try exact Hrec; try exact Hfront.
    case_test; [exact Hfront|exact Hrec].
Qed.

Lemma obj_get_update k k' v o :
  obj_has k o = true ->
  obj_get k' (obj_update k v o) = if k' =?= k then Some v else obj_get k' o.
Proof.
  unfold obj_has. induction o as [|[k1 v1] o IH]; simpl; [done|].
  intros H. case_bool_decide as E; simpl.
  - subst. by case_bool_decide.
  - rewrite IH by done. repeat case_bool_decide; congruence.
Qed.

(** Reading after writing. *)
Lemma obj_get_set k k' v o :
  obj_get k' (obj_set k v o) = if k' =?= k then Some v else obj_get k' o.
Proof.
  unfold obj_set. destruct (obj_has k o) eqn:H.
  - by apply obj_get_update.
  - apply obj_get_add. unfold obj_has in H. by destruct (obj_get k o).
Qed.

Lemma obj_get_set_eq k v o : obj_get k (obj_set k v o) = Some v.
Proof. rewrite obj_get_set. by rewrite bool_decide_true. Qed.

Lemma obj_get_set_ne k k' v o : k' <> k -> obj_get k' (obj_set k v o) = obj_get k' o.
Proof. intros. rewrite obj_get_set. by rewrite bool_decide_false. Qed.

Lemma obj_get_delete k k' o :
  obj_get k' (obj_delete k o) = if k' =?= k then None else obj_get k' o.
Proof.
  unfold obj_delete. induction o as [|[k1 v1] o IH]; simpl; [by case_bool_decide|].
  destruct (bool_decide (k1 = k)) eqn:E1; simpl.
  - apply bool_decide_eq_true_1 in E1. subst. rewrite IH. by case_bool_decide.
  - apply bool_decide_eq_false_1 in E1. rewrite IH.
    repeat case_bool_decide; congruence.
Qed.

Lemma obj_keys_get k o : k ∈ obj_keys o <-> is_Some (obj_get k o).
Proof.
  induction o as [|[k1 v1] o IH]; simpl.
  - rewrite elem_of_nil, is_Some_alt. done.
  - rewrite elem_of_cons, IH. case_bool_decide as E.
    + split; [by eexists|by left].
    + split; [by intros [?|?]|by right].
Qed.

Lemma obj_get_merge k (a b : list (jstr * V)) :
  NoDup (obj_keys b) ->
  obj_get k (obj_merge a b) =
  match obj_get k b with Some v => Some v | None => obj_get k a end.
Proof.
  unfold obj_merge. revert a. induction b as [|[k1 v1] b IH]; intros a Hnd; simpl; [done|].
  apply NoDup_cons in Hnd as [Hk1 Hnd]. rewrite IH by done.
  case_bool_decide as E.
  - subst. destruct (obj_get k1 b) eqn:Eb.
    + exfalso. apply Hk1, obj_keys_get. by eexists.
    + by rewrite obj_get_set_eq.
  - by rewrite obj_get_set_ne.
Qed.

Lemma obj_keys_add k v o : obj_keys (obj_add k v o) ≡ₚ k :: obj_keys o.
Proof.
  induction o as [|[k1 v1] o IH]; simpl; [done|].
  assert (Hrec : obj_keys ((k1, v1) :: obj_add k v o) ≡ₚ k :: k1 :: obj_keys o).
  { simpl. rewrite IH. apply Permutation_swap. }
  destruct (index_key k), (index_key k1); try exact Hrec; try done.
  case_test; [done|exact Hrec].
Qed.

Lemma obj_keys_update k v o : obj_keys (obj_update k v o) = obj_keys o.
Proof.
  induction o as [|[k1 v1] o IH]; simpl; [done|].
  case_bool_decide; simpl; [done|]. by rewrite IH.
Qed.

(** Writing a property keeps the keys distinct. *)
Lemma obj_set_NoDup k v o : NoDup (obj_keys o) -> NoDup (obj_keys (obj_set k v o)).
Proof.
  intros H. unfold obj_set, obj_has. destruct (obj_get k o) eqn:E.
  - by rewrite obj_keys_update.
  - rewrite obj_keys_add. constructor; [|done].
    rewrite obj_keys_get, E. by intros [? ?].
Qed.

Lemma obj_filter_NoDup (f : jstr * V -> bool) o : NoDup (obj_keys o) -> NoDup (obj_keys (List.filter f o)).
Proof.
  unfold obj_keys. induction o as [|kv o IH]; [done|]. cbn [List.map List.filter].
  intros [Hk Ho]%NoDup_cons. destruct (f kv); [|by apply IH]. cbn [List.map]. constructor; [|by apply IH].
  rewrite list_elem_of_In in *. intros H. apply Hk. apply in_map_iff in H as (e & E & He).
  apply filter_In in He as [He _]. apply in_map_iff. eauto.
Qed.

Lemma obj_get_filter (f : jstr * V -> bool) o k : NoDup (obj_keys o) ->
  obj_get k (List.filter f o) = match obj_get k o with Some v => if f (k, v) then Some v else None | None => None end.
Proof.
  induction o as [|[k1 v1] o IH]; [done|]. cbn [obj_keys List.map List.filter obj_get fst snd].
  intros [Hk Ho]%NoDup_cons. specialize (IH Ho). case_bool_decide as E.
  - subst. destruct (f (k1, v1)) eqn:Ef; cbn [obj_get]; [by rewrite bool_decide_eq_true_2|].
    rewrite IH. destruct (obj_get k1 o) eqn:Eg; [|done]. exfalso. apply Hk, obj_keys_get. by eexists.
  - destruct (f (k1, v1)); cbn [obj_get]; [by rewrite bool_decide_eq_false_2 by done|done].
Qed.

Lemma obj_delete_NoDup k o : NoDup (obj_keys o) -> NoDup (obj_keys (obj_delete k o)).
Proof.
  unfold obj_keys, obj_delete. induction o as [|[k1 v1] o IH]; simpl; [done|].
  intros [Hk Hnd]%NoDup_cons. destruct (k1 <?> k); simpl; [|auto].
  constructor; [|auto]. intros Hin. apply Hk.
  rewrite !list_elem_of_In in *. apply in_map_iff in Hin as [x [Ex Hx]].
  apply filter_In in Hx as [Hx _]. apply in_map_iff. eauto.
Qed.

End Objects.

(** A loop over the entries of an object, each of which writes its own key only. *)
Lemma obj_fold_get {V W} (step : list (jstr * V) -> jstr * W -> list (jstr * V))
  (h : jstr -> W -> option V -> option V) (l : list (jstr * W)) o k :
  (forall o k w k', obj_get k' (step o (k, w)) = if k' =?= k then h k w (obj_get k o) else obj_get k' o) ->
  NoDup (obj_keys l) ->
  obj_get k (fold_left step l o) =
  match obj_get k l with Some w => h k w (obj_get k o) | None => obj_get k o end.
Proof.
  intros Hs. revert o. induction l as [|[k1 w1] l IH]; intros o Hn; [done|].
  cbn [obj_keys List.map fst] in Hn. apply NoDup_cons in Hn as [Hk1 Hn].
  cbn [fold_left obj_get]. rewrite IH by done. case_bool_decide as E.
  - subst. destruct (obj_get k1 l) eqn:El; [exfalso; apply Hk1, obj_keys_get; by eexists|].
    by rewrite Hs, bool_decide_true.
  - rewrite Hs, bool_decide_false by done. done.
Qed.

#[export] Hint Resolve obj_set_NoDup obj_delete_NoDup : jsdb.

(** ** JSON strings *)

Lemma hex_value_digit n : n < 16 -> hex_value (hex_digit n) = Some n.
Proof.
  intros Hn. unfold hex_digit, hex_value, is_digit.
  destruct (N.ltb_spec n 10) as [H|H].
  - rewrite (proj2 (N.leb_le 48 (48 + n))), (proj2 (N.leb_le (48 + n) 57)) by lia.
    simpl. f_equal. lia.
  - rewrite (proj2 (N.leb_gt (87 + n) 57)) by lia. rewrite andb_false_r.
    rewrite (proj2 (N.leb_le 97 (87 + n))), (proj2 (N.leb_le (87 + n) 102)) by lia.
    simpl. f_equal. lia.
Qed.

Lemma parse_string_unicode c r :
  c < 65536 ->
  parse_string_body (unicode_escape c ++ r) =
  ('(w, t) ← parse_string_body r; Some (c :: w, t)).
Proof.
  intros Hc.
  cbn [unicode_escape app parse_string_body N.eqb N.ltb N.compare Pos.eqb Pos.compare Pos.compare_cont].
  rewrite !hex_value_digit by divlia.
  destruct (parse_string_body r) as [[w t]|]; [|done]. simpl. do 3 f_equal. divlia.
Qed.

Lemma parse_string_plain c r :
  32 <= c -> c <> 34 -> c <> 92 ->
  parse_string_body (c :: r) = ('(w, t) ← parse_string_body r; Some (c :: w, t)).
Proof.
  intros H1 H2 H3. cbn [parse_string_body].
  rewrite (proj2 (N.eqb_neq c 34)), (proj2 (N.ltb_ge c 32)), (proj2 (N.eqb_neq c 92)) by lia.
  done.
Qed.

Lemma parse_string_quote_unit c r :
  c < 65536 ->
  parse_string_body (quote_unit c ++ r) =
  ('(w, t) ← parse_string_body r; Some (c :: w, t)).
Proof.
  intros Hc. unfold quote_unit.
  repeat (match goal with |- context [?c =? ?n] => destruct (N.eqb_spec c n) as [->|] end;
          [done|]).
  destruct (N.ltb_spec c 32); [by apply parse_string_unicode|].
  by apply parse_string_plain.
Qed.

Lemma surrogate_plain c : is_high_surrogate c || is_low_surrogate c = true ->
  32 <= c /\ c <> 34 /\ c <> 92 /\ c < 65536.
Proof.
  unfold is_high_surrogate, is_low_surrogate.
  rewrite orb_true_iff, !andb_true_iff, !N.leb_le. lia.
Qed.

(** A JSON string literal reads back as the string it was made from. *)
Lemma parse_string_quote s t :
  Forall (fun c => c < 65536) s ->
  parse_string_body (quote_body s ++ 34 :: t) = Some (s, t).
Proof.
  remember (length s) as n eqn:Hn. revert s Hn.
  induction n as [n IH] using lt_wf_ind. intros s Hn Hs. subst n.
  destruct s as [|c r]; [done|]. apply Forall_cons in Hs as [Hc Hr].
  assert (IHr : parse_string_body (quote_body r ++ 34 :: t) = Some (r, t)).
  { apply (IH (length r)); [simpl; lia|done..]. }
  cbn [quote_body]. destruct (is_high_surrogate c) eqn:Eh.
  - destruct (surrogate_plain c) as (?&?&?&?); [by rewrite Eh|].
    destruct r as [|d r']; [by rewrite parse_string_unicode|].
    destruct (is_low_surrogate d) eqn:El.
    + destruct (surrogate_plain d) as (?&?&?&?); [by rewrite El, orb_true_r|].
      apply Forall_cons in Hr as [_ Hr'].
      cbn [app]. rewrite !parse_string_plain by done.
      rewrite (IH (length r')); [done|simpl; lia|done..].
    + rewrite <- app_assoc, parse_string_unicode by done. by rewrite IHr.
  - destruct (is_low_surrogate c) eqn:El.
    + rewrite <- app_assoc, parse_string_unicode by done. by rewrite IHr.
    + rewrite <- app_assoc, parse_string_quote_unit by done. by rewrite IHr.
Qed.

(** [JSON.parse(JSON.stringify(s)) === s] for every string. *)
Lemma json_parse_quote s :
  Forall (fun c => c < 65536) s -> json_parse (quote s) = Some (VStr s).
Proof.
  intros Hs. unfold json_parse.
  replace (2 * length (quote s) + 2)%nat with (S (2 * length (quote s) + 1)) by lia.
  cbn [quote parse_value skip_ws drop_while json_ws N.eqb Pos.eqb orb].
  by rewrite parse_string_quote.
Qed.
