(* ===== verification/JsJson.v ===== *)
(** * JSON text of values

    [JSON.parse(JSON.stringify(v))]: what survives the round trip through
    JSON text.  [json_norm v] is [v] without the properties whose value is
    [undefined], with [null] for a missing array element and for a number that
    is not finite, zero for negative zero, and object properties in the order
    the parser creates them; a value that has none of these survives
    unchanged.  [stringify_pretty] is [JSON.stringify(v, null, 2)]; both
    printers are instances of [render]. *)

From S2P Require Import Prelude.
From S2P Require Import JsString.
From S2P Require Import JsNumber.
From S2P Require Import JsDecimal.
From S2P Require Import JsValue.

Local Open Scope N_scope.

(** ** What JSON keeps of a value *)

Definition num_norm (x : num) : jsval :=
  match x with
  | Fin s m => VNum (if m =? 0 then num_zero else x)
  | _ => VNull
  end.

Fixpoint json_norm (v : jsval) : option jsval :=
  match v with
  | VUndef => None
  | VNull => Some VNull
  | VBool b => Some (VBool b)
  | VNum x => Some (num_norm x)
  | VStr s => Some (VStr s)
  | VArr l => Some (VArr (List.map (fun x => default VNull (json_norm x)) l))
  | VObj o =>
      Some (VObj (obj_of (List.flat_map
        (fun kv => match json_norm kv.2 with Some w => [(kv.1, w)] | None => [] end) o)))
  end.

(** ** Printing with and without line breaks *)

(** [None]: one line.  [Some ind]: a line break and the indentation. *)
Definition brk (g : option jstr) : jstr := match g with None => [] | Some ind => 10 :: ind end.
Definition deeper (g : option jstr) : option jstr := (fun ind => ind ++ [32; 32]) <$> g.
Definition colon (g : option jstr) : jstr := match g with None => [58] | Some _ => [58; 32] end.

(** The items between the brackets. *)
Definition enclosed (g : option jstr) (items : list jstr) : jstr :=
  match items with
  | [] => []
  | _ => brk (deeper g) ++ join (44 :: brk (deeper g)) items ++ brk g
  end.

Fixpoint render (g : option jstr) (v : jsval) : option jstr :=
  match v with
  | VArr l =>
      Some ([91] ++ enclosed g (List.map (fun x => default (js "null") (render (deeper g) x)) l) ++ [93])
  | VObj o =>
      Some ([123] ++
            enclosed g (List.flat_map (fun kv => match render (deeper g) kv.2 with
                                                 | Some t => [quote kv.1 ++ colon g ++ t]
                                                 | None => []
                                                 end) o)
            ++ [125])
  | _ => stringify v
  end.

(** [JSON.stringify(v, null, 2)]. *)
Definition stringify_pretty (v : jsval) : option jstr := render (Some []) v.

Definition units_ok (s : jstr) : Prop := Forall (fun c => c < 65536) s.

(** Strings are made of 16 bit units and numbers are doubles. *)
Fixpoint val_ok (v : jsval) : Prop :=
  match v with
  | VNum x => double x
  | VStr s => units_ok s
  | VArr l => (fix go l := match l with [] => True | x :: r => val_ok x /\ go r end) l
  | VObj o =>
      (fix go (o : jsobj) :=
         match o with [] => True | (k, x) :: r => units_ok k /\ val_ok x /\ go r end) o
  | _ => True
  end.

(** Induction over the values inside arrays and objects. *)
Section Nested.
Context (P : jsval -> Prop).
Context (Hu : P VUndef) (Hn : P VNull) (Hb : forall b, P (VBool b)) (Hx : forall x, P (VNum x))
        (Hs : forall s, P (VStr s)) (Ha : forall l, Forall P l -> P (VArr l))
        (Ho : forall o, Forall (fun kv : jstr * jsval => P kv.2) o -> P (VObj o)).

Fixpoint jsval_nested (v : jsval) : P v :=
  match v with
  | VUndef => Hu
  | VNull => Hn
  | VBool b => Hb b
  | VNum x => Hx x
  | VStr s => Hs s
  | VArr l =>
      Ha l ((fix go l := match l return Forall P l with
                         | [] => Forall_nil_2 _
                         | x :: r => Forall_cons_2 _ _ _ (jsval_nested x) (go r)
                         end) l)
  | VObj o =>
      Ho o ((fix go o := match o return Forall (fun kv : jstr * jsval => P kv.2) o with
                         | [] => Forall_nil_2 _
                         | kv :: r => Forall_cons_2 _ kv _ (jsval_nested kv.2) (go r)
                         end) o)
  end.
End Nested.

Lemma val_ok_arr l : val_ok (VArr l) <-> Forall val_ok l.
Proof.
  induction l as [|x r IH]; [done|]. rewrite Forall_cons, <- IH. done.
Qed.

Lemma val_ok_obj o : val_ok (VObj o) <-> Forall (fun kv => units_ok kv.1 /\ val_ok kv.2) o.
Proof.
  induction o as [|[k x] r IH]; [done|]. rewrite Forall_cons, <- IH. cbn. tauto.
Qed.

(** ** Reading values *)

(** The units that can follow a value. *)
Definition value_stop (r : jstr) : Prop :=
  match r with c :: _ => c = 44 \/ c = 93 \/ c = 125 \/ c = 10 | [] => True end.

Lemma value_stop_num r : value_stop r -> num_stop r.
Proof. destruct r as [|c r]; [done|]. by intros [->|[->|[->| ->]]]. Qed.

Lemma stringify_render v : stringify v = render None v.
Proof.
  assert (He : forall ts, enclosed None ts = join [44] ts) by (intros [|t ts]; cbn; [done|apply app_nil_r]).
  induction v as [| |b|x|s|l IH|o IH] using jsval_nested; try done; cbn [stringify render].
  - rewrite He. do 4 f_equal. induction IH as [|x l Hx _ IHl]; [done|]. cbn [List.map].
    by rewrite Hx, IHl.
  - rewrite He. do 4 f_equal. induction IH as [|[k x] o Hx _ IHo]; [done|].
    cbn [List.flat_map fst snd] in *. by rewrite Hx, IHo.
Qed.

Definition gap_ok (g : option jstr) : Prop :=
  match g with None => True | Some ind => Forall (fun c => json_ws c = true) ind end.

Lemma gap_ok_deeper g : gap_ok g -> gap_ok (deeper g).
Proof. destruct g; [|done]. intros H. apply Forall_app. split; [done|by repeat constructor]. Qed.

Lemma brk_ws g : gap_ok g -> Forall (fun c => json_ws c = true) (brk g).
Proof. destruct g; [by constructor|constructor]. Qed.

Lemma skip_ws_app w s : Forall (fun c => json_ws c = true) w -> skip_ws (w ++ s) = skip_ws s.
Proof. induction 1 as [|c w Hc _ IH]; [done|]. unfold skip_ws in *. cbn. by rewrite Hc. Qed.

Lemma brk_stop g c r : c = 44 \/ c = 93 \/ c = 125 -> value_stop (brk g ++ c :: r).
Proof. destruct g; cbn; tauto. Qed.

Lemma parse_value_ws fuel w s :
  Forall (fun c => json_ws c = true) w -> parse_value fuel (w ++ s) = parse_value fuel s.
Proof. intros Hw. destruct fuel; [done|]. cbn [parse_value]. by rewrite skip_ws_app. Qed.

Lemma parse_members_ws fuel o w s :
  Forall (fun c => json_ws c = true) w -> parse_members fuel o (w ++ s) = parse_members fuel o s.
Proof. intros Hw. destruct fuel; [done|]. cbn [parse_members]. by rewrite skip_ws_app. Qed.

Lemma parse_elems_ws fuel w s :
  Forall (fun c => json_ws c = true) w -> parse_elems fuel (w ++ s) = parse_elems fuel s.
Proof. intros Hw. destruct fuel; [done|]. cbn [parse_elems]. by rewrite parse_value_ws. Qed.

(** [t] reads as [w] whatever follows it. *)
Definition reads (t : jstr) (w : jsval) : Prop :=
  forall fuel r, value_stop r -> (2 * length t <= fuel)%nat -> parse_value fuel (t ++ r) = Some (w, r).

(** The first unit of a value. *)
Definition value_head (c : N) : bool :=
  is_digit c || includes c [45; 34; 91; 123; 116; 102; 110].

Lemma value_head_cases c :
  value_head c = true ->
  c ∈ [48; 49; 50; 51; 52; 53; 54; 55; 56; 57; 45; 34; 91; 123; 116; 102; 110].
Proof.
  unfold value_head. intros [H%digit_cases|H%includes_true]%orb_true_iff;
    apply (elem_of_app [48; 49; 50; 51; 52; 53; 54; 55; 56; 57]); tauto.
Qed.

Lemma skip_ws_head c r : value_head c = true -> skip_ws (c :: r) = c :: r.
Proof.
  intros H%value_head_cases. rewrite !elem_of_cons in H.
  repeat destruct H as [->|H]; [done..|]. by apply not_elem_of_nil in H.
Qed.

Lemma skip_ws_stop c r : c = 44 \/ c = 93 \/ c = 125 -> skip_ws (c :: r) = c :: r.
Proof. by intros [->|[->| ->]]. Qed.

Lemma json_number_text (s : bool) t d e r :
  decimal_text t d e -> num_stop r ->
  parse_json_number ((if s then [45] else []) ++ t ++ r) = Some (num_of_dec s d e, r).
Proof.
  intros (i & f & x & -> & Di & Df & Hi & Hz & Hv) Hr. rewrite <- Hv.
  assert (Ei : match i with [] => false | [_] => true | c :: _ => negb (c =? 48) end = true).
  { destruct i as [|c [|c' i]]; [done..|]. destruct Hz as [Hz|Hz]; [done|].
    apply negb_true_iff, N.eqb_neq. intros ->. by apply Hz. }
  assert (Hb : parse_json_number ((if s then [45] else []) ++ (i ++ frac f ++ exponent_text x) ++ r) =
    let '(i, r1) := span_digits (i ++ frac f ++ exponent_text x ++ r) in
    let int_ok := match i with [] => false | [_] => true | c :: _ => negb (c =? 48) end in
    let '(f, r2, frac_ok) :=
      match r1 with
      | 46 :: t => let '(f, r2) := span_digits t in (f, r2, truthy_str f)
      | _ => ([], r1, true)
      end in
    if int_ok && frac_ok then
      match parse_exponent r2 with
      | Some (e, t) => Some (num_of_dec s (dec_value (i ++ f)) (e - Z.of_nat (length f)), t)
      | None => None
      end
    else None).
  { rewrite <- !app_assoc. destruct s; [done|]. destruct Di as [|c i Hc _]; [done|].
    unfold parse_json_number. cbn [app]. each_digit Hc; done. }
  rewrite Hb. clear Hb. destruct f as [|c f]; cbn [frac app].
  - rewrite span_digits_app by (done || by apply exponent_no_digit).
    rewrite exponent_no_dot by done. cbv zeta. rewrite Ei. cbn [andb]. by rewrite parse_exponent_app.
  - rewrite span_digits_app by done. change (c :: f ++ ?y) with ((c :: f) ++ y).
    rewrite span_digits_app by (done || by apply exponent_no_digit).
    cbv zeta. rewrite Ei. cbn [andb truthy_str]. by rewrite parse_exponent_app.
Qed.

Lemma parse_value_number f s t d e r :
  decimal_text t d e -> num_stop r ->
  parse_value (S f) ((if s : bool then [45] else []) ++ t ++ r) = Some (VNum (num_of_dec s d e), r).
Proof.
  intros Ht Hr. pose proof (json_number_text s t d e r Ht Hr) as Hn.
  destruct (decimal_text_units t d e Ht) as (_ & c & t' & -> & Hc). cbn [parse_value].
  destruct s; cbn [app] in *.
  - cbn [skip_ws drop_while json_ws N.eqb Pos.eqb orb]. by rewrite Hn.
  - each_digit Hc; cbn [skip_ws drop_while json_ws N.eqb Pos.eqb orb]; by rewrite Hn.
Qed.

Lemma word_reads (w : jstr) v :
  (w, v) ∈ [(js "null", VNull); (js "true", VBool true); (js "false", VBool false)] -> reads w v.
Proof.
  intros H fuel r _ Hf. rewrite !elem_of_cons in H.
  destruct H as [[= -> ->]|[[= -> ->]|[[= -> ->]|H%not_elem_of_nil]]]; [..|done].
  all: destruct fuel as [|fuel]; [vm_compute in Hf; lia|].
  - vm_compute (js "null"). cbn. done.
  - vm_compute (js "true"). cbn. done.
  - vm_compute (js "false"). cbn. done.
Qed.

Lemma stringify_num_reads x t :
  double x -> stringify (VNum x) = Some t -> reads t (num_norm x).
Proof.
  intros Hx [= <-] fuel r Hr Hf. destruct x as [|s|s m]; cbn [is_finite num_norm] in *.
  1,2: apply word_reads; [left|done|done].
  destruct (N.eqb_spec m 0) as [->|Hm].
  - destruct fuel as [|fuel]; [vm_compute in Hf; lia|].
    assert (Ht : decimal_text [48] 0 0) by (exists [48], [], None; split_and!; [done|by repeat constructor|constructor|done|by left|done]).
    exact (parse_value_number fuel false _ _ _ r Ht (value_stop_num r Hr)).
  - destruct Hx as [Ho Hre].
    destruct (string_of_num_text s m ltac:(lia) Ho Hre) as (t & d & e & E & Ht & Hv). rewrite E in *.
    destruct fuel as [|fuel].
    { destruct (decimal_text_units t d e Ht) as (_ & c & t' & -> & _). rewrite length_app in Hf. cbn in Hf. lia. }
    rewrite <- app_assoc, parse_value_number with (d := d) (e := e) by (done || by apply value_stop_num).
    by rewrite Hv.
Qed.

Lemma quote_reads s : units_ok s -> reads (quote s) (VStr s).
Proof.
  intros Hs fuel r _ Hf. destruct fuel as [|fuel]; [cbn in Hf; lia|].
  unfold quote. cbn [app parse_value skip_ws drop_while json_ws N.eqb Pos.eqb orb].
  rewrite <- app_assoc. cbn [app]. by rewrite (parse_string_quote s r).
Qed.

(** The text of a value is not empty and starts as a value. *)
Lemma render_head g v t : val_ok v -> render g v = Some t -> exists c t', t = c :: t' /\ value_head c = true.
Proof.
  intros Hv. destruct v as [| |[]|x|s|l|o]; cbn [render stringify]; intros [= <-];
    try (do 2 eexists; split; [reflexivity|by vm_compute]).
  destruct x as [|s|s m]; cbn [is_finite]; try (do 2 eexists; split; [reflexivity|by vm_compute]).
  destruct (N.eq_dec m 0) as [->|Hm]; [by exists 48, []|]. destruct Hv as [Ho Hre].
  destruct (string_of_num_text s m ltac:(lia) Ho Hre) as (t & d & e & -> & Ht & _).
  destruct (decimal_text_units t d e Ht) as (_ & c & t' & -> & Hc).
  destruct s; [by exists 45, (c :: t')|]. exists c, t'. split; [done|]. unfold value_head. by rewrite Hc.
Qed.

(** [t] is the text of a value and reads as [w]. *)
Definition item (t : jstr) (w : jsval) : Prop :=
  reads t w /\ exists c t', t = c :: t' /\ value_head c = true.

(** A member of an object: key, text of the value, value. *)
Definition member_text (g : option jstr) (m : jstr * jstr * jsval) : jstr :=
  quote m.1.1 ++ colon g ++ m.1.2.

Section Brackets.
Context (g : option jstr) (Hg : gap_ok g).
Let sep : jstr := 44 :: brk (deeper g).

Lemma sep_ws : Forall (fun c => json_ws c = true) (brk (deeper g)).
Proof using All. by apply brk_ws, gap_ok_deeper. Qed.

Lemma sep_length : (1 <= length sep)%nat.
Proof using. unfold sep. cbn. lia. Qed.

Lemma parse_elems_text ts ws fuel r :
  Forall2 item ts ws -> ts <> [] -> (2 * length (join sep ts) + 1 <= fuel)%nat ->
  parse_elems fuel (join sep ts ++ brk g ++ 93 :: r) = Some (ws, r).
Proof using All.
  intros H. revert fuel. induction H as [|t w ts ws Hi H IH]; intros fuel Hne Hf; [done|].
  destruct fuel as [|fuel]; [lia|]. cbn [parse_elems].
  destruct ts as [|t1 ts1].
  - inversion H; subst. cbn [join] in *.
    rewrite (proj1 Hi) by ((apply brk_stop; auto) || lia).
    cbn [mbind option_bind]. rewrite skip_ws_app by (by apply brk_ws). done.
  - set (rest := join sep (t1 :: ts1)) in *.
    change (join sep (t :: t1 :: ts1)) with (t ++ sep ++ rest) in *.
    rewrite !length_app in Hf. cbn [length] in Hf. rewrite <- !app_assoc.
    rewrite (proj1 Hi) by (cbn; lia || auto).
    unfold sep at 1. cbn [mbind option_bind app]. rewrite skip_ws_stop by (by left).
    rewrite parse_elems_ws by apply sep_ws. rewrite IH by (done || (pose proof sep_length; lia)). done.
Qed.

Lemma parse_member_text k t w o fuel tail :
  units_ok k -> item t w -> value_stop tail -> (2 * length t <= fuel)%nat ->
  parse_members (S fuel) o (member_text g (k, t, w) ++ tail) =
  match skip_ws tail with
  | 44 :: u' => parse_members fuel (obj_set k w o) u'
  | 125 :: u' => Some (obj_set k w o, u')
  | _ => None
  end.
Proof using All.
  intros Hk Hi Ht Hl. unfold member_text. cbn [fst snd]. unfold quote.
  rewrite <- !app_assoc. cbn [app parse_members skip_ws drop_while json_ws N.eqb Pos.eqb orb].
  rewrite <- app_assoc. cbn [app]. rewrite (parse_string_quote k) by done. cbn [mbind option_bind].
  assert (Hc : exists w0, colon g ++ t ++ tail = 58 :: w0 ++ t ++ tail /\ Forall (fun c => json_ws c = true) w0)
    by (destruct g; [exists [32]|exists []]; split; [done|by repeat constructor|done|constructor]).
  destruct Hc as (w0 & -> & Hw). change (skip_ws (58 :: w0 ++ t ++ tail)) with (58 :: w0 ++ t ++ tail).
  cbv iota beta. rewrite parse_value_ws by done. by rewrite (proj1 Hi) by done.
Qed.

Lemma parse_members_text ms o fuel r :
  Forall (fun m => units_ok m.1.1 /\ item m.1.2 m.2) ms -> ms <> [] ->
  (2 * length (join sep (List.map (member_text g) ms)) + 1 <= fuel)%nat ->
  parse_members fuel o (join sep (List.map (member_text g) ms) ++ brk g ++ 125 :: r) =
  Some (obj_merge o (List.map (fun m => (m.1.1, m.2)) ms), r).
Proof using All.
  intros H. revert o fuel. induction H as [|[[k t] w] ms [Hk Hi] H IH]; intros o fuel Hne Hf; [done|].
  destruct fuel as [|fuel]; [lia|]. cbn [fst snd] in *.
  assert (Hlt : (length t < length (member_text g (k, t, w)))%nat).
  { unfold member_text, quote. cbn [fst snd]. rewrite !length_app. cbn [length]. lia. }
  cbn [List.map] in *. destruct ms as [|m1 ms1].
  - cbn [List.map join] in *. rewrite parse_member_text by (done || lia || (apply brk_stop; auto)).
    rewrite skip_ws_app by (by apply brk_ws). done.
  - cbn [List.map] in IH, Hf |- *. set (rest := join sep (member_text g m1 :: List.map (member_text g) ms1)) in *.
    change (join sep (member_text g (k, t, w) :: member_text g m1 :: List.map (member_text g) ms1))
      with (member_text g (k, t, w) ++ sep ++ rest) in *.
    rewrite !length_app in Hf. cbn [length] in Hf. rewrite <- !app_assoc.
    rewrite parse_member_text by (cbn; lia || auto). unfold sep at 1. cbn [app].
    rewrite skip_ws_stop by (by left). rewrite parse_members_ws by apply sep_ws.
    rewrite IH by (done || (pose proof sep_length; lia)). done.
Qed.

Lemma join_head ts c t' r : join sep ((c :: t') :: ts) ++ r = c :: (drop 1 (join sep ((c :: t') :: ts)) ++ r).
Proof using. by destruct ts. Qed.

Lemma array_reads ts ws : Forall2 item ts ws -> reads ([91] ++ enclosed g ts ++ [93]) (VArr ws).
Proof using All.
  intros Hall fuel r Hr Hf. destruct fuel as [|fuel]; [cbn in Hf; lia|].
  destruct ts as [|t1 ts]; [by inversion Hall|].
  cbn [enclosed] in *. fold sep in Hf |- *. rewrite !length_app in Hf. cbn [length] in Hf.
  pose proof (parse_elems_text _ _ fuel r Hall ltac:(done) ltac:(lia)) as Hp. rewrite <- !app_assoc.
  cbn [app parse_value]. rewrite (skip_ws_head 91) by done. cbv iota.
  rewrite skip_ws_app by apply sep_ws.
  assert (H1 : exists c t', t1 = c :: t' /\ value_head c = true) by (inversion Hall as [|? ? ? ? []]; done).
  destruct H1 as (c & t' & -> & Hc). rewrite join_head in Hp |- *. rewrite skip_ws_head by done.
  apply value_head_cases in Hc. rewrite !elem_of_cons in Hc.
  repeat destruct Hc as [->|Hc]; [..|by apply not_elem_of_nil in Hc].
  all: by rewrite Hp.
Qed.

Lemma object_reads ms :
  Forall (fun m => units_ok m.1.1 /\ item m.1.2 m.2) ms ->
  reads ([123] ++ enclosed g (List.map (member_text g) ms) ++ [125])
        (VObj (obj_of (List.map (fun m => (m.1.1, m.2)) ms))).
Proof using All.
  intros Hall fuel r Hr Hf. destruct fuel as [|fuel]; [cbn in Hf; lia|].
  pose proof (parse_members_text ms [] fuel r Hall) as Hp.
  destruct ms as [|m ms]; [done|]. specialize (Hp ltac:(done)).
  cbn [List.map enclosed] in *. fold sep in Hf |- *. rewrite !length_app in Hf. cbn [length] in Hf.
  specialize (Hp ltac:(lia)). rewrite <- !app_assoc.
  cbn [app parse_value]. rewrite (skip_ws_head 123) by done. cbv iota. rewrite skip_ws_app by apply sep_ws.
  set (m0 := m) in *. assert (E : exists t', member_text g m0 = 34 :: t') by (by eexists).
  destruct E as [t' E]. rewrite E in Hp |- *. clearbody m0.
  rewrite join_head in Hp |- *. rewrite skip_ws_head by done. by rewrite Hp.
Qed.
End Brackets.

(** ** The round trip *)

Lemma norm_none g v : json_norm v = None <-> render g v = None.
Proof. destruct v as [| |[]|x|s|l|o]; done. Qed.

(** The members [render] prints. *)
Definition printed_members (g : option jstr) (o : jsobj) : list (jstr * jstr * jsval) :=
  List.flat_map (fun kv => match render (deeper g) kv.2, json_norm kv.2 with
                           | Some t, Some w => [(kv.1, t, w)]
                           | _, _ => []
                           end) o.

Lemma printed_text g o :
  List.flat_map (fun kv => match render (deeper g) kv.2 with
                           | Some t => [quote kv.1 ++ colon g ++ t]
                           | None => []
                           end) o = List.map (member_text g) (printed_members g o).
Proof.
  induction o as [|[k v] o IH]; [done|]. unfold printed_members in *. cbn [List.flat_map fst snd].
  rewrite List.map_app, <- IH. f_equal. destruct (json_norm v) eqn:E.
  - destruct (render (deeper g) v) eqn:Es; [done|]. by apply norm_none in Es; congruence.
  - by rewrite (proj1 (norm_none (deeper g) v) E).
Qed.

Lemma printed_values g o :
  List.flat_map (fun kv => match json_norm kv.2 with Some w => [(kv.1, w)] | None => [] end) o =
  List.map (fun m => (m.1.1, m.2)) (printed_members g o).
Proof.
  induction o as [|[k v] o IH]; [done|]. unfold printed_members in *. cbn [List.flat_map fst snd].
  rewrite List.map_app, <- IH. f_equal. destruct (json_norm v) eqn:E.
  - destruct (render (deeper g) v) eqn:Es; [done|]. by apply norm_none in Es; congruence.
  - by rewrite (proj1 (norm_none (deeper g) v) E).
Qed.

(** What a value that JSON can print reads back as. *)
Lemma render_item g v t w :
  gap_ok g -> val_ok v -> render g v = Some t -> json_norm v = Some w -> item t w.
Proof.
  revert g t w. induction v as [| |b|x|s|l IH|o IH] using jsval_nested; intros g t w Hg Hok Ht Hw;
    (split; [|by eapply render_head]); cbn [json_norm] in Hw; simplify_eq.
  - injection Ht as <-. apply word_reads. by left.
  - destruct b; injection Ht as <-; apply word_reads; [right; by left|do 2 right; by left].
  - by apply stringify_num_reads.
  - injection Ht as <-. by apply quote_reads.
  - injection Ht as <-. apply val_ok_arr in Hok. apply array_reads; [done|].
    induction IH as [|x l Hx IH IHl]; [constructor|].
    inversion_clear Hok as [|? ? Hok1 Hok2]. constructor; [|by apply IHl].
    destruct (render (deeper g) x) as [tx|] eqn:Es, (json_norm x) as [wx|] eqn:Ew; cbn [default].
    + by apply (Hx (deeper g)); [apply gap_ok_deeper|..].
    + apply (norm_none (deeper g)) in Ew. congruence.
    + apply norm_none in Es. congruence.
    + split; [apply word_reads; by left|by do 2 eexists].
  - injection Ht as <-. apply val_ok_obj in Hok. rewrite printed_text, (printed_values g).
    apply object_reads; [done|]. unfold printed_members. induction IH as [|[k x] o Hx IH IHo]; [constructor|].
    inversion_clear Hok as [|? ? [Hk1 Hok1] Hok2]. cbn [List.flat_map fst snd] in *.
    apply Forall_app. split; [|by apply IHo].
    destruct (render (deeper g) x) as [tx|] eqn:Es, (json_norm x) as [wx|] eqn:Ew; [|constructor..].
    constructor; [|constructor]. split; [done|]. by apply (Hx (deeper g)); [apply gap_ok_deeper|..].
Qed.

Lemma render_roundtrip g v t : gap_ok g -> val_ok v -> render g v = Some t -> json_parse t = json_norm v.
Proof.
  intros Hg Hv Ht. destruct (json_norm v) as [w|] eqn:Hw; [|apply (norm_none g) in Hw; congruence].
  destruct (render_item g v t w Hg Hv Ht Hw) as [Hr _]. unfold json_parse.
  specialize (Hr (2 * length t + 2)%nat [] I ltac:(lia)). rewrite app_nil_r in Hr. by rewrite Hr.
Qed.

(** [JSON.parse(JSON.stringify(v))]. *)
Lemma json_roundtrip v t : val_ok v -> stringify v = Some t -> json_parse t = json_norm v.
Proof. rewrite stringify_render. by apply render_roundtrip. Qed.

(** [JSON.parse(JSON.stringify(v, null, 2))]. *)
Lemma pretty_roundtrip v t : val_ok v -> stringify_pretty v = Some t -> json_parse t = json_norm v.
Proof. apply render_roundtrip. constructor. Qed.

(** Plain data: no [undefined], finite numbers, distinct properties in property
    order. *)
Fixpoint plain (v : jsval) : Prop :=
  match v with
  | VUndef => False
  | VNum x => is_finite x = true /\ canonical x
  | VArr l => (fix go l := match l with [] => True | x :: r => plain x /\ go r end) l
  | VObj o =>
      obj_of o = o /\
      (fix go (o : jsobj) := match o with [] => True | (_, x) :: r => plain x /\ go r end) o
  | _ => True
  end.

Lemma plain_norm v : plain v -> json_norm v = Some v.
Proof.
  induction v as [| |b|x|s|l IH|o IH] using jsval_nested; intros Hp; try done.
  - destruct Hp as [Hf Hc]. destruct x as [|s|s m]; [done..|]. cbn.
    destruct (N.eqb_spec m 0) as [->|]; [|done]. destruct Hc as (_ & _ & Hz). by rewrite Hz.
  - cbn [json_norm]. do 2 f_equal. cbn [plain] in Hp.
    induction IH as [|x l Hx IH IHl]; [done|]. destruct Hp as [H1 H2]. cbn [List.map].
    rewrite Hx by done. cbn [default]. f_equal. by apply IHl.
  - cbn [json_norm]. destruct Hp as [Ho Hp]. rewrite <- Ho at 2. do 3 f_equal. clear Ho.
    induction IH as [|[k x] o Hx IH IHo]; [done|]. destruct Hp as [H1 H2]. cbn [List.flat_map fst snd] in *.
    rewrite Hx by done. cbn [app]. f_equal. by apply IHo.
Qed.

(** ** What the parser produces *)

Lemma hex_value_bound c a : hex_value c = Some a -> a < 16.
Proof.
  unfold hex_value. pose proof (is_digit_spec c) as Hd. destruct (is_digit c).
  - intros [= <-]. destruct Hd as [Hd _]. specialize (Hd eq_refl). lia.
  - clear Hd. destruct ((97 <=? c) && (c <=? 102)) eqn:E1; [|destruct ((65 <=? c) && (c <=? 70)) eqn:E2; [|done]];
      intros [= <-]; [apply andb_true_iff in E1 as [H1 H2]|apply andb_true_iff in E2 as [H1 H2]];
      apply N.leb_le in H1, H2; lia.
Qed.

Lemma simple_escape_bound c a : simple_escape c = Some a -> a < 65536.
Proof. unfold simple_escape. repeat case_test; intros [= <-]; lia. Qed.

Lemma parse_string_ok fuel s w t :
  (length s <= fuel)%nat -> units_ok s -> parse_string_body s = Some (w, t) -> units_ok w /\ units_ok t.
Proof.
  revert s w t. induction fuel as [|f IH]; intros s w t Hf Hs; [by destruct s; cbn in Hf; [|lia]|].
  destruct s as [|c r]; [done|]. cbn [parse_string_body length] in *. inversion_clear Hs as [|? ? Hc Hr].
  assert (Hgo : forall r' x w t, units_ok r' -> (length r' <= f)%nat -> x < 65536 ->
    ('(w, t) ← parse_string_body r'; Some (x :: w, t)) = Some (w, t) -> units_ok w /\ units_ok t).
  { intros r' x w' t' Hr' Hl Hx H. destruct (parse_string_body r') as [[w1 t1]|] eqn:E; [|done].
    cbn in H. injection H as <- <-. destruct (IH _ _ _ Hl Hr' E). split; [by constructor|done]. }
  destruct (c =? 34); [intros [= <- <-]; split; [constructor|done]|]. destruct (c <? 32); [done|].
  destruct (c =? 92); [|apply Hgo; [done|lia|done]].
  destruct r as [|e r1]; [done|]. inversion_clear Hr as [|? ? He Hr1]. cbn [length] in Hf.
  destruct (e =? 117).
  - destruct r1 as [|h1 [|h2 [|h3 [|h4 r2]]]]; try done.
    destruct (hex_value h1) eqn:E1; [|done]. destruct (hex_value h2) eqn:E2; [|done].
    destruct (hex_value h3) eqn:E3; [|done]. destruct (hex_value h4) eqn:E4; [|done].
    apply hex_value_bound in E1, E2, E3, E4. do 4 apply Forall_inv_tail in Hr1.
    apply Hgo; [done|cbn [length] in Hf; lia|lia].
  - destruct (simple_escape e) eqn:Ee; [|done]. apply simple_escape_bound in Ee. apply Hgo; [done|lia|done].
Qed.

Lemma units_ok_drop_while f s : units_ok s -> units_ok (drop_while f s).
Proof. induction 1 as [|c s Hc Hs IH]; [constructor|]. cbn. destruct (f c); [done|by constructor]. Qed.

Lemma units_ok_skip s : units_ok s -> units_ok (skip_ws s).
Proof. apply units_ok_drop_while. Qed.

Lemma span_digits_ok s d r : units_ok s -> span_digits s = (d, r) -> units_ok d /\ units_ok r.
Proof.
  intros Hs. revert d r. induction Hs as [|c s Hc Hs IH]; intros d r; cbn [span_digits].
  - intros [= <- <-]. split; constructor.
  - destruct (is_digit c).
    + destruct (span_digits s) as [d1 r1] eqn:E. intros [= <- <-]. destruct (IH _ _ eq_refl).
      split; [by constructor|done].
    + intros [= <- <-]. split; [constructor|by constructor].
Qed.

(** A sign is at most one unit. *)
Lemma tail_ok (s r : jstr) : units_ok s -> r = s \/ r = tail s -> units_ok r.
Proof. intros Hs [->| ->]; [done|]. destruct Hs; [constructor|done]. Qed.

Lemma parse_exponent_ok s e r : units_ok s -> parse_exponent s = Some (e, r) -> units_ok r.
Proof.
  intros Hs. unfold parse_exponent. destruct s as [|c s]; [by intros [= <- <-]|].
  destruct ((c =? 101) || (c =? 69)); [|by intros [= <- <-]]. apply Forall_inv_tail in Hs.
  destruct (match s with 45 :: r' => _ | _ => _ end) as [neg r'] eqn:E.
  assert (Hr' : units_ok r').
  { apply (tail_ok s); [done|]. clear -E. repeat case_match; simplify_eq; auto. }
  destruct (span_digits r') as [d t] eqn:Ed. apply span_digits_ok in Ed as [_ Ht]; [|done].
  destruct d; [done|]. by intros [= <- <-].
Qed.

Lemma parse_json_number_ok s x r :
  units_ok s -> parse_json_number s = Some (x, r) -> double x /\ units_ok r.
Proof.
  intros Hs. unfold parse_json_number.
  destruct (match s with 45 :: r0 => _ | _ => _ end) as [neg r0] eqn:E.
  assert (Hr0 : units_ok r0).
  { apply (tail_ok s); [done|]. clear -E. repeat case_match; simplify_eq; auto. }
  destruct (span_digits r0) as [i r1] eqn:Ei. apply span_digits_ok in Ei as [_ Hr1]; [|done].
  destruct (match r1 with 46 :: t => _ | _ => _ end) as [[f r2] ok] eqn:Ef.
  assert (Hr2 : units_ok r2).
  { clear -Ef Hr1. assert (H : r2 = r1 \/ exists d, span_digits (tail r1) = (d, r2)).
    { repeat case_match; simplify_eq; eauto. }
    destruct H as [->|[d Hd]]; [done|]. eapply span_digits_ok; [|exact Hd]. apply (tail_ok r1); auto. }
  cbv zeta. case_test; [|done]. destruct (parse_exponent r2) as [[e t]|] eqn:Ee; [|done].
  intros [= <- <-]. split; [apply num_of_dec_double|]. by eapply parse_exponent_ok.
Qed.

Lemma strip_prefix_ok p s r : units_ok s -> strip_prefix p s = Some r -> units_ok r.
Proof. unfold strip_prefix. case_test; [|done]. intros Hs [= <-]. by apply Forall_drop. Qed.

Lemma obj_set_ok k v o :
  units_ok k -> val_ok v -> val_ok (VObj o) -> val_ok (VObj (obj_set k v o)).
Proof.
  rewrite !val_ok_obj. intros Hk Hv Ho. unfold obj_set. case_test.
  - induction Ho as [|[k1 v1] o [H1 H2] Ho IH]; [done|]. cbn [obj_update].
    case_test; [by constructor|]. constructor; [done|]. apply IH.
    unfold obj_has in *. cbn [obj_get] in *. by rewrite Heqb0 in Heqb.
  - clear Heqb. induction Ho as [|[k1 v1] o H1 Ho IH]; cbn [obj_add]; [by repeat constructor|].
    repeat case_match; repeat (constructor; try done).
Qed.

(** ** Property order *)

(** [b] can follow [a]: index keys come first, in ascending order. *)
Definition follows (a b : jstr) : Prop :=
  match index_key b, index_key a with
  | None, _ => True
  | Some n, Some m => m < n
  | Some _, None => False
  end.

(** Distinct property names in property order. *)
Definition ordered {V} (o : list (jstr * V)) : Prop :=
  NoDup (obj_keys o) /\ StronglySorted follows (obj_keys o).

Section Ordered.
Context {V : Type}.
Implicit Types (k : jstr) (v : V) (o : list (jstr * V)).

(** A key that can follow all the others is added at the end. *)
Lemma obj_set_last k v o :
  k ∉ obj_keys o -> Forall (fun a => follows a k) (obj_keys o) -> obj_set k v o = o ++ [(k, v)].
Proof.
  intros Hk Hf. unfold obj_set, obj_has.
  destruct (obj_get k o) eqn:E; [exfalso; apply Hk, obj_keys_get; by eexists|]. clear E Hk.
  induction o as [|[k1 v1] o IH]; [done|]. cbn [obj_keys List.map fst] in Hf.
  inversion_clear Hf as [|? ? H1 H2]. cbn [obj_add app]. rewrite IH by done. unfold follows in H1.
  destruct (index_key k) as [n|], (index_key k1) as [m|]; try done.
  by rewrite (proj2 (N.ltb_ge n m)) by lia.
Qed.

Lemma obj_of_ordered o : ordered o -> obj_of o = o.
Proof.
  unfold obj_of, obj_merge. assert (H : forall a, ordered (a ++ o) ->
    fold_left (fun o kv => obj_set kv.1 kv.2 o) o a = a ++ o).
  { induction o as [|[k v] o IH]; intros a [Hn Hs]; cbn [fold_left]; [by rewrite app_nil_r|].
    unfold obj_keys in Hn, Hs. rewrite List.map_app in Hn, Hs. cbn [List.map fst] in Hn, Hs.
    assert (Hlast : obj_set k v a = a ++ [(k, v)]).
    { apply obj_set_last.
      - apply NoDup_app in Hn as (_ & Hn & _). intros Hin. apply (Hn k Hin). by left.
      - rewrite Forall_forall. intros x Hx. eapply StronglySorted_app_1_elem_of; [exact Hs|exact Hx|by left]. }
    cbn [fst snd]. rewrite Hlast, IH; [by rewrite <- app_assoc|].
    unfold ordered, obj_keys. rewrite <- app_assoc, List.map_app. done. }
  apply (H []).
Qed.

(** Distinct names, none of which is an index. *)
Lemma ordered_names o :
  NoDup (obj_keys o) -> Forall (fun k => index_key k = None) (obj_keys o) -> ordered o.
Proof.
  intros Hn Hi. split; [done|]. clear Hn. induction Hi as [|k l Hk Hi IH]; [constructor|].
  apply StronglySorted_cons. split; [|done]. eapply Forall_impl; [exact Hi|].
  intros x Hx. unfold follows. by rewrite Hx.
Qed.

Lemma ordered_nil : ordered (V := V) [].
Proof. split; constructor. Qed.

Lemma follows_trans a b c : follows a b -> follows b c -> follows a c.
Proof.
  unfold follows. destruct (index_key a), (index_key b), (index_key c); try done. lia.
Qed.

Lemma obj_add_ordered k v o : k ∉ obj_keys o -> ordered o -> ordered (obj_add k v o).
Proof.
  intros Hk [Hn Hs]. split; [rewrite obj_keys_add; by constructor|].
  induction o as [|[k1 v1] o IH]; [by repeat constructor|].
  cbn [obj_keys List.map fst] in Hk, Hn, Hs. apply not_elem_of_cons in Hk as [Hne Hk].
  apply NoDup_cons in Hn as [Hk1 Hn]. apply StronglySorted_inv in Hs as [Hs Hf].
  specialize (IH Hk Hn Hs).
  assert (Hback : follows k1 k -> StronglySorted follows (obj_keys ((k1, v1) :: obj_add k v o))).
  { intros Hf1. apply StronglySorted_cons. split; [|exact IH].
    change (Forall (follows k1) (obj_keys (obj_add k v o))). rewrite obj_keys_add. by constructor. }
  assert (Hfront : follows k k1 -> StronglySorted follows (obj_keys ((k, v) :: (k1, v1) :: o))).
  { intros Hf1. apply StronglySorted_cons. split; [|by apply StronglySorted_cons].
    apply Forall_cons_2; [done|]. eapply Forall_impl; [exact Hf|]. intros x. by apply follows_trans. }
  cbn [obj_add]. unfold follows in Hback, Hfront.
  destruct (index_key k) as [n|] eqn:E1, (index_key k1) as [m|] eqn:E2; auto.
  destruct (N.ltb_spec n m); [auto|]. apply Hback.
  assert (n <> m); [|lia]. intros ->. apply Hne. unfold index_key in E1, E2.
  repeat case_test; simplify_eq. apply andb_true_iff in Heqb as [Heqb _], Heqb0 as [Heqb0 _].
  apply andb_true_iff in Heqb as [_ H1], Heqb0 as [_ H2]. apply bool_decide_eq_true in H1, H2. congruence.
Qed.

Lemma obj_set_ordered k v o : ordered o -> ordered (obj_set k v o).
Proof.
  intros Ho. unfold obj_set, obj_has. destruct (obj_get k o) eqn:E.
  - unfold ordered. by rewrite obj_keys_update.
  - apply obj_add_ordered; [|done]. rewrite obj_keys_get, E. by intros [? ?].
Qed.
End Ordered.

(** Property order everywhere. *)
Fixpoint keys_ok (v : jsval) : Prop :=
  match v with
  | VArr l => (fix go l := match l with [] => True | x :: r => keys_ok x /\ go r end) l
  | VObj o =>
      ordered o /\
      (fix go (o : jsobj) := match o with [] => True | (_, x) :: r => keys_ok x /\ go r end) o
  | _ => True
  end.

Lemma keys_ok_arr l : keys_ok (VArr l) <-> Forall keys_ok l.
Proof. induction l as [|x r IH]; [done|]. rewrite Forall_cons, <- IH. done. Qed.

Lemma keys_ok_obj o : keys_ok (VObj o) <-> ordered o /\ Forall (fun kv => keys_ok kv.2) o.
Proof.
  cbn [keys_ok]. f_equiv. induction o as [|[k x] r IH]; [done|]. rewrite Forall_cons, <- IH. done.
Qed.

Lemma obj_set_values (P : jsval -> Prop) k v (o : jsobj) :
  P v -> Forall (fun kv => P kv.2) o -> Forall (fun kv => P kv.2) (obj_set k v o).
Proof.
  intros Hv Ho. unfold obj_set. case_test.
  - clear Heqb. induction Ho as [|[k1 v1] o H1 Ho IH]; [done|]. cbn [obj_update].
    case_test; by constructor.
  - clear Heqb. induction Ho as [|[k1 v1] o H1 Ho IH]; cbn [obj_add]; [by repeat constructor|].
    repeat case_match; repeat (constructor; try done).
Qed.

(** A parsed value and the text after it. *)
Definition parsed_ok (v : jsval) (t : jstr) : Prop := (val_ok v /\ keys_ok v) /\ units_ok t.

Lemma parse_value_step f s v t :
  (forall s l t, units_ok s -> parse_elems f s = Some (l, t) -> parsed_ok (VArr l) t) ->
  (forall o s o' t, units_ok s -> val_ok (VObj o) /\ keys_ok (VObj o) ->
     parse_members f o s = Some (o', t) -> parsed_ok (VObj o') t) ->
  units_ok (skip_ws s) -> parse_value (S f) s = Some (v, t) -> parsed_ok v t.
Proof.
  intros IHe IHm Hs. cbn [parse_value]. destruct (skip_ws s) as [|c r] eqn:Er; [done|].
  assert (Hnum : ('(x, t') ← parse_json_number (c :: r); Some (VNum x, t')) = Some (v, t) -> parsed_ok v t).
  { destruct (parse_json_number (c :: r)) as [[x t']|] eqn:E; [|done]. cbn. intros [= <- <-].
    apply parse_json_number_ok in E as [Hx Ht]; done. }
  assert (Hlit : forall p w, val_ok w /\ keys_ok w ->
    (t' ← strip_prefix p (c :: r); Some (w, t')) = Some (v, t) -> parsed_ok v t).
  { intros p w Hw. destruct (strip_prefix p (c :: r)) eqn:E; [|done]. cbn. intros [= <- <-].
    split; [done|]. by eapply strip_prefix_ok. }
  pose proof (Forall_inv_tail Hs) as Hr. pose proof (units_ok_skip _ Hr) as Hr'.
  assert (Hstr : ('(w, t) ← parse_string_body r; Some (VStr w, t)) = Some (v, t) -> parsed_ok v t).
  { destruct (parse_string_body r) as [[w t']|] eqn:E; [|done]. cbn. intros [= <- <-].
    apply (parse_string_ok (length r)) in E as [Hw Ht]; done. }
  assert (Harr : ('(l, t) ← parse_elems f (skip_ws r); Some (VArr l, t)) = Some (v, t) -> parsed_ok v t).
  { destruct (parse_elems f (skip_ws r)) as [[l t']|] eqn:E; [|done]. cbn. intros [= <- <-].
    by eapply IHe. }
  assert (Hobj : ('(o, t) ← parse_members f [] (skip_ws r); Some (VObj o, t)) = Some (v, t) -> parsed_ok v t).
  { destruct (parse_members f [] (skip_ws r)) as [[o t']|] eqn:E; [|done]. cbn. intros [= <- <-].
    eapply IHm; [done| |exact E]. split; [done|]. split; [split; constructor|done]. }
  clear IHe IHm Er. intros H.
  assert (Hemp : forall u w, (w = VArr [] \/ w = VObj []) -> units_ok u -> Some (w, u) = Some (v, t) -> parsed_ok v t).
  { intros u w Hw Hu [= <- <-]. split; [|done]. destruct Hw as [-> | ->]; [done|]. split; [done|]. split; [split; constructor|done]. }
  destruct (skip_ws r) as [|d u] eqn:Eu; [|apply Forall_inv_tail in Hr'].
  all: repeat case_match; try done; first [by apply Hnum | by apply Hstr | by apply Harr | by apply Hobj
    | by eapply (Hlit _ (VBool true)) | by eapply (Hlit _ (VBool false)) | by eapply (Hlit _ VNull)
    | exact (Hemp _ _ (or_introl eq_refl) Hr' H) | exact (Hemp _ _ (or_intror eq_refl) Hr' H)].
Qed.

Lemma parsers_ok fuel :
  (forall s v t, units_ok s -> parse_value fuel s = Some (v, t) -> parsed_ok v t) /\
  (forall s l t, units_ok s -> parse_elems fuel s = Some (l, t) -> parsed_ok (VArr l) t) /\
  (forall o s o' t, units_ok s -> val_ok (VObj o) /\ keys_ok (VObj o) ->
     parse_members fuel o s = Some (o', t) -> parsed_ok (VObj o') t).
Proof.
  induction fuel as [|f (IHv & IHe & IHm)]; [done|]. split_and!.
  - intros s v t Hs%units_ok_skip H. by eapply parse_value_step.
  - intros s l t Hs. cbn [parse_elems]. destruct (parse_value f s) as [[v u]|] eqn:E; [|done].
    apply IHv in E as [[Hv Hk] Hu]; [|done]. cbn [mbind option_bind].
    apply units_ok_skip in Hu. intros H. unfold parsed_ok. rewrite val_ok_arr, keys_ok_arr.
    assert (Hend : forall r, units_ok r -> Some ([v], r) = Some (l, t) ->
      (Forall val_ok l /\ Forall keys_ok l) /\ units_ok t).
    { intros r Hr [= <- <-]. split; [split; by repeat constructor|done]. }
    assert (Hmore : forall r, units_ok r -> ('(l, u) ← parse_elems f r; Some (v :: l, u)) = Some (l, t) ->
      (Forall val_ok l /\ Forall keys_ok l) /\ units_ok t).
    { intros r Hr. destruct (parse_elems f r) as [[l' u']|] eqn:E; [|done]. cbn. intros [= <- <-].
      apply IHe in E as [[H1 H2] H3]; [|done]. rewrite val_ok_arr in H1. rewrite keys_ok_arr in H2.
      split; [split; by constructor|done]. }
    destruct (skip_ws u) as [|c r]; [done|]. apply Forall_inv_tail in Hu.
    repeat case_match; try done; first [by eapply Hend | by eapply Hmore].
  - intros o s o' t Hs [Ho Hk]. cbn [parse_members]. apply units_ok_skip in Hs. intros H.
    assert (Hin : exists r, units_ok r /\ ('(k, t) ← parse_string_body r;
          match skip_ws t with
          | 58 :: t' =>
              '(v, u) ← parse_value f t';
              let o' := obj_set k v o in
              match skip_ws u with
              | 44 :: u' => parse_members f o' u'
              | 125 :: u' => Some (o', u')
              | _ => None
              end
          | _ => None
          end) = Some (o', t)).
    { destruct (skip_ws s) as [|c r]; [done|]. apply Forall_inv_tail in Hs. exists r. split; [done|].
      by repeat case_match. }
    clear H. destruct Hin as (r & Hr & H).
    destruct (parse_string_body r) as [[k t1]|] eqn:Ek; [|done]. cbn [mbind option_bind] in H.
    apply (parse_string_ok (length r)) in Ek as [Hku Ht1]; [|done..]. apply units_ok_skip in Ht1.
    destruct (skip_ws t1) as [|c1 t2]; [done|]. apply Forall_inv_tail in Ht1.
    assert (Hin : ('(v, u) ← parse_value f t2;
              let o' := obj_set k v o in
              match skip_ws u with
              | 44 :: u' => parse_members f o' u'
              | 125 :: u' => Some (o', u')
              | _ => None
              end) = Some (o', t)) by (by repeat case_match).
    clear H. rename Hin into H.
    destruct (parse_value f t2) as [[v u]|] eqn:Ev; [|done]. cbn [mbind option_bind] in H.
    apply IHv in Ev as [[Hv Hvk] Hu]; [|done]. apply units_ok_skip in Hu.
    assert (Hset : val_ok (VObj (obj_set k v o)) /\ keys_ok (VObj (obj_set k v o))).
    { split; [by apply obj_set_ok|]. rewrite keys_ok_obj in *. destruct Hk as [Hn Hk].
      split; [by apply obj_set_ordered|by apply obj_set_values]. }
    cbv zeta in H. destruct (skip_ws u) as [|c2 u2]; [done|]. apply Forall_inv_tail in Hu.
    assert (H' : parse_members f (obj_set k v o) u2 = Some (o', t) \/ (obj_set k v o = o' /\ u2 = t)).
    { clear -H. repeat case_match; simplify_eq; auto. }
    destruct H' as [H'|[<- <-]]; [by eapply IHm|done].
Qed.

(** [JSON.parse] gives strings of 16 bit units, doubles and objects with
    distinct properties in property order. *)
Lemma json_parse_ok s v : units_ok s -> json_parse s = Some v -> val_ok v /\ keys_ok v.
Proof.
  intros Hs. unfold json_parse. destruct (parse_value _ s) as [[w t]|] eqn:E; [|done].
  apply parsers_ok in E as [Hw _]; [|done]. intros H. by repeat case_match; simplify_eq.
Qed.

(** ** Printing again *)

(** The members JSON keeps are in property order. *)
Lemma norm_members_keys (o : jsobj) :
  obj_keys (List.flat_map (fun kv => match json_norm kv.2 with Some w => [(kv.1, w)] | None => [] end) o)
  `sublist_of` obj_keys o.
Proof.
  induction o as [|[k v] o IH]; [constructor|]. cbn [List.flat_map obj_keys List.map fst snd].
  destruct (json_norm v); cbn [app List.map fst]; by constructor.
Qed.

Lemma Forall_sublist {A} (P : A -> Prop) l k : l `sublist_of` k -> Forall P k -> Forall P l.
Proof. induction 1; intros Hk; inversion_clear Hk; auto. Qed.

Lemma StronglySorted_sublist {A} (R : A -> A -> Prop) l k :
  l `sublist_of` k -> StronglySorted R k -> StronglySorted R l.
Proof.
  induction 1 as [|x l k Hs IH|x l k Hs IH]; intros Hk; [done|..];
    apply StronglySorted_cons in Hk as [Hf Hk]; [|auto].
  apply StronglySorted_cons. split; [|auto]. by eapply Forall_sublist.
Qed.

Lemma norm_members_ordered (o : jsobj) :
  ordered o ->
  ordered (List.flat_map (fun kv => match json_norm kv.2 with Some w => [(kv.1, w)] | None => [] end) o).
Proof.
  intros [Hn Hs]. pose proof (norm_members_keys o) as H. split.
  - by eapply sublist_NoDup.
  - by eapply StronglySorted_sublist.
Qed.

(** A value prints as what is read back from its text does. *)
Lemma render_norm g v w : keys_ok v -> json_norm v = Some w -> render g w = render g v.
Proof.
  revert g w. induction v as [| |b|x|s|l IH|o IH] using jsval_nested; intros g w Hk Hw;
    cbn [json_norm] in Hw; simplify_eq; try done.
  - destruct x as [|s|s m]; [done..|]. cbn [num_norm]. destruct (N.eqb_spec m 0) as [->|]; reflexivity.
  - cbn [render]. do 3 f_equal. apply keys_ok_arr in Hk. rewrite List.map_map. f_equal.
    induction IH as [|x l Hx IH IHl]; [done|]. inversion_clear Hk as [|? ? H1 H2]. cbn [List.map].
    rewrite IHl by done. f_equal. destruct (json_norm x) as [w|] eqn:E; cbn [from_option id].
    + by rewrite (Hx (deeper g) w).
    + by apply (norm_none (deeper g)) in E as ->.
  - apply keys_ok_obj in Hk as [Ho Hk]. rewrite obj_of_ordered by (by apply norm_members_ordered).
    cbn [render]. do 3 f_equal. clear Ho. f_equal.
    induction IH as [|[k x] o Hx IH IHo]; [done|]. inversion_clear Hk as [|? ? H1 H2].
    cbn [List.flat_map fst snd] in *. destruct (json_norm x) as [w|] eqn:E; cbn [app List.flat_map fst snd].
    + by rewrite (Hx (deeper g) w), IHo.
    + by rewrite IHo, (proj1 (norm_none (deeper g) x) E).
Qed.

(** Printing what was read from a printed text gives the text. *)
Lemma pretty_stable v t :
  val_ok v -> keys_ok v -> stringify_pretty v = Some t ->
  exists w, json_parse t = Some w /\ stringify_pretty w = Some t.
Proof.
  intros Hv Hk Ht. pose proof (pretty_roundtrip v t Hv Ht) as Hp.
  destruct (json_norm v) as [w|] eqn:E; [|apply (norm_none (Some [])) in E; unfold stringify_pretty in Ht; congruence].
  exists w. split; [done|]. rewrite <- Ht. by apply render_norm.
Qed.

(** ** Values JSON keeps *)

(** A value JSON prints and reads back unchanged. *)
Definition normal (v : jsval) : Prop := val_ok v /\ json_norm v = Some v.

(** Every member has a printable name and satisfies [P]. *)
Definition members {V} (P : V -> Prop) (o : list (jstr * V)) : Prop :=
  Forall (fun kv => units_ok kv.1 /\ P kv.2) o.

Lemma obj_set_members {V} (P : V -> Prop) k v o :
  units_ok k -> P v -> members P o -> members P (obj_set k v o).
Proof.
  intros Hk Hv Ho. unfold members, obj_set. case_test.
  - clear Heqb. induction Ho as [|[k1 v1] o [H1 H2] Ho IH]; [constructor|]. cbn [obj_update].
    case_test; by constructor.
  - clear Heqb. induction Ho as [|[k1 v1] o H1 Ho IH]; cbn [obj_add]; [by repeat constructor|].
    repeat case_match; repeat (constructor; try done).
Qed.

(** An object of values JSON keeps is kept. *)
Lemma normal_obj o : ordered o -> members normal o -> normal (VObj o).
Proof.
  intros Ho Hm. split.
  - apply val_ok_obj. eapply Forall_impl; [exact Hm|]. intros kv [Hk [Hv _]]. done.
  - cbn [json_norm]. rewrite <- (obj_of_ordered o Ho) at 2. do 3 f_equal. clear Ho.
    induction Hm as [|[k v] o [_ [_ Hn]] Hm IH]; [done|]. cbn [List.flat_map fst snd] in *.
    rewrite Hn. cbn [app]. by rewrite IH.
Qed.

Lemma normal_arr l : Forall normal l -> normal (VArr l).
Proof.
  intros Hl. split.
  - apply val_ok_arr. eapply Forall_impl; [exact Hl|]. by intros v [Hv _].
  - cbn [json_norm]. do 2 f_equal. induction Hl as [|v l [_ Hn] Hl IH]; [done|]. cbn [List.map].
    by rewrite Hn, IH.
Qed.

Lemma normal_str s : units_ok s -> normal (VStr s).
Proof. by split. Qed.

Lemma normal_bool b : normal (VBool b).
Proof. by split. Qed.


Lemma value_head_ws c : value_head c = true -> is_ws c = false.
Proof.
  intros H%value_head_cases.
  revert c H. apply Forall_forall. by repeat constructor.
Qed.

(** The text of a value starts with no white space and reads as the value. *)
Lemma normal_reads v : normal v -> exists c t,
  stringify v = Some (c :: t) /\ is_ws c = false /\ json_parse (c :: t) = Some v.
Proof.
  intros [Hv Hn].
  assert (Hr : exists t, stringify v = Some t).
  { destruct (stringify v) eqn:E; [by eexists|]. rewrite stringify_render in E. apply norm_none in E. congruence. }
  destruct Hr as [t Ht]. pose proof (json_roundtrip v t Hv Ht) as Hp. rewrite Hn in Hp.
  pose proof Ht as Ht'. rewrite stringify_render in Ht'.
  destruct (render_head None v t Hv Ht') as (c & t' & -> & Hc).
  exists c, t'. split_and!; [done|by apply value_head_ws|done].
Qed.

(** A text that starts with no white space is not blank. *)
Lemma trim_head_ne c t : is_ws c = false -> trim (c :: t) <> [].
Proof. intros Hc Ht%trim_nil. inversion Ht. congruence. Qed.

(** Reading a property of what JSON keeps. *)
Lemma norm_get o w k :
  ordered o -> json_norm (VObj o) = Some (VObj w) -> obj_get k w = obj_get k o ≫= json_norm.
Proof.
  cbn [json_norm]. intros Ho [= <-]. rewrite obj_of_ordered by (by apply norm_members_ordered).
  destruct Ho as [Hn _]. induction o as [|[k1 v1] o IH]; [done|].
  cbn [obj_keys List.map fst] in Hn. apply NoDup_cons in Hn as [Hk1 Hn].
  cbn [List.flat_map fst snd obj_get]. case_bool_decide as E.
  - subst. cbn [mbind option_bind]. destruct (json_norm v1) as [w|]; cbn [app obj_get].
    + by rewrite bool_decide_true.
    + rewrite IH by done. destruct (obj_get k1 o) eqn:Eo; [|done].
      exfalso. apply Hk1, obj_keys_get. by eexists.
  - rewrite <- IH by done. destruct (json_norm v1) as [w|]; cbn [app obj_get]; [|done].
    by rewrite bool_decide_false.
Qed.

(** Facts about literal strings, by computation. *)
Ltac units := apply (bool_decide_eq_true_1 _); vm_compute; reflexivity.

Ltac key_ne := apply (bool_decide_eq_true_1 _); vm_compute; reflexivity.

