(* ===== verification/JsBase64.v ===== *)
(** * Base 64 and UTF-8

    [window.atob], [window.btoa] and [TextDecoder]: base 64 between texts and
    bytes, and the UTF-8 decoder with its replacement characters.  Decoding
    inverts encoding. *)

From S2P Require Import Prelude.
From S2P Require Import JsString.

Local Open Scope N_scope.

(** ** Decoding *)

Definition b64_value (c : N) : option N :=
  if (65 <=? c) && (c <=? 90) then Some (c - 65)
  else if (97 <=? c) && (c <=? 122) then Some (c - 71)
  else if (48 <=? c) && (c <=? 57) then Some (c + 4)
  else if c =? 43 then Some 62
  else if c =? 47 then Some 63
  else None.

Definition ascii_ws (c : N) : bool := includes c [9; 10; 12; 13; 32].

(** One equals sign, of the reversed text. *)
Definition drop_pad (s : jstr) : jstr := match s with c :: r => if c =? 61 then r else s | [] => [] end.

(** Removes one or two equals signs from a text whose length is a multiple of four. *)
Definition unpad (s : jstr) : jstr :=
  if (length s mod 4 =? 0)%nat then reverse (drop_pad (drop_pad (reverse s))) else s.

(** Groups of four values are three bytes; the bits left over are dropped. *)
Fixpoint b64_bytes (l : list N) : option (list N) :=
  match l with
  | [] => Some []
  | [_] => None
  | [a; b] => Some [a * 4 + b / 16]
  | [a; b; c] => Some [a * 4 + b / 16; b mod 16 * 16 + c / 4]
  | a :: b :: c :: d :: r => app [a * 4 + b / 16; b mod 16 * 16 + c / 4; c mod 4 * 64 + d] <$> b64_bytes r
  end.

(** [window.atob], with [None] for the exception. *)
Definition atob (s : jstr) : option (list N) :=
  mapM b64_value (unpad (List.filter (fun c => negb (ascii_ws c)) s)) ≫= b64_bytes.

Definition REPLACEMENT : N := 65533.

(** The UTF-8 decoder: the bytes still needed, the bits read so far and the
    bounds of the next byte. *)
Record Decoder := MkDecoder { needed : N; point : N; lower : N; upper : N }.

Definition idle : Decoder := MkDecoder 0 0 128 191.

Definition utf16_of_point (p : N) : jstr :=
  if p <? 65536 then [p] else [55296 + (p - 65536) / 1024; 56320 + (p - 65536) mod 1024].

Definition utf8_start (b : N) : jstr * Decoder :=
  if b <? 128 then ([b], idle)
  else if (194 <=? b) && (b <=? 223) then ([], MkDecoder 1 (b - 192) 128 191)
  else if (224 <=? b) && (b <=? 239) then
    ([], MkDecoder 2 (b - 224) (if b =? 224 then 160 else 128) (if b =? 237 then 159 else 191))
  else if (240 <=? b) && (b <=? 244) then
    ([], MkDecoder 3 (b - 240) (if b =? 240 then 144 else 128) (if b =? 244 then 143 else 191))
  else ([REPLACEMENT], idle).

Definition utf8_byte (d : Decoder) (b : N) : jstr * Decoder :=
  if needed d =? 0 then utf8_start b
  else if (lower d <=? b) && (b <=? upper d) then
    let p := point d * 64 + (b - 128) in
    if needed d =? 1 then (utf16_of_point p, idle) else ([], MkDecoder (needed d - 1) p 128 191)
  else let '(out, d') := utf8_start b in (REPLACEMENT :: out, d').

Fixpoint utf8_decode (d : Decoder) (bytes : list N) : jstr :=
  match bytes with
  | [] => if needed d =? 0 then [] else [REPLACEMENT]
  | b :: r => let '(out, d') := utf8_byte d b in out ++ utf8_decode d' r
  end.

(** [new TextDecoder().decode], which drops a byte order mark. *)
Definition text_decode (bytes : list N) : jstr :=
  match utf8_decode idle bytes with
  | c :: r => if c =? 65279 then r else c :: r
  | [] => []
  end.

(** ** Encoding *)
Definition b64_char (n : N) : N :=
  if n <? 26 then n + 65 else if n <? 52 then n + 71 else if n <? 62 then n - 4 else if n =? 62 then 43 else 47.

Fixpoint b64_quads (l : list N) : list N :=
  match l with
  | [] => []
  | [a] => [a / 4; a mod 4 * 16]
  | [a; b] => [a / 4; a mod 4 * 16 + b / 16; b mod 16 * 4]
  | a :: b :: c :: r => [a / 4; a mod 4 * 16 + b / 16; b mod 16 * 4 + c / 64; c mod 64] ++ b64_quads r
  end.

Definition b64_encode (bytes : list N) : jstr :=
  List.map b64_char (b64_quads bytes) ++ replicate ((3 - length bytes mod 3) mod 3) 61.

Definition utf8_of_point (p : N) : list N :=
  if p <? 128 then [p]
  else if p <? 2048 then [192 + p / 64; 128 + p mod 64]
  else if p <? 65536 then [224 + p / 4096; 128 + p / 64 mod 64; 128 + p mod 64]
  else [240 + p / 262144; 128 + p / 4096 mod 64; 128 + p / 64 mod 64; 128 + p mod 64].

(** A Unicode scalar value: a code point that is no surrogate. *)
Definition scalar (p : N) : Prop := p < 55296 \/ 57344 <= p < 1114112.

Definition utf16_of_points (l : list N) : jstr := List.flat_map utf16_of_point l.

(** [window.btoa], with [None] for the exception on a character above 255. *)
Definition btoa (s : jstr) : option jstr := if List.forallb (fun c => c <? 256) s then Some (b64_encode s) else None.

(** * Facts *)

Lemma bytes_three (P : list N -> Prop) :
  P [] -> (forall a, P [a]) -> (forall a b, P [a; b]) -> (forall a b c r, P r -> P (a :: b :: c :: r)) -> forall l, P l.
Proof.
  intros H0 H1 H2 H3. fix IH 1. intros [|a [|b [|c r]]]; [exact H0|exact (H1 a)|exact (H2 a b)|exact (H3 a b c r (IH r))].
Qed.

Lemma b64_quads_bound l : Forall (fun b => b < 256) l -> Forall (fun n => n < 64) (b64_quads l).
Proof.
  induction l as [|a|a b|a b c r IH] using bytes_three; cbn [b64_quads app]; intros H;
    repeat match goal with H : Forall _ (_ :: _) |- _ => apply Forall_cons in H as [? H] end;
    repeat constructor; try divlia. auto.
Qed.

Lemma b64_bytes_quads l : Forall (fun b => b < 256) l -> b64_bytes (b64_quads l) = Some l.
Proof.
  induction l as [|a|a b|a b c r IH] using bytes_three; cbn [b64_quads b64_bytes app]; intros H;
    repeat match goal with H : Forall _ (_ :: _) |- _ => apply Forall_cons in H as [? H] end; [done|..].
  - do 2 f_equal. divlia.
  - do 2 f_equal; [divlia|]. f_equal. divlia.
  - rewrite IH by done. cbn [fmap option_fmap option_map]. do 2 f_equal; [divlia|]. f_equal; [divlia|]. f_equal. divlia.
Qed.

Lemma b64_char_value n : n < 64 -> b64_value (b64_char n) = Some n /\ ascii_ws (b64_char n) = false /\ b64_char n <> 61.
Proof.
  intros H. assert (Hall : forallb (fun k => bool_decide (b64_value (b64_char k) = Some k) && negb (ascii_ws (b64_char k)) &&
    negb (b64_char k =? 61)) (List.map N.of_nat (seq 0 64)) = true) by (vm_compute; reflexivity).
  rewrite forallb_forall in Hall. specialize (Hall n). rewrite !andb_true_iff, !negb_true_iff, bool_decide_eq_true, N.eqb_neq in Hall.
  destruct Hall as [[? ?] ?]; [|by split_and!]. rewrite <- (N2Nat.id n). apply in_map, in_seq. lia.
Qed.

Lemma b64_values q : Forall (fun n => n < 64) q -> mapM b64_value (List.map b64_char q) = Some q.
Proof.
  induction q as [|n q IH]; intros H; [done|]. apply Forall_cons in H as [Hn H]. cbn [List.map mapM].
  by rewrite (proj1 (b64_char_value n Hn)), IH.
Qed.

Lemma b64_padded l : ((length (b64_quads l) + (3 - length l mod 3) mod 3) mod 4 = 0)%nat.
Proof.
  induction l as [|a|a b|a b c r IH] using bytes_three; cbn [b64_quads app length]; [reflexivity..|].
  replace (S (S (S (length r))) mod 3)%nat with (length r mod 3)%nat.
  - replace (S (S (S (S (length (b64_quads r))))) + (3 - length r mod 3) mod 3)%nat with
      (length (b64_quads r) + (3 - length r mod 3) mod 3 + 1 * 4)%nat by lia.
    by rewrite Nat.Div0.mod_add.
  - replace (S (S (S (length r)))) with (length r + 1 * 3)%nat by lia. by rewrite Nat.Div0.mod_add.
Qed.

Lemma drop_pad_id l : Forall (fun c => c <> 61) l -> drop_pad l = l.
Proof. intros H. destruct H as [|c r Hc _]; [done|]. cbn. by rewrite (proj2 (N.eqb_neq c 61)). Qed.

Lemma b64_chars_ok l : Forall (fun b => b < 256) l ->
  Forall (fun c => c <> 61) (List.map b64_char (b64_quads l)) /\
  Forall (fun c => ascii_ws c = false) (List.map b64_char (b64_quads l)).
Proof.
  intros H. assert (Hb := b64_quads_bound l H). split; apply Forall_map; (eapply Forall_impl; [exact Hb|]);
    intros n Hn; apply b64_char_value, Hn.
Qed.

Lemma unpad_encoded l : Forall (fun b => b < 256) l -> unpad (b64_encode l) = List.map b64_char (b64_quads l).
Proof.
  intros [H _]%b64_chars_ok. unfold unpad, b64_encode. rewrite length_app, length_map, length_replicate, b64_padded. cbn [Nat.eqb].
  set (k := ((3 - length l mod 3) mod 3)%nat). assert (Hk : (k < 3)%nat) by (apply Nat.mod_upper_bound; lia).
  set (t := List.map b64_char (b64_quads l)) in *.
  assert (Hr : drop_pad (reverse t) = reverse t) by (apply drop_pad_id, Forall_reverse, H).
  rewrite reverse_app, reverse_replicate. destruct k as [|[|[|k]]]; [| | |lia]; cbn [replicate app];
    cbn [drop_pad N.eqb Pos.eqb]; rewrite ?Hr; apply reverse_involutive.
Qed.

Lemma atob_encoded l : Forall (fun b => b < 256) l -> atob (b64_encode l) = Some l.
Proof.
  intros H. destruct (b64_chars_ok l H) as [_ Hw]. unfold atob. rewrite filter_all.
  - rewrite unpad_encoded, b64_values by (done || by apply b64_quads_bound). by apply b64_bytes_quads.
  - apply Forall_app. split; [eapply Forall_impl; [exact Hw|]; by intros c ->|].
    apply Forall_replicate. reflexivity.
Qed.

Lemma utf8_bytes p : scalar p -> Forall (fun b => b < 256) (utf8_of_point p).
Proof.
  intros H. unfold utf8_of_point, scalar in *.
  destruct (N.ltb_spec p 128), (N.ltb_spec p 2048), (N.ltb_spec p 65536); rewrite ?Forall_cons, Forall_nil; split_and!; try done; divlia.
Qed.

Lemma utf8_start_1 b : b < 128 -> utf8_start b = ([b], idle).
Proof. intros H. unfold utf8_start. by rewrite (proj2 (N.ltb_lt b 128)). Qed.

Lemma utf8_start_2 b : 194 <= b <= 223 -> utf8_start b = ([], MkDecoder 1 (b - 192) 128 191).
Proof.
  intros H. unfold utf8_start.
  by rewrite (proj2 (N.ltb_ge b 128)), (proj2 (N.leb_le 194 b)), (proj2 (N.leb_le b 223)) by lia.
Qed.

Lemma utf8_start_3 b : 224 <= b <= 239 ->
  utf8_start b = ([], MkDecoder 2 (b - 224) (if b =? 224 then 160 else 128) (if b =? 237 then 159 else 191)).
Proof.
  intros H. unfold utf8_start.
  by rewrite (proj2 (N.ltb_ge b 128)), (proj2 (N.leb_gt b 223)), andb_false_r, (proj2 (N.leb_le 224 b)), (proj2 (N.leb_le b 239)) by lia.
Qed.

Lemma utf8_start_4 b : 240 <= b <= 244 ->
  utf8_start b = ([], MkDecoder 3 (b - 240) (if b =? 240 then 144 else 128) (if b =? 244 then 143 else 191)).
Proof.
  intros H. unfold utf8_start.
  by rewrite (proj2 (N.ltb_ge b 128)), (proj2 (N.leb_gt b 223)), (proj2 (N.leb_gt b 239)), !andb_false_r, (proj2 (N.leb_le 240 b)),
    (proj2 (N.leb_le b 244)) by lia.
Qed.

Lemma utf8_last p lo hi b r : lo <= b <= hi ->
  utf8_decode (MkDecoder 1 p lo hi) (b :: r) = utf16_of_point (p * 64 + (b - 128)) ++ utf8_decode idle r.
Proof.
  intros Hb. cbn [utf8_decode]. unfold utf8_byte. cbn [needed point lower upper N.eqb Pos.eqb].
  by rewrite (proj2 (N.leb_le lo b)), (proj2 (N.leb_le b hi)) by lia.
Qed.

Lemma utf8_middle n p lo hi b r : lo <= b <= hi ->
  utf8_decode (MkDecoder (n + 2) p lo hi) (b :: r) = utf8_decode (MkDecoder (n + 1) (p * 64 + (b - 128)) 128 191) r.
Proof.
  intros Hb. cbn [utf8_decode]. unfold utf8_byte. cbn [needed point lower upper].
  rewrite (proj2 (N.eqb_neq (n + 2) 0)), (proj2 (N.eqb_neq (n + 2) 1)), (proj2 (N.leb_le lo b)), (proj2 (N.leb_le b hi)) by lia.
  cbn [andb app]. do 2 f_equal. lia.
Qed.

Lemma utf8_first b d r : utf8_start b = ([], d) -> utf8_decode idle (b :: r) = utf8_decode d r.
Proof. intros H. cbn [utf8_decode]. unfold utf8_byte. cbn [needed idle N.eqb]. by rewrite H. Qed.

Lemma utf8_decode_point p r : scalar p -> utf8_decode idle (utf8_of_point p ++ r) = utf16_of_point p ++ utf8_decode idle r.
Proof.
  intros Hp. unfold scalar in Hp. unfold utf8_of_point.
  destruct (N.ltb_spec p 128) as [H1|H1].
  { cbn [app utf8_decode]. unfold utf8_byte. cbn [needed idle N.eqb]. rewrite utf8_start_1 by done.
    unfold utf16_of_point. by rewrite (proj2 (N.ltb_lt p 65536)) by lia. }
  destruct (N.ltb_spec p 2048) as [H2|H2]; [|destruct (N.ltb_spec p 65536) as [H3|H3]]; cbn [app].
  - rewrite (utf8_first _ _ _ (utf8_start_2 (192 + p / 64) ltac:(divlia))), utf8_last by divlia.
    f_equal. f_equal. divlia.
  - rewrite (utf8_first _ _ _ (utf8_start_3 (224 + p / 4096) ltac:(divlia))).
    rewrite (utf8_middle 0) by (repeat case_test; rewrite ?N.eqb_eq, ?N.eqb_neq in *; divlia).
    rewrite utf8_last by divlia. f_equal. f_equal. divlia.
  - rewrite (utf8_first _ _ _ (utf8_start_4 (240 + p / 262144) ltac:(divlia))).
    rewrite (utf8_middle 1) by (repeat case_test; rewrite ?N.eqb_eq, ?N.eqb_neq in *; divlia).
    rewrite (utf8_middle 0) by divlia. rewrite utf8_last by divlia. f_equal. f_equal. divlia.
Qed.

Lemma utf8_points l : Forall scalar l ->
  Forall (fun b => b < 256) (List.flat_map utf8_of_point l) /\
  utf8_decode idle (List.flat_map utf8_of_point l) = utf16_of_points l.
Proof.
  induction 1 as [|p l Hp Hl [IH1 IH2]]; [by repeat constructor|]. cbn [List.flat_map]. split.
  - apply Forall_app. split; [by apply utf8_bytes|done].
  - rewrite utf8_decode_point, IH2 by done. reflexivity.
Qed.

Lemma no_mark p r : scalar p -> p <> 65279 -> exists c t, utf16_of_point p ++ r = c :: t /\ c <> 65279.
Proof.
  intros Hp Hn. unfold scalar, utf16_of_point in *. destruct (N.ltb_spec p 65536); cbn [app]; eexists _, _; (split; [done|]); divlia.
Qed.

Lemma text_decode_points l : Forall scalar l -> head l <> Some 65279 ->
  text_decode (List.flat_map utf8_of_point l) = utf16_of_points l.
Proof.
  intros Hl Hh. unfold text_decode. rewrite (proj2 (utf8_points l Hl)).
  destruct Hl as [|p l Hp Hl]; [done|]. unfold utf16_of_points. cbn [List.flat_map].
  destruct (no_mark p (List.flat_map utf16_of_point l)) as (c & t & E & Hc); [done|intros ->; by apply Hh|].
  rewrite E. by rewrite (proj2 (N.eqb_neq c 65279)).
Qed.
