(* ===== verification/StatusCodes.v ===== *)
(** * Status code rules

    [src/web/default/src/lib/http-status-code-rules.ts]: parsing, merging and
    printing of HTTP status code ranges; and
    [src/web/default/src/features/channels/lib/status-code-risk-guard.ts]: the
    checks on status code redirects of a channel.  Codes are natural numbers:
    a [parseInt] result that is not exactly representable is far above 599 and
    is refused either way. *)

From S2P Require Import Prelude.
From S2P Require Import JsString.
From S2P Require Import JsNumber.
From S2P Require Import JsValue.

Local Open Scope N_scope.

Module Rules.

Record StatusCodeRange := Range { start : N; stop : N }.

#[export] Instance range_eq_dec : EqDecision StatusCodeRange.
Proof. solve_decision. Defined.

Record ParsedHttpStatusCodeRules := Parsed {
  ok : bool;
  ranges : list StatusCodeRange;
  tokens : list jstr;
  normalized : jstr;
  invalidTokens : list jstr;
}.

Definition isNumber (s : jstr) : bool := is_decimal s.

Definition isValidCode (code : N) : bool := (100 <=? code) && (code <=? 599).

Definition parseToken (token : jstr) : option StatusCodeRange :=
  let cleaned := List.filter (fun c => negb (is_ws c)) (trim token) in
  match cleaned with
  | [] => None
  | _ =>
      if includes 45 cleaned then
        match split_on 45 cleaned with
        | a :: b :: _ =>
            if negb (isNumber a) || negb (isNumber b) then None
            else
              let s := dec_value a in
              let e := dec_value b in
              if negb (isValidCode s) || negb (isValidCode e) || (e <? s) then None
              else Some (Range s e)
        | _ => None
        end
      else if negb (isNumber cleaned) then None
      else
        let code := dec_value cleaned in
        if negb (isValidCode code) then None else Some (Range code code)
  end.

(** The comparator of [mergeRanges], as [compare(a, b) <= 0]. *)
Definition range_leb (a b : StatusCodeRange) : bool :=
  if start a <?> start b then start a <=? start b else stop a <=? stop b.

(** One step of the [reduce] of [mergeRanges]; the last element of [merged]
    is replaced when it is extended. *)
Definition merge_step (merged : list StatusCodeRange) (current : StatusCodeRange)
  : list StatusCodeRange :=
  match last merged with
  | None => merged ++ [current]
  | Some l =>
      if stop l + 1 <? start current then merged ++ [current]
      else removelast merged ++ [Range (start l) (N.max (stop l) (stop current))]
  end.

Definition mergeRanges (rs : list StatusCodeRange) : list StatusCodeRange :=
  match rs with
  | [] => []
  | _ => fold_left merge_step (sort_by range_leb rs) []
  end.

Definition print_range (r : StatusCodeRange) : jstr :=
  if start r =? stop r then dec_of_N (start r)
  else dec_of_N (start r) ++ 45 :: dec_of_N (stop r).

(** The segments of the input: the text between commas, ASCII or full width. *)
Definition segments (raw : jstr) : list jstr :=
  List.filter truthy_str (List.map trim (split_on 44 (replace_unit 65292 [44] raw))).

Definition parseHttpStatusCodeRules (input : jsval) : ParsedHttpStatusCodeRules :=
  let raw := trim (if is_nullish input then [] else string_of_val input) in
  match raw with
  | [] => Parsed true [] [] [] []
  | _ =>
      let segs := segments raw in
      let rs := omap parseToken segs in
      let bad := List.filter (fun s => negb (bool_decide (is_Some (parseToken s)))) segs in
      match bad with
      | _ :: _ => Parsed false [] [] raw bad
      | [] =>
          let merged := mergeRanges rs in
          let toks := List.map print_range merged in
          Parsed true merged toks (join (js ",") toks) []
      end
  end.

(** ** Specification *)

Definition valid (r : StatusCodeRange) : Prop := 100 <= start r <= stop r /\ stop r <= 599.

Definition covers (rs : list StatusCodeRange) (c : N) : Prop :=
  exists r, r ∈ rs /\ start r <= c <= stop r.

(** Ordered, disjoint and not adjacent. *)
Definition gap (a b : StatusCodeRange) : Prop := stop a + 1 < start b.

Definition normal (rs : list StatusCodeRange) : Prop :=
  Forall valid rs /\ StronglySorted gap rs.

(** ** Lemmas *)

Lemma isValidCode_spec c : isValidCode c = true <-> 100 <= c <= 599.
Proof. unfold isValidCode. by rewrite andb_true_iff, !N.leb_le. Qed.

Lemma parseToken_valid t r : parseToken t = Some r -> valid r.
Proof.
  unfold parseToken, valid. intros H.
  repeat case_match; simplify_eq; simpl; prop_tests;
    repeat match goal with H : isValidCode _ = true |- _ => apply isValidCode_spec in H end;
    repeat match goal with H : (_ <? _) = false |- _ => apply N.ltb_ge in H end; lia.
Qed.

(** The merge as a recursion on the range being extended. *)
Fixpoint merge_from (cur : StatusCodeRange) (rs : list StatusCodeRange)
  : list StatusCodeRange :=
  match rs with
  | [] => [cur]
  | r :: rs' =>
      if stop cur + 1 <? start r then cur :: merge_from r rs'
      else merge_from (Range (start cur) (N.max (stop cur) (stop r))) rs'
  end.

Lemma fold_merge_step acc cur rs :
  fold_left merge_step rs (acc ++ [cur]) = acc ++ merge_from cur rs.
Proof.
  revert acc cur. induction rs as [|r rs IH]; intros acc cur; simpl; [done|].
  unfold merge_step at 2. rewrite last_snoc, removelast_last.
  case_test.
  - rewrite IH, <- app_assoc. done.
  - by rewrite IH.
Qed.

Lemma mergeRanges_from rs :
  mergeRanges rs =
  match sort_by range_leb rs with [] => [] | r :: s => merge_from r s end.
Proof.
  unfold mergeRanges. destruct rs as [|r rs]; [done|].
  destruct (sort_by range_leb (r :: rs)) as [|a l] eqn:E; [done|].
  by rewrite <- (app_nil_l (merge_from a l)), <- fold_merge_step.
Qed.

Lemma range_leb_start a b : range_leb a b = true -> start a <= start b.
Proof.
  unfold range_leb. case_bool_decide as E; simpl.
  - rewrite E. lia.
  - intros H. by apply N.leb_le.
Qed.

Lemma range_leb_total a b : range_leb a b = false -> range_leb b a = true.
Proof.
  unfold range_leb. repeat case_bool_decide; simpl; try congruence;
    rewrite N.leb_gt, N.leb_le; lia.
Qed.

Lemma range_leb_trans a b c :
  range_leb a b = true -> range_leb b c = true -> range_leb a c = true.
Proof.
  unfold range_leb. repeat case_bool_decide; simpl; try congruence;
    rewrite !N.leb_le; try lia; intros; exfalso; intuition lia.
Qed.

(** Every later range starts no earlier than the one being extended. *)
Definition starts_after (cur : StatusCodeRange) (rs : list StatusCodeRange) : Prop :=
  StronglySorted (fun a b => start a <= start b) (cur :: rs).

Lemma sorted_starts rs :
  StronglySorted (fun a b => start a <= start b) (sort_by range_leb rs).
Proof.
  pose proof (sort_by_sorted range_leb range_leb_total range_leb_trans rs) as H.
  induction H as [|x l Hl IH Hx]; constructor; [done|].
  eapply Forall_impl; [exact Hx|]. intros. by apply range_leb_start.
Qed.

Lemma starts_after_cons cur r rs :
  starts_after cur (r :: rs) ->
  start cur <= start r /\ starts_after r rs /\
  forall e, starts_after (Range (start cur) e) rs.
Proof.
  unfold starts_after. intros H.
  apply StronglySorted_inv in H as [H1 H2].
  apply Forall_cons in H2 as [H2 H3].
  split_and!; [done|done|]. intros e.
  apply StronglySorted_inv in H1 as [H1 _]. by constructor.
Qed.

Lemma merge_from_head cur rs :
  exists e l, merge_from cur rs = Range (start cur) e :: l.
Proof.
  revert cur. induction rs as [|r rs IH]; intros [s e0]; simpl; [by do 2 eexists|].
  case_test; [by do 2 eexists|]. apply IH.
Qed.

Lemma gap_trans_valid a b c : valid b -> gap a b -> gap b c -> gap a c.
Proof. unfold valid, gap. lia. Qed.

Lemma merge_from_normal cur rs :
  starts_after cur rs -> valid cur -> Forall valid rs -> normal (merge_from cur rs).
Proof.
  revert cur. induction rs as [|r rs IH]; intros cur Hs Hc Hr.
  - split; [by constructor|]. repeat constructor.
  - apply starts_after_cons in Hs as (Hle & Hs1 & Hs2).
    apply Forall_cons in Hr as [Hv Hr]. simpl. destruct (N.ltb_spec (stop cur + 1) (start r)).
    + destruct (IH r Hs1 Hv Hr) as [Hall Hsort].
      split; [by constructor|]. constructor; [done|].
      destruct (merge_from_head r rs) as (e & l & E). rewrite E in *.
      apply StronglySorted_inv in Hsort as [_ Hfa].
      apply Forall_cons in Hall as [Hve _].
      constructor; [done|]. eapply Forall_impl; [exact Hfa|].
      intros x Hx. by eapply gap_trans_valid; [exact Hve| |].
    + apply IH; [apply Hs2| |done].
      unfold valid in *. simpl. lia.
Qed.

Lemma covers_cons r rs c : covers (r :: rs) c <-> start r <= c <= stop r \/ covers rs c.
Proof.
  unfold covers. setoid_rewrite elem_of_cons. split.
  - intros (x & [->|Hx] & Hc); [by left|right; eauto].
  - intros [Hc|(x & Hx & Hc)]; [exists r|exists x]; auto.
Qed.

Lemma merge_from_covers cur rs c :
  starts_after cur rs -> valid cur -> Forall valid rs ->
  covers (merge_from cur rs) c <-> covers (cur :: rs) c.
Proof.
  revert cur. induction rs as [|r rs IH]; intros cur Hs Hc Hr; [done|].
  apply starts_after_cons in Hs as (Hle & Hs1 & Hs2).
  apply Forall_cons in Hr as [Hv Hr]. simpl. destruct (N.ltb_spec (stop cur + 1) (start r)).
  - rewrite covers_cons, IH by done. by rewrite !covers_cons.
  - rewrite IH; [|apply Hs2|unfold valid in *; simpl; lia|done].
    rewrite !covers_cons. simpl. unfold valid in *.
    split; [intros [?|?]; [|auto]|intros [?|[?|?]]; [left|left|right; done]]; lia.
Qed.

Lemma mergeRanges_normal rs : Forall valid rs -> normal (mergeRanges rs).
Proof.
  intros H. rewrite mergeRanges_from.
  assert (Hv : Forall valid (sort_by range_leb rs)) by (by rewrite sort_by_perm).
  pose proof (sorted_starts rs) as Hs.
  destruct (sort_by range_leb rs); [split; constructor|].
  apply Forall_cons in Hv as []. by apply merge_from_normal.
Qed.

Lemma mergeRanges_covers rs c : Forall valid rs -> covers (mergeRanges rs) c <-> covers rs c.
Proof.
  intros H. rewrite mergeRanges_from.
  assert (Hv : Forall valid (sort_by range_leb rs)) by (by rewrite sort_by_perm).
  assert (Hc : covers (sort_by range_leb rs) c <-> covers rs c).
  { unfold covers. by setoid_rewrite elem_of_sort_by. }
  rewrite <- Hc. pose proof (sorted_starts rs) as Hs.
  destruct (sort_by range_leb rs); [done|].
  apply Forall_cons in Hv as []. by apply merge_from_covers.
Qed.

Lemma gap_range_leb rs :
  Forall valid rs -> StronglySorted gap rs ->
  StronglySorted (fun a b => range_leb a b = true) rs.
Proof.
  intros Hv Hs. induction Hs as [|r rs Hs IH Hr]; constructor.
  - apply IH. by apply Forall_cons in Hv as [].
  - apply Forall_cons in Hv as [Hv _]. eapply Forall_impl; [exact Hr|].
    intros x Hx. unfold gap, valid, range_leb in *.
    case_bool_decide; simpl; rewrite N.leb_le; lia.
Qed.

(** Merging ranges in normal form changes nothing. *)
Lemma mergeRanges_id rs : normal rs -> mergeRanges rs = rs.
Proof.
  intros [Hv Hs]. rewrite mergeRanges_from, sort_by_id by (by apply gap_range_leb).
  destruct rs as [|r rs]; [done|]. clear Hv. revert r Hs.
  induction rs as [|r' rs IH]; intros r Hs; [done|].
  apply StronglySorted_inv in Hs as [Hs Hr]. apply Forall_cons in Hr as [Hr _].
  cbn [merge_from]. unfold gap in Hr. rewrite (proj2 (N.ltb_lt _ _) Hr). by rewrite IH.
Qed.

(** ** Printing and reading back *)

Definition token_unit (c : N) : Prop := is_digit c = true \/ c = 45.

Lemma token_unit_not_ws c : token_unit c -> is_ws c = false.
Proof. intros [H| ->]; [by apply is_digit_not_ws|done]. Qed.

Lemma print_range_units r : Forall token_unit (print_range r).
Proof.
  assert (Hd : forall n, Forall token_unit (dec_of_N n)).
  { intros n. eapply Forall_impl; [apply dec_of_N_digits|]. by left. }
  unfold print_range. case_test; [done|].
  apply Forall_app. split; [done|]. constructor; [by right|done].
Qed.

Lemma print_range_ne r : print_range r <> [].
Proof.
  unfold print_range. case_test; [apply dec_of_N_ne|]. by destruct (dec_of_N (start r)).
Qed.

Lemma print_range_trim r : trim (print_range r) = print_range r.
Proof.
  apply trim_id, trimmed_no_ws. eapply Forall_impl; [apply print_range_units|].
  apply token_unit_not_ws.
Qed.

Lemma no_dash n : 45 ∉ dec_of_N n.
Proof.
  intros H. pose proof (dec_of_N_digits n) as Hd. rewrite Forall_forall in Hd.
  by apply Hd in H.
Qed.

Lemma parseToken_print r : valid r -> parseToken (print_range r) = Some r.
Proof.
  intros [Hv1 Hv2]. unfold parseToken. rewrite print_range_trim.
  rewrite filter_all.
  2: { eapply Forall_impl; [apply print_range_units|]. intros c Hc.
       by rewrite token_unit_not_ws. }
  pose proof (print_range_ne r) as Hne.
  destruct (print_range r) as [|x y] eqn:E; [done|]. rewrite <- E. clear Hne.
  assert (Hs : isValidCode (start r) = true) by (apply isValidCode_spec; lia).
  assert (He : isValidCode (stop r) = true) by (apply isValidCode_spec; lia).
  unfold print_range, isNumber. destruct (N.eqb_spec (start r) (stop r)) as [Heq|Hn].
  - rewrite (proj2 (includes_false _ _)) by apply no_dash.
    rewrite is_decimal_of_N, dec_value_of_N, Hs. simpl. rewrite Heq at 2.
    by destruct r.
  - rewrite (proj2 (includes_true _ _)).
    2: { apply elem_of_app. right. by left. }
    rewrite split_on_app, split_on_word by apply no_dash.
    rewrite !is_decimal_of_N, !dec_value_of_N, Hs, He. simpl.
    rewrite (proj2 (N.ltb_ge _ _)) by lia. by destruct r.
Qed.

Lemma replace_unit_id c d s : c ∉ s -> replace_unit c d s = s.
Proof.
  unfold replace_unit. induction s as [|x s IH]; intros H; simpl; [done|].
  apply not_elem_of_cons in H as [Hx Hs].
  rewrite (proj2 (N.eqb_neq x c)) by done. simpl. by rewrite IH.
Qed.

Definition unit_ok (c : N) : Prop := token_unit c \/ c = 44.

Lemma join_units l :
  Forall (Forall token_unit) l -> Forall unit_ok (join [44] l).
Proof.
  induction 1 as [|w l Hw Hl IH]; [constructor|].
  assert (Hw' : Forall unit_ok w) by (eapply Forall_impl; [exact Hw|by left]).
  destruct l as [|w' l]; [done|].
  cbn [join]. apply Forall_app. split; [done|]. constructor; [by right|done].
Qed.

Lemma segments_join (l : list StatusCodeRange) :
  l <> [] -> segments (join [44] (List.map print_range l)) = List.map print_range l.
Proof.
  intros Hne. unfold segments.
  assert (Hu : Forall (Forall token_unit) (List.map print_range l)).
  { apply Forall_forall. intros w Hw. rewrite list_elem_of_In in Hw.
    apply in_map_iff in Hw as (r & <- & _). apply print_range_units. }
  rewrite replace_unit_id.
  2: { intros Hin. apply join_units in Hu. rewrite Forall_forall in Hu.
       apply Hu in Hin as [[?|?]|?]; done. }
  rewrite split_join.
  - rewrite List.map_map, (map_ext _ print_range) by apply print_range_trim.
    apply filter_all, Forall_forall. intros w Hw. rewrite list_elem_of_In in Hw.
    apply in_map_iff in Hw as (r & <- & _).
    pose proof (print_range_ne r). by destruct (print_range r).
  - by destruct l.
  - eapply Forall_impl; [exact Hu|]. intros w Hw Hin. rewrite Forall_forall in Hw.
    apply Hw in Hin as [?|?]; done.
Qed.

Lemma join_ne sep (l : list StatusCodeRange) :
  l <> [] -> join sep (List.map print_range l) <> [].
Proof.
  destruct l as [|r l]; [done|]. intros _. pose proof (print_range_ne r).
  cbn [List.map join]. destruct (List.map print_range l); [done|].
  by destruct (print_range r).
Qed.

Lemma last_join_token (l : list StatusCodeRange) c :
  last (join [44] (List.map print_range l)) = Some c -> token_unit c.
Proof.
  induction l as [|r l IH]; [done|]. cbn [List.map join].
  assert (Hr : forall c, last (print_range r) = Some c -> token_unit c).
  { intros d Hd. pose proof (print_range_units r) as H. rewrite Forall_forall in H.
    apply H. apply last_Some in Hd as [l' ->]. apply elem_of_app. right. by left. }
  destruct (List.map print_range l) as [|w ws] eqn:E; [apply Hr|].
  intros H. apply IH. rewrite last_app in H.
  assert (Hl : l <> []) by (by destruct l).
  pose proof (join_ne [44] l Hl) as Hne. rewrite E in Hne.
  cbn [app] in H. rewrite last_cons in H.
  destruct (last (join [44] (w :: ws))) eqn:El; [done|].
  by apply last_None in El.
Qed.

Lemma trim_join (l : list StatusCodeRange) :
  trim (join [44] (List.map print_range l)) = join [44] (List.map print_range l).
Proof.
  apply trim_id. split; intros c Hc.
  - apply token_unit_not_ws. destruct l as [|r l]; [done|].
    pose proof (print_range_units r) as H. pose proof (print_range_ne r) as Hne.
    assert (Hh : head (print_range r) = Some c).
    { cbn [List.map join] in Hc. destruct (List.map print_range l); [done|].
      by destruct (print_range r). }
    rewrite Forall_forall in H. apply H. destruct (print_range r); [done|].
    simpl in Hh. simplify_eq. by left.
  - apply token_unit_not_ws. by apply last_join_token in Hc.
Qed.

Lemma omap_print (l : list StatusCodeRange) :
  Forall valid l -> omap parseToken (List.map print_range l) = l.
Proof.
  induction 1 as [|r l Hr Hl IH]; csimpl; [done|]. by rewrite parseToken_print, IH.
Qed.

Lemma no_bad_print (l : list StatusCodeRange) :
  Forall valid l ->
  List.filter (fun s => negb (bool_decide (is_Some (parseToken s)))) (List.map print_range l) = [].
Proof.
  intros H. apply filter_none, Forall_forall. intros w Hw.
  rewrite list_elem_of_In in Hw. apply in_map_iff in Hw as (r & <- & Hr).
  rewrite Forall_forall in H. rewrite parseToken_print by (by apply H, list_elem_of_In).
  by rewrite bool_decide_true.
Qed.

(** What a successful parse returns: the printed normal form of its ranges. *)
Lemma parse_ok_shape input :
  let p := parseHttpStatusCodeRules input in
  ok p = true ->
  normal (ranges p) /\ tokens p = List.map print_range (ranges p) /\
  normalized p = join [44] (tokens p) /\ invalidTokens p = [].
Proof.
  unfold parseHttpStatusCodeRules. set (raw := trim _).
  destruct raw; simpl; [intros _; split_and!; try done; split; constructor|].
  destruct (List.filter _ _); [|done]. intros _. split_and!; try done.
  apply mergeRanges_normal, Forall_forall. intros r Hr.
  apply list_elem_of_omap in Hr as (t & _ & Ht). by eapply parseToken_valid.
Qed.

Lemma parse_printed rs :
  normal rs ->
  parseHttpStatusCodeRules (VStr (join [44] (List.map print_range rs))) =
  Parsed true rs (List.map print_range rs) (join [44] (List.map print_range rs)) [].
Proof.
  intros Hn. unfold parseHttpStatusCodeRules. cbn [is_nullish string_of_val].
  rewrite trim_join. destruct rs as [|r rs]; [done|].
  pose proof (join_ne [44] (r :: rs) ltac:(done)) as Hne.
  destruct (join [44] (List.map print_range (r :: rs))) eqn:E; [done|]. rewrite <- E.
  rewrite segments_join by done. destruct Hn as [Hv Hs].
  rewrite omap_print, no_bad_print by done. by rewrite mergeRanges_id by (by split).
Qed.

(** C10: a successful parse returns ranges that lie in 100..599, are ordered,
    disjoint and not adjacent, and that cover exactly the codes covered by the
    ranges written between the commas of the input. *)
Theorem parse_canonical input :
  let p := parseHttpStatusCodeRules input in
  ok p = true ->
  normal (ranges p) /\
  forall c, covers (ranges p) c <->
    exists seg r,
      seg ∈ segments (trim (if is_nullish input then [] else string_of_val input)) /\
      parseToken seg = Some r /\ start r <= c <= stop r.
Proof.
  intros p Hok. split; [by apply parse_ok_shape|]. intros c.
  unfold p, parseHttpStatusCodeRules in *. clear p.
  set (raw := trim _) in *. destruct raw as [|x raw']; simpl in *.
  - split; [by intros (r & ?%elem_of_nil & _)|]. by intros (seg & r & ?%elem_of_nil & _).
  - destruct (List.filter _ _); [|done]. simpl.
    rewrite mergeRanges_covers.
    + unfold covers. setoid_rewrite list_elem_of_omap. naive_solver.
    + apply Forall_forall. intros r (t & _ & Ht)%list_elem_of_omap.
      by eapply parseToken_valid.
Qed.

Lemma parse_canonical_witness :
  let p := parseHttpStatusCodeRules (VStr (js "500-503, 429,504")) in
  ok p = true /\ covers (ranges p) 502 /\ normal (ranges p).
Proof.
  intros p.
  pose proof (parse_canonical (VStr (js "500-503, 429,504")) eq_refl) as [Hn Hc].
  split_and!; [reflexivity| |exact Hn].
  exists (Range 500 504). split; [right; left|vm_compute; split; discriminate].
Defined.

(** The normalized text of a successful parse parses again, to the same
    ranges, tokens and text: normalization is a fixed point of the parser. *)
Theorem parse_normalized_roundtrip input :
  ok (parseHttpStatusCodeRules input) = true ->
  parseHttpStatusCodeRules (VStr (normalized (parseHttpStatusCodeRules input))) =
  parseHttpStatusCodeRules input.
Proof.
  intros Hok. pose proof (parse_ok_shape input Hok) as (Hn & Ht & Hs & Hi).
  rewrite Hs, Ht, parse_printed by done. rewrite <- Ht, <- Hs, <- Hi, <- Hok.
  by destruct (parseHttpStatusCodeRules input).
Qed.

Lemma parse_normalized_roundtrip_witness :
  normalized (parseHttpStatusCodeRules (VStr (js " 502-503，500 - 501, 404"))) = js "404,500-503" /\
  parseHttpStatusCodeRules (VStr (normalized (parseHttpStatusCodeRules (VStr (js " 502-503，500 - 501, 404"))))) =
  parseHttpStatusCodeRules (VStr (js " 502-503，500 - 501, 404")).
Proof. split; [reflexivity|]. apply parse_normalized_roundtrip. reflexivity. Defined.

(** A parse fails exactly when some segment is not a code or a range of
    codes, and then it reports those segments, in the order of the input, with
    the trimmed input unchanged and no ranges. *)
Theorem parse_rejects input :
  let raw := trim (if is_nullish input then [] else string_of_val input) in
  let p := parseHttpStatusCodeRules input in
  (ok p = false <-> exists seg, seg ∈ segments raw /\ parseToken seg = None) /\
  (ok p = false -> ranges p = [] /\ tokens p = [] /\ normalized p = raw /\
     invalidTokens p =
     List.filter (fun s => negb (bool_decide (is_Some (parseToken s)))) (segments raw)).
Proof.
  intros raw p. unfold p, parseHttpStatusCodeRules. fold raw.
  destruct raw as [|x raw'] eqn:Er.
  - split; [|done]. split; [done|]. by intros (seg & ?%elem_of_nil & _).
  - rewrite <- Er.
    destruct (List.filter _ (segments raw)) as [|b bs] eqn:Eb; simpl.
    + split; [|done]. split; [done|]. intros (seg & Hs & Hp). exfalso.
      apply (not_elem_of_nil seg). rewrite <- Eb. apply elem_of_lfilter.
      by rewrite Hp.
    + split; [|done]. split; [|done]. intros _.
      assert (Hb : b ∈ b :: bs) by (by left). rewrite <- Eb in Hb.
      apply elem_of_lfilter in Hb as [Hb Hp]. exists b. split; [done|].
      destruct (parseToken b); done.
Qed.

Lemma parse_rejects_witness :
  let p := parseHttpStatusCodeRules (VStr (js "404,6x,700")) in
  ok p = false /\ invalidTokens p = [js "6x"; js "700"].
Proof.
  split; [reflexivity|].
  destruct (parse_rejects (VStr (js "404,6x,700"))) as [_ H].
  destruct (H eq_refl) as (_ & _ & _ & ->). reflexivity.
Defined.

End Rules.

Module RiskGuard.

Definition NON_REDIRECTABLE_STATUS_CODES : list N := [504; 524].

(** [/^[1-5]\d{2}$/]. *)
Definition is_status_text (s : jstr) : bool :=
  match s with
  | [a; b; c] => (49 <=? a) && (a <=? 53) && is_digit b && is_digit c
  | _ => false
  end.

Definition parseStatusCodeKey (rawKey : jstr) : option N :=
  let n := trim rawKey in
  if is_status_text n then Some (dec_value n) else None.

(** The value of a finite integral number. *)
Definition integer_value (x : num) : option Z :=
  match x with
  | Fin s m => if is_integer x then Some (units s m / Z.of_N one_units)%Z else None
  | _ => None
  end.

Definition parseStatusCodeMappingTarget (rawValue : jsval) : option N :=
  match rawValue with
  | VNum x =>
      match integer_value x with
      | Some z => if ((100 <=? z) && (z <=? 599))%Z then Some (Z.to_N z) else None
      | None => None
      end
  | VStr s =>
      let n := trim s in
      if is_status_text n then
        let code := dec_value n in
        if (100 <=? code) && (code <=? 599) then Some code else None
      else None
  | _ => None
  end.

(** The object a mapping text holds: [None] for blank text, a syntax error,
    a falsy value, an array or another non-object. *)
Definition mapping_entries (str : jstr) : option jsobj :=
  if negb (truthy_str (trim str)) then None
  else match json_parse str with
       | Some (VObj o) => Some o
       | _ => None
       end.

Definition collectInvalidStatusCodeEntries (str : jstr) : list jstr :=
  match mapping_entries str with
  | None => []
  | Some o =>
      List.flat_map
        (fun kv =>
           match parseStatusCodeKey kv.1, parseStatusCodeMappingTarget kv.2 with
           | Some _, Some _ => []
           | _, _ => [kv.1 ++ js " → " ++ string_of_val kv.2]
           end) o
  end.

Definition collectDisallowedStatusCodeRedirects (str : jstr) : list jstr :=
  match mapping_entries str with
  | None => []
  | Some o =>
      sort_by str_leb (uniq (List.flat_map
        (fun kv =>
           match parseStatusCodeKey kv.1, parseStatusCodeMappingTarget kv.2 with
           | Some fromCode, Some toCode =>
               if negb (includes fromCode NON_REDIRECTABLE_STATUS_CODES) then []
               else if fromCode =? toCode then []
               else [dec_of_N fromCode ++ js " -> " ++ dec_of_N toCode]
           | _, _ => []
           end) o))
  end.

Definition collectNewDisallowedStatusCodeRedirects (originalStr currentStr : jstr)
  : list jstr :=
  let currentRisky := collectDisallowedStatusCodeRedirects currentStr in
  match currentRisky with
  | [] => []
  | _ =>
      let original := collectDisallowedStatusCodeRedirects originalStr in
      List.filter (fun m => negb (includes m original)) currentRisky
  end.

(** A redirect of the mapping [o] that may not be made. *)
Definition risky (o : jsobj) (m : jstr) : Prop :=
  exists k v f t,
    (k, v) ∈ o /\ parseStatusCodeKey k = Some f /\
    parseStatusCodeMappingTarget v = Some t /\
    f ∈ NON_REDIRECTABLE_STATUS_CODES /\ f <> t /\
    m = dec_of_N f ++ js " -> " ++ dec_of_N t.

Lemma collect_risky str o m :
  mapping_entries str = Some o ->
  m ∈ collectDisallowedStatusCodeRedirects str <-> risky o m.
Proof.
  intros Ho. unfold collectDisallowedStatusCodeRedirects, risky. rewrite Ho.
  rewrite elem_of_sort_by, elem_of_uniq, list_elem_of_In, in_flat_map. split.
  - intros ([k v] & Hin & Hm). simpl in Hm.
    destruct (parseStatusCodeKey k) as [f|] eqn:Ef; [|done].
    destruct (parseStatusCodeMappingTarget v) as [t|] eqn:Et; [|done].
    destruct (includes f _) eqn:Ei; [|done]. simpl in Hm.
    destruct (N.eqb_spec f t); [done|]. destruct Hm as [<-|[]].
    exists k, v, f, t. rewrite list_elem_of_In. split_and!; try done.
    by apply includes_true.
  - intros (k & v & f & t & Hin & Ef & Et & Hf & Hne & ->).
    exists (k, v). rewrite list_elem_of_In in Hin. split; [done|]. simpl.
    rewrite Ef, Et, (proj2 (includes_true _ _) Hf), (proj2 (N.eqb_neq _ _) Hne). by left.
Qed.

Lemma collect_sorted str :
  StronglySorted (fun a b => str_leb a b = true) (collectDisallowedStatusCodeRedirects str) /\
  NoDup (collectDisallowedStatusCodeRedirects str).
Proof.
  unfold collectDisallowedStatusCodeRedirects.
  destruct (mapping_entries str) as [o|]; [|split; constructor]. split.
  - apply sort_by_sorted; [apply str_leb_total|apply str_leb_trans].
  - rewrite sort_by_perm. apply NoDup_uniq.
Qed.

(** For a channel whose status code mapping is a JSON object, the reported
    redirects are exactly the entries that send 504 or 524 to a different valid
    code, each reported once and in ascending order. *)
Theorem disallowed_redirects_exact str o m :
  mapping_entries str = Some o ->
  (m ∈ collectDisallowedStatusCodeRedirects str <-> risky o m) /\
  StronglySorted (fun a b => str_leb a b = true) (collectDisallowedStatusCodeRedirects str) /\
  NoDup (collectDisallowedStatusCodeRedirects str).
Proof. intros Ho. split; [by apply collect_risky|apply collect_sorted]. Qed.

Lemma disallowed_redirects_exact_witness :
  let str := jq "{'524':429,'504':'200','500':'200',' 504 ':504}" in
  collectDisallowedStatusCodeRedirects str = [js "504 -> 200"; js "524 -> 429"] /\
  NoDup (collectDisallowedStatusCodeRedirects str).
Proof.
  split; [vm_compute; reflexivity|].
  eapply (disallowed_redirects_exact _ _ (js "504 -> 200")).
  vm_compute. reflexivity.
Defined.

(** An edit is stopped only for the redirects it introduces: what is
    reported is the current list without the original one, and saving without
    a change reports nothing. *)
Theorem new_redirects_difference original current m :
  (m ∈ collectNewDisallowedStatusCodeRedirects original current <->
   m ∈ collectDisallowedStatusCodeRedirects current /\
   m ∉ collectDisallowedStatusCodeRedirects original) /\
  collectNewDisallowedStatusCodeRedirects original original = [].
Proof.
  unfold collectNewDisallowedStatusCodeRedirects. split.
  - destruct (collectDisallowedStatusCodeRedirects current) eqn:E.
    + rewrite elem_of_nil. tauto.
    + rewrite <- E, elem_of_lfilter, negb_true_iff, includes_false. done.
  - destruct (collectDisallowedStatusCodeRedirects original) eqn:E; [done|].
    rewrite <- E. apply filter_none, Forall_forall. intros x Hx.
    by rewrite (proj2 (includes_true _ _) Hx).
Qed.

End RiskGuard.
