(* ===== verification/QrPayment.v ===== *)
(** * QR payment sessions and status polling

    Models [features/wallet/qr-payment-session.ts] and the hooks
    [use-qr-payment-status-polling.ts] and [use-qr-payment-success-close.ts].

    An asynchronous callback of a hook is cut at its [await]s.  The calls that
    are suspended are kept in [tasks], keyed by their request id; a label of
    [step] is one uninterrupted run of code between two suspensions, and any
    sequence of labels is an interleaving the event loop may produce.  The refs
    and the React state of the hook are the fields of [Hook]. *)

From S2P Require Import Prelude.
From S2P Require Import JsString.
From stdpp Require Import gmap.

Local Open Scope N_scope.

(** ** qr-payment-session.ts *)

Module Session.

(** The fields of [QrPaymentResult] the session reads; [None] is an absent
    field. *)
Record QrPaymentResult := Payment {
  trade_no : option jstr;
  order_id : option jstr
}.

Inductive QrPaymentStatus := Pending | Success | Failed | Expired.

#[export] Instance QrPaymentStatus_eq : EqDecision QrPaymentStatus.
Proof. solve_decision. Defined.

Record QrPaymentSession := QrSession {
  sessionId : N;
  open : bool;
  tradeNo : jstr
}.

Record QrPaymentSessionRequest := Request {
  req_sessionId : N;
  req_tradeNo : jstr
}.

Definition initialQrPaymentSession : QrPaymentSession := QrSession 0 false [].

(** [(payment?.field || '').trim()]. *)
Definition trimmed_field (f : option jstr) : jstr := trim (default [] f).

Definition getQrPaymentPrimaryTradeNo (payment : option QrPaymentResult) : jstr :=
  trimmed_field (payment ≫= trade_no).

Definition getQrPaymentTradeNo (payment : option QrPaymentResult) : jstr :=
  let primary := getQrPaymentPrimaryTradeNo payment in
  if truthy_str primary then primary else trimmed_field (payment ≫= order_id).

Definition createQrPaymentSession (previousSessionId : N) (payment : option QrPaymentResult)
  : QrPaymentSession :=
  QrSession (previousSessionId + 1) true (getQrPaymentTradeNo payment).

Definition closeQrPaymentSession (session : QrPaymentSession) : QrPaymentSession :=
  QrSession (sessionId session + 1) false [].

Definition isCurrentQrPaymentSession (session : QrPaymentSession)
  (request : QrPaymentSessionRequest) : bool :=
  open session && (req_tradeNo request <?> []) &&
  (sessionId session =? req_sessionId request) &&
  (tradeNo session =?= req_tradeNo request).

(** The part of [handleQrPaymentSuccessOnce] before its [await]: a result, or
    the call of [onSuccess]. *)
Inductive SuccessCall := Returns (handled : bool) | CallsOnSuccess.

Definition handleQrPaymentSuccessOnce (tn : jstr) (handledTradeNo : option jstr)
  : SuccessCall :=
  if negb (truthy_str tn) then Returns false
  else if handledTradeNo =?= Some tn then Returns true
  else CallsOnSuccess.

(** The part after the [await]: the result, and whether the trade number is
    recorded and the user notified. [None] is a [void] result. *)
Definition handleQrPaymentSuccessOnce_resume (successResult : option bool) : bool :=
  successResult <?> Some false.

Lemma is_current_spec s r :
  isCurrentQrPaymentSession s r = true <->
  open s = true /\ req_tradeNo r <> [] /\ sessionId s = req_sessionId r /\
  tradeNo s = req_tradeNo r.
Proof.
  unfold isCurrentQrPaymentSession.
  rewrite !andb_true_iff, negb_true_iff, bool_decide_eq_false, N.eqb_eq, bool_decide_eq_true.
  tauto.
Qed.

End Session.

(** ** use-qr-payment-status-polling.ts *)

Module Polling.
Import Session.

(** Where a call of [refreshStatus] is suspended. *)
Inductive Phase :=
| AwaitPoll                                  (* await pollStatus(payment, tradeNo) *)
| AwaitOnSuccess                             (* await onSuccess?.() *)
| AwaitResolved (resolved : QrPaymentStatus) (* resolveQrPaymentPolledStatus returned *)
| AwaitRejected.                             (* resolveQrPaymentPolledStatus threw *)

Record Task := MkTask {
  request : QrPaymentSessionRequest;
  manual : bool;                             (* called by [refresh] *)
  phase : Phase
}.

(** Effects outside the hook, newest first. *)
Inductive Event :=
| EvPoll (tn : jstr)
| EvOnSuccess (sid : N) (tn : jstr)
| EvNotify (sid : N) (tn : jstr)
| EvConsoleError
| EvFallback.

Record Hook := MkHook {
  status : QrPaymentStatus;
  refreshing : bool;
  pollingInFlight : bool;
  pollingRequestId : N;
  handledTradeNo : option jstr;
  session : QrPaymentSession;
  tasks : gmap N Task;
  events : list Event
}.

Definition initial : Hook :=
  MkHook Pending false false 0 None initialQrPaymentSession ∅ [].

Definition emit (e : list Event) (h : Hook) : Hook :=
  MkHook (status h) (refreshing h) (pollingInFlight h) (pollingRequestId h)
    (handledTradeNo h) (session h) (tasks h) (e ++ events h).

Definition set_tasks (ts : gmap N Task) (h : Hook) : Hook :=
  MkHook (status h) (refreshing h) (pollingInFlight h) (pollingRequestId h)
    (handledTradeNo h) (session h) ts (events h).

Definition setStatus (s : QrPaymentStatus) (h : Hook) : Hook :=
  MkHook s (refreshing h) (pollingInFlight h) (pollingRequestId h)
    (handledTradeNo h) (session h) (tasks h) (events h).

Definition set_handled (tn : jstr) (h : Hook) : Hook :=
  MkHook (status h) (refreshing h) (pollingInFlight h) (pollingRequestId h)
    (Some tn) (session h) (tasks h) (events h).

Definition resolveQrPaymentPolledStatus (handled : bool) : QrPaymentStatus :=
  if handled then Success else Pending.

Section Hook.

(** The option of the hook, [getQrPaymentTradeNo] by default. *)
Variable getPollingTradeNo : QrPaymentResult -> jstr.

Definition activatePayment (nextPayment : QrPaymentResult) (h : Hook) : Hook :=
  MkHook Pending false false (pollingRequestId h + 1) None
    (QrSession (sessionId (session h) + 1) true (getPollingTradeNo nextPayment))
    (tasks h) (events h).

Definition closeSession (h : Hook) : Hook :=
  MkHook Pending false false (pollingRequestId h + 1) None
    (closeQrPaymentSession (session h)) (tasks h) (events h).

(** The effect that follows the [open], [enabled] and [payment] props. *)
Definition sync_effect (open_ enabled : bool) (payment : option QrPaymentResult) (h : Hook)
  : Hook :=
  if negb open_ then (if open (session h) then closeSession h else h)
  else match payment with
       | Some p =>
           if negb enabled then h
           else
             let tn := getPollingTradeNo p in
             if negb (truthy_str tn) then h
             else if negb (open (session h)) || (tradeNo (session h) <?> tn)
             then activatePayment p h else h
       | None => h
       end.

(** [refreshStatus] up to the call of [pollStatus]. *)
Definition refreshStatus (manual_ enabled : bool) (payment : option QrPaymentResult) (h : Hook)
  : Hook :=
  match (if enabled then payment else None) with
  | None => emit [EvFallback] h
  | Some p =>
      let tn := getPollingTradeNo p in
      if negb (truthy_str tn) then emit [EvFallback] h
      else if pollingInFlight h then h
      else
        let requestSession := Request (sessionId (session h)) tn in
        if negb (isCurrentQrPaymentSession (session h) requestSession) then h
        else
          let requestId := pollingRequestId h + 1 in
          MkHook (status h) true true requestId (handledTradeNo h) (session h)
            (<[requestId := MkTask requestSession manual_ AwaitPoll]> (tasks h))
            (EvPoll tn :: events h)
  end.

(** The [finally] block and the return: [null_result] tells whether the call
    returns [null], on which [refresh] calls the fallback. *)
Definition finish (requestId : N) (t : Task) (null_result : bool) (h : Hook) : Hook :=
  let h1 :=
    if pollingRequestId h =? requestId then
      MkHook (status h)
        (if isCurrentQrPaymentSession (session h) (request t) then false else refreshing h)
        false (pollingRequestId h) (handledTradeNo h) (session h) (tasks h) (events h)
    else h in
  let h2 := set_tasks (delete requestId (tasks h1)) h1 in
  if null_result && manual t then emit [EvFallback] h2 else h2.

(** The [catch] block. *)
Definition caught (requestId : N) (t : Task) (h : Hook) : Hook :=
  if negb (isCurrentQrPaymentSession (session h) (request t)) then finish requestId t false h
  else finish requestId t true (emit [EvConsoleError] h).

Definition to_phase (requestId : N) (t : Task) (p : Phase) (h : Hook) : Hook :=
  set_tasks (<[requestId := MkTask (request t) (manual t) p]> (tasks h)) h.

(** The outcome of [pollStatus]. *)
Inductive PollResult := PollStatus (s : QrPaymentStatus) | PollNull | PollThrows.

(** From the settlement of [pollStatus] to the next suspension. *)
Definition after_poll (requestId : N) (t : Task) (r : PollResult) (h : Hook) : Hook :=
  match r with
  | PollThrows => caught requestId t h
  | PollStatus _ | PollNull =>
      if negb (isCurrentQrPaymentSession (session h) (request t))
      then finish requestId t false h
      else match r with
           | PollStatus Success =>
               match handleQrPaymentSuccessOnce (req_tradeNo (request t)) (handledTradeNo h) with
               | Returns b => to_phase requestId t (AwaitResolved (resolveQrPaymentPolledStatus b)) h
               | CallsOnSuccess =>
                   emit [EvOnSuccess (req_sessionId (request t)) (req_tradeNo (request t))]
                     (to_phase requestId t AwaitOnSuccess h)
               end
           | PollStatus s => to_phase requestId t (AwaitResolved s) h
           | _ => finish requestId t true h
           end
  end.

(** The outcome of [onSuccess]. *)
Inductive SuccessResult := SuccessReturns (r : option bool) | SuccessThrows.

Definition after_onSuccess (requestId : N) (t : Task) (r : SuccessResult) (h : Hook) : Hook :=
  match r with
  | SuccessThrows => to_phase requestId t AwaitRejected h
  | SuccessReturns b =>
      if handleQrPaymentSuccessOnce_resume b then
        emit [EvNotify (req_sessionId (request t)) (req_tradeNo (request t))]
          (set_handled (req_tradeNo (request t))
             (to_phase requestId t (AwaitResolved (resolveQrPaymentPolledStatus true)) h))
      else to_phase requestId t (AwaitResolved (resolveQrPaymentPolledStatus false)) h
  end.

Definition after_resolve (requestId : N) (t : Task) (h : Hook) : Hook :=
  match phase t with
  | AwaitResolved s => finish requestId t false (setStatus s h)
  | _ => caught requestId t h
  end.

(** The guard of the effect that polls at once and then every interval. *)
Definition polling_active (open_ enabled : bool) (payment : option QrPaymentResult) (h : Hook)
  : bool :=
  open_ && enabled && (status h =?= Pending) &&
  match payment with Some p => truthy_str (getPollingTradeNo p) | None => false end.

Inductive Label :=
| Activate (p : QrPaymentResult)
| Close
| Sync (open_ enabled : bool) (payment : option QrPaymentResult)
| Tick (open_ enabled : bool) (payment : option QrPaymentResult)
| Refresh (enabled : bool) (payment : option QrPaymentResult)
| PollSettles (requestId : N) (r : PollResult)
| SuccessSettles (requestId : N) (r : SuccessResult)
| Resumes (requestId : N).

(** One uninterrupted run of the hook; a label whose task does not exist, or
    waits for something else, is not an event that can happen and changes
    nothing. *)
Definition step (h : Hook) (l : Label) : Hook :=
  match l with
  | Activate p => activatePayment p h
  | Close => closeSession h
  | Sync o e p => sync_effect o e p h
  | Tick o e p => if polling_active o e p h then refreshStatus false e p h else h
  | Refresh e p => refreshStatus true e p h
  | PollSettles id r =>
      match tasks h !! id with
      | Some t => match phase t with AwaitPoll => after_poll id t r h | _ => h end
      | None => h
      end
  | SuccessSettles id r =>
      match tasks h !! id with
      | Some t => match phase t with AwaitOnSuccess => after_onSuccess id t r h | _ => h end
      | None => h
      end
  | Resumes id =>
      match tasks h !! id with
      | Some t =>
          match phase t with
          | AwaitResolved _ | AwaitRejected => after_resolve id t h
          | _ => h
          end
      | None => h
      end
  end.

Definition run (h : Hook) (ls : list Label) : Hook := fold_left step ls h.

Inductive reachable : Hook -> Prop :=
| reach_initial : reachable initial
| reach_step h l : reachable h -> reachable (step h l).

(** *** Single flight *)

(** The invariant of the hook.  A task of the current session is the one the
    refs describe; a task of an older session can never become current again. *)
Record Inv (h : Hook) : Prop := {
  inv_id id t : tasks h !! id = Some t -> id <= pollingRequestId h;
  inv_old id t : tasks h !! id = Some t ->
    req_sessionId (request t) <= sessionId (session h);
  inv_same id t : tasks h !! id = Some t ->
    req_sessionId (request t) = sessionId (session h) -> id = pollingRequestId h;
  inv_cur t : tasks h !! pollingRequestId h = Some t ->
    isCurrentQrPaymentSession (session h) (request t) = true;
  inv_flight : pollingInFlight h = true <-> is_Some (tasks h !! pollingRequestId h);
  inv_spin : refreshing h = pollingInFlight h;
  inv_closed : open (session h) = false -> tradeNo (session h) = []
}.

Lemma inv_initial : Inv initial.
Proof.
  split; simpl; try done. rewrite lookup_empty. split; [done|by intros []].
Qed.

Lemma inv_emit e h : Inv h -> Inv (emit e h).
Proof. intros []; by split. Qed.

Lemma inv_setStatus s h : Inv h -> Inv (setStatus s h).
Proof. intros []; by split. Qed.

Lemma inv_set_handled tn h : Inv h -> Inv (set_handled tn h).
Proof. intros []; by split. Qed.

(** Opening or closing a session outdates every pending task. *)
Lemma inv_switch s h :
  Inv h -> sessionId s = sessionId (session h) + 1 -> (open s = false -> tradeNo s = []) ->
  Inv (MkHook Pending false false (pollingRequestId h + 1) None s (tasks h) (events h)).
Proof.
  intros [Hid Hold _ _ _ _ _] Hs Hc.
  assert (Hno : tasks h !! (pollingRequestId h + 1) = None).
  { destruct (tasks h !! _) eqn:E; [|done]. apply Hid in E. lia. }
  split; simpl.
  - intros id t Ht. apply Hid in Ht. lia.
  - intros id t Ht. apply Hold in Ht. rewrite Hs. lia.
  - intros id t Ht E. apply Hold in Ht. rewrite Hs in E. lia.
  - intros t. by rewrite Hno.
  - rewrite Hno. split; [done|by intros []].
  - done.
  - done.
Qed.

Lemma inv_to_phase id t p h :
  Inv h -> tasks h !! id = Some t -> Inv (to_phase id t p h).
Proof.
  intros [Hid Hold Hsame Hcur Hfl Hsp Hcl] Ht.
  assert (Hold' : forall i u, <[id := MkTask (request t) (manual t) p]> (tasks h) !! i = Some u ->
            exists u', tasks h !! i = Some u' /\ request u' = request u).
  { intros i u [[<- <-]|[_ Hu]]%lookup_insert_Some; eauto. }
  split; simpl; try done.
  - intros i u (u' & Hu & _)%Hold'. eauto.
  - intros i u (u' & Hu & <-)%Hold'. eauto.
  - intros i u (u' & Hu & <-)%Hold'. eauto.
  - intros u (u' & Hu & <-)%Hold'. eauto.
  - rewrite Hfl, lookup_insert_is_Some. split.
    + intros Hs. destruct (decide (id = pollingRequestId h)); eauto.
    + intros [<-|[_ Hs]]; eauto.
Qed.

Lemma inv_finish id t b h :
  Inv h -> tasks h !! id = Some t -> Inv (finish id t b h).
Proof.
  intros [Hid Hold Hsame Hcur Hfl Hsp Hcl] Ht.
  assert (Hi : Inv (finish id t false h)); [|unfold finish in *; case_test;
    [apply andb_true_iff in Heqb0 as [-> _]; by apply inv_emit|done]].
  unfold finish. simpl. destruct (N.eqb_spec (pollingRequestId h) id) as [E|E]; simpl.
  - subst id. rewrite Hcur by done. split; simpl; try done.
    + intros i u [_ Hu]%lookup_delete_Some. eauto.
    + intros i u [_ Hu]%lookup_delete_Some. eauto.
    + intros i u [_ Hu]%lookup_delete_Some. eauto.
    + intros u [Hne _]%lookup_delete_Some. done.
    + rewrite lookup_delete_eq. split; [done|by intros []].
  - split; simpl; try done.
    + intros i u [_ Hu]%lookup_delete_Some. eauto.
    + intros i u [_ Hu]%lookup_delete_Some. eauto.
    + intros i u [_ Hu]%lookup_delete_Some. eauto.
    + intros u [_ Hu]%lookup_delete_Some. eauto.
    + by rewrite lookup_delete_ne.
Qed.

Lemma inv_caught id t h : Inv h -> tasks h !! id = Some t -> Inv (caught id t h).
Proof.
  intros Hi Ht. unfold caught. case_test; [by apply inv_finish|].
  apply inv_finish; [by apply inv_emit|done].
Qed.

Lemma inv_refreshStatus m e p h : Inv h -> Inv (refreshStatus m e p h).
Proof.
  intros Hi. unfold refreshStatus. destruct (if e then p else None) as [q|]; [|by apply inv_emit].
  case_test; [by apply inv_emit|]. case_test; [done|]. case_test; [done|].
  apply negb_false_iff in Heqb1. destruct Hi as [Hid Hold Hsame Hcur Hfl Hsp Hcl].
  assert (Hno : tasks h !! pollingRequestId h = None).
  { destruct (tasks h !! pollingRequestId h) eqn:E; [|done].
    assert (pollingInFlight h = true) by (apply Hfl; eauto). congruence. }
  split; simpl; try done.
  - intros i u [[<- <-]|[_ Hu]]%lookup_insert_Some; [lia|]. apply Hid in Hu. lia.
  - intros i u [[<- <-]|[_ Hu]]%lookup_insert_Some; [simpl; lia|]. eauto.
  - intros i u [[<- <-]|[_ Hu]]%lookup_insert_Some; [done|]. intros Hs.
    pose proof (Hsame _ _ Hu Hs) as ->. congruence.
  - intros u [[_ <-]|[Hne _]]%lookup_insert_Some; [done|]. done.
  - rewrite lookup_insert_eq. split; [eauto|done].
Qed.

Lemma inv_step h l : Inv h -> Inv (step h l).
Proof.
  intros Hi. destruct l as [p| |o e p|o e p|e p|id r|id r|id]; simpl.
  - by apply inv_switch.
  - by apply inv_switch.
  - unfold sync_effect. repeat case_match; try done; by apply inv_switch.
  - case_test; [by apply inv_refreshStatus|done].
  - by apply inv_refreshStatus.
  - destruct (tasks h !! id) as [t|] eqn:Ht; [|done]. destruct (phase t); try done.
    unfold after_poll. repeat case_match; eauto using inv_finish, inv_caught, inv_to_phase, inv_emit.
  - destruct (tasks h !! id) as [t|] eqn:Ht; [|done]. destruct (phase t); try done.
    unfold after_onSuccess. repeat case_match;
      eauto using inv_to_phase, inv_emit, inv_set_handled.
  - destruct (tasks h !! id) as [t|] eqn:Ht; [|done].
    unfold after_resolve. repeat case_match; eauto using inv_caught.
    all: by apply inv_finish; [apply inv_setStatus|].
Qed.

Lemma inv_reachable h : reachable h -> Inv h.
Proof. induction 1; eauto using inv_initial, inv_step. Qed.

(** C1: polling is single-flight.  In every reachable state the spinner is on
    exactly while a poll is in flight, a poll is in flight exactly when some
    pending call belongs to the current session, and that call is unique, so
    no two polls of one session overlap whatever the interleaving of renders,
    timers, closes and responses. *)
Theorem polling_single_flight h :
  reachable h ->
  refreshing h = pollingInFlight h /\
  (pollingInFlight h = true <->
   exists id t, tasks h !! id = Some t /\
     isCurrentQrPaymentSession (session h) (request t) = true) /\
  forall id id' t t',
    tasks h !! id = Some t -> isCurrentQrPaymentSession (session h) (request t) = true ->
    tasks h !! id' = Some t' -> isCurrentQrPaymentSession (session h) (request t') = true ->
    id = id'.
Proof.
  intros Hi%inv_reachable.
  assert (Hone : forall id t, tasks h !! id = Some t ->
            isCurrentQrPaymentSession (session h) (request t) = true -> id = pollingRequestId h).
  { intros id t Ht Hc. apply is_current_spec in Hc as (_ & _ & Hs & _). by eapply inv_same. }
  split_and!; [by apply inv_spin| |].
  - rewrite inv_flight by done. split.
    + intros [t Ht]. exists (pollingRequestId h), t. split; [done|]. by apply inv_cur.
    + intros (id & t & Ht & Hc). exists t. by rewrite <- (Hone id t).
  - intros id id' t t' ????. rewrite (Hone id t), (Hone id' t') by done. done.
Qed.

(** The answer to a poll of a session that is no longer current, whatever
    it is, changes nothing: no status, no success callback, no notification,
    no spinner, and the poll of the new session is not disturbed. *)
Theorem stale_poll_inert h id t r :
  reachable h -> tasks h !! id = Some t -> phase t = AwaitPoll ->
  isCurrentQrPaymentSession (session h) (request t) = false ->
  step h (PollSettles id r) = set_tasks (delete id (tasks h)) h.
Proof.
  intros Hi%inv_reachable Ht Hp Hc. simpl. rewrite Ht, Hp.
  assert (Hne : (pollingRequestId h =? id) = false).
  { apply N.eqb_neq. intros <-. rewrite inv_cur in Hc; done. }
  assert (Hf : finish id t false h = set_tasks (delete id (tasks h)) h).
  { unfold finish. by rewrite Hne. }
  destruct r; simpl; unfold caught; rewrite ?Hc; exact Hf.
Qed.

(** *** Progress *)

(** The call in flight gets its answers, whatever they are. *)
Definition settle (h : Hook) (r : PollResult) (s : SuccessResult) : Hook :=
  let id := pollingRequestId h in
  run h [PollSettles id r; SuccessSettles id s; Resumes id].

Lemma finish_frame id t b h :
  session (finish id t b h) = session h /\ pollingRequestId (finish id t b h) = pollingRequestId h /\
  tasks (finish id t b h) = delete id (tasks h).
Proof. unfold finish. repeat case_test; done. Qed.

Lemma caught_frame id t h :
  session (caught id t h) = session h /\ pollingRequestId (caught id t h) = pollingRequestId h /\
  tasks (caught id t h) = delete id (tasks h).
Proof.
  unfold caught. case_test; [apply finish_frame|].
  apply (finish_frame id t true (emit [EvConsoleError] h)).
Qed.

(** What a task step leaves alone. *)
Definition framed (h h' : Hook) : Prop :=
  session h' = session h /\ pollingRequestId h' = pollingRequestId h.

Lemma framed_after_poll id t r h : framed h (after_poll id t r h).
Proof.
  unfold framed, after_poll. repeat case_match; try done;
    edestruct finish_frame as (-> & -> & _) || edestruct caught_frame as (-> & -> & _); done.
Qed.

Lemma framed_after_onSuccess id t r h : framed h (after_onSuccess id t r h).
Proof. unfold framed, after_onSuccess. repeat case_match; done. Qed.

Lemma framed_after_resolve id t h : framed h (after_resolve id t h).
Proof.
  unfold framed, after_resolve.
  repeat case_match; edestruct finish_frame as (-> & -> & _)
    || edestruct caught_frame as (-> & -> & _); done.
Qed.

(** How far the task [id] can still be from its end. *)
Definition waits_at_most (n : nat) (id : N) (h : Hook) : Prop :=
  match tasks h !! id with
  | None => True
  | Some t =>
      match phase t with
      | AwaitPoll => False
      | AwaitOnSuccess => (2 <= n)%nat
      | AwaitResolved _ | AwaitRejected => (1 <= n)%nat
      end
  end.

Lemma poll_advances h id r : waits_at_most 2 id (step h (PollSettles id r)).
Proof.
  unfold waits_at_most. simpl. destruct (tasks h !! id) as [t|] eqn:Ht; [|by rewrite Ht].
  destruct (phase t) eqn:Hp; try (rewrite Ht, Hp; lia).
  unfold after_poll. repeat case_match; simplify_eq;
    try match goal with
        | H : tasks (finish _ _ _ _) !! _ = _ |- _ =>
            edestruct finish_frame as (_ & _ & E); rewrite E, lookup_delete_eq in H; done
        | H : tasks (caught _ _ _) !! _ = _ |- _ =>
            edestruct caught_frame as (_ & _ & E); rewrite E, lookup_delete_eq in H; done
        end.
  all: simpl in *; rewrite lookup_insert_eq in *; simplify_eq; simpl in *; done || lia.
Qed.

Lemma success_advances h id r :
  waits_at_most 2 id h -> waits_at_most 1 id (step h (SuccessSettles id r)).
Proof.
  unfold waits_at_most. simpl. destruct (tasks h !! id) as [t|] eqn:Ht; [|by rewrite Ht].
  destruct (phase t) eqn:Hp; try (rewrite Ht, Hp); try done.
  intros _. unfold after_onSuccess. repeat case_match; simplify_eq;
    simpl in *; rewrite lookup_insert_eq in *; simplify_eq; simpl in *; done || lia.
Qed.

Lemma resume_ends h id : waits_at_most 1 id h -> tasks (step h (Resumes id)) !! id = None.
Proof.
  unfold waits_at_most. simpl. destruct (tasks h !! id) as [t|] eqn:Ht; [|done].
  destruct (phase t) eqn:Hp; try done; try lia; intros _; unfold after_resolve; rewrite Hp.
  - edestruct finish_frame as (_ & _ & ->). apply lookup_delete_eq.
  - edestruct caught_frame as (_ & _ & ->). apply lookup_delete_eq.
Qed.

Lemma framed_task_step h l :
  match l with PollSettles _ _ | SuccessSettles _ _ | Resumes _ => True | _ => False end ->
  framed h (step h l).
Proof.
  destruct l as [p| |o e p|o e p|e p|id r|id r|id]; try done; intros _; simpl;
    destruct (tasks h !! id) as [t|]; try done; destruct (phase t); try done;
    auto using framed_after_poll, framed_after_onSuccess, framed_after_resolve.
Qed.

Lemma settle_ends h r s :
  framed h (settle h r s) /\ tasks (settle h r s) !! pollingRequestId h = None.
Proof.
  unfold settle, run. cbn [fold_left]. set (id := pollingRequestId h).
  pose proof (framed_task_step h (PollSettles id r) I) as [Hs1 Hi1].
  set (h1 := step h (PollSettles id r)) in *.
  pose proof (framed_task_step h1 (SuccessSettles id s) I) as [Hs2 Hi2].
  pose proof (success_advances h1 id s (poll_advances h id r)) as Hw.
  set (h2 := step h1 (SuccessSettles id s)) in *.
  pose proof (framed_task_step h2 (Resumes id) I) as [Hs3 Hi3].
  split; [split; congruence|]. by apply resume_ends.
Qed.

Lemma settle_reachable h r s : reachable h -> reachable (settle h r s).
Proof. intros. unfold settle, run. cbn [fold_left]. by do 3 apply reach_step. Qed.

(** C36: polling cannot wedge.  Whatever the server answers, whether the calls
    throw and whatever the success callback returns, once the answers are in no
    poll is in flight, the spinner is off, and the next refresh of the payment
    the session is open for issues a new poll. *)
Theorem polling_progress h p r s :
  reachable h -> open (session h) = true ->
  getPollingTradeNo p <> [] -> tradeNo (session h) = getPollingTradeNo p ->
  let h' := settle h r s in
  session h' = session h /\ pollingInFlight h' = false /\ refreshing h' = false /\
  events (step h' (Refresh true (Some p))) = EvPoll (getPollingTradeNo p) :: events h' /\
  pollingInFlight (step h' (Refresh true (Some p))) = true.
Proof.
  intros Hr Ho Hne Htn h'.
  pose proof (settle_ends h r s) as [[Hs Hid] Hn].
  pose proof (inv_reachable _ (settle_reachable h r s Hr)) as Hi. fold h' in Hs, Hid, Hn, Hi.
  assert (Hfl : pollingInFlight h' = false).
  { destruct (pollingInFlight h') eqn:E; [|done]. apply inv_flight in E; [|done].
    rewrite Hid, Hn in E. by destruct E. }
  assert (Hc : isCurrentQrPaymentSession (session h')
                 (Request (sessionId (session h')) (getPollingTradeNo p)) = true).
  { apply is_current_spec. rewrite Hs. done. }
  assert (Ht : truthy_str (getPollingTradeNo p) = true) by (revert Hne; by destruct (getPollingTradeNo p)).
  split_and!; [done|done|by rewrite inv_spin, Hfl| |]; simpl; unfold refreshStatus;
    by rewrite Hfl, Hc, Ht.
Qed.

(** *** Success is reported once, for the right session *)

(** How often the success of a session was notified. *)
Definition notified (sid : N) (es : list Event) : nat :=
  length (List.filter (fun e => match e with EvNotify s _ => s =? sid | _ => false end) es).

(** Runs in which a session is not opened or closed while a call is between
    the answer of its poll and its end. *)
Inductive calm_reachable : Hook -> Prop :=
| calm_initial : calm_reachable initial
| calm_step h l :
    calm_reachable h ->
    (sessionId (session (step h l)) = sessionId (session h) \/
     map_Forall (fun _ t => phase t = AwaitPoll) (tasks h)) ->
    calm_reachable (step h l).

Lemma calm_reachable_reachable h : calm_reachable h -> reachable h.
Proof. induction 1; by constructor. Qed.

Record Calm (h : Hook) : Prop := {
  calm_cur id t : tasks h !! id = Some t -> phase t <> AwaitPoll ->
    isCurrentQrPaymentSession (session h) (request t) = true;
  calm_wait id t : tasks h !! id = Some t -> phase t = AwaitOnSuccess ->
    handledTradeNo h = None;
  calm_resolved id t : tasks h !! id = Some t -> phase t = AwaitResolved Success ->
    is_Some (handledTradeNo h);
  calm_status : status h = Success -> is_Some (handledTradeNo h);
  calm_handled tn : handledTradeNo h = Some tn ->
    tn = tradeNo (session h) /\ open (session h) = true /\
    notified (sessionId (session h)) (events h) = 1%nat;
  calm_fresh : handledTradeNo h = None -> notified (sessionId (session h)) (events h) = 0%nat;
  calm_once sid : (notified sid (events h) <= 1)%nat;
  calm_future sid : sessionId (session h) < sid -> notified sid (events h) = 0%nat
}.

Lemma calm_inv_initial : Calm initial.
Proof. split; try done. intros sid. unfold notified. simpl. lia. Qed.

(** An event that is not a notification, a new session, a new poll. *)
Lemma calm_emit e h :
  match e with EvNotify _ _ => False | _ => True end -> Calm h -> Calm (emit [e] h).
Proof. intros He []. destruct e; done || by split. Qed.

Lemma calm_switch s h :
  Calm h -> map_Forall (fun _ t => phase t = AwaitPoll) (tasks h) ->
  sessionId s = sessionId (session h) + 1 ->
  Calm (MkHook Pending false false (pollingRequestId h + 1) None s (tasks h) (events h)).
Proof.
  intros [_ _ _ _ _ _ Ho Hf] Hp Hs. rewrite map_Forall_lookup in Hp. split; simpl; try done.
  - intros id t Ht Hne. by apply Hp in Ht.
  - intros id t Ht Hne. apply Hp in Ht. congruence.
  - intros _. apply Hf. lia.
  - intros sid Hsid. apply Hf. lia.
Qed.

Lemma calm_refreshStatus m e p h : Calm h -> Calm (refreshStatus m e p h).
Proof.
  intros Hc. unfold refreshStatus.
  destruct (if e then p else None) as [q|]; [|by apply calm_emit].
  case_test; [by apply calm_emit|]. case_test; [done|]. case_test; [done|].
  destruct Hc. split; simpl; try done.
  all: intros i u [[<- <-]|[_ Hu]]%lookup_insert_Some; done || eauto.
Qed.

Lemma calm_finish id t b h : Calm h -> Calm (finish id t b h).
Proof.
  intros Hc.
  assert (Hi : Calm (finish id t false h)); [|unfold finish in *; case_test;
    [apply andb_true_iff in Heqb0 as [-> _]; by apply calm_emit|done]].
  destruct Hc. unfold finish. simpl. case_test; split; simpl; try done.
  all: intros i u [_ Hu]%lookup_delete_Some; eauto.
Qed.

Lemma calm_caught id t h : Calm h -> Calm (caught id t h).
Proof. intros. unfold caught. case_test; apply calm_finish; [done|by apply calm_emit]. Qed.

Lemma calm_to_phase id t p h :
  Calm h -> isCurrentQrPaymentSession (session h) (request t) = true ->
  (p = AwaitOnSuccess -> handledTradeNo h = None) ->
  (p = AwaitResolved Success -> is_Some (handledTradeNo h)) ->
  Calm (to_phase id t p h).
Proof.
  intros [] Hc Hw Hr. split; simpl; try done.
  all: intros i u [[<- <-]|[_ Hu]]%lookup_insert_Some; done || eauto.
Qed.

Lemma calm_after_poll id t r h :
  Calm h -> tasks h !! id = Some t -> Calm (after_poll id t r h).
Proof.
  intros Hc Ht. unfold after_poll.
  destruct r as [s| |]; [| |by apply calm_caught];
    destruct (isCurrentQrPaymentSession (session h) (request t)) eqn:Hcur; simpl;
    try by apply calm_finish.
  destruct s; try (apply calm_to_phase; done).
  unfold handleQrPaymentSuccessOnce. case_test; [by apply calm_to_phase|].
  case_bool_decide as Eh.
  - by apply calm_to_phase; rewrite ?Eh.
  - apply calm_emit, calm_to_phase; try done. intros _.
    destruct (handledTradeNo h) as [tn|] eqn:E; [|done].
    apply calm_handled in E as (-> & _ & _); [|done].
    apply is_current_spec in Hcur as (_ & _ & _ & E). congruence.
Qed.

Lemma calm_after_onSuccess id t r h :
  Inv h -> Calm h -> tasks h !! id = Some t -> phase t = AwaitOnSuccess ->
  Calm (after_onSuccess id t r h).
Proof.
  intros Hi Hc Ht Hp.
  assert (Hcur : isCurrentQrPaymentSession (session h) (request t) = true)
    by (apply (calm_cur h Hc id t Ht); by rewrite Hp).
  unfold after_onSuccess. destruct r as [b|]; [|by apply calm_to_phase].
  case_test; [|by apply calm_to_phase].
  pose proof (calm_wait h Hc id t Ht Hp) as Hh. pose proof (calm_fresh h Hc Hh) as H0.
  pose proof (calm_once h Hc) as H1. pose proof (calm_future h Hc) as H2.
  apply is_current_spec in Hcur as (Ho & Hne & Hs & Htn).
  split; simpl.
  - intros i u [[_ <-]|[Hn Hu]]%lookup_insert_Some Hph.
    + by apply is_current_spec.
    + by eapply (calm_cur h).
  - intros i u [[_ <-]|[Hn Hu]]%lookup_insert_Some Hph; [done|]. exfalso.
    assert (isCurrentQrPaymentSession (session h) (request u) = true) as Hcu
      by (apply (calm_cur h Hc i u Hu); by rewrite Hph).
    apply is_current_spec in Hcu as (_ & _ & Hsu & _). apply Hn.
    rewrite (inv_same h Hi id t), (inv_same h Hi i u) by done. done.
  - eauto.
  - eauto.
  - intros tn [= <-]. split_and!; [done..|]. unfold notified in *. simpl.
    rewrite Hs, N.eqb_refl. simpl. rewrite <- Hs. by rewrite H0.
  - done.
  - intros sid. unfold notified in *. simpl. case_test; simpl; [|apply H1].
    apply N.eqb_eq in Heqb1. rewrite <- Heqb1, <- Hs, H0. lia.
  - intros sid Hsid. unfold notified in *. simpl. case_test; simpl; [|by apply H2].
    apply N.eqb_eq in Heqb1. lia.
Qed.

Lemma calm_after_resolve id t h :
  Calm h -> tasks h !! id = Some t -> Calm (after_resolve id t h).
Proof.
  intros Hc Ht. unfold after_resolve. destruct (phase t) eqn:Hp; try by apply calm_caught.
  apply calm_finish. pose proof (calm_resolved h Hc id t Ht) as Hr.
  destruct Hc. split; simpl; try done. intros ->. auto.
Qed.

Lemma calm_inv_step h l :
  Inv h -> Calm h ->
  (sessionId (session (step h l)) = sessionId (session h) \/
   map_Forall (fun _ t => phase t = AwaitPoll) (tasks h)) ->
  Calm (step h l).
Proof.
  intros Hi Hc Hl. destruct l as [p| |o e p|o e p|e p|id r|id r|id]; simpl in *.
  - destruct Hl as [Hl|Hl]; [lia|by apply calm_switch].
  - destruct Hl as [Hl|Hl]; [simpl in Hl; lia|by apply calm_switch].
  - unfold sync_effect in *. repeat case_match; try done.
    all: destruct Hl as [Hl|Hl]; [simpl in Hl; lia|by apply calm_switch].
  - case_test; [by apply calm_refreshStatus|done].
  - by apply calm_refreshStatus.
  - destruct (tasks h !! id) as [t|] eqn:Ht; [|done]. destruct (phase t); try done.
    by apply calm_after_poll.
  - destruct (tasks h !! id) as [t|] eqn:Ht; [|done]. destruct (phase t) eqn:Hp; try done.
    by apply calm_after_onSuccess.
  - destruct (tasks h !! id) as [t|] eqn:Ht; [|done]. destruct (phase t); try done;
    by apply calm_after_resolve.
Qed.

Lemma calm_inv_reachable h : calm_reachable h -> Calm h.
Proof.
  induction 1; [apply calm_inv_initial|]. apply calm_inv_step; try done.
  by apply inv_reachable, calm_reachable_reachable.
Qed.

(** C2: as long as a session is not replaced while one of its calls is between
    the answer of its poll and its end, the user is told of a payment at most
    once per session, and the dialog shows success only while it is open for a
    trade number whose success was handled and notified. *)
Theorem success_once_and_sound h sid :
  calm_reachable h ->
  (notified sid (events h) <= 1)%nat /\
  (status h = Success ->
   open (session h) = true /\ handledTradeNo h = Some (tradeNo (session h)) /\
   notified (sessionId (session h)) (events h) = 1%nat).
Proof.
  intros Hc%calm_inv_reachable. split; [by apply calm_once|]. intros Hs.
  destruct (calm_status h Hc Hs) as [tn Htn].
  destruct (calm_handled h Hc tn Htn) as (-> & Ho & Hn). done.
Qed.

End Hook.

(** *** Witnesses *)

Definition pay (tn : jstr) : QrPaymentResult := Payment (Some tn) None.
Definition tn_of (p : QrPaymentResult) : jstr := getQrPaymentTradeNo (Some p).

(** A session of trade A that is polled, closed and replaced by trade B while
    the poll is pending. *)
Definition replaced : list Label :=
  [Sync true true (Some (pay (js "A"))); Tick true true (Some (pay (js "A"))); Close;
   Sync true true (Some (pay (js "B"))); Tick true true (Some (pay (js "B")))].

Lemma reachable_run ls h : reachable tn_of h -> reachable tn_of (run tn_of h ls).
Proof. revert h. induction ls as [|l ls IH]; intros h Hh; simpl; [done|]. by apply IH, reach_step. Qed.

Lemma reachable_from_initial ls : reachable tn_of (run tn_of initial ls).
Proof. apply reachable_run, reach_initial. Qed.

Lemma polling_single_flight_witness :
  let h := run tn_of initial replaced in
  pollingInFlight h = true /\ size (tasks h) = 2%nat /\ refreshing h = pollingInFlight h.
Proof.
  split_and!; [vm_compute; reflexivity..|].
  apply (polling_single_flight tn_of), reachable_from_initial.
Defined.

Lemma stale_poll_inert_witness :
  let h := run tn_of initial replaced in
  step tn_of h (PollSettles 2 (PollStatus Success)) = set_tasks (delete 2 (tasks h)) h.
Proof.
  eapply (stale_poll_inert tn_of); [apply reachable_from_initial|..]; vm_compute; reflexivity.
Defined.

Lemma polling_progress_witness :
  let h := run tn_of initial replaced in
  pollingInFlight (settle tn_of h PollThrows SuccessThrows) = false.
Proof.
  apply (polling_progress tn_of (run tn_of initial replaced) (pay (js "B")) PollThrows SuccessThrows).
  - apply reachable_from_initial.
  - reflexivity.
  - discriminate.
  - reflexivity.
Defined.

(** A payment that succeeds, then is polled again. *)
Definition paid : list Label :=
  [Sync true true (Some (pay (js "A"))); Tick true true (Some (pay (js "A")));
   PollSettles 2 (PollStatus Success); SuccessSettles 2 (SuccessReturns None); Resumes 2].

Lemma success_once_and_sound_witness :
  let h := run tn_of initial paid in
  status h = Success /\ notified 1 (events h) = 1%nat /\
  handledTradeNo h = Some (tradeNo (session h)).
Proof.
  assert (Hc : calm_reachable tn_of (run tn_of initial paid)).
  { unfold run, paid. cbn [fold_left].
    repeat (apply calm_step; [|first [left; vm_compute; reflexivity|
      right; intros i t; vm_compute; discriminate]]).
    apply calm_initial. }
  split_and!; [vm_compute; reflexivity..|].
  apply (success_once_and_sound tn_of _ 1 Hc). vm_compute. reflexivity.
Defined.

(** The session is not checked again after the success callback.  When the
    dialog is closed and reopened for another payment while the callback of the
    first one is pending, its end marks the second payment as successful and
    records the first trade number as the handled one, and polling of the
    second payment stops although its trade was never reported paid. *)
Theorem late_success_crosses_sessions :
  let h := run tn_of initial
    [Sync true true (Some (pay (js "A"))); Tick true true (Some (pay (js "A")));
     PollSettles 2 (PollStatus Success); Close; Sync true true (Some (pay (js "B")));
     SuccessSettles 2 (SuccessReturns (Some true)); Resumes 2] in
  session h = QrSession 3 true (js "B") /\ status h = Success /\
  handledTradeNo h = Some (js "A") /\ notified 3 (events h) = 0%nat /\
  polling_active tn_of true true (Some (pay (js "B"))) h = false.
Proof. vm_compute. split_and!; reflexivity. Qed.

End Polling.

(** ** use-qr-payment-success-close.ts *)

Module SuccessClose.
Import Session Polling.

Inductive Notice := ToastError | ConsoleError.

(** The dialog: the polling hook whose [status] and [closeSession] it uses,
    the [open] flag behind [setOpen], the hook's own state and ref, and the
    calls of [closeAfterSuccess] that await [refresh]. *)
Record Dialog := MkDialog {
  polling : Hook;
  dialogOpen : bool;
  successClosing : bool;
  successClosingRef : bool;
  awaiting : nat;
  notices : list Notice
}.

(** How [refresh] settles: a result, or a thrown value that is truthy or not. *)
Inductive RefreshResult := Refreshed (b : bool) | RefreshThrew (truthy_error : bool).

Definition notifyRefreshFailure (error : bool) (n : list Notice) : list Notice :=
  ToastError :: (if error then [ConsoleError] else []) ++ n.

(** [closeAfterSuccess] up to its [await]. *)
Definition closeAfterSuccess (d : Dialog) : Dialog :=
  if successClosingRef d then d
  else MkDialog (polling d) (dialogOpen d) true true (S (awaiting d)) (notices d).

(** From the settlement of [refresh] to the end, the [finally] included. *)
Definition closeAfterSuccess_resume (r : RefreshResult) (d : Dialog) : Dialog :=
  let n := match r with
           | Refreshed true => notices d
           | Refreshed false => notifyRefreshFailure false (notices d)
           | RefreshThrew e => notifyRefreshFailure e (notices d)
           end in
  MkDialog (closeSession (polling d)) false false false (pred (awaiting d)) n.

Definition handleOpenChange (open_ : bool) (d : Dialog) : Dialog :=
  if negb open_ then
    if status (polling d) =?= Success then closeAfterSuccess d
    else MkDialog (closeSession (polling d)) open_ (successClosing d) (successClosingRef d)
           (awaiting d) (notices d)
  else MkDialog (polling d) open_ (successClosing d) (successClosingRef d)
         (awaiting d) (notices d).

Section Dialog.
Variable getPollingTradeNo : QrPaymentResult -> jstr.

Inductive DialogLabel :=
| Polls (l : Label)
| OpenChange (open_ : bool)
| CloseButton
| RefreshSettles (r : RefreshResult).

Definition dialog_step (d : Dialog) (l : DialogLabel) : Dialog :=
  match l with
  | Polls l =>
      MkDialog (step getPollingTradeNo (polling d) l) (dialogOpen d) (successClosing d)
        (successClosingRef d) (awaiting d) (notices d)
  | OpenChange o => handleOpenChange o d
  | CloseButton => closeAfterSuccess d
  | RefreshSettles r =>
      match awaiting d with O => d | S _ => closeAfterSuccess_resume r d end
  end.

Definition dialog_initial : Dialog := MkDialog initial false false false 0 [].

Inductive dialog_reachable : Dialog -> Prop :=
| dialog_start : dialog_reachable dialog_initial
| dialog_next d l : dialog_reachable d -> dialog_reachable (dialog_step d l).

(** The ref, the state and the number of suspended calls agree. *)
Definition dialog_inv (d : Dialog) : Prop :=
  successClosing d = successClosingRef d /\
  awaiting d = if successClosingRef d then 1%nat else 0%nat.

Lemma dialog_inv_reachable d : dialog_reachable d -> dialog_inv d.
Proof.
  induction 1 as [|d l _ [IH1 IH2]]; [done|]. unfold dialog_inv.
  destruct d as [h o c cr a n]. simpl in IH1, IH2. subst c a.
  destruct l as [l|o'| |r]; simpl; [done|..];
    unfold handleOpenChange, closeAfterSuccess; simpl; destruct cr; simpl; try done;
    repeat case_test; done.
Qed.

(** The errors shown to the user. *)
Definition toasts (d : Dialog) : nat :=
  length (List.filter (fun n => match n with ToastError => true | _ => false end) (notices d)).


End Dialog.


End SuccessClose.
