(* ===== verification/BillingExpr.v ===== *)
(** * Billing expressions

    Models [features/pricing/lib/billing-expr.ts]: the registry of billing
    variables, the parser of tiered prices, the parser and the printer of
    request rules, and the functions that join and split a price expression and
    its rules. *)

From S2P Require Import Prelude.
From S2P Require Import JsString.
From S2P Require Import JsNumber.
From S2P Require Import JsRegex.
From S2P Require Import JsValue.

Local Open Scope N_scope.

(** ** Variable registry *)

Inductive Side := SideInput | SideOutput | SideCondition.

Record BillingVar := MkVar {
  key : jstr;
  field : option jstr;
  tierField : option jstr;
  label : jstr;
  shortLabel : jstr;
  side : Side;
  isBase : bool;
  isConditionOnly : bool;
  group : option jstr
}.

Definition priced (k f t l sl : jstr) (sd : Side) (base : bool) (g : option jstr) : BillingVar :=
  MkVar k (Some f) (Some t) l sl sd base false g.

Definition BILLING_VARS : list BillingVar :=
  [ priced (js "p") (js "inputPrice") (js "input_unit_cost")
      (js "Input price") (js "Input") SideInput true None;
    priced (js "c") (js "outputPrice") (js "output_unit_cost")
      (js "Completion price") (js "Output") SideOutput true None;
    MkVar (js "len") None None (js "Input length") (js "Length") SideCondition false true None;
    priced (js "cr") (js "cacheReadPrice") (js "cache_read_unit_cost")
      (js "Cache read price") (js "Cache Read") SideInput false (Some (js "cache"));
    priced (js "cc") (js "cacheCreatePrice") (js "cache_create_unit_cost")
      (js "Cache create price") (js "Cache Write") SideInput false (Some (js "cache"));
    priced (js "cc1h") (js "cacheCreate1hPrice") (js "cache_create_1h_unit_cost")
      (js "Cache create (1h) price") (js "Cache Write (1h)") SideInput false (Some (js "cache"));
    priced (js "img") (js "imagePrice") (js "image_unit_cost")
      (js "Image input price") (js "Image In") SideInput false (Some (js "media"));
    priced (js "img_o") (js "imageOutputPrice") (js "image_output_unit_cost")
      (js "Image output price") (js "Image Out") SideOutput false (Some (js "media"));
    priced (js "ai") (js "audioInputPrice") (js "audio_input_unit_cost")
      (js "Audio input price") (js "Audio In") SideInput false (Some (js "media"));
    priced (js "ao") (js "audioOutputPrice") (js "audio_output_unit_cost")
      (js "Audio output price") (js "Audio Out") SideOutput false (Some (js "media")) ].

Definition BILLING_PRICING_VARS : list BillingVar :=
  List.filter (fun v => negb (isConditionOnly v)) BILLING_VARS.

Definition BILLING_CONDITION_VARS : list jstr :=
  List.map key (List.filter (fun v => isBase v || isConditionOnly v) BILLING_VARS).

Definition BILLING_VAR_KEY_TO_FIELD : list (jstr * jstr) :=
  obj_of (List.map (fun v => (key v, default [] (field v))) BILLING_PRICING_VARS).

Definition BILLING_EXTRA_VARS : list BillingVar :=
  List.filter (fun v => negb (isBase v) && negb (isConditionOnly v)) BILLING_VARS.

(** Pairs of the tier field and the expression variable. *)
Definition BILLING_CACHE_VAR_MAP : list (jstr * jstr) :=
  List.map (fun v => (default [] (tierField v), key v)) BILLING_EXTRA_VARS.

(** [[\d.eE+-]] and [[\d.eE+]]. *)
Definition num_unit (c : N) : bool := is_digit c || one_of (js ".eE+-") c.
Definition unsigned_num_unit (c : N) : bool := is_digit c || one_of (js ".eE+") c.

Definition BILLING_VAR_REGEX : regex :=
  seq_of [RWordB;
          RGroup 1 (alt_of (List.map (fun v => RLit (key v)) BILLING_PRICING_VARS));
          ws_star; RLit (js "*"); ws_star;
          RGroup 2 (RPlus (RClass num_unit))].

(** ** Constants *)

Inductive Source := SOURCE_PARAM | SOURCE_HEADER | SOURCE_TIME.

#[export] Instance Source_eq : EqDecision Source.
Proof. solve_decision. Defined.

Definition MATCH_EQ : jstr := js "eq".
Definition MATCH_CONTAINS : jstr := js "contains".
Definition MATCH_GT : jstr := js "gt".
Definition MATCH_GTE : jstr := js "gte".
Definition MATCH_LT : jstr := js "lt".
Definition MATCH_LTE : jstr := js "lte".
Definition MATCH_EXISTS : jstr := js "exists".
Definition MATCH_RANGE : jstr := js "range".

Definition TIME_FUNCS : list jstr :=
  [js "hour"; js "minute"; js "weekday"; js "month"; js "day"].

Definition sign_opt : regex := ROpt (RClass (one_of (js "+-"))).
Definition digits_star : regex := RStar digit_class.
Definition digits_plus : regex := RPlus digit_class.

(** An optional minus, digits with an optional point or a point with digits,
    and an optional exponent. *)
Definition NUMERIC_LITERAL_REGEX : regex :=
  seq_of [RBegin; ROpt (RLit (js "-"));
          RAlt (seq_of [digits_plus; ROpt (RLit (js ".")); digits_star])
               (RSeq (RLit (js ".")) digits_plus);
          ROpt (seq_of [RClass (one_of (js "eE")); sign_opt; digits_plus]);
          REnd].

Definition is_numeric (s : jstr) : bool := re_test NUMERIC_LITERAL_REGEX s.

(** ** Data *)

Record ParamHeaderCondition := PH {
  ph_header : bool;             (* source: 'header' or 'param' *)
  path : jstr;
  ph_mode : jstr;
  ph_value : jstr
}.

Record TimeCondition := TC {
  timeFunc : jstr;
  timezone : jstr;
  t_mode : jstr;
  t_value : jstr;
  rangeStart : jstr;
  rangeEnd : jstr
}.

Inductive RequestCondition :=
| CTime (c : TimeCondition)
| CParamHeader (c : ParamHeaderCondition).

Record RequestRuleGroup := Group {
  conditions : list RequestCondition;
  multiplier : jstr
}.

Record TierCondition := TierCond {
  var : jstr;
  op : jstr;
  value : num
}.

(** The price fields of a tier are the dynamic fields of the source's object. *)
Record ParsedTier := Tier {
  tier_label : jstr;
  tier_conditions : list TierCondition;
  tier_prices : list (jstr * num)
}.

#[export] Instance ParamHeaderCondition_eq : EqDecision ParamHeaderCondition.
Proof. solve_decision. Defined.
#[export] Instance TimeCondition_eq : EqDecision TimeCondition.
Proof. solve_decision. Defined.
#[export] Instance RequestCondition_eq : EqDecision RequestCondition.
Proof. solve_decision. Defined.

(** ** Tier parser *)

Definition group_text (n : nat) (m : mstate) : jstr := default [] (cap n m).

(** A [v], digits, a colon, and any text. *)
Definition version_regex : regex :=
  seq_of [RBegin; RLit (js "v"); RGroup 1 digits_plus; RLit (js ":");
          RGroup 2 (RStar any_unit); REnd].

Definition stripExprVersion (exprStr : jstr) : num * jstr :=
  if negb (truthy_str exprStr) then (num_of_Z 1, [])
  else match re_match version_regex exprStr with
       | Some m => (number_of_string (group_text 1 m), group_text 2 m)
       | None => (num_of_Z 1, exprStr)
       end.

Definition parseTierBody (bodyStr : jstr) : list (jstr * num) :=
  let coeffs :=
    fold_left
      (fun cs m =>
         if obj_has (group_text 1 m) cs then cs
         else obj_set (group_text 1 m) (number_of_string (group_text 2 m)) cs)
      (exec_all BILLING_VAR_REGEX bodyStr) [] in
  fold_left
    (fun tier vf =>
       obj_set vf.2 (num_or (default NaN (obj_get vf.1 coeffs)) num_zero) tier)
    BILLING_VAR_KEY_TO_FIELD [].

Definition cond_var : regex := alt_of [RLit (js "p"); RLit (js "c"); RLit (js "len")].
Definition cond_op : regex :=
  alt_of [RLit (js "<"); RLit (js "<="); RLit (js ">"); RLit (js ">=")].
Definition cond_num : regex := RPlus (RClass unsigned_num_unit).
Definition and_sep : regex := seq_of [ws_star; RLit (js "&&"); ws_star].

Definition cond_atom : regex := seq_of [cond_var; ws_star; cond_op; ws_star; cond_num].

Definition tier_regex : regex :=
  seq_of
    [ROpt (seq_of [RGroup 1 (RSeq cond_atom (RStar (RSeq and_sep cond_atom)));
                   ws_star; RLit (js "?"); ws_star]);
     RLit (jq "tier('");
     RGroup 2 (RStar (RClass (fun c => negb (c =? 34))));
     RLit (jq "',"); ws_star;
     RGroup 3 (RPlus (RClass (fun c => negb (c =? 41))));
     RLit (js ")")].

(** One comparison of a tier condition. *)
Definition condition_regex : regex :=
  seq_of [RBegin; RGroup 1 cond_var; ws_star; RGroup 2 cond_op; ws_star;
          RGroup 3 cond_num; REnd].

Definition parse_tier_condition (cp : jstr) : option TierCondition :=
  m ← re_match condition_regex (trim cp);
  Some (TierCond (group_text 1 m) (group_text 2 m) (number_of_string (group_text 3 m))).

Definition parseTiersFromExpr (exprStr : jstr) : list ParsedTier :=
  if negb (truthy_str exprStr) then []
  else
    let body := snd (stripExprVersion exprStr) in
    List.map
      (fun m =>
         let condStr := group_text 1 m in
         let conds :=
           if truthy_str condStr then omap parse_tier_condition (split_re and_sep condStr)
           else [] in
         Tier (group_text 2 m) conds (parseTierBody (group_text 3 m)))
      (exec_all tier_regex body).

(** [/<[=＝]?|≤|＜[=＝]?/g], [/>[=＝]?|≥|＞[=＝]?/g], [/\s+/g]. *)
Definition equals_opt : regex := ROpt (RClass (one_of (js "=＝"))).
Definition less_regex : regex :=
  alt_of [RSeq (RLit (js "<")) equals_opt; RLit (js "≤"); RSeq (RLit (js "＜")) equals_opt].
Definition greater_regex : regex :=
  alt_of [RSeq (RLit (js ">")) equals_opt; RLit (js "≥"); RSeq (RLit (js "＞")) equals_opt].

Section Labels.
(** Unicode lower casing is data of the language's library. *)
Variable toLowerCase : jstr -> jstr.

Definition normalizeTierLabel (lbl : option jstr) : jstr :=
  match lbl with
  | None | Some [] => []
  | Some l =>
      toLowerCase
        (replace_all (RPlus ws_class) []
           (replace_all greater_regex (js ">")
              (replace_all less_regex (js "<") l)))
  end.
End Labels.

(** ** Request rule parser *)

Definition paren_depth (c : N) (depth : Z) : Z :=
  let d1 := if c =? 40 then (depth + 1)%Z else depth in
  if c =? 41 then (d1 - 1)%Z else d1.

(** The loop shared by [splitTopLevelMultiply] and [splitTopLevelAnd]: [cur] is
    the text since [start], reversed, and [skip] the separator units [index] is
    moved over. *)
Fixpoint split_top_level (sep : jstr) (depth : Z) (skip : nat) (cur s : jstr) : list jstr :=
  match s with
  | [] => [trim (reverse cur)]
  | c :: r =>
      match skip with
      | S k => split_top_level sep depth k cur r
      | O =>
          let depth := paren_depth c depth in
          if (depth =? 0)%Z && starts_with sep s
          then trim (reverse cur) :: split_top_level sep depth (length sep - 1) [] r
          else split_top_level sep depth 0 (c :: cur) r
      end
  end.

Definition splitTopLevelMultiply (expr : jstr) : list jstr :=
  List.filter truthy_str (split_top_level (js " * ") 0 0 [] expr).

Definition splitTopLevelAnd (expr : jstr) : list jstr :=
  List.filter truthy_str (split_top_level (js " && ") 0 0 [] expr).

(** [None] stands for [null], which is also what JSON [null] gives. *)
Definition parseExprLiteral (raw : jstr) : option jsval :=
  let text := trim raw in
  if (text =?= js "true") || (text =?= js "false") then Some (VStr text)
  else if is_numeric text then Some (VStr text)
  else match json_parse text with
       | Some VNull | None => None
       | Some v => Some v
       end.

(** An argument in parentheses and double quotes, captured without them. *)
Definition quoted_arg (n : nat) : regex :=
  seq_of [RLit (jq "('"); RGroup n (RPlus (RClass (fun c => negb (c =? 34)))); RLit (jq "')")].

Definition num_text (n : nat) : regex := RGroup n (RPlus (RClass num_unit)).

Definition time_func : regex := RGroup 1 (alt_of (List.map RLit TIME_FUNCS)).

(** The overnight range: the second function and zone repeat the first. *)
Definition range_body : regex :=
  seq_of [time_func; quoted_arg 2; RLit (js " >= "); num_text 3; RLit (js " || ");
          RBackref 1; RLit (jq "('"); RBackref 2; RLit (jq "') < "); num_text 4].

Definition range_regex : regex := seq_of [RBegin; range_body; REnd].
Definition paren_range_regex : regex :=
  seq_of [RBegin; RLit (js "("); range_body; RLit (js ")"); REnd].
Definition time_regex : regex :=
  seq_of [RBegin; time_func; quoted_arg 2; RLit (js " ");
          RGroup 3 (alt_of [RLit (js "=="); RLit (js ">="); RLit (js "<")]);
          RLit (js " "); num_text 4; REnd].

Definition range_condition (m : mstate) : RequestCondition :=
  CTime (TC (group_text 1 m) (group_text 2 m) MATCH_RANGE [] (group_text 3 m) (group_text 4 m)).

Definition tryParseTimeCondition (expr : jstr) : option RequestCondition :=
  match re_match range_regex expr with
  | Some m => Some (range_condition m)
  | None =>
      match re_match paren_range_regex expr with
      | Some m => Some (range_condition m)
      | None =>
          match re_match time_regex expr with
          | Some m =>
              let opMap := [(js "==", MATCH_EQ); (js ">=", MATCH_GTE); (js "<", MATCH_LT)] in
              Some (CTime (TC (group_text 1 m) (group_text 2 m)
                             (default MATCH_EQ (obj_get (group_text 3 m) opMap))
                             (group_text 4 m) [] []))
          | None => None
          end
      end
  end.

(** A quoted JSON string; the dot of an escape does not match line terminators. *)
Definition line_unit (c : N) : bool :=
  negb ((c =? 10) || (c =? 13) || (c =? 8232) || (c =? 8233)).
Definition json_string (n : nat) : regex :=
  RGroup n (seq_of [RLit [34];
                    RStar (RAlt (RClass (fun c => negb ((c =? 34) || (c =? 92))))
                                (RSeq (RLit [92]) (RClass line_unit)));
                    RLit [34]]).

Definition header_exists_regex : regex :=
  seq_of [RBegin; RLit (js "header"); quoted_arg 1; RLit (jq " != ''"); REnd].
Definition param_exists_regex : regex :=
  seq_of [RBegin; RLit (js "param"); quoted_arg 1; RLit (js " != nil"); REnd].
Definition header_contains_regex : regex :=
  seq_of [RBegin; RLit (js "has(header"); quoted_arg 1; RLit (js ", "); json_string 2;
          RLit (js ")"); REnd].
Definition param_contains_regex : regex :=
  seq_of [RBegin; RLit (js "param"); quoted_arg 1; RLit (js " != nil && has(param");
          quoted_arg 2; RLit (js ", "); json_string 3; RLit (js ")"); REnd].
Definition param_compare_regex : regex :=
  seq_of [RBegin; RLit (js "param"); quoted_arg 1; RLit (js " != nil && param");
          quoted_arg 2; RLit (js " ");
          RGroup 3 (alt_of [RLit (js ">"); RLit (js ">="); RLit (js "<"); RLit (js "<=")]);
          RLit (js " "); num_text 4; REnd].
Definition equals_regex : regex :=
  seq_of [RBegin; RGroup 1 (RAlt (RLit (js "param")) (RLit (js "header"))); quoted_arg 2;
          RLit (js " == "); RGroup 3 (RPlus (RClass line_unit)); REnd].

(** [JSON.parse(text)]. *)
Definition json_parse_throws (text : jstr) : outcome jsval :=
  match json_parse text with Some v => Ret v | None => Throws end.

(** A value the source only types as a string; the pattern admits nothing but
    a JSON string here. *)
Definition as_text (v : jsval) : jstr := string_of_val v.

Definition compare_modes : list (jstr * jstr) :=
  [(js ">", MATCH_GT); (js ">=", MATCH_GTE); (js "<", MATCH_LT); (js "<=", MATCH_LTE)].

Definition tryParseRequestCondition (expr : jstr) : outcome (option RequestCondition) :=
  match tryParseTimeCondition expr with
  | Some tc => Ret (Some tc)
  | None =>
  match re_match header_exists_regex expr with
  | Some m => Ret (Some (CParamHeader (PH true (group_text 1 m) MATCH_EXISTS [])))
  | None =>
  match re_match param_exists_regex expr with
  | Some m => Ret (Some (CParamHeader (PH false (group_text 1 m) MATCH_EXISTS [])))
  | None =>
  match re_match header_contains_regex expr with
  | Some m =>
      v ← json_parse_throws (group_text 2 m);
      Ret (Some (CParamHeader (PH true (group_text 1 m) MATCH_CONTAINS (as_text v))))
  | None =>
  match (m ← re_match param_contains_regex expr;
         if group_text 1 m =?= group_text 2 m then Some m else None) with
  | Some m =>
      v ← json_parse_throws (group_text 3 m);
      Ret (Some (CParamHeader (PH false (group_text 1 m) MATCH_CONTAINS (as_text v))))
  | None =>
  match (m ← re_match param_compare_regex expr;
         if group_text 1 m =?= group_text 2 m then Some m else None) with
  | Some m =>
      Ret (Some (CParamHeader
             (PH false (group_text 1 m)
                (default (js "undefined") (obj_get (group_text 3 m) compare_modes))
                (group_text 4 m))))
  | None =>
  match re_match equals_regex expr with
  | Some m =>
      match parseExprLiteral (group_text 3 m) with
      | None => Ret None
      | Some v =>
          Ret (Some (CParamHeader
                 (PH (group_text 1 m =?= js "header") (group_text 2 m) MATCH_EQ (string_of_val v))))
      end
  | None => Ret None
  end end end end end end end.

(** The condition text, up to the last question mark, and the multiplier. *)
Definition factor_regex : regex :=
  seq_of [RBegin; RLit (js "("); RGroup 1 (RPlus any_unit); RLit (js " ? "); num_text 2;
          RLit (js " : 1)"); REnd].

Definition tryParseRuleGroupFactor (part : jstr) : outcome (option RequestRuleGroup) :=
  match re_match factor_regex part with
  | None => Ret None
  | Some m =>
      let andParts := splitTopLevelAnd (group_text 1 m) in
      conds ← traverse (fun ap => tryParseRequestCondition (trim ap)) andParts;
      match conds with
      | None | Some [] => Ret None
      | Some cs => Ret (Some (Group cs (group_text 2 m)))
      end
  end.

Definition tryParseRequestRuleExpr (expr : jstr) : outcome (option (list RequestRuleGroup)) :=
  let trimmed := trim expr in
  if negb (truthy_str trimmed) then Ret (Some [])
  else traverse tryParseRuleGroupFactor (splitTopLevelMultiply trimmed).

(** ** Joining and splitting a price and its rules *)

(** The loop of [hasFullOuterParens]: [Some d] when it ends with depth [d],
    [None] when it returns false at a depth of 0 before the last unit. *)
Fixpoint outer_scan (depth : Z) (s : jstr) : option Z :=
  match s with
  | [] => Some depth
  | c :: r =>
      let d := paren_depth c depth in
      if (d =? 0)%Z && truthy_str r then None else outer_scan d r
  end.

Definition hasFullOuterParens (expr : jstr) : bool :=
  starts_with (js "(") expr && ends_with (js ")") expr &&
  match outer_scan 0 expr with Some d => (d =? 0)%Z | None => false end.

(** [current.slice(1, -1).trim()] while the parentheses are outer ones; every
    round removes two units, so the length is enough fuel. *)
Fixpoint unwrap_loop (fuel : nat) (current : jstr) : jstr :=
  match fuel with
  | O => current
  | S f =>
      if hasFullOuterParens current
      then unwrap_loop f (trim (slice 1 (length current - 1) current))
      else current
  end.

Definition unwrapOuterParens (expr : jstr) : jstr :=
  unwrap_loop (length expr) (trim expr).

Record SplitExpr := Split {
  billingExpr : jstr;
  requestRuleExpr : jstr
}.

(** [parsed && parsed.length > 0] for a part. *)
Definition is_rule_part (part : jstr) : outcome bool :=
  parsed ← tryParseRequestRuleExpr part;
  Ret (match parsed with Some (_ :: _) => true | _ => false end).

(** The [forEach] that sorts the parts into rules and base expressions. *)
Fixpoint sort_parts (parts : list jstr) : outcome (list jstr * list jstr) :=
  match parts with
  | [] => Ret ([], [])
  | p :: ps =>
      b ← is_rule_part p;
      '(rules, bases) ← sort_parts ps;
      Ret (if b : bool then (p :: rules, bases) else (rules, p :: bases))
  end.

Definition splitBillingExprAndRequestRules (expr : jstr) : outcome SplitExpr :=
  let trimmed := trim expr in
  if negb (truthy_str trimmed) then Ret (Split [] [])
  else
    let parts := splitTopLevelMultiply trimmed in
    if (length parts <=? 1)%nat then Ret (Split trimmed [])
    else
      '(ruleParts, baseParts) ← sort_parts parts;
      match ruleParts, baseParts with
      | _ :: _, [b] => Ret (Split (unwrapOuterParens b) (join (js " * ") ruleParts))
      | _, _ => Ret (Split trimmed [])
      end.

Definition combineBillingExpr (baseExpr requestRules : jstr) : jstr :=
  let base := trim baseExpr in
  let rules := trim requestRules in
  if negb (truthy_str base) then []
  else if negb (truthy_str rules) then base
  else js "(" ++ base ++ js ") * " ++ rules.

(** ** Editor *)

Definition createEmptyCondition : ParamHeaderCondition := PH false [] MATCH_EQ [].

Definition createEmptyTimeCondition : TimeCondition :=
  TC (js "hour") (js "Asia/Shanghai") MATCH_GTE [] [] [].

Definition createEmptyRuleGroup : RequestRuleGroup :=
  Group [CParamHeader createEmptyCondition] [].

Definition createEmptyTimeRuleGroup : RequestRuleGroup :=
  Group [CTime createEmptyTimeCondition] [].

(** The options as pairs of the match mode and the label. *)
Definition getRequestRuleMatchOptions (source : Source) : list (jstr * jstr) :=
  match source with
  | SOURCE_TIME =>
      [(MATCH_EQ, js "Equals"); (MATCH_GTE, js "Greater than or equal");
       (MATCH_LT, js "Less than"); (MATCH_RANGE, js "Overnight range")]
  | _ =>
      let base := [(MATCH_EQ, js "Equals"); (MATCH_CONTAINS, js "Contains");
                   (MATCH_EXISTS, js "Exists")] in
      if source =?= SOURCE_HEADER then base
      else base ++ [(MATCH_GT, js "Greater than"); (MATCH_GTE, js "Greater than or equal");
                    (MATCH_LT, js "Less than"); (MATCH_LTE, js "Less than or equal")]
  end.

Definition isTimeFunc (v : option jstr) : bool :=
  match v with Some f => includes f TIME_FUNCS | None => false end.

(** [Partial<RequestCondition>]: every field may be missing. *)
Record PartialCondition := Partial {
  pc_source : option jstr;
  pc_path : option jstr;
  pc_timeFunc : option jstr;
  pc_timezone : option jstr;
  pc_mode : option jstr;
  pc_value : option jstr;
  pc_rangeStart : option jstr;
  pc_rangeEnd : option jstr
}.

(** A condition seen as a partial one. *)
Definition partial_of (c : RequestCondition) : PartialCondition :=
  match c with
  | CTime c =>
      Partial (Some (js "time")) None (Some (timeFunc c)) (Some (timezone c)) (Some (t_mode c))
        (Some (t_value c)) (Some (rangeStart c)) (Some (rangeEnd c))
  | CParamHeader c =>
      Partial (Some (if ph_header c then js "header" else js "param")) (Some (path c)) None None
        (Some (ph_mode c)) (Some (ph_value c)) None None
  end.

(** [x || d] for an optional string. *)
Definition str_or (x : option jstr) (d : jstr) : jstr :=
  match x with Some s => if truthy_str s then s else d | None => d end.

(** [options.some((item) => item.value === mode) ? mode : d]. *)
Definition pick_mode (source : Source) (mode : option jstr) (d : jstr) : jstr :=
  match mode with
  | Some m => if includes m (List.map fst (getRequestRuleMatchOptions source)) then m else d
  | None => d
  end.

Definition normalizeTime (cond : option PartialCondition) : TimeCondition :=
  let get f := cond ≫= f in
  TC (if isTimeFunc (get pc_timeFunc) then default [] (get pc_timeFunc) else js "hour")
     (str_or (get pc_timezone) (js "Asia/Shanghai"))
     (pick_mode SOURCE_TIME (get pc_mode) MATCH_GTE)
     (default [] (get pc_value)) (default [] (get pc_rangeStart)) (default [] (get pc_rangeEnd)).

Definition normalizeParamHeader (header : bool) (cond : option PartialCondition)
  : ParamHeaderCondition :=
  let get f := cond ≫= f in
  PH header (str_or (get pc_path) [])
     (pick_mode (if header then SOURCE_HEADER else SOURCE_PARAM) (get pc_mode) MATCH_EQ)
     (default [] (get pc_value)).

Definition normalizeCondition (cond : option PartialCondition) : RequestCondition :=
  let source := cond ≫= pc_source in
  if source =?= Some (js "time") then CTime (normalizeTime cond)
  else CParamHeader (normalizeParamHeader (source =?= Some (js "header")) cond).

(** ** Building expressions *)

Definition buildExprLiteral (mode value : jstr) : jstr :=
  let text := trim value in
  if mode =?= MATCH_CONTAINS then quote text
  else if (text =?= js "true") || (text =?= js "false") then text
  else if is_numeric text then text
  else quote text.

Definition buildTimeConditionExpr (cond : TimeCondition) : jstr :=
  let n := normalizeTime (Some (partial_of (CTime cond))) in
  let fn := timeFunc n ++ js "(" ++ quote (timezone n) ++ js ")" in
  if t_mode n =?= MATCH_RANGE then
    let s := trim (rangeStart n) in
    let e := trim (rangeEnd n) in
    if negb (is_numeric s) || negb (is_numeric e) then []
    else fn ++ js " >= " ++ s ++ js " || " ++ fn ++ js " < " ++ e
  else
    let v := trim (t_value n) in
    if negb (is_numeric v) then []
    else
      let opMap := [(MATCH_EQ, js "=="); (MATCH_GTE, js ">="); (MATCH_LT, js "<")] in
      fn ++ js " " ++ default (js "==") (obj_get (t_mode n) opMap) ++ js " " ++ v.

Definition compare_ops : list (jstr * jstr) :=
  [(MATCH_GT, js ">"); (MATCH_GTE, js ">="); (MATCH_LT, js "<"); (MATCH_LTE, js "<=")].

Definition buildRequestConditionExpr (cond : RequestCondition) : jstr :=
  match cond with
  | CTime c => buildTimeConditionExpr c
  | CParamHeader c =>
      let n := normalizeParamHeader (ph_header c) (Some (partial_of cond)) in
      let p := trim (path n) in
      if negb (truthy_str p) then []
      else
        let sourceExpr :=
          (if ph_header n then js "header(" else js "param(") ++ quote p ++ js ")" in
        let mode := ph_mode n in
        if mode =?= MATCH_EXISTS then
          sourceExpr ++ (if ph_header n then jq " != ''" else js " != nil")
        else if mode =?= MATCH_CONTAINS then
          let has := js "has(" ++ sourceExpr ++ js ", " ++ buildExprLiteral mode (ph_value n) ++ js ")" in
          if ph_header n then has else sourceExpr ++ js " != nil && " ++ has
        else
          match obj_get mode compare_ops with
          | Some o =>
              let numText := trim (ph_value n) in
              if negb (is_numeric numText) then []
              else sourceExpr ++ js " != nil && " ++ sourceExpr ++ js " " ++ o ++ js " " ++ numText
          | None => sourceExpr ++ js " == " ++ buildExprLiteral mode (ph_value n)
          end
  end.

Definition buildRuleGroupFactor (g : RequestRuleGroup) : jstr :=
  let mult := trim (multiplier g) in
  if negb (is_numeric mult) then []
  else
    let condExprs := List.filter truthy_str (List.map buildRequestConditionExpr (conditions g)) in
    match condExprs with
    | [] => []
    | _ =>
        let combined :=
          match condExprs with
          | [e] => e
          | _ =>
              join (js " && ")
                (List.map (fun e => if includes_sub (js " || ") e then js "(" ++ e ++ js ")" else e)
                   condExprs)
          end in
        js "(" ++ combined ++ js " ? " ++ mult ++ js " : 1)"
    end.

Definition buildRequestRuleExpr (groups : list RequestRuleGroup) : jstr :=
  join (js " * ") (List.filter truthy_str (List.map buildRuleGroupFactor groups)).

(** ** Facts on tiers *)

Lemma num_or_not_nan x : is_nan (num_or x num_zero) = false.
Proof. unfold num_or. destruct x; simpl; try done. by case_test. Qed.

(** C40: every parsed tier carries a price for each of the nine priced variables
    of the registry, in registry order, and none of them is NaN, whatever the
    text between the parentheses is. *)
Theorem parsed_tier_total expr t :
  t ∈ parseTiersFromExpr expr ->
  obj_keys (tier_prices t) = List.map (fun v => default [] (field v)) BILLING_PRICING_VARS /\
  Forall (fun kv => is_nan kv.2 = false) (tier_prices t).
Proof.
  intros Ht. unfold parseTiersFromExpr in Ht. case_test; [by apply elem_of_nil in Ht|].
  rewrite list_elem_of_In in Ht. apply in_map_iff in Ht as (m & <- & _). cbn [tier_prices].
  unfold parseTierBody. generalize (fold_left
      (fun cs m => if obj_has (group_text 1 m) cs then cs
         else obj_set (group_text 1 m) (number_of_string (group_text 2 m)) cs)
      (exec_all BILLING_VAR_REGEX (group_text 3 m)) []). intros coeffs.
  assert (E : exists l, BILLING_VAR_KEY_TO_FIELD = l /\ NoDup (List.map snd l) /\
              List.map snd l = List.map (fun v => default [] (field v)) BILLING_PRICING_VARS /\
              Forall (fun kv => index_key kv.2 = None) l).
  { eexists. split; [vm_compute; reflexivity|]. split_and!.
    - apply (bool_decide_eq_true_1 _). vm_compute. reflexivity.
    - vm_compute. reflexivity.
    - repeat constructor. }
  destruct E as (l & -> & Hnd & <- & Hix).
  assert (Hg : forall tier,
    (forall k, k ∈ List.map snd l -> obj_get k tier = None) ->
    Forall (fun kv => is_nan kv.2 = false) tier ->
    let r := fold_left (fun tier vf =>
       obj_set vf.2 (num_or (default NaN (obj_get vf.1 coeffs)) num_zero) tier) l tier in
    obj_keys r = obj_keys tier ++ List.map snd l /\ Forall (fun kv => is_nan kv.2 = false) r);
    [|apply (Hg []); done].
  induction l as [|[k f] l IH]; intros tier Hf Hn; cbn [fold_left List.map fst snd] in *.
  { by rewrite app_nil_r. }
  apply NoDup_cons in Hnd as [Hnf Hnd]. apply Forall_cons in Hix as [Hi Hix]. simpl in Hi.
  set (x := num_or _ num_zero). assert (Hx : is_nan x = false) by apply num_or_not_nan.
  assert (Hset : obj_set f x tier = tier ++ [(f, x)]).
  { unfold obj_set, obj_has. rewrite Hf by (by left).
    clear -Hi. induction tier as [|[k' v'] tier IH]; simpl; [done|]. rewrite Hi. by rewrite IH. }
  rewrite Hset. destruct (IH Hnd Hix (tier ++ [(f, x)])) as [Hk Hall].
  - intros k' Hk'. assert (obj_get k' (obj_set f x tier) = None) as H; [|by rewrite Hset in H].
    rewrite obj_get_set_ne; [by apply Hf; right|]. intros ->. done.
  - apply Forall_app. split; [done|]. by repeat constructor.
  - split; [|done]. rewrite Hk. unfold obj_keys. rewrite map_app, <- app_assoc. done.
Qed.

Lemma parsed_tier_total_witness :
  let e := jq "len <= 1e3 ? tier('a', p * 1.5 + c * x) : tier('b', p * 1e9e)" in
  length (parseTiersFromExpr e) = 2%nat /\
  forall t, t ∈ parseTiersFromExpr e -> Forall (fun kv => is_nan kv.2 = false) (tier_prices t).
Proof.
  intros e. split; [vm_compute; reflexivity|]. intros t Ht. by apply (parsed_tier_total e).
Defined.
