(* ===== verification/BillingSplit.v ===== *)
(** * Joining and splitting billing expressions

    [combineBillingExpr] and [splitBillingExprAndRequestRules] of
    [BillingExpr] are inverse on expressions whose parts are parenthesised. *)

From S2P Require Import Prelude.
From S2P Require Import JsString.
From S2P Require Import JsNumber.
From S2P Require Import JsRegex.
From S2P Require Import JsValue.
From S2P Require Import BillingExpr.

Local Open Scope N_scope.

(** ** Parenthesised parts *)

Lemma full_parens_spec p :
  hasFullOuterParens p = true ->
  (exists q, p = 40 :: q) /\ last p = Some 41 /\ outer_scan 0 p = Some 0%Z.
Proof.
  unfold hasFullOuterParens. intros H. prop_tests.
  destruct (outer_scan 0 p) as [d|] eqn:Ed; [|done]. apply Z.eqb_eq in H0. subst d.
  split_and!; [| |done].
  - by apply (starts_with_spec [40]) in H.
  - rewrite <- head_reverse_last. apply (starts_with_spec [41]) in H1 as [q ->]. done.
Qed.

Lemma full_parens_trim p : hasFullOuterParens p = true -> trim p = p.
Proof.
  intros ([q ->] & Hl & _)%full_parens_spec. apply trim_id. split.
  - simpl. by intros c [= <-].
  - rewrite Hl. by intros c [= <-].
Qed.

Lemma full_parens_truthy p : hasFullOuterParens p = true -> truthy_str p = true.
Proof. by intros ([q ->] & _)%full_parens_spec. Qed.

(** Scanning over a parenthesised part never splits it. *)
Lemma split_over_parens sep d cur p r :
  head sep = Some 32 -> outer_scan d p = Some 0%Z -> p <> [] -> last p = Some 41 ->
  split_top_level sep d 0 cur (p ++ r) = split_top_level sep 0 0 (reverse p ++ cur) r.
Proof.
  intros Hsep. revert d cur. induction p as [|c q IH]; intros d cur Ho Hne Hl; [done|].
  simpl in Ho |- *. destruct q as [|c' q].
  - rewrite andb_false_r in Ho. simpl in Ho, Hl. simplify_eq.
    destruct sep as [|x sep]; simplify_eq/=. rewrite andb_false_r.
    by rewrite Ho.
  - destruct (paren_depth c d =? 0)%Z; simpl in Ho; [done|].
    simpl andb. cbn iota. rewrite IH by (done || by rewrite last_cons in Hl).
    f_equal. rewrite (reverse_cons (c' :: q) c). by rewrite <- app_assoc.
Qed.

Lemma split_parens_sep p r :
  hasFullOuterParens p = true ->
  split_top_level (js " * ") 0 0 [] (p ++ js " * " ++ r) = p :: split_top_level (js " * ") 0 0 [] r.
Proof.
  intros Hp. pose proof (full_parens_spec p Hp) as ([q Hq] & Hl & Ho).
  rewrite split_over_parens by (done || by subst).
  change (js " * ") with [32; 42; 32]. simpl. rewrite app_nil_r, reverse_involutive.
  by rewrite full_parens_trim.
Qed.

Lemma split_parens_end p :
  hasFullOuterParens p = true -> split_top_level (js " * ") 0 0 [] p = [p].
Proof.
  intros Hp. pose proof (full_parens_spec p Hp) as ([q Hq] & Hl & Ho).
  rewrite <- (app_nil_r p) at 1. rewrite split_over_parens by (done || by subst).
  simpl. by rewrite app_nil_r, reverse_involutive, full_parens_trim.
Qed.

Lemma split_multiply_join ps :
  ps <> [] -> Forall (fun p => hasFullOuterParens p = true) ps ->
  splitTopLevelMultiply (join (js " * ") ps) = ps.
Proof.
  intros Hne Hp. unfold splitTopLevelMultiply.
  assert (Hs : split_top_level (js " * ") 0 0 [] (join (js " * ") ps) = ps).
  { induction Hp as [|p ps Hp Hps IH]; [done|]. cbn [join]. destruct ps as [|p' ps].
    - by apply split_parens_end.
    - rewrite split_parens_sep by done. by rewrite IH. }
  rewrite Hs. apply filter_all. eapply Forall_impl; [exact Hp|].
  apply full_parens_truthy.
Qed.

Lemma join_parens_trim ps :
  ps <> [] -> Forall (fun p => hasFullOuterParens p = true) ps ->
  trim (join (js " * ") ps) = join (js " * ") ps /\ truthy_str (join (js " * ") ps) = true.
Proof.
  intros Hne Hp.
  assert (Hh : head (join (js " * ") ps) = Some 40).
  { destruct Hp as [|p ps Hp _]; [done|]. apply full_parens_spec in Hp as ([q ->] & _).
    cbn [join]. by destruct ps. }
  assert (Hl : last (join (js " * ") ps) = Some 41).
  { clear Hh. induction Hp as [|p ps Hp Hps IH]; [done|]. cbn [join]. destruct ps as [|p' ps].
    - by apply full_parens_spec.
    - rewrite !last_app, IH by done. done. }
  split; [|by destruct (join _ ps)].
  apply trim_id. unfold trimmed. rewrite Hh, Hl. split; by intros c [= <-].
Qed.

(** ** Unwrapping *)

Lemma trim_length s : (length (trim s) <= length s)%nat.
Proof.
  unfold trim, trim_end, trim_start.
  assert (H : forall f u, (length (drop_while f u) <= length u)%nat).
  { intros f u. induction u as [|c u IH]; simpl; [done|]. case_test; simpl; lia. }
  rewrite length_reverse. etrans; [apply H|]. rewrite length_reverse. apply H.
Qed.

(** The loop ends by itself: more fuel changes nothing. *)
Lemma unwrap_fuel f f' s :
  (length s <= f)%nat -> (length s <= f')%nat -> unwrap_loop f s = unwrap_loop f' s.
Proof.
  revert f' s. induction f as [|f IH]; intros f' s Hf Hf'.
  - destruct s; [|simpl in Hf; lia]. by destruct f'.
  - destruct f' as [|f']; [destruct s; [done|simpl in Hf'; lia]|]. simpl.
    destruct (hasFullOuterParens s) eqn:E; [|done].
    apply full_parens_spec in E as ([q ->] & _).
    assert (Hl : (length (trim (slice 1 (length (40%N :: q) - 1) (40%N :: q))) <= length q)%nat).
    { etrans; [apply trim_length|]. unfold slice. rewrite length_take, length_drop. simpl length. lia. }
    simpl length in Hf, Hf'. apply IH; lia.
Qed.

Lemma slice_parens w : slice 1 (length (40 :: w ++ [41]) - 1) (40 :: w ++ [41]) = w.
Proof.
  unfold slice. change (drop 1 (40 :: w ++ [41])) with (w ++ [41]).
  cbn [length]. rewrite length_app. cbn [length].
  replace (S (length w + 1) - 1 - 1)%nat with (length w) by lia. by rewrite take_app_length.
Qed.

Lemma unwrap_parens base :
  hasFullOuterParens (40 :: trim base ++ [41]) = true ->
  unwrapOuterParens (40 :: trim base ++ [41]) = unwrapOuterParens base.
Proof.
  intros Hp. unfold unwrapOuterParens. rewrite (full_parens_trim _ Hp).
  change (length (40 :: trim base ++ [41])) with (S (length (trim base ++ [41]))).
  cbn [unwrap_loop]. rewrite Hp, slice_parens, trim_idemp.
  apply unwrap_fuel; [rewrite length_app; lia|apply trim_length].
Qed.

(** ** Round trip *)

(** A part that is a parenthesised, well-formed rule group. *)
Definition rule_part (p : jstr) : Prop :=
  hasFullOuterParens p = true /\ exists g, tryParseRuleGroupFactor p = Ret (Some g).

Lemma parse_single_part p :
  hasFullOuterParens p = true ->
  tryParseRequestRuleExpr p =
  (o ← tryParseRuleGroupFactor p; Ret (option_map (fun g => [g]) o)).
Proof.
  intros Hp. unfold tryParseRequestRuleExpr.
  rewrite full_parens_trim, full_parens_truthy by done. simpl negb.
  change p with (join (js " * ") [p]) at 1.
  rewrite split_multiply_join by (done || by constructor).
  simpl. by destruct (tryParseRuleGroupFactor p) as [[g|]|].
Qed.

Lemma sort_rule_parts ps : Forall rule_part ps -> sort_parts ps = Ret (ps, []).
Proof.
  induction 1 as [|p ps [Hp [g Hg]] Hps IH]; [done|]. simpl. unfold is_rule_part.
  rewrite parse_single_part, Hg by done. simpl. by rewrite IH.
Qed.

Lemma combine_split base parts :
  trim base <> [] ->
  hasFullOuterParens (js "(" ++ trim base ++ js ")") = true ->
  tryParseRuleGroupFactor (js "(" ++ trim base ++ js ")") = Ret None ->
  parts <> [] -> Forall rule_part parts ->
  splitBillingExprAndRequestRules (combineBillingExpr base (join (js " * ") parts)) =
  Ret (Split (unwrapOuterParens base) (join (js " * ") parts)).
Proof.
  change (js "(") with [40]. change (js ")") with [41].
  change ([40] ++ trim base ++ [41]) with (40 :: trim base ++ [41]).
  intros Hb Hfull Hno Hne Hparts.
  assert (Htb : truthy_str (trim base) = true) by (revert Hb; by destruct (trim base)).
  set (bp := 40 :: trim base ++ [41]) in *.
  assert (Hps : Forall (fun p => hasFullOuterParens p = true) parts).
  { eapply Forall_impl; [exact Hparts|]. by intros p []. }
  destruct (join_parens_trim parts Hne Hps) as [Htr Htt].
  assert (Hall : Forall (fun p => hasFullOuterParens p = true) (bp :: parts)) by by constructor.
  assert (Hcomb : combineBillingExpr base (join (js " * ") parts) = join (js " * ") (bp :: parts)).
  { unfold combineBillingExpr. rewrite Htr, Htt, Htb. cbn [negb join].
    destruct parts; [done|]. unfold bp.
    change (js ") * ") with ([41] ++ js " * "). cbn [app]. change (js "(") with [40].
    cbn [app]. f_equal. by rewrite <- !app_assoc. }
  rewrite Hcomb. unfold splitBillingExprAndRequestRules.
  destruct (join_parens_trim (bp :: parts) ltac:(done) Hall) as [-> ->]. simpl negb. cbn iota.
  rewrite split_multiply_join by done.
  destruct parts as [|p0 ps]; [done|].
  replace (length (bp :: p0 :: ps) <=? 1)%nat with false by done. cbn iota.
  change (sort_parts (bp :: p0 :: ps)) with
    (b ← is_rule_part bp; '(rules, bases) ← sort_parts (p0 :: ps);
     Ret (if b : bool then (bp :: rules, bases) else (rules, bp :: bases))).
  rewrite sort_rule_parts by done. unfold is_rule_part. rewrite parse_single_part, Hno by done.
  simpl. unfold bp. by rewrite unwrap_parens.
Qed.

(** The rules that come back parse to as many groups as there are factors. *)
Lemma parse_rule_parts parts :
  parts <> [] -> Forall rule_part parts ->
  exists gs, tryParseRequestRuleExpr (join (js " * ") parts) = Ret (Some gs) /\ length gs = length parts.
Proof.
  intros Hne Hparts.
  assert (Hps : Forall (fun p => hasFullOuterParens p = true) parts).
  { eapply Forall_impl; [exact Hparts|]. by intros p []. }
  unfold tryParseRequestRuleExpr. destruct (join_parens_trim parts Hne Hps) as [-> ->]. cbn [negb].
  rewrite split_multiply_join by done. clear Hne Hps.
  induction Hparts as [|p ps [_ [g Hg]] _ (gs & E & L)]; [by exists []|].
  exists (g :: gs). cbn [traverse length]. rewrite Hg. cbn. by rewrite E, L.
Qed.

(** C3: joining a price expression with request rules and splitting the result
    gives the price expression without redundant outer parentheses and the same
    rules, for any price expression whose parentheses balance and which is not
    itself a rule, and any list of well-formed rule factors; neither the price
    expression nor the list is empty. *)
Theorem combine_split_roundtrip base parts :
  trim base <> [] ->
  hasFullOuterParens (js "(" ++ trim base ++ js ")") = true ->
  tryParseRuleGroupFactor (js "(" ++ trim base ++ js ")") = Ret None ->
  parts <> [] -> Forall rule_part parts ->
  splitBillingExprAndRequestRules (combineBillingExpr base (join (js " * ") parts)) =
  Ret (Split (unwrapOuterParens base) (join (js " * ") parts)).
Proof. apply combine_split. Qed.

Lemma combine_split_roundtrip_witness :
  let base := jq "tier('base', p * 2.5 + c * 15)" in
  let rules := jq "(header('x-fast') != '' ? 2 : 1) * (param('n') != nil ? 0.5 : 1)" in
  splitBillingExprAndRequestRules (combineBillingExpr base rules) = Ret (Split base rules).
Proof.
  intros base rules.
  set (parts := [jq "(header('x-fast') != '' ? 2 : 1)"; jq "(param('n') != nil ? 0.5 : 1)"]).
  assert (Er : rules = join (js " * ") parts) by (vm_compute; reflexivity).
  assert (Eb : base = unwrapOuterParens base) by (vm_compute; reflexivity).
  rewrite Er. rewrite Eb at 2. apply (combine_split_roundtrip base parts).
  - vm_compute. discriminate.
  - vm_compute. reflexivity.
  - vm_compute. reflexivity.
  - discriminate.
  - repeat constructor; try (vm_compute; reflexivity); eexists; vm_compute; reflexivity.
Defined.
