(* ===== verification/BillingRoundTrip.v ===== *)
(** * Printing and parsing request rules

    The printer [buildRequestRuleExpr] and the parser [tryParseRequestRuleExpr]
    of [BillingExpr] are inverse on the conditions the rule editor produces,
    with two exceptions that are stated at the end. *)

From S2P Require Import Prelude.
From S2P Require Import JsString.
From S2P Require Import JsNumber.
From S2P Require Import JsRegex.
From S2P Require Import JsValue.
From S2P Require Import BillingExpr.
From S2P Require Import BillingSplit.

Local Open Scope N_scope.

(** ** Texts the printer leaves as they are *)

(** Not a control unit, quote, backslash, parenthesis, ampersand, bar, surrogate
    or line separator. *)
Definition plain_unit (c : N) : bool :=
  (32 <=? c) && (c <? 65536) && negb (includes c [34; 92; 40; 41; 38; 124; 8232; 8233]) &&
  negb (is_high_surrogate c) && negb (is_low_surrogate c).

Definition text (s : jstr) : Prop := trimmed s /\ Forall (fun c => plain_unit c = true) s.
Definition plain (s : jstr) : Prop := s <> [] /\ text s.

Lemma plain_unit_spec c :
  plain_unit c = true ->
  (32 <= c /\ c < 65536) /\ c <> 34 /\ c <> 92 /\ c <> 40 /\ c <> 41 /\ c <> 38 /\ c <> 124 /\ c <> 8232 /\ c <> 8233 /\
  is_high_surrogate c = false /\ is_low_surrogate c = false.
Proof.
  unfold plain_unit. intros H. prop_tests. apply N.leb_le in H. apply N.ltb_lt in H3.
  apply includes_false in H2.
  assert (Hn : forall x, x ∈ [34; 92; 40; 41; 38; 124; 8232; 8233] -> c <> x) by (intros x Hx ->; done).
  split_and!; try done; apply Hn; repeat first [by left|right].
Qed.

Lemma quote_unit_plain c : plain_unit c = true -> quote_unit c = [c].
Proof.
  intros ([H _] & ? & ? & _)%plain_unit_spec. unfold quote_unit.
  repeat match goal with
  | |- context [c =? ?k] => destruct (N.eqb_spec c k); [lia|]
  end.
  by rewrite (proj2 (N.ltb_ge _ _)).
Qed.

Lemma quote_text s : Forall (fun c => plain_unit c = true) s -> quote s = [34] ++ s ++ [34].
Proof.
  intros Hs. unfold quote. cbn [app]. do 2 f_equal.
  induction Hs as [|c s Hc Hs IH]; [done|]. simpl.
  pose proof (plain_unit_spec c Hc) as (_ & _ & _ & _ & _ & _ & _ & _ & _ & -> & ->).
  by rewrite quote_unit_plain, IH.
Qed.

(** [f("s")] without its function name. *)
Definition arg (s : jstr) : jstr := jq "('" ++ s ++ jq "')".

Lemma quote_arg s r : plain s -> js "(" ++ quote s ++ js ")" ++ r = arg s ++ r.
Proof.
  intros (_ & _ & Hs). rewrite quote_text by done. unfold arg.
  change (js "(") with [40]. change (js ")") with [41]. change (jq "('") with [40; 34].
  change (jq "')") with [34; 41]. cbn [app]. do 2 f_equal. by rewrite <- !app_assoc.
Qed.

Lemma num_unit_plain c : num_unit c = true -> plain_unit c = true /\ is_ws c = false.
Proof.
  unfold num_unit, one_of. intros [Hd|Hi]%orb_true_iff.
  - apply is_digit_spec in Hd.
    assert (Hc : c ∈ [48; 49; 50; 51; 52; 53; 54; 55; 56; 57]).
    { assert (c = 48 \/ c = 49 \/ c = 50 \/ c = 51 \/ c = 52 \/ c = 53 \/ c = 54 \/ c = 55 \/
              c = 56 \/ c = 57) as Hor by lia.
      rewrite !elem_of_cons. tauto. }
    repeat (apply elem_of_cons in Hc as [->|Hc]; [by split|]). by apply elem_of_nil in Hc.
  - apply includes_true in Hi. change (js ".eE+-") with [46; 101; 69; 43; 45] in Hi.
    repeat (apply elem_of_cons in Hi as [->|Hi]; [by split|]). by apply elem_of_nil in Hi.
Qed.

Lemma numeric_units s : is_numeric s = true -> Forall (fun c => num_unit c = true) s /\ s <> [].
Proof.
  intros H. split.
  - refine (anchored_units num_unit _ s _ _ H); [|done].
    assert (Hd : forall c, is_digit c = true -> num_unit c = true)
      by (intros c Hc; unfold num_unit; by rewrite Hc).
    assert (Hi : forall w, forallb (fun c => includes c (js ".eE+-")) w = true ->
              forall c, one_of w c = true -> num_unit c = true).
    { intros w Hw c Hc. unfold num_unit, one_of in *. apply includes_true in Hc.
      rewrite forallb_forall in Hw. rewrite Hw by (by apply list_elem_of_In). apply orb_true_r. }
    cbn [seq_of only_units digits_plus digits_star RPlus digit_class sign_opt].
    split_and!; try exact Hd; try (apply Hi; reflexivity); try done; repeat constructor.
  - by intros ->.
Qed.

Lemma numeric_text s : is_numeric s = true -> plain s /\ trim s = s.
Proof.
  intros [Hu Hne]%numeric_units.
  assert (Ht : trimmed s).
  { apply trimmed_no_ws. eapply Forall_impl; [exact Hu|]. apply num_unit_plain. }
  split; [|by apply trim_id]. split; [done|]. split; [done|].
  eapply Forall_impl; [exact Hu|]. apply num_unit_plain.
Qed.

Lemma plain_trim s : plain s -> trim s = s /\ truthy_str s = true.
Proof. intros (Hne & Ht & _). split; [by apply trim_id|by destruct s]. Qed.

(** ** Conditions of the editor *)

Definition good_time (c : TimeCondition) : Prop :=
  timeFunc c ∈ TIME_FUNCS /\ plain (timezone c) /\
  ((t_mode c = MATCH_RANGE /\ t_value c = [] /\
    is_numeric (rangeStart c) = true /\ is_numeric (rangeEnd c) = true) \/
   (t_mode c ∈ [MATCH_EQ; MATCH_GTE; MATCH_LT] /\ is_numeric (t_value c) = true /\
    rangeStart c = [] /\ rangeEnd c = [])).

Definition good_param_header (c : ParamHeaderCondition) : Prop :=
  plain (path c) /\
  ((ph_mode c = MATCH_EXISTS /\ ph_value c = []) \/
   (ph_mode c = MATCH_CONTAINS /\ text (ph_value c)) \/
   (ph_mode c = MATCH_EQ /\ text (ph_value c)) \/
   (ph_header c = false /\ ph_mode c ∈ [MATCH_GT; MATCH_GTE; MATCH_LT; MATCH_LTE] /\
    is_numeric (ph_value c) = true)).

Definition good_condition (c : RequestCondition) : Prop :=
  match c with CTime c => good_time c | CParamHeader c => good_param_header c end.

(** *** The parser on a quoted argument *)

Definition not_quote (c : N) : bool := negb (c =? 34).

Lemma plain_not_quote s : text s -> Forall (fun c => not_quote c = true) s.
Proof.
  intros [_ H]. eapply Forall_impl; [exact H|]. intros c (_ & Hq & _)%plain_unit_spec.
  unfold not_quote. by rewrite (proj2 (N.eqb_neq _ _)).
Qed.

Lemma quoted_arg_run n s r b cs K :
  plain s ->
  matches (RSeq (quoted_arg n) K) (MState b (arg s ++ r) cs) =
  matches K (MState (reverse (arg s) ++ b) r ((n, s) :: cs)).
Proof.
  intros [Hne Ht]. unfold quoted_arg, arg. cbn [seq_of]. rewrite !seq_assoc, <- !app_assoc.
  rewrite seq_lit, seq_assoc.
  rewrite (seq_group_run not_quote); [|done|done|by apply plain_not_quote|by apply refuses_lit].
  rewrite seq_lit. by rewrite !reverse_app, <- !app_assoc.
Qed.

Lemma lit_end w b cs :
  matches (RSeq (RLit w) REnd) (MState b w cs) = [MState (reverse w ++ b) [] cs].
Proof. rewrite <- (app_nil_r w) at 2. by rewrite seq_lit. Qed.

Lemma num_end n v b cs :
  is_numeric v = true ->
  matches (RSeq (num_text n) REnd) (MState b v cs) = [MState (reverse v ++ b) [] ((n, v) :: cs)].
Proof.
  intros [Hu Hne]%numeric_units. unfold num_text. rewrite <- (app_nil_r v) at 1.
  rewrite (seq_group_run num_unit); [done|done|done|done|apply refuses_end].
Qed.

Lemma refuses_assoc f r1 r2 K : refuses f (RSeq r1 (RSeq r2 K)) -> refuses f (RSeq (RSeq r1 r2) K).
Proof. intros H b c a cs Hc. rewrite seq_assoc. by apply H. Qed.

Lemma num_run n v r b cs K :
  is_numeric v = true -> match r with c :: _ => num_unit c = false | [] => True end ->
  refuses num_unit K ->
  matches (RSeq (num_text n) K) (MState b (v ++ r) cs) =
  matches K (MState (reverse v ++ b) r ((n, v) :: cs)).
Proof. intros [Hu Hne]%numeric_units Hr Hk. by apply (seq_group_run num_unit). Qed.

(** *** Which pattern a text cannot match *)

Lemma no_time s :
  Forall (fun f => starts_with f s = false) TIME_FUNCS -> starts_with (js "(") s = false ->
  tryParseTimeCondition s = None.
Proof.
  intros Hf Hp. unfold TIME_FUNCS in Hf. rewrite !Forall_cons in Hf. destruct Hf as (H1 & H2 & H3 & H4 & H5 & _).
  assert (Ha : matches (alt_of (List.map RLit TIME_FUNCS)) (start_state s) = []).
  { cbn [TIME_FUNCS List.map alt_of matches start_state after]. by rewrite H1, H2, H3, H4, H5. }
  assert (Ht : forall K, matches (RSeq time_func K) (start_state s) = []).
  { intros K. unfold time_func. cbn [matches]. by rewrite Ha. }
  unfold tryParseTimeCondition, range_regex, paren_range_regex, time_regex.
  cbn [seq_of]. rewrite !re_match_anchored. unfold range_body. cbn [seq_of].
  rewrite !seq_assoc, !Ht, seq_lit_fail by done. done.
Qed.

(** A pattern that starts with a literal the text does not start with. *)
Lemma no_match w K s : starts_with w s = false -> re_match (RSeq RBegin (RSeq (RLit w) K)) s = None.
Proof. intros H. rewrite re_match_anchored. by rewrite seq_lit_fail. Qed.

(** A function applied to a quoted argument, then a literal that differs. *)
Lemma no_match_arg f n s w r K :
  plain s -> starts_with w r = false ->
  re_match (RSeq RBegin (RSeq (RLit f) (RSeq (quoted_arg n) (RSeq (RLit w) K)))) (f ++ arg s ++ r) = None.
Proof.
  intros Hs Hw. rewrite re_match_anchored. unfold start_state.
  by rewrite seq_lit, quoted_arg_run, seq_lit_fail.
Qed.

(** *** Parameters and headers *)

Definition fname (h : bool) : jstr := if h then js "header" else js "param".

Lemma source_expr (h : bool) p r :
  plain p ->
  ((if h then js "header(" else js "param(") ++ quote p ++ js ")") ++ r = fname h ++ arg p ++ r.
Proof.
  intros Hp. rewrite <- quote_arg by done. rewrite <- !app_assoc. by destruct h.
Qed.

Lemma norm_ph (h : bool) p m v :
  plain p ->
  includes m (List.map fst (getRequestRuleMatchOptions (if h then SOURCE_HEADER else SOURCE_PARAM))) = true ->
  normalizeParamHeader h (Some (partial_of (CParamHeader (PH h p m v)))) = PH h p m v.
Proof.
  intros Hp Hm. unfold normalizeParamHeader. cbn. destruct (plain_trim p Hp) as [_ ->].
  by rewrite Hm.
Qed.

Ltac build_ph h p Hp :=
  cbn [buildRequestConditionExpr ph_header];
  rewrite norm_ph by (done || by destruct h || reflexivity);
  cbn [path ph_mode ph_value ph_header];
  destruct (plain_trim p Hp) as [-> ->]; cbn [negb].

Lemma build_exists (h : bool) p :
  plain p ->
  buildRequestConditionExpr (CParamHeader (PH h p MATCH_EXISTS [])) =
  fname h ++ arg p ++ (if h then jq " != ''" else js " != nil").
Proof. intros Hp. build_ph h p Hp. by rewrite <- source_expr by done. Qed.

Lemma build_eq (h : bool) p v :
  plain p ->
  buildRequestConditionExpr (CParamHeader (PH h p MATCH_EQ v)) =
  fname h ++ arg p ++ js " == " ++ buildExprLiteral MATCH_EQ v.
Proof. intros Hp. build_ph h p Hp. by rewrite <- source_expr by done. Qed.

Lemma build_contains (h : bool) p v :
  plain p -> trimmed v ->
  buildRequestConditionExpr (CParamHeader (PH h p MATCH_CONTAINS v)) =
  (if h then [] else js "param" ++ arg p ++ js " != nil && ") ++
  js "has(" ++ fname h ++ arg p ++ js ", " ++ quote v ++ js ")".
Proof.
  intros Hp Hv. build_ph h p Hp.
  change (bool_decide (MATCH_CONTAINS = MATCH_EXISTS)) with false.
  change (bool_decide (MATCH_CONTAINS = MATCH_CONTAINS)) with true. cbn iota.
  unfold buildExprLiteral. change (bool_decide (MATCH_CONTAINS = MATCH_CONTAINS)) with true.
  cbn iota. rewrite trim_id by done.
  destruct h; cbn iota.
  - by rewrite (source_expr true).
  - rewrite !(source_expr false) by done. by rewrite <- !app_assoc.
Qed.

(** Passes the patterns that cannot match the text at hand. *)
Ltac skip_more :=
  repeat first [rewrite no_match by reflexivity | rewrite no_match_arg by (done || reflexivity)];
  cbn [mbind option_bind].

Ltac skip_patterns :=
  unfold tryParseRequestCondition;
  rewrite no_time by (reflexivity || (unfold TIME_FUNCS; repeat apply Forall_cons_2;
                                      first [reflexivity | by apply Forall_nil]));
  unfold header_exists_regex, param_exists_regex, header_contains_regex, param_contains_regex,
    param_compare_regex, equals_regex; cbn [seq_of];
  skip_more.

(** Evaluates the capture groups of a match. *)
Ltac read_groups := unfold group_text, cap; cbn [caps cap_lookup Nat.eqb from_option id].

Ltac enter_pattern := rewrite re_match_anchored; unfold start_state.

Lemma parse_exists (h : bool) p :
  plain p ->
  tryParseRequestCondition (fname h ++ arg p ++ (if h then jq " != ''" else js " != nil")) =
  Ret (Some (CParamHeader (PH h p MATCH_EXISTS []))).
Proof.
  intros Hp. destruct h; unfold fname; skip_patterns; enter_pattern;
    by rewrite seq_lit, quoted_arg_run, lit_end.
Qed.

Lemma text_line s : text s -> Forall (fun c => line_unit c = true) s.
Proof.
  intros [_ H]. eapply Forall_impl; [exact H|].
  intros c ([? _] & _ & _ & _ & _ & _ & _ & ? & ? & _)%plain_unit_spec. unfold line_unit.
  by rewrite !(proj2 (N.eqb_neq c _)) by lia.
Qed.

Lemma text_range s : text s -> Forall (fun c => c < 65536) s.
Proof. intros [_ H]. eapply Forall_impl; [exact H|]. by intros c ([_ ?] & _)%plain_unit_spec. Qed.

Lemma quote_trimmed s : text s -> trim (quote s) = quote s.
Proof.
  intros [_ Hs]. rewrite quote_text by done. apply trim_id. split.
  - by intros c [= <-].
  - rewrite !last_app. simpl. by intros c [= <-].
Qed.

Lemma quote_not_numeric s : is_numeric (quote s) = false.
Proof.
  unfold is_numeric, re_test. unfold NUMERIC_LITERAL_REGEX. cbn [seq_of].
  match goal with |- context [exec (RSeq RBegin ?r) ?t] =>
    assert (Hn : re_match (RSeq RBegin r) t = None) by (by rewrite re_match_anchored)
  end.
  unfold re_match in Hn. by destruct (exec _ _).
Qed.

(** A literal is printed on one line and read back as the text it stands for. *)
Lemma literal_roundtrip v :
  text v ->
  let l := buildExprLiteral MATCH_EQ v in
  l <> [] /\ Forall (fun c => line_unit c = true) l /\ parseExprLiteral l = Some (VStr v).
Proof.
  intros Hv. pose proof Hv as [Ht Hu]. unfold buildExprLiteral, parseExprLiteral.
  change (bool_decide (MATCH_EQ = MATCH_CONTAINS)) with false. cbn iota. rewrite trim_id by done.
  destruct ((v =?= js "true") || (v =?= js "false")) eqn:Eb.
  - split_and!; [|by apply text_line|by rewrite trim_id, Eb].
    intros ->. by vm_compute in Eb.
  - destruct (is_numeric v) eqn:En.
    + split_and!; [by apply numeric_units in En as [_ ?]|by apply text_line|].
      by rewrite trim_id, Eb, En.
    + rewrite quote_trimmed, quote_not_numeric, json_parse_quote by (done || by apply text_range).
      rewrite quote_text by done. split_and!; [done| |done].
      apply Forall_app. split; [by repeat constructor|]. apply Forall_app.
      split; [by apply text_line|by repeat constructor].
Qed.

Lemma source_name (h : bool) b r cs K :
  matches (RSeq (RGroup 1 (RAlt (RLit (js "param")) (RLit (js "header")))) K)
    (MState b (fname h ++ r) cs) =
  matches K (MState (reverse (fname h) ++ b) r ((1%nat, fname h) :: cs)).
Proof. apply seq_group_one. by destruct h. Qed.

Lemma parse_eq (h : bool) p l v :
  plain p -> l <> [] -> Forall (fun c => line_unit c = true) l ->
  parseExprLiteral l = Some (VStr v) ->
  tryParseRequestCondition (fname h ++ arg p ++ js " == " ++ l) =
  Ret (Some (CParamHeader (PH h p MATCH_EQ v))).
Proof.
  intros Hp Hne Hl Hv.
  assert (Hm : re_match equals_regex (fname h ++ arg p ++ js " == " ++ l) =
    Some (MState (reverse l ++ reverse (js " == ") ++ reverse (arg p) ++ reverse (fname h))
            [] [(3%nat, l); (2%nat, p); (1%nat, fname h)])).
  { unfold equals_regex. cbn [seq_of]. enter_pattern.
    rewrite source_name, quoted_arg_run, seq_lit by done. rewrite <- (app_nil_r l) at 1.
    rewrite (seq_group_run line_unit) by (done || apply refuses_end). by rewrite app_nil_r. }
  unfold equals_regex in Hm. cbn [seq_of] in Hm.
  destruct h; unfold fname in *; skip_patterns; rewrite Hm;
    read_groups; by rewrite Hv.
Qed.

Lemma json_string_run n v r b cs K :
  text v ->
  matches (RSeq (json_string n) K) (MState b (quote v ++ r) cs) =
  matches K (MState (reverse (quote v) ++ b) r ((n, quote v) :: cs)).
Proof.
  intros [_ Hv]. apply seq_group_one. rewrite quote_text by done. cbn [seq_of].
  rewrite <- !app_assoc, seq_lit.
  rewrite (seq_run plain_unit); [| |done|].
  - rewrite matches_lit. by rewrite !reverse_app, <- !app_assoc.
  - split.
    + intros b0 c a cs0 (_ & H34 & H92 & _)%plain_unit_spec. simpl.
      rewrite (proj2 (N.eqb_neq c 34)), (proj2 (N.eqb_neq c 92)) by done. simpl.
      assert (H : (92 =? c) = false) by (apply N.eqb_neq; congruence).
      destruct c as [|q]; [done|]. simpl in H. by rewrite H.
    + done.
  - intros b0 c a cs0 (_ & H34 & _)%plain_unit_spec. apply matches_lit_fail. cbn [after starts_with].
    by rewrite (proj2 (N.eqb_neq 34 c)) by congruence.
Qed.

Lemma parse_contains (h : bool) p v :
  plain p -> text v ->
  tryParseRequestCondition
    ((if h then [] else js "param" ++ arg p ++ js " != nil && ") ++
     js "has(" ++ fname h ++ arg p ++ js ", " ++ quote v ++ js ")") =
  Ret (Some (CParamHeader (PH h p MATCH_CONTAINS v))).
Proof.
  intros Hp Hv. destruct h; unfold fname; cbn [app].
  - change (js "has(" ++ js "header" ++ ?r) with (js "has(header" ++ r). skip_patterns.
    enter_pattern. rewrite seq_lit, quoted_arg_run, seq_lit, json_string_run, lit_end by done.
    cbn [head]. read_groups. unfold json_parse_throws.
    by rewrite json_parse_quote by by apply text_range.
  - rewrite <- !app_assoc.
    change (js " != nil && " ++ js "has(" ++ js "param" ++ ?r) with (js " != nil && has(param" ++ r).
    assert (He : re_match param_exists_regex
              (js "param" ++ arg p ++ js " != nil && has(param" ++ arg p ++ js ", " ++ quote v ++ js ")")
              = None).
    { unfold param_exists_regex. cbn [seq_of]. enter_pattern. rewrite seq_lit, quoted_arg_run by done.
      change (js " != nil && has(param" ++ ?r) with (js " != nil" ++ js " && has(param" ++ r).
      by rewrite seq_lit. }
    unfold param_exists_regex in He. cbn [seq_of] in He.
    skip_patterns. rewrite He. skip_more. enter_pattern.
    rewrite seq_lit, quoted_arg_run, seq_lit, quoted_arg_run, seq_lit, json_string_run, lit_end by done.
    cbn [head mbind option_bind]. read_groups. rewrite bool_decide_true by done. cbn iota.
    read_groups. unfold json_parse_throws. by rewrite json_parse_quote by by apply text_range.
Qed.

(** *** Comparisons *)

Lemma build_compare p m o v :
  plain p -> is_numeric v = true -> (m, o) ∈ compare_ops ->
  buildRequestConditionExpr (CParamHeader (PH false p m v)) =
  js "param" ++ arg p ++ js " != nil && param" ++ arg p ++ js " " ++ o ++ js " " ++ v.
Proof.
  intros Hp Hv Hm. destruct (numeric_text v Hv) as [_ Ht].
  assert (Hin : includes m (List.map fst (getRequestRuleMatchOptions SOURCE_PARAM)) = true /\
                bool_decide (m = MATCH_EXISTS) = false /\ bool_decide (m = MATCH_CONTAINS) = false /\
                obj_get m compare_ops = Some o).
  { unfold compare_ops in Hm. repeat (apply elem_of_cons in Hm as [[= -> ->]|Hm]; [by split_and!|]).
    by apply elem_of_nil in Hm. }
  destruct Hin as (Hin & He & Hc & Ho).
  cbn [buildRequestConditionExpr ph_header]. rewrite norm_ph by done.
  cbn [path ph_mode ph_value ph_header]. destruct (plain_trim p Hp) as [-> ->]. cbn [negb].
  rewrite He, Hc, Ho, Ht, Hv. cbn [negb]. rewrite !(source_expr false) by done. done.
Qed.

Lemma compare_op_run o m b r cs K :
  (m, o) ∈ compare_ops ->
  matches (RSeq (RGroup 3 (alt_of [RLit (js ">"); RLit (js ">="); RLit (js "<"); RLit (js "<=")]))
             (RSeq (RLit (js " ")) K)) (MState b (o ++ js " " ++ r) cs) =
  matches K (MState (reverse (js " ") ++ reverse o ++ b) r ((3%nat, o) :: cs)).
Proof.
  intros Hm. unfold compare_ops in Hm.
  repeat (apply elem_of_cons in Hm as [[= _ ->]|Hm]).
  5: by apply elem_of_nil in Hm.
  all: js_eval; cbn; unfold consumed; cbn.
  all: replace (length r - length r)%nat with 0%nat by lia.
  all: rewrite ?Nat.sub_succ_l, ?Nat.sub_diag by lia; cbn; rewrite ?app_nil_r; done.
Qed.

Lemma parse_compare p m o v :
  plain p -> is_numeric v = true -> (m, o) ∈ compare_ops ->
  tryParseRequestCondition
    (js "param" ++ arg p ++ js " != nil && param" ++ arg p ++ js " " ++ o ++ js " " ++ v) =
  Ret (Some (CParamHeader (PH false p m v))).
Proof.
  intros Hp Hv Hm.
  set (s := js "param" ++ arg p ++ js " != nil && param" ++ arg p ++ js " " ++ o ++ js " " ++ v).
  assert (He : re_match param_exists_regex s = None).
  { unfold param_exists_regex, s. cbn [seq_of]. enter_pattern. rewrite seq_lit, quoted_arg_run by done.
    change (js " != nil && param" ++ ?r) with (js " != nil" ++ js " && param" ++ r).
    by rewrite seq_lit. }
  assert (Hc : re_match param_compare_regex s =
    Some (MState (reverse v ++ reverse (js " ") ++ reverse o ++ reverse (js " ") ++ reverse (arg p) ++
            reverse (js " != nil && param") ++ reverse (arg p) ++ reverse (js "param"))
            [] [(4%nat, v); (3%nat, o); (2%nat, p); (1%nat, p)])).
  { unfold param_compare_regex, s. cbn [seq_of]. enter_pattern.
    rewrite seq_lit, quoted_arg_run, seq_lit, quoted_arg_run, seq_lit by done.
    erewrite compare_op_run by done. rewrite num_end by done. by rewrite app_nil_r. }
  unfold param_exists_regex in He. unfold param_compare_regex in Hc. cbn [seq_of] in He, Hc.
  unfold s in *. skip_patterns. rewrite He. skip_more. rewrite Hc. cbn [mbind option_bind].
  read_groups. rewrite bool_decide_true by done. cbn iota. read_groups.
  unfold compare_ops in Hm. repeat (apply elem_of_cons in Hm as [[= -> ->]|Hm]; [done|]).
  by apply elem_of_nil in Hm.
Qed.

(** *** Time conditions *)

Lemma time_func_run f b r cs K :
  f ∈ TIME_FUNCS ->
  matches (RSeq time_func K) (MState b (f ++ r) cs) =
  matches K (MState (reverse f ++ b) r ((1%nat, f) :: cs)).
Proof.
  intros Hf. apply seq_group_one. unfold TIME_FUNCS in Hf.
  repeat (apply elem_of_cons in Hf as [->|Hf]; [reflexivity|]). by apply elem_of_nil in Hf.
Qed.

Lemma norm_time c :
  timeFunc c ∈ TIME_FUNCS -> plain (timezone c) ->
  includes (t_mode c) (List.map fst (getRequestRuleMatchOptions SOURCE_TIME)) = true ->
  normalizeTime (Some (partial_of (CTime c))) = c.
Proof.
  intros Hf Hz Hm. destruct c as [f z m v rs re]. unfold normalizeTime. cbn in *.
  rewrite (proj2 (includes_true _ _) Hf), Hm. by destruct (plain_trim z Hz) as [_ ->].
Qed.

(** The function, its zone and the rest of a time condition. *)
Lemma time_head f z r : plain z -> (f ++ js "(" ++ quote z ++ js ")") ++ r = f ++ arg z ++ r.
Proof. intros Hz. rewrite <- !app_assoc. by rewrite quote_arg. Qed.

Definition range_text (f z s e : jstr) : jstr :=
  f ++ arg z ++ js " >= " ++ s ++ js " || " ++ f ++ arg z ++ js " < " ++ e.

Lemma build_range f z s e :
  f ∈ TIME_FUNCS -> plain z -> is_numeric s = true -> is_numeric e = true ->
  buildTimeConditionExpr (TC f z MATCH_RANGE [] s e) = range_text f z s e.
Proof.
  intros Hf Hz Hs He. unfold buildTimeConditionExpr. rewrite norm_time by done.
  cbn [t_mode timeFunc timezone rangeStart rangeEnd].
  change (bool_decide (MATCH_RANGE = MATCH_RANGE)) with true. cbn iota.
  destruct (numeric_text s Hs) as [_ ->], (numeric_text e He) as [_ ->]. rewrite Hs, He. cbn [negb orb].
  rewrite !time_head by done. done.
Qed.

(** The range pattern on the printed range, up to its end. *)
Lemma range_run f z s e b cs r K :
  f ∈ TIME_FUNCS -> plain z -> is_numeric s = true -> is_numeric e = true ->
  match r with c :: _ => num_unit c = false | [] => True end -> refuses num_unit K ->
  exists b',
    matches (RSeq range_body K) (MState b (range_text f z s e ++ r) cs) =
    matches K (MState b' r ((4%nat, e) :: (3%nat, s) :: (2%nat, z) :: (1%nat, f) :: cs)).
Proof.
  intros Hf Hz Hs He Hr Hk. unfold range_body, range_text. cbn [seq_of].
  assert (Ha : forall t, arg z ++ js " < " ++ t = jq "('" ++ z ++ jq "') < " ++ t).
  { intros t. unfold arg. by rewrite <- !app_assoc. }
  rewrite !seq_assoc, <- !app_assoc, Ha. eexists.
  rewrite time_func_run, seq_assoc, quoted_arg_run, seq_assoc, seq_lit, seq_assoc by done.
  rewrite num_run; [|done|done|by apply refuses_assoc, refuses_lit].
  rewrite seq_assoc, seq_lit, seq_assoc, (seq_backref 1 f) by done.
  rewrite seq_assoc, seq_lit, seq_assoc, (seq_backref 2 z) by done.
  rewrite seq_assoc, seq_lit. by rewrite num_run.
Qed.

Lemma range_group_text s e f z b' :
  let m := MState b' [] [(4%nat, e); (3%nat, s); (2%nat, z); (1%nat, f)] in
  range_condition m = CTime (TC f z MATCH_RANGE [] s e).
Proof. done. Qed.

(** Both forms of a range are read: bare, and in the parentheses that the
    printer adds when a group has several conditions. *)
Lemma parse_range f z s e :
  f ∈ TIME_FUNCS -> plain z -> is_numeric s = true -> is_numeric e = true ->
  tryParseTimeCondition (range_text f z s e) = Some (CTime (TC f z MATCH_RANGE [] s e)) /\
  tryParseTimeCondition (js "(" ++ range_text f z s e ++ js ")") =
    Some (CTime (TC f z MATCH_RANGE [] s e)).
Proof.
  intros Hf Hz Hs He. split; unfold tryParseTimeCondition.
  - assert (Hm : exists b', re_match range_regex (range_text f z s e) =
              Some (MState b' [] [(4%nat, e); (3%nat, s); (2%nat, z); (1%nat, f)])).
    { unfold range_regex. cbn [seq_of]. enter_pattern. rewrite <- (app_nil_r (range_text f z s e)).
      destruct (range_run f z s e [] [] [] REnd) as [b' ->]; try done.
      exists b'. done. }
    by destruct Hm as [b' ->].
  - assert (Hn : re_match range_regex (js "(" ++ range_text f z s e ++ js ")") = None).
    { unfold range_regex, range_body. cbn [seq_of]. enter_pattern. rewrite seq_assoc. reflexivity. }
    assert (Hm : exists b', re_match paren_range_regex (js "(" ++ range_text f z s e ++ js ")") =
              Some (MState b' [] [(4%nat, e); (3%nat, s); (2%nat, z); (1%nat, f)])).
    { unfold paren_range_regex. cbn [seq_of]. enter_pattern. rewrite seq_lit.
      edestruct (range_run f z s e (reverse (js "(") ++ []) [] (js ")") (RSeq (RLit (js ")")) REnd))
        as [b' ->]; try done; [by apply refuses_lit|].
      rewrite lit_end. by eexists. }
    rewrite Hn. by destruct Hm as [b' ->].
Qed.

Definition time_ops : list (jstr * jstr) :=
  [(MATCH_EQ, js "=="); (MATCH_GTE, js ">="); (MATCH_LT, js "<")].

Lemma build_time f z m o v :
  f ∈ TIME_FUNCS -> plain z -> (m, o) ∈ time_ops -> is_numeric v = true ->
  buildTimeConditionExpr (TC f z m v [] []) = f ++ arg z ++ js " " ++ o ++ js " " ++ v.
Proof.
  intros Hf Hz Hm Hv.
  assert (Hin : includes m (List.map fst (getRequestRuleMatchOptions SOURCE_TIME)) = true /\
                bool_decide (m = MATCH_RANGE) = false /\
                obj_get m time_ops = Some o).
  { unfold time_ops in Hm. repeat (apply elem_of_cons in Hm as [[= -> ->]|Hm]; [by split_and!|]).
    by apply elem_of_nil in Hm. }
  destruct Hin as (Hin & Hr & Ho). unfold time_ops in Ho.
  unfold buildTimeConditionExpr. rewrite norm_time by done.
  cbn [t_mode timeFunc timezone t_value]. rewrite Hr.
  destruct (numeric_text v Hv) as [_ ->]. rewrite Hv, Ho. cbn [negb from_option id].
  by rewrite time_head.
Qed.

Lemma time_op_run o m b r cs K :
  (m, o) ∈ time_ops ->
  matches (RSeq (RGroup 3 (alt_of [RLit (js "=="); RLit (js ">="); RLit (js "<")]))
             (RSeq (RLit (js " ")) K)) (MState b (o ++ js " " ++ r) cs) =
  matches K (MState (reverse (js " ") ++ reverse o ++ b) r ((3%nat, o) :: cs)).
Proof.
  intros Hm. rewrite seq_group_one; [apply seq_lit|]. unfold time_ops in Hm.
  repeat (apply elem_of_cons in Hm as [[= _ ->]|Hm]; [reflexivity|]). by apply elem_of_nil in Hm.
Qed.

Lemma time_not_range f z m o v :
  f ∈ TIME_FUNCS -> plain z -> (m, o) ∈ time_ops -> is_numeric v = true ->
  re_match range_regex (f ++ arg z ++ js " " ++ o ++ js " " ++ v) = None.
Proof.
  intros Hf Hz Hm Hv. unfold range_regex, range_body. cbn [seq_of]. enter_pattern.
  rewrite seq_assoc, time_func_run, seq_assoc, quoted_arg_run, seq_assoc by done.
  unfold time_ops in Hm. apply elem_of_cons in Hm as [[= _ ->]|Hm]; [by rewrite seq_lit_fail|].
  apply elem_of_cons in Hm as [[= _ ->]|Hm].
  - change (js " " ++ js ">=" ++ js " " ++ v) with (js " >= " ++ v).
    rewrite seq_lit, seq_assoc. rewrite <- (app_nil_r v) at 1.
    rewrite num_run; [|done|done|by apply refuses_assoc, refuses_lit]. by rewrite seq_assoc.
  - apply elem_of_cons in Hm as [[= _ ->]|Hm]; [by rewrite seq_lit_fail|]. by apply elem_of_nil in Hm.
Qed.

Lemma parse_time f z m o v :
  f ∈ TIME_FUNCS -> plain z -> (m, o) ∈ time_ops -> is_numeric v = true ->
  tryParseTimeCondition (f ++ arg z ++ js " " ++ o ++ js " " ++ v) = Some (CTime (TC f z m v [] [])).
Proof.
  intros Hf Hz Hm Hv. unfold tryParseTimeCondition. erewrite time_not_range by done.
  assert (Hp : re_match paren_range_regex (f ++ arg z ++ js " " ++ o ++ js " " ++ v) = None).
  { unfold paren_range_regex. cbn [seq_of]. apply no_match. unfold TIME_FUNCS in Hf.
    repeat (apply elem_of_cons in Hf as [->|Hf]; [reflexivity|]). by apply elem_of_nil in Hf. }
  rewrite Hp. unfold time_regex. cbn [seq_of]. enter_pattern.
  rewrite time_func_run, quoted_arg_run, seq_lit by done. erewrite time_op_run by done.
  rewrite num_end by done. cbn [head]. read_groups. unfold time_ops in Hm.
  repeat (apply elem_of_cons in Hm as [[= -> ->]|Hm]; [done|]). by apply elem_of_nil in Hm.
Qed.

(** ** One condition *)

Lemma modes_ops (m : jstr) (ops : list (jstr * jstr)) :
  m ∈ List.map fst ops -> exists o, (m, o) ∈ ops.
Proof.
  intros Hm. rewrite list_elem_of_In in Hm. apply in_map_iff in Hm as ([m' o] & <- & Hin).
  exists o. by apply list_elem_of_In.
Qed.

Lemma condition_roundtrip c :
  good_condition c -> tryParseRequestCondition (buildRequestConditionExpr c) = Ret (Some c).
Proof.
  destruct c as [[f z m v rs re]|[h p m v]]; unfold good_condition, good_time, good_param_header;
    cbn [timeFunc timezone t_mode t_value rangeStart rangeEnd path ph_mode ph_value ph_header].
  - intros (Hf & Hz & [(-> & -> & Hs & He)|(Hm & Hv & -> & ->)]).
    + unfold tryParseRequestCondition. cbn [buildRequestConditionExpr]. rewrite build_range by done.
      by destruct (parse_range f z rs re) as [-> _].
    + destruct (modes_ops m time_ops Hm) as [o Ho].
      unfold tryParseRequestCondition. cbn [buildRequestConditionExpr].
      erewrite build_time by done. by erewrite parse_time.
  - intros (Hp & [(-> & ->)|[(-> & Hv)|[(-> & Hv)|(-> & Hm & Hv)]]]).
    + rewrite build_exists by done. by apply parse_exists.
    + rewrite build_contains by (done || by destruct Hv). by apply parse_contains.
    + rewrite build_eq by done. destruct (literal_roundtrip v Hv) as (? & ? & ?). by apply parse_eq.
    + destruct (modes_ops m compare_ops Hm) as [o Ho]. erewrite build_compare by done.
      by apply parse_compare.
Qed.

(** ** Groups of conditions *)

(** *** Balanced parts *)

(** The depth after a text, if it never falls below zero. *)
Fixpoint level (d : Z) (s : jstr) : option Z :=
  match s with
  | [] => Some d
  | c :: r => let d' := paren_depth c d in if (d' <? 0)%Z then None else level d' r
  end.

Lemma level_app d a b : level d (a ++ b) = level d a ≫= (fun d' => level d' b).
Proof. revert d. induction a as [|c a IH]; intros d; simpl; [done|]. case_test; [done|]. apply IH. Qed.

(** Balanced parentheses and no ampersand. *)
Definition bal (s : jstr) : Prop := (forall d, (0 <= d)%Z -> level d s = Some d) /\ 38 ∉ s.

Lemma bal_app a b : bal a -> bal b -> bal (a ++ b).
Proof.
  intros [Ha Na] [Hb Nb]. split.
  - intros d Hd. rewrite level_app, Ha by done. simpl. by apply Hb.
  - rewrite elem_of_app. tauto.
Qed.

Definition flat_unit (c : N) : bool := negb ((c =? 40) || (c =? 41) || (c =? 38)).

Lemma bal_flat s : Forall (fun c => flat_unit c = true) s -> bal s.
Proof.
  intros Hs. split.
  - intros d Hd. induction Hs as [|c s Hc Hs IH]; simpl; [done|].
    unfold flat_unit in Hc. prop_tests. unfold paren_depth. rewrite H, H1.
    by rewrite (proj2 (Z.ltb_ge _ _)).
  - intros H38. rewrite Forall_forall in Hs. by apply Hs in H38.
Qed.

Lemma bal_lit s : forallb flat_unit s = true -> bal s.
Proof. intros H. by apply bal_flat, forallb_Forall. Qed.

Lemma bal_plain s : Forall (fun c => plain_unit c = true) s -> bal s.
Proof.
  intros H. apply bal_flat. eapply Forall_impl; [exact H|].
  intros c (_ & _ & _ & ? & ? & ? & _)%plain_unit_spec. unfold flat_unit.
  by rewrite !(proj2 (N.eqb_neq c _)) by done.
Qed.

Lemma bal_parens s : bal s -> bal (40 :: s ++ [41]).
Proof.
  intros [Hs Hn]. split.
  - intros d Hd. cbn [level]. change (paren_depth 40 d) with (d + 1)%Z.
    rewrite (proj2 (Z.ltb_ge _ _)) by lia. rewrite level_app, Hs by lia. cbn.
    change (paren_depth 41 (d + 1)) with (d + 1 - 1)%Z.
    rewrite (proj2 (Z.ltb_ge _ _)) by lia. f_equal. lia.
  - rewrite elem_of_cons, elem_of_app, list_elem_of_singleton. by intros [?|[?|?]].
Qed.

Lemma bal_quote s : text s -> bal (quote s).
Proof.
  intros [_ Hs]. rewrite quote_text by done.
  apply bal_app; [by apply bal_lit|]. apply bal_app; [by apply bal_plain|by apply bal_lit].
Qed.

Lemma bal_arg s : text s -> bal (arg s).
Proof.
  intros Hs.
  assert (E : arg s = 40 :: ([34] ++ s ++ [34]) ++ [41]).
  { unfold arg. change (jq "('") with [40; 34]. change (jq "')") with [34; 41].
    cbn [app]. by rewrite <- !app_assoc. }
  rewrite E, <- quote_text by (by destruct Hs). by apply bal_parens, bal_quote.
Qed.

Lemma bal_numeric s : is_numeric s = true -> bal s.
Proof. intros [[_ [_ ?]] _]%numeric_text. by apply bal_plain. Qed.

Create HintDb baldb.
#[local] Hint Resolve bal_app bal_arg bal_quote bal_numeric : baldb.
#[local] Hint Extern 1 (bal _) => apply bal_lit; reflexivity : baldb.

(** Scanning over a balanced part does not split it. *)
Lemma split_and_over d d' cur e r :
  level d e = Some d' -> 38 ∉ e -> last e <> Some 32 ->
  split_top_level (js " && ") d 0 cur (e ++ r) =
  split_top_level (js " && ") d' 0 (reverse e ++ cur) r.
Proof.
  revert d cur. induction e as [|c q IH]; intros d cur Hl Hn Hs; simpl in Hl; [by simplify_eq|].
  destruct (paren_depth c d <? 0)%Z; [done|].
  rewrite not_elem_of_cons in Hn. destruct Hn as [Hc Hn].
  assert (Hst : starts_with (js " && ") (c :: q ++ r) = false).
  { change (js " && ") with [32; 38; 38; 32]. cbn [starts_with].
    destruct (N.eqb_spec 32 c) as [<-|]; [|done]. cbn [andb].
    destruct q as [|x q]; [done|]. cbn [app starts_with].
    rewrite not_elem_of_cons in Hn. by rewrite (proj2 (N.eqb_neq _ _)) by tauto. }
  cbn [app split_top_level]. rewrite Hst, andb_false_r. rewrite IH; [|done|done|].
  - by rewrite reverse_cons, <- app_assoc.
  - rewrite last_cons in Hs. by destruct (last q).
Qed.

(** A part of a conjunction. *)
Definition and_part (e : jstr) : Prop := bal e /\ trimmed e /\ e <> [].

Lemma and_part_facts e :
  and_part e -> level 0 e = Some 0%Z /\ (38 ∉ e) /\ last e <> Some 32 /\ trim e = e /\ truthy_str e = true.
Proof.
  intros ([Hl Hn] & Ht & Hne). split_and!; [by apply Hl|done| |by apply trim_id|by destruct e].
  destruct Ht as [_ Hlast]. intros H. apply Hlast in H. discriminate.
Qed.

Lemma split_and_join es :
  es <> [] -> Forall and_part es -> splitTopLevelAnd (join (js " && ") es) = es.
Proof.
  intros Hne Hes. unfold splitTopLevelAnd.
  assert (Hs : split_top_level (js " && ") 0 0 [] (join (js " && ") es) = es).
  { induction Hes as [|e es He Hes IH]; [done|]. apply and_part_facts in He as (Hl & Hn & Hla & Ht & _).
    cbn [join]. destruct es as [|e' es].
    - rewrite <- (app_nil_r e) at 1. erewrite split_and_over by done. simpl.
      by rewrite app_nil_r, reverse_involutive, Ht.
    - erewrite split_and_over by done. change (js " && " ++ ?x) with (32 :: 38 :: 38 :: 32 :: x).
      simpl. rewrite app_nil_r, reverse_involutive, Ht. f_equal. by apply IH. }
  rewrite Hs. apply filter_all. eapply Forall_impl; [exact Hes|]. intros e He.
  by apply and_part_facts in He as (_ & _ & _ & _ & ?).
Qed.


(** *** The factor pattern *)

Lemma peel_dead (k : mstate -> list mstate) b t cs :
  (forall b u v, t = u ++ v -> k (MState b v cs) = []) -> List.flat_map k (peel b t [] cs) = [].
Proof.
  revert b. induction t as [|c t IH]; intros b Hk; cbn [peel List.flat_map].
  - by rewrite (Hk b [] []).
  - rewrite flat_map_app, IH; [|intros b' u v E; apply (Hk b' (c :: u)); by rewrite E].
    cbn [List.flat_map app]. rewrite !app_nil_r. by apply (Hk b []).
Qed.

(** A greedy run over everything is cut before the last [t] that can follow. *)
Lemma head_peel (k : mstate -> list mstate) b w t cs st l :
  (forall b u v, t = u ++ v -> u <> [] -> k (MState b v cs) = []) -> t <> [] ->
  k (MState (reverse w ++ b) t cs) = st :: l ->
  head (List.flat_map k (peel b (w ++ t) [] cs)) = Some st.
Proof.
  intros Hdead Hne. revert b. induction w as [|c w IH]; intros b Hk.
  - destruct t as [|c t]; [done|]. cbn [app peel]. rewrite flat_map_app, peel_dead.
    + cbn [app List.flat_map]. rewrite !app_nil_r. cbn in Hk. by rewrite Hk.
    + intros b' u v E. apply (Hdead b' (c :: u)); [by rewrite E|done].
  - cbn [app peel]. rewrite flat_map_app. specialize (IH (c :: b)).
    rewrite reverse_cons, <- app_assoc in Hk. specialize (IH Hk).
    by destruct (List.flat_map k (peel (c :: b) (w ++ t) [] cs)).
Qed.

Definition factor_text (combined m : jstr) : jstr :=
  js "(" ++ combined ++ js " ? " ++ m ++ js " : 1)".

(** The question mark of the factor is the last one of the text. *)
Lemma factor_tail m u v :
  is_numeric m = true -> js " ? " ++ m ++ js " : 1)" = u ++ v -> u <> [] ->
  starts_with (js " ? ") v = false.
Proof.
  intros [Hm _]%numeric_units E Hu. destruct (starts_with _ v) eqn:Hs; [|done]. exfalso.
  apply starts_with_spec in Hs as [r ->].
  change (js " ? ") with [32; 63; 32] in E. cbn [app] in E.
  destruct u as [|x [|y u]]; [done|discriminate|]. injection E as _ _ E.
  assert (H63 : 63 ∈ 32 :: m ++ js " : 1)").
  { rewrite E. apply elem_of_app. right. right. left. }
  apply elem_of_cons in H63 as [?|[Hin|Hin]%elem_of_app]; [done| |].
  - rewrite Forall_forall in Hm. by apply Hm in Hin.
  - change (js " : 1)") with [32; 58; 32; 49; 41] in Hin.
    repeat (apply elem_of_cons in Hin as [?|Hin]; [done|]). by apply elem_of_nil in Hin.
Qed.

Lemma factor_match combined m :
  combined <> [] -> is_numeric m = true ->
  exists b, re_match factor_regex (factor_text combined m) =
            Some (MState b [] [(2%nat, m); (1%nat, combined)]).
Proof.
  intros Hne Hm. unfold factor_regex, factor_text. cbn [seq_of]. enter_pattern. rewrite seq_lit.
  set (K := RSeq (RLit (js " ? ")) _). set (t := js " ? " ++ m ++ js " : 1)").
  destruct combined as [|c w]; [done|].
  change (matches (RSeq ?a ?b) ?s) with (List.flat_map (matches b) (matches a s)).
  change (matches (RGroup ?n ?r) ?s)
    with (List.map (fun st' => capture n (consumed s st') st') (matches r s)).
  rewrite flat_map_map. set (b0 := reverse (js "(") ++ []).
  rewrite <- (app_nil_r ((c :: w) ++ t)).
  rewrite (plus_run (fun _ => true) [] c (w ++ t)) by (done || apply Forall_forall; done).
  eexists. eapply head_peel.
  - intros b u v Ht Hu. unfold capture. cbn [before after caps]. unfold K.
    apply seq_lit_fail. cbn [after]. by eapply factor_tail.
  - done.
  - unfold capture, K. cbn [before after caps]. unfold t at 1.
    rewrite seq_lit, num_run, lit_end; [|done|done|by apply refuses_lit].
    repeat f_equal. unfold consumed. cbn [after]. rewrite app_nil_r.
    rewrite length_app. replace (length (c :: w) + length t - length t)%nat with (length (c :: w)) by lia.
    apply take_app_length.
Qed.

(** *** What the printer makes of a condition *)

(** A condition that is printed as one conjunct. *)
Definition one_conjunct (c : RequestCondition) : Prop :=
  match c with
  | CTime _ => True
  | CParamHeader c => ph_header c = true \/ ph_mode c ∈ [MATCH_EXISTS; MATCH_EQ]
  end.

(** What the printer puts between the conjunction signs. *)
Definition wrap_or (e : jstr) : jstr :=
  if includes_sub (js " || ") e then js "(" ++ e ++ js ")" else e.

Lemma no_bar e : 124 ∉ e -> includes_sub (js " || ") e = false.
Proof.
  intros Hn. unfold includes_sub. destruct (index_of _ e) as [i|] eqn:E; [|done].
  apply index_of_Some in E as [E _]. apply starts_with_spec in E as [r E]. exfalso. apply Hn.
  rewrite <- (take_drop i e), E. apply elem_of_app. right. apply elem_of_app. left.
  change (js " || ") with [32; 124; 124; 32]. right. left.
Qed.

(** A part and the way it is read back, bare and wrapped. *)
Definition reads_as_part (c : RequestCondition) (e : jstr) : Prop :=
  and_part e /\ tryParseRequestCondition e = Ret (Some c).

Lemma plain_no_bar s : Forall (fun c => plain_unit c = true) s -> 124 ∉ s.
Proof. intros H Hin. rewrite Forall_forall in H. by apply H in Hin. Qed.

Lemma lit_no_bar s : forallb (fun c => negb (c =? 124)) s = true -> 124 ∉ s.
Proof.
  intros H Hin. rewrite forallb_forall in H. rewrite list_elem_of_In in Hin. by apply H in Hin.
Qed.

Lemma no_bar_app a b : 124 ∉ a -> 124 ∉ b -> 124 ∉ (a ++ b : jstr).
Proof. rewrite elem_of_app. tauto. Qed.

Lemma no_bar_arg s : plain s -> 124 ∉ arg s.
Proof.
  intros (_ & _ & Hs). unfold arg.
  apply no_bar_app; [by apply lit_no_bar|apply no_bar_app; [by apply plain_no_bar|by apply lit_no_bar]].
Qed.

Lemma no_bar_quote s : text s -> 124 ∉ quote s.
Proof.
  intros (_ & Hs). rewrite quote_text by done.
  apply no_bar_app; [by apply lit_no_bar|apply no_bar_app; [by apply plain_no_bar|by apply lit_no_bar]].
Qed.

Lemma no_bar_numeric s : is_numeric s = true -> 124 ∉ s.
Proof. intros [[_ [_ ?]] _]%numeric_text. by apply plain_no_bar. Qed.

#[local] Hint Resolve no_bar_app no_bar_arg no_bar_quote no_bar_numeric : baldb.
#[local] Hint Extern 1 (_ ∉ _) => apply lit_no_bar; reflexivity : baldb.

(** Concatenations that start and end with a unit that is not white space. *)
Lemma trimmed_ends (x : N) (m : jstr) (y : N) :
  is_ws x = false -> is_ws y = false -> trimmed ((x :: m) ++ [y]).
Proof.
  intros Hx Hy. split.
  - by intros c [= <-].
  - rewrite last_app. by intros c [= <-].
Qed.

Lemma last_numeric s c : is_numeric s = true -> last s = Some c -> is_ws c = false.
Proof. intros [[_ [[_ H] _]] _]%numeric_text. apply H. Qed.

Lemma trimmed_app (a b : jstr) :
  a <> [] -> b <> [] -> (forall c, head a = Some c -> is_ws c = false) ->
  (forall c, last b = Some c -> is_ws c = false) -> trimmed (a ++ b).
Proof.
  intros Ha Hb Hh Hl. split.
  - destruct a; [done|]. apply Hh.
  - rewrite last_app. destruct (last b) eqn:E; [apply Hl|]. by apply last_None in E.
Qed.

Lemma time_head_unit f : f ∈ TIME_FUNCS -> f <> [] /\ (forall c, head f = Some c -> is_ws c = false) /\
  bal f /\ 124 ∉ f.
Proof.
  intros Hf. unfold TIME_FUNCS in Hf.
  repeat (apply elem_of_cons in Hf as [->|Hf];
    [split_and!; [done|by intros c [= <-]|by apply bal_lit|by apply lit_no_bar]|]).
  by apply elem_of_nil in Hf.
Qed.

Lemma fname_unit (h : bool) :
  fname h <> [] /\ (forall c, head (fname h) = Some c -> is_ws c = false) /\ bal (fname h) /\
  124 ∉ fname h.
Proof.
  destruct h; (split_and!; [done|by intros c [= <-]|by apply bal_lit|by apply lit_no_bar]).
Qed.

(** A part without bars is printed bare. *)
Lemma bare_part c e :
  and_part e -> 124 ∉ e -> tryParseRequestCondition e = Ret (Some c) ->
  and_part e /\ reads_as_part c (wrap_or e).
Proof. intros He Hn Hp. unfold wrap_or. rewrite no_bar by done. done. Qed.

Lemma range_part f z s e :
  f ∈ TIME_FUNCS -> plain z -> is_numeric s = true -> is_numeric e = true ->
  let t := range_text f z s e in
  and_part t /\ reads_as_part (CTime (TC f z MATCH_RANGE [] s e)) (wrap_or t).
Proof.
  intros Hf Hz Hs He t. destruct (time_head_unit f Hf) as (Hne & Hh & Hb & _).
  pose proof Hz as [_ Hzt].
  assert (Hbal : bal t) by (unfold t, range_text; auto 20 with baldb).
  assert (Htr : trimmed t).
  { apply trimmed_app; [done|done|done|]. intros c Hc. apply (last_numeric e); [done|].
    rewrite !last_app in Hc. destruct (last e) eqn:El; [done|]. apply last_None in El.
    by apply numeric_units in He as [_ ?]. }
  assert (Hor : includes_sub (js " || ") t = true).
  { unfold t, range_text. rewrite !(app_assoc f), !(app_assoc (f ++ _)), !(app_assoc ((f ++ _) ++ _)).
    apply includes_middle. }
  split; [by split_and!; [| |destruct f]|]. unfold wrap_or. rewrite Hor.
  split.
  - change (js "(" ++ t ++ js ")") with (40 :: t ++ [41]).
    split_and!; [by apply bal_parens|by apply (trimmed_ends 40 t 41)|done].
  - unfold tryParseRequestCondition, t. by destruct (parse_range f z s e Hf Hz Hs He) as [_ ->].
Qed.

Lemma time_part f z m o v :
  f ∈ TIME_FUNCS -> plain z -> (m, o) ∈ time_ops -> is_numeric v = true ->
  let t := f ++ arg z ++ js " " ++ o ++ js " " ++ v in and_part t /\ 124 ∉ t.
Proof.
  intros Hf Hz Hm Hv t. destruct (time_head_unit f Hf) as (Hne & Hh & Hb & Hn).
  pose proof Hz as [_ Hzt].
  assert (Ho : bal o /\ 124 ∉ o).
  { unfold time_ops in Hm. repeat (apply elem_of_cons in Hm as [[= _ ->]|Hm];
      [split; [by apply bal_lit|by apply lit_no_bar]|]). by apply elem_of_nil in Hm. }
  destruct Ho. split; [split_and!|]; [unfold t; auto 20 with baldb| |by destruct f|unfold t; auto 20 with baldb].
  apply trimmed_app; [done|done|done|]. intros c Hc. apply (last_numeric v); [done|].
  rewrite !last_app in Hc. destruct (last v) eqn:El; [done|]. apply last_None in El.
  by apply numeric_units in Hv as [_ ?].
Qed.

Lemma literal_part v :
  text v -> let l := buildExprLiteral MATCH_EQ v in
  bal l /\ (124 ∉ l) /\ forall c, last l = Some c -> is_ws c = false.
Proof.
  intros Hv. pose proof Hv as [Ht Hu]. unfold buildExprLiteral.
  change (bool_decide (MATCH_EQ = MATCH_CONTAINS)) with false. cbn iota. rewrite trim_id by done.
  assert (Hb : bal v /\ (124 ∉ v) /\ forall c, last v = Some c -> is_ws c = false).
  { split_and!; [by apply bal_plain|by apply plain_no_bar|by destruct Ht]. }
  repeat case_test; try done. split_and!; [by apply bal_quote|by apply no_bar_quote|].
  rewrite quote_text, app_assoc, last_app by done. by intros c [= <-].
Qed.

Lemma ph_part h p r :
  plain p -> bal r -> 124 ∉ r -> r <> [] -> (forall c, last r = Some c -> is_ws c = false) ->
  and_part (fname h ++ arg p ++ r) /\ 124 ∉ (fname h ++ arg p ++ r).
Proof.
  intros Hp Hb Hn Hne Hl. destruct (fname_unit h) as (Hfn & Hh & Hfb & Hfn').
  pose proof Hp as [_ Hpt]. split; [split_and!|]; [auto 20 with baldb| |by destruct h|auto 20 with baldb].
  apply trimmed_app; [done| |done|].
  - done.
  - intros c Hc. apply Hl. rewrite last_app in Hc. by destruct (last r) eqn:El; [|apply last_None in El].
Qed.

Lemma has_part p v :
  plain p -> text v ->
  let t := js "has(" ++ fname true ++ arg p ++ js ", " ++ quote v ++ js ")" in
  and_part t /\ 124 ∉ t.
Proof.
  intros Hp Hv t. pose proof Hp as [_ Hpt].
  assert (E : t = js "has" ++ (40 :: (fname true ++ arg p ++ js ", " ++ quote v) ++ [41])).
  { unfold t. change (js "has(") with (js "has" ++ [40]). rewrite <- ?app_assoc. cbn [app].
    rewrite <- ?app_assoc. reflexivity. }
  destruct (fname_unit true) as (_ & _ & Hfb & Hfn). split; [split_and!|].
  - rewrite E. apply bal_app; [by apply bal_lit|]. apply bal_parens. auto 20 with baldb.
  - rewrite E, app_comm_cons, app_assoc. by apply (trimmed_ends 104).
  - done.
  - unfold t. auto 20 with baldb.
Qed.

Lemma built_part c :
  good_condition c -> one_conjunct c ->
  and_part (buildRequestConditionExpr c) /\
  reads_as_part c (wrap_or (buildRequestConditionExpr c)).
Proof.
  intros Hg Ho. pose proof (condition_roundtrip c Hg) as Hrt. revert Hg Ho Hrt.
  destruct c as [[f z m v rs re]|[h p m v]]; unfold good_condition, good_time, good_param_header, one_conjunct;
    cbn [timeFunc timezone t_mode t_value rangeStart rangeEnd path ph_mode ph_value ph_header].
  - intros (Hf & Hz & [(-> & -> & Hs & He)|(Hm & Hv & -> & ->)]) _ Hrt;
      cbn [buildRequestConditionExpr] in *.
    + rewrite build_range by done. by apply range_part.
    + destruct (modes_ops m time_ops Hm) as [o Ho]. erewrite build_time in Hrt |- * by done.
      destruct (time_part f z m o v) as [? ?]; try done. by apply bare_part.
  - intros (Hp & [(-> & ->)|[(-> & Hv)|[(-> & Hv)|(-> & Hm & Hv)]]]) Ho Hrt.
    + rewrite build_exists in Hrt |- * by done.
      destruct (ph_part h p (if h then jq " != ''" else js " != nil")) as [? ?]; try done;
        [by destruct h; apply bal_lit|by destruct h; apply lit_no_bar|by destruct h
        |destruct h; by intros c [= <-]|by apply bare_part].
    + destruct Ho as [->|Ho].
      2: { exfalso. repeat (apply elem_of_cons in Ho as [Ho|Ho]; [done|]). by apply elem_of_nil in Ho. }
      rewrite build_contains in Hrt |- * by (done || by destruct Hv).
      destruct (has_part p v) as [? ?]; try done. by apply bare_part.
    + rewrite build_eq in Hrt |- * by done. destruct (literal_part v Hv) as (Hb & Hn & Hl).
      destruct (literal_roundtrip v Hv) as (Hne & _).
      destruct (ph_part h p (js " == " ++ buildExprLiteral MATCH_EQ v)) as [? ?]; try done;
        [by auto with baldb|by auto with baldb| |by apply bare_part].
      intros c Hc. apply Hl. rewrite last_app in Hc.
      by destruct (last (buildExprLiteral MATCH_EQ v)) eqn:El; [|apply last_None in El].
    + exfalso. destruct Ho as [?|Ho]; [done|].
      repeat (apply elem_of_cons in Ho as [->|Ho];
        [repeat (apply elem_of_cons in Hm as [Hm|Hm]; [done|]); by apply elem_of_nil in Hm|]).
      by apply elem_of_nil in Ho.
Qed.

(** ** Rule groups *)

Definition good_group (g : RequestRuleGroup) : Prop :=
  conditions g <> [] /\
  Forall (fun c => good_condition c /\ one_conjunct c) (conditions g) /\
  is_numeric (multiplier g) = true.

Lemma truthy_parts cs :
  Forall (fun c => good_condition c /\ one_conjunct c) cs ->
  List.filter truthy_str (List.map buildRequestConditionExpr cs) = List.map buildRequestConditionExpr cs.
Proof.
  intros H. apply filter_all, Forall_forall. intros e He.
  rewrite list_elem_of_In in He. apply in_map_iff in He as (c & <- & Hc).
  rewrite Forall_forall in H. apply list_elem_of_In, H in Hc as [Hg Ho].
  destruct (built_part c Hg Ho) as [(_ & _ & Hne) _]. by destruct (buildRequestConditionExpr c).
Qed.

(** The texts of the conditions of a group, as the printer joins them. *)
Definition part_texts (cs : list RequestCondition) : list jstr :=
  match cs with
  | [c] => [buildRequestConditionExpr c]
  | _ => List.map (fun c => wrap_or (buildRequestConditionExpr c)) cs
  end.

Lemma build_group_text g :
  good_group g ->
  buildRuleGroupFactor g =
  factor_text (join (js " && ") (part_texts (conditions g))) (multiplier g).
Proof.
  intros (Hne & Hc & Hm). unfold buildRuleGroupFactor.
  destruct (numeric_text _ Hm) as [_ ->]. rewrite Hm. cbn [negb]. rewrite truthy_parts by done.
  destruct (conditions g) as [|c [|c' cs]]; [done|done|]. cbn [List.map part_texts].
  unfold wrap_or. by rewrite List.map_map.
Qed.

Lemma part_texts_read cs :
  cs <> [] -> Forall (fun c => good_condition c /\ one_conjunct c) cs ->
  part_texts cs <> [] /\ Forall2 reads_as_part cs (part_texts cs).
Proof.
  intros Hne H.
  assert (Hmap : Forall2 reads_as_part cs (List.map (fun c => wrap_or (buildRequestConditionExpr c)) cs)).
  { clear Hne. induction H as [|c cs [Hg Ho] _ IH]; constructor; [|done]. by apply built_part. }
  destruct cs as [|c [|c' cs]]; [done| |done]. split; [done|].
  apply Forall_cons in H as [[Hg Ho] _]. constructor; [|constructor].
  split; [by destruct (built_part c Hg Ho) as [? _]|by apply condition_roundtrip].
Qed.

Lemma traverse_parts cs es :
  Forall2 reads_as_part cs es ->
  traverse (fun ap => tryParseRequestCondition (trim ap)) es = Ret (Some cs).
Proof.
  induction 1 as [|c e cs es [He Hp] _ IH]; [done|]. cbn [traverse].
  apply and_part_facts in He as (_ & _ & _ & -> & _). rewrite Hp. cbn.
  unfold mbind in IH. by rewrite IH.
Qed.

Lemma reads_and_part cs es : Forall2 reads_as_part cs es -> Forall and_part es.
Proof. induction 1 as [|c e cs es [He _] _ IH]; by constructor. Qed.

Lemma group_roundtrip g :
  good_group g -> tryParseRuleGroupFactor (buildRuleGroupFactor g) = Ret (Some g).
Proof.
  intros Hg. rewrite build_group_text by done. destruct Hg as (Hne & Hc & Hm).
  destruct (part_texts_read _ Hne Hc) as [Hpn Hr].
  assert (Hj : join (js " && ") (part_texts (conditions g)) <> []).
  { pose proof (reads_and_part _ _ Hr) as Ha. destruct Ha as [|e es (_ & _ & He) _]; [done|].
    cbn [join]. destruct es; [done|]. by destruct e. }
  destruct (factor_match _ _ Hj Hm) as [b Hb]. unfold tryParseRuleGroupFactor. rewrite Hb.
  read_groups. rewrite split_and_join by (done || by eapply reads_and_part).
  rewrite (traverse_parts _ _ Hr). cbn. destruct g as [[|c cs] m]; [done|]. done.
Qed.

(** *** A printed group is parenthesised *)

Lemma outer_scan_level s t :
  level 0 s = Some 0%Z -> t <> [] -> outer_scan 1 (s ++ t) = outer_scan 1 t.
Proof.
  intros Hl Ht.
  assert (H : forall d d', (0 <= d)%Z -> level d s = Some d' ->
            outer_scan (d + 1) (s ++ t) = outer_scan (d' + 1) t); [|by apply (H 0%Z 0%Z)].
  clear Hl. induction s as [|c s IH]; intros d d' Hd Hs; cbn [level app] in *; [by simplify_eq|].
  assert (Hp : paren_depth c (d + 1) = (paren_depth c d + 1)%Z).
  { unfold paren_depth. repeat case_test; lia. }
  cbn [outer_scan]. rewrite Hp. destruct (Z.ltb_spec (paren_depth c d) 0); [done|].
  rewrite (proj2 (Z.eqb_neq _ _)) by lia. cbn [andb]. by apply IH.
Qed.

Lemma bal_join es : Forall and_part es ->
  forall d, (0 <= d)%Z -> level d (join (js " && ") es) = Some d.
Proof.
  induction 1 as [|e es ([Hl _] & _) _ IH]; intros d Hd; [done|]. cbn [join]. destruct es as [|e' es].
  - by apply Hl.
  - rewrite level_app, Hl by done. cbn [mbind option_bind]. rewrite level_app.
    change (level d (js " && ")) with
      (if (d <? 0)%Z then None else if (d <? 0)%Z then None else if (d <? 0)%Z then None
       else if (d <? 0)%Z then None else Some d).
    rewrite (proj2 (Z.ltb_ge d 0)) by done. cbn [mbind option_bind]. by apply IH.
Qed.

Lemma factor_full c m :
  level 0 c = Some 0%Z -> is_numeric m = true -> hasFullOuterParens (factor_text c m) = true.
Proof.
  intros Hc Hm. unfold hasFullOuterParens, factor_text.
  assert (E : js "(" ++ c ++ js " ? " ++ m ++ js " : 1)" =
              40 :: c ++ (js " ? " ++ m ++ js " : 1") ++ [41]).
  { rewrite <- !app_assoc. reflexivity. }
  rewrite E. apply andb_true_iff. split; [apply andb_true_iff; split; [done|]|].
  - unfold ends_with. rewrite app_comm_cons, !app_assoc, reverse_app. done.
  - cbn [outer_scan]. change (paren_depth 40 0) with 1%Z. cbn [Z.eqb andb].
    rewrite outer_scan_level; [|done|by destruct (js " ? " ++ m ++ js " : 1")].
    assert (Hb : bal (js " ? " ++ m ++ js " : 1")) by auto with baldb.
    rewrite outer_scan_level; [done|by apply Hb|done].
Qed.

Lemma group_full g : good_group g -> hasFullOuterParens (buildRuleGroupFactor g) = true.
Proof.
  intros Hg. rewrite build_group_text by done. destruct Hg as (Hne & Hc & Hm).
  apply factor_full; [|done]. destruct (part_texts_read _ Hne Hc) as [_ Hr].
  by apply bal_join; [eapply reads_and_part|].
Qed.

Lemma traverse_groups gs :
  Forall good_group gs ->
  traverse tryParseRuleGroupFactor (List.map buildRuleGroupFactor gs) = Ret (Some gs).
Proof.
  induction 1 as [|g gs Hg _ IH]; [done|]. cbn [List.map traverse].
  rewrite group_roundtrip by done. cbn. unfold mbind in IH. by rewrite IH.
Qed.

Lemma good_groups_roundtrip gs :
  Forall good_group gs ->
  tryParseRequestRuleExpr (buildRequestRuleExpr gs) = Ret (Some gs).
Proof.
  intros Hgs. unfold buildRequestRuleExpr.
  assert (Hfull : Forall (fun p => hasFullOuterParens p = true) (List.map buildRuleGroupFactor gs)).
  { apply Forall_forall. intros p Hp. rewrite list_elem_of_In in Hp.
    apply in_map_iff in Hp as (g & <- & Hg). rewrite Forall_forall in Hgs.
    by apply group_full, Hgs, list_elem_of_In. }
  rewrite filter_all by (eapply Forall_impl; [exact Hfull|apply full_parens_truthy]).
  destruct gs as [|g gs]; [done|].
  assert (Hne : List.map buildRuleGroupFactor (g :: gs) <> []) by done.
  unfold tryParseRequestRuleExpr.
  destruct (join_parens_trim _ Hne Hfull) as [-> ->]. cbn [negb].
  rewrite split_multiply_join by done. by apply traverse_groups.
Qed.

(** ** What the editor can hold *)

(** The fields a condition uses in its mode, trimmed, and nothing in the others:
    a change of the mode in the editor leaves the texts of the other modes. *)
Definition used_fields (c : RequestCondition) : RequestCondition :=
  match c with
  | CTime (TC f z m v rs re) =>
      CTime (if m =?= MATCH_RANGE then TC f z m [] (trim rs) (trim re) else TC f z m (trim v) [] [])
  | CParamHeader (PH h p m v) => CParamHeader (PH h (trim p) m (if m =?= MATCH_EXISTS then [] else trim v))
  end.

Definition used_group (g : RequestRuleGroup) : RequestRuleGroup :=
  Group (List.map used_fields (conditions g)) (trim (multiplier g)).

Definition editor_condition (c : RequestCondition) : Prop :=
  match c with
  | CTime c =>
      timeFunc c ∈ TIME_FUNCS /\ plain (timezone c) /\
      ((t_mode c = MATCH_RANGE /\
        is_numeric (trim (rangeStart c)) = true /\ is_numeric (trim (rangeEnd c)) = true) \/
       (t_mode c ∈ [MATCH_EQ; MATCH_GTE; MATCH_LT] /\ is_numeric (trim (t_value c)) = true))
  | CParamHeader c =>
      plain (trim (path c)) /\
      (ph_mode c = MATCH_EXISTS \/
       (ph_mode c = MATCH_EQ /\ text (trim (ph_value c))) \/
       (ph_header c = true /\ ph_mode c = MATCH_CONTAINS /\ text (trim (ph_value c))))
  end.

Definition editor_group (g : RequestRuleGroup) : Prop :=
  conditions g <> [] /\ Forall editor_condition (conditions g) /\
  is_numeric (trim (multiplier g)) = true.

Lemma build_used c : buildRequestConditionExpr (used_fields c) = buildRequestConditionExpr c.
Proof.
  destruct c as [[f z m v rs re]|[h p m v]]; cbn [used_fields].
  - cbn [buildRequestConditionExpr].
    destruct (decide (m = MATCH_RANGE)) as [->|Hm].
    + rewrite (bool_decide_true (MATCH_RANGE = MATCH_RANGE)) by done. unfold buildTimeConditionExpr.
      cbn -[trim is_numeric quote truthy_str]. by rewrite !trim_idemp.
    + rewrite (bool_decide_false (m = MATCH_RANGE)) by done. unfold buildTimeConditionExpr.
      cbn -[trim is_numeric quote truthy_str pick_mode str_or].
      set (n := pick_mode _ _ _).
      assert (Hn : n <> MATCH_RANGE) by (unfold n, pick_mode; case_test; [done|discriminate]).
      rewrite (bool_decide_false (n = MATCH_RANGE)) by done. by rewrite trim_idemp.
  - unfold buildRequestConditionExpr. cbn -[trim is_numeric quote truthy_str pick_mode str_or].
    assert (Ht : forall q, trim (str_or (Some q) []) = trim q) by (by intros []).
    rewrite !Ht, trim_idemp. unfold buildExprLiteral.
    destruct (decide (m = MATCH_EXISTS)) as [->|Hm].
    + by destruct h.
    + rewrite (bool_decide_false (m = MATCH_EXISTS)) by done. by rewrite !trim_idemp.
Qed.

Lemma build_used_groups gs :
  buildRequestRuleExpr (List.map used_group gs) = buildRequestRuleExpr gs.
Proof.
  unfold buildRequestRuleExpr. do 2 f_equal. rewrite List.map_map. apply map_ext. intros g.
  unfold buildRuleGroupFactor, used_group. cbn [multiplier conditions].
  rewrite trim_idemp, List.map_map.
  by rewrite (map_ext (fun c => buildRequestConditionExpr (used_fields c)) _ build_used).
Qed.

Lemma editor_condition_good c :
  editor_condition c -> good_condition (used_fields c) /\ one_conjunct (used_fields c).
Proof.
  destruct c as [[f z m v rs re]|[h p m v]];
    cbn [editor_condition used_fields timeFunc timezone t_mode t_value rangeStart rangeEnd path
         ph_mode ph_value ph_header].
  - intros (Hf & Hz & [(-> & Hs & He)|(Hm & Hv)]).
    + rewrite bool_decide_true by done. split; [|done]. split_and!; try done. by left.
    + rewrite bool_decide_false
        by (intros ->; repeat (apply elem_of_cons in Hm as [Hm|Hm]; [done|]); by apply elem_of_nil in Hm).
      split; [|done]. split_and!; try done. by right.
  - intros (Hp & [->|[[-> Hv]|(-> & -> & Hv)]]).
    + rewrite bool_decide_true by done. split; [split; [done|by left]|]. right. apply elem_of_cons. by left.
    + rewrite bool_decide_false by done. split; [split; [done|right; right; by left]|].
      right. apply elem_of_cons. right. apply elem_of_cons. by left.
    + rewrite bool_decide_false by done. split; [split; [done|right; by left]|]. by left.
Qed.

Lemma editor_group_good g : editor_group g -> good_group (used_group g).
Proof.
  intros (Hne & Hc & Hm). unfold used_group.
  split; [|split; [|done]]; cbn [conditions]; [by destruct (conditions g)|].
  rewrite Forall_forall in Hc. apply Forall_forall. intros c Hin.
  rewrite list_elem_of_In in Hin. apply in_map_iff in Hin as (c' & <- & Hin).
  by apply editor_condition_good, Hc, list_elem_of_In.
Qed.


Lemma plain_check s :
  forallb plain_unit s && (trim s =?= s) && truthy_str s = true -> plain s.
Proof.
  intros H. prop_tests. split; [by destruct s|]. split; [rewrite <- H1; apply trim_trimmed|].
  by apply forallb_Forall.
Qed.


(** The exceptions.  A comparison of a parameter with a number is printed
    as two conjuncts, the first of which tests that the parameter exists; the
    group parser cuts them apart and rejects the second, so the printed rule
    is not read back, although each printed condition on its own is. *)
Theorem compare_rule_not_read_back :
  let c := CParamHeader (PH false (js "n") MATCH_GT (js "5")) in
  tryParseRequestCondition (buildRequestConditionExpr c) = Ret (Some c) /\
  tryParseRequestRuleExpr (buildRequestRuleExpr [Group [c] (js "2")]) = Ret None.
Proof. split; vm_compute; reflexivity. Qed.

(** The parser does not contain its own errors: a well-shaped text whose
    string literal is not JSON makes it throw instead of returning null. *)
Theorem invalid_escape_throws :
  tryParseRequestRuleExpr (jq "(has(header('a'), '\q') ? 2 : 1)") = Throws.
Proof. vm_compute. reflexivity. Qed.
