(* ===== verification/TierExpr.v ===== *)
(** * The visual editor of tiered prices

    Models [features/pricing/lib/tier-expr.ts]: the tiers the editor shows, the
    expression they generate and the parser that turns an expression back into
    tiers.  A tier is an object of the source (it may carry any field), so it
    is a [jsobj]; a configuration is its list of tiers.  The local evaluator
    [evalExprLocally] compiles the expression with [new Function] and is not
    modelled. *)

From S2P Require Import Prelude.
From S2P Require Import JsString.
From S2P Require Import JsNumber.
From S2P Require Import JsDecimal.
From S2P Require Import JsRegex.
From S2P Require Import JsValue.
From S2P Require Import BillingExpr.

Local Open Scope N_scope.

(** ** Tiers *)

Definition CACHE_MODE_TIMED : jstr := js "timed".
Definition CACHE_MODE_GENERIC : jstr := js "generic".

Definition tier_get (f : jstr) (tier : jsobj) : jsval := default VUndef (obj_get f tier).

(** [Number(v) || 0]. *)
Definition cost_of (v : jsval) : num := num_or (number_of_val v) num_zero.

Definition getTierCacheMode (tier : option jsobj) : jstr :=
  let get f := match tier with Some t => tier_get f t | None => VUndef end in
  let mode := as_string (get (js "cache_mode")) in
  if mode =?= Some CACHE_MODE_TIMED then CACHE_MODE_TIMED
  else if mode =?= Some CACHE_MODE_GENERIC then CACHE_MODE_GENERIC
  else if num_gtb (number_of_val (get (js "cache_create_1h_unit_cost"))) num_zero
  then CACHE_MODE_TIMED else CACHE_MODE_GENERIC.

Definition extra_fields : list jstr :=
  [js "cache_read_unit_cost"; js "cache_create_unit_cost"; js "cache_create_1h_unit_cost";
   js "image_unit_cost"; js "image_output_unit_cost";
   js "audio_input_unit_cost"; js "audio_output_unit_cost"].

(** The object literal: defaults, the given fields, the extra costs. *)
Definition normalizeVisualTier (tier : jsobj) : jsobj :=
  let label := tier_get (js "label") tier in
  let conditions := tier_get (js "conditions") tier in
  let defaults :=
    [(js "label", if is_nullish label then VStr [] else label);
     (js "input_unit_cost", VNum (cost_of (tier_get (js "input_unit_cost") tier)));
     (js "output_unit_cost", VNum (cost_of (tier_get (js "output_unit_cost") tier)));
     (js "cache_mode", VStr (getTierCacheMode (Some tier)));
     (js "conditions", match conditions with VArr _ => conditions | _ => VArr [] end)] in
  obj_merge (obj_merge defaults tier)
    (List.map (fun f => (f, VNum (cost_of (tier_get f tier)))) extra_fields).

Definition createDefaultVisualConfig : list jsobj :=
  [normalizeVisualTier
     [(js "conditions", VArr []); (js "input_unit_cost", VNum num_zero);
      (js "output_unit_cost", VNum num_zero); (js "label", VStr (js "base"));
      (js "cache_mode", VStr CACHE_MODE_GENERIC)]].

Definition normalizeVisualConfig (config : option (list jsobj)) : list jsobj :=
  match config with
  | None | Some [] => createDefaultVisualConfig
  | Some tiers => List.map normalizeVisualTier tiers
  end.

(** ** Printing *)

(** A condition is printed when its three fields are filled in. *)
Definition condition_filled (c : jsval) : bool :=
  truthy (get_prop (js "var") c) && truthy (get_prop (js "op") c) &&
  negb (is_nullish (get_prop (js "value") c)) &&
  negb (bool_decide (as_string (get_prop (js "value") c) = Some [])).

Definition buildConditionStr (conditions : jsval) : jstr :=
  match conditions with
  | VArr cs =>
      join (js " && ")
        (List.map
           (fun c => string_of_val (get_prop (js "var") c) ++ js " " ++
                     string_of_val (get_prop (js "op") c) ++ js " " ++
                     string_of_val (get_prop (js "value") c))
           (List.filter condition_filled cs))
  | _ => []
  end.

(** [`${v} * ${x}`]. *)
Definition term (v : jstr) (x : num) : jstr := v ++ js " * " ++ string_of_num x.

Definition buildTierBodyExpr (tier : jsobj) : jstr :=
  let ic := cost_of (tier_get (js "input_unit_cost") tier) in
  let oc := cost_of (tier_get (js "output_unit_cost") tier) in
  join (js " + ")
    (term (js "p") ic :: term (js "c") oc ::
     omap (fun cv =>
             let v := cost_of (tier_get cv.1 tier) in
             if num_eqb v num_zero then None else Some (term cv.2 v))
       BILLING_CACHE_VAR_MAP).

(** [tier.label || d]. *)
Definition label_or (d : jstr) (tier : jsobj) : jstr :=
  let l := tier_get (js "label") tier in if truthy l then string_of_val l else d.

Definition tier_call (d : jstr) (tier : jsobj) : jstr :=
  jq "tier('" ++ label_or d tier ++ jq "', " ++ buildTierBodyExpr tier ++ js ")".

Definition NO_TIERS : jstr := js "p * 0 + c * 0".

Definition generateExprFromVisualConfig (config : option (list jsobj)) : jstr :=
  match config with
  | None | Some [] => NO_TIERS
  | Some [tier] =>
      let body := tier_call (js "default") tier in
      let cond := buildConditionStr (tier_get (js "conditions") tier) in
      if truthy_str cond then cond ++ js " ? " ++ body ++ js " : " ++ NO_TIERS else body
  | Some tiers =>
      join (js " : ")
        (imap
           (fun i tier =>
              let body := tier_call (js "tier_" ++ dec_of_N (N.of_nat i + 1)) tier in
              let cond := buildConditionStr (tier_get (js "conditions") tier) in
              if (i <? length tiers - 1)%nat && truthy_str cond
              then cond ++ js " ? " ++ body else body)
           tiers)
  end.

(** ** Parsing *)

Definition visual_version_regex : regex :=
  seq_of [RBegin; RLit (js "v"); digits_plus; RLit (js ":"); RGroup 1 (RStar any_unit); REnd].

(** The optional term of an extra variable, captured as group [n]. *)
Definition opt_term (n : nat) (v : jstr) : regex :=
  ROpt (seq_of [ws_star; RLit (js "+"); ws_star; RLit v; ws_star; RLit (js "*"); ws_star;
                RGroup n (RPlus (RClass num_unit))]).

Fixpoint opt_terms (n : nat) (vs : list jstr) : list regex :=
  match vs with [] => [] | v :: vs' => opt_term n v :: opt_terms (S n) vs' end.

(** The body of a tier; its captures are numbered from [n]. *)
Definition body_pattern (n : nat) : list regex :=
  [RLit (js "p"); ws_star; RLit (js "*"); ws_star; RGroup n (RPlus (RClass num_unit));
   ws_star; RLit (js "+"); ws_star;
   RLit (js "c"); ws_star; RLit (js "*"); ws_star; RGroup (S n) (RPlus (RClass num_unit))]
  ++ opt_terms (S (S n)) (List.map snd BILLING_CACHE_VAR_MAP).

Definition label_pattern (n : nat) : list regex :=
  [RLit (jq "tier('"); RGroup n (RStar (RClass (fun c => negb (c =? 34))));
   RLit (jq "',"); ws_star].

Definition singleRe : regex :=
  seq_of (RBegin :: label_pattern 1 ++ body_pattern 2 ++ [RLit (js ")"); REnd]).

Definition tierRe : regex :=
  seq_of
    (ROpt (seq_of [RGroup 1 (RSeq cond_atom (RStar (RSeq and_sep cond_atom)));
                   ws_star; RLit (js "?"); ws_star]) ::
     label_pattern 2 ++ body_pattern 3 ++ [RLit (js ")")]).

(** The tier object of a match whose label is capture [n]. *)
Definition matched_tier (n : nat) (conditions : list jsval) (m : mstate) : jsobj :=
  let base :=
    [(js "conditions", VArr conditions);
     (js "input_unit_cost", VNum (number_of_string (group_text (n + 1) m)));
     (js "output_unit_cost", VNum (number_of_string (group_text (n + 2) m)));
     (js "label", VStr (group_text n m))] in
  fold_left
    (fun tier icv =>
       match cap (n + 3 + icv.1) m with
       | Some val => obj_set icv.2 (VNum (number_of_string val)) tier
       | None => tier
       end)
    (imap pair (List.map fst BILLING_CACHE_VAR_MAP)) base.

Definition visual_condition (c : TierCondition) : jsval :=
  VObj [(js "var", VStr (var c)); (js "op", VStr (op c));
        (js "value", VNum (value c))].

Definition matched_conditions (m : mstate) : list jsval :=
  let condStr := group_text 1 m in
  if truthy_str condStr
  then List.map visual_condition (omap parse_tier_condition (split_re and_sep condStr))
  else [].

(** [s.replace(/\s+/g, '')]. *)
Definition strip_ws (s : jstr) : jstr := replace_all (RPlus ws_class) [] s.

Definition visual_body (exprStr : jstr) : jstr :=
  match re_match visual_version_regex exprStr with
  | Some m => group_text 1 m
  | None => exprStr
  end.

Definition tryParseVisualConfig (exprStr : option jstr) : option (list jsobj) :=
  match exprStr with
  | None | Some [] => None
  | Some e =>
      let body := visual_body e in
      match re_match singleRe body with
      | Some simple =>
          Some (normalizeVisualConfig (Some [normalizeVisualTier (matched_tier 1 [] simple)]))
      | None =>
          let tiers :=
            List.map (fun m => normalizeVisualTier (matched_tier 2 (matched_conditions m) m))
              (exec_all tierRe body) in
          match tiers with
          | [] => None
          | _ =>
              let cfg := normalizeVisualConfig (Some tiers) in
              if strip_ws (generateExprFromVisualConfig (Some cfg)) <?> strip_ws body
              then None else Some cfg
          end
      end
  end.

(** ** The estimator *)

Definition ESTIMATOR_VARS : list (jstr * jstr) :=
  [(js "cr", js "cacheReadTokens"); (js "cc", js "cacheCreateTokens");
   (js "cc1h", js "cacheCreate1hTokens"); (js "img", js "imageTokens");
   (js "img_o", js "imageOutputTokens"); (js "ai", js "audioInputTokens");
   (js "ao", js "audioOutputTokens")].

Definition exprUsesExtraVars (exprStr : jstr) : bool :=
  truthy_str exprStr &&
  re_test (seq_of [RWordB; RGroup 1 (alt_of (List.map (fun v => RLit v.1) ESTIMATOR_VARS)); RWordB])
    exprStr.

(** * Facts *)

(** ** The terms of a tier body *)

(** A printed cost: not empty, and made of the units of a numeric literal. *)
Definition literal (x : jstr) : Prop := x <> [] /\ Forall (fun c => num_unit c = true) x.

Lemma num_unit_not_ws c : num_unit c = true -> is_ws c = false.
Proof.
  unfold num_unit, one_of. intros [H|H]%orb_true_iff.
  - unfold is_digit in H. apply andb_true_iff in H as [H1%N.leb_le H2%N.leb_le].
    unfold is_ws. repeat (apply orb_false_iff; split); try (apply N.eqb_neq; lia).
    all: apply andb_false_iff; (left; apply N.leb_gt; lia) || (right; apply N.leb_gt; lia).
  - apply includes_true in H.
    repeat (apply elem_of_cons in H as [->|H]; [reflexivity|]). by apply elem_of_nil in H.
Qed.

Lemma literal_stops x r : literal x -> stops is_ws (x ++ r).
Proof. intros [Hne Hx]. destruct Hx as [|c x Hc _]; [done|]. by apply num_unit_not_ws. Qed.

(** A variable: not empty, not starting with white space. *)
Definition name_ok (v : jstr) : bool := match v with c :: _ => negb (is_ws c) | [] => false end.

Lemma name_stops v r : name_ok v = true -> stops is_ws (v ++ r).
Proof. destruct v; [done|]. by intros ?%negb_true_iff. Qed.

Ltac side_stop := first [done | by apply name_stops | by apply literal_stops].

Definition printed (v x : jstr) : jstr := js " + " ++ v ++ js " * " ++ x.

Lemma term_present n v x r cs K :
  name_ok v = true -> literal x -> stops num_unit r ->
  goes (RSeq (opt_term n v) K) (printed v x ++ r) cs K r ((n, x) :: cs).
Proof.
  intros Hv Hx Hr. unfold opt_term, printed.
  rewrite <- !app_assoc. change (js " + " ++ ?t) with (32 :: js "+" ++ 32 :: t).
  change (js " * " ++ ?t) with (32 :: js "*" ++ 32 :: t).
  eapply goes_trans; [apply goes_opt|]. cbn [seq_of]. follow side_stop.
  destruct Hx as [Hne Hx]. by apply goes_group_plus.
Qed.

(** [v * ] cannot match where [v2 * ] is written. *)
Fixpoint clash (v v2 : jstr) : bool :=
  match v, v2 with
  | _, [] => false
  | [], y :: _ => negb (is_ws y) && negb (y =? 42)
  | x :: v', y :: v2' => if x =? y then clash v' v2' else true
  end.

Lemma clash_cases v v2 u :
  clash v v2 = true ->
  starts_with v (v2 ++ u) = false \/
  exists y z, v2 = v ++ y :: z /\ is_ws y = false /\ (y =? 42) = false.
Proof.
  revert v2. induction v as [|x v IH]; intros [|y v2] H; try done; cbn in H.
  - apply andb_true_iff in H as [H1%negb_true_iff H2%negb_true_iff]. right. by exists y, v2.
  - cbn. destruct (N.eqb_spec x y) as [->|]; [|by left].
    destruct (IH v2 H) as [?|(y' & z & -> & ? & ?)]; [by left|right]. by exists y', z.
Qed.

Definition term_regex (n : nat) (v : jstr) : regex :=
  seq_of [ws_star; RLit (js "+"); ws_star; RLit v; ws_star; RLit (js "*"); ws_star;
          RGroup n (RPlus (RClass num_unit))].

Ltac ws_side := first [done | by apply name_stops | solve [repeat constructor]].

Lemma term_absent_next n v v2 u b cs :
  name_ok v = true -> name_ok v2 = true -> clash v v2 = true ->
  matches (term_regex n v) (MState b (js " + " ++ v2 ++ u) cs) = [].
Proof.
  intros Hv Hv2 Hc. unfold term_regex. cbn [seq_of].
  change (js " + " ++ ?t) with ([32] ++ js "+" ++ [32] ++ t).
  change (js "+") with [43]. rewrite seq_ws by ws_side. rewrite seq_lit.
  destruct v as [|x v]; [done|]. apply negb_true_iff in Hv.
  rewrite seq_ws by ws_side.
  destruct (clash_cases _ _ u Hc) as [E|(y & z & -> & Hy & Hs)]; [by apply seq_lit_fail|].
  rewrite <- app_assoc, seq_lit. change (js "*") with [42].
  change ((y :: z) ++ u) with ([] ++ (y :: z) ++ u).
  rewrite seq_ws by ws_side. apply seq_lit_fail. cbn [starts_with after app].
  by rewrite N.eqb_sym, Hs.
Qed.

Lemma term_absent_end n v u b cs :
  matches (term_regex n v) (MState b (js ")" ++ u) cs) = [].
Proof.
  unfold term_regex. cbn [seq_of]. change (js ")" ++ u) with ([] ++ 41 :: u).
  change (js "+") with [43]. rewrite seq_ws by ws_side.
  by apply seq_lit_fail.
Qed.

(** The extra terms: a variable with the text of its cost, if printed. *)
Definition print_terms (l : list (jstr * option jstr)) : jstr :=
  concat (omap (fun vx => printed vx.1 <$> vx.2) l).

Fixpoint captures (n : nat) (l : list (jstr * option jstr)) (cs : list (nat * jstr))
  : list (nat * jstr) :=
  match l with
  | [] => cs
  | (_, Some x) :: l' => captures (S n) l' ((n, x) :: cs)
  | (_, None) :: l' => captures (S n) l' cs
  end.

(** Names in an order in which no earlier one matches in place of a later. *)
Fixpoint names_ok (vs : list jstr) : bool :=
  match vs with
  | [] => true
  | v :: vs' => name_ok v && forallb (clash v) vs' && names_ok vs'
  end.

Lemma print_terms_cases l :
  print_terms l = [] \/ exists v u, v ∈ List.map fst l /\ print_terms l = js " + " ++ v ++ u.
Proof.
  induction l as [|[v [x|]] l IH]; [by left| |].
  - right. exists v, (js " * " ++ x ++ print_terms l). split; [by left|].
    unfold print_terms. csimpl. unfold printed. by rewrite <- !app_assoc.
  - destruct IH as [?|(v' & u & ? & ?)]; [by left|right]. exists v', u. split; [by right|done].
Qed.

Lemma names_ok_elem vs v : names_ok vs = true -> v ∈ vs -> name_ok v = true.
Proof.
  induction vs as [|w vs IH]; intros Hok Hv; [by apply elem_of_nil in Hv|].
  cbn in Hok. apply andb_true_iff in Hok as [[Hw _]%andb_true_iff Hok].
  apply elem_of_cons in Hv as [->|Hv]; auto.
Qed.

Lemma print_terms_stops l : stops num_unit (print_terms l ++ js ")").
Proof. destruct (print_terms_cases l) as [->|(v & u & _ & ->)]; done. Qed.

Lemma terms_run n l cs K :
  names_ok (List.map fst l) = true ->
  Forall (fun vx => forall x, vx.2 = Some x -> literal x) l ->
  goes (seq_of (opt_terms n (List.map fst l) ++ [RLit (js ")"); K])) (print_terms l ++ js ")") cs
    (seq_of [RLit (js ")"); K]) (js ")") (captures n l cs).
Proof.
  revert n cs. induction l as [|[v o] l IH]; intros n cs Hok Hx; [apply goes_refl|].
  cbn in Hok. apply andb_true_iff in Hok as [[Hv Hc]%andb_true_iff Hok].
  apply Forall_cons in Hx as [Hx Hl]. cbn [List.map fst opt_terms app].
  assert (Hs : seq_of (opt_term n v :: opt_terms (S n) (List.map fst l) ++ [RLit (js ")"); K]) =
               RSeq (opt_term n v) (seq_of (opt_terms (S n) (List.map fst l) ++ [RLit (js ")"); K])))
    by (by destruct l).
  rewrite Hs. clear Hs. destruct o as [x|]; cbn [captures].
  - eapply goes_trans; [|by apply IH]. unfold print_terms. csimpl. rewrite <- app_assoc.
    apply term_present; [done|by apply Hx|apply print_terms_stops].
  - eapply goes_trans; [|by apply IH]. change (print_terms ((v, None) :: l)) with (print_terms l).
    apply goes_no_opt. intros b. fold (term_regex n v).
    destruct (print_terms_cases l) as [->|(v2 & u & Hv2 & ->)].
    + apply (term_absent_end n v []).
    + rewrite <- !app_assoc. apply term_absent_next; [done|by eapply names_ok_elem|].
      rewrite forallb_forall in Hc. by apply Hc, list_elem_of_In.
Qed.

(** The text of a tier without conditions. *)
Definition single_text (lab a b : jstr) (l : list (jstr * option jstr)) : jstr :=
  jq "tier('" ++ lab ++ jq "', " ++ (js "p * " ++ a ++ js " + c * " ++ b ++ print_terms l) ++ js ")".

Lemma single_run lab a b l :
  34 ∉ lab -> literal a -> literal b ->
  List.map fst l = List.map snd BILLING_CACHE_VAR_MAP ->
  Forall (fun vx => forall x, vx.2 = Some x -> literal x) l ->
  exists st, re_match singleRe (single_text lab a b l) = Some st /\
    caps st = captures 4 l [(3%nat, b); (2%nat, a); (1%nat, lab)].
Proof.
  intros Hlab Ha Hb Hn Hl. unfold singleRe, label_pattern, body_pattern. rewrite <- Hn.
  rewrite <- !app_assoc. cbn [app].
  rewrite !seq_of_cons by (done || by destruct (opt_terms _ _)).
  rewrite re_match_anchored. unfold start_state, single_text.
  match goal with |- context [matches ?r (MState [] ?s [])] =>
    assert (G : goes r s [] (seq_of [RLit (js ")"); REnd]) (js ")")
                  (captures 4 l [(3%nat, b); (2%nat, a); (1%nat, lab)])) end.
  { change (jq "', " ++ ?t) with (jq "'," ++ 32 :: t). follow side_stop.
    eapply goes_trans; [apply goes_group_star|].
    { done. }
    { apply Forall_forall. intros c Hc. apply negb_true_iff, N.eqb_neq. by intros ->. }
    rewrite <- !app_assoc.
    change (js "p * " ++ ?t) with (js "p" ++ 32 :: js "*" ++ 32 :: t).
    change (js " + c * " ++ ?t) with (32 :: js "+" ++ 32 :: js "c" ++ 32 :: js "*" ++ 32 :: t).
    follow side_stop. eapply goes_trans; [by apply goes_group_plus; try apply Ha|].
    follow side_stop.
    eapply goes_trans; [apply goes_group_plus; try apply Hb; apply print_terms_stops|].
    apply terms_run; [|done]. rewrite Hn. by vm_compute. }
  destruct (G []) as [b' L]. rewrite (leads_head _ _ _ _ L) by done.
  eexists. split; [reflexivity|done].
Qed.

(** ** The object of a match *)

Lemma captures_below k n l cs :
  (k < n)%nat -> cap_lookup k (captures n l cs) = cap_lookup k cs.
Proof.
  revert n cs. induction l as [|[v [x|]] l IH]; intros n cs Hk; cbn [captures]; [done| |].
  - rewrite IH by lia. cbn. by rewrite (proj2 (Nat.eqb_neq n k)) by lia.
  - apply IH. lia.
Qed.

Lemma captures_at n l cs i :
  (forall k, (n <= k)%nat -> cap_lookup k cs = None) ->
  cap_lookup (n + i) (captures n l cs) = vx ← l !! i; snd vx.
Proof.
  revert n cs i. induction l as [|[v o] l IH]; intros n cs i Hcs; [apply Hcs; lia|].
  destruct i as [|i]; cbn [lookup list_lookup].
  - rewrite Nat.add_0_r. destruct o as [x|]; cbn [captures].
    + rewrite captures_below by lia. cbn. by rewrite Nat.eqb_refl.
    + rewrite captures_below by lia. apply Hcs. lia.
  - replace (n + S i)%nat with (S n + i)%nat by lia. cbn [captures].
    destruct o as [x|]; apply IH; intros k Hk; [|apply Hcs; lia].
    cbn. rewrite (proj2 (Nat.eqb_neq n k)) by lia. apply Hcs. lia.
Qed.

Section Fields.
Context (m : mstate) (n : nat).

Definition add_field (tier : jsobj) (icv : nat * jstr) : jsobj :=
  match cap (n + icv.1) m with
  | Some val => obj_set icv.2 (VNum (number_of_string val)) tier
  | None => tier
  end.

Lemma add_field_NoDup fs o : NoDup (obj_keys o) -> NoDup (obj_keys (fold_left add_field fs o)).
Proof.
  revert o. induction fs as [|[i f] fs IH]; intros o Ho; cbn [fold_left]; [done|].
  apply IH. unfold add_field. cbn [fst snd]. case_match; [by apply obj_set_NoDup|done].
Qed.

Lemma add_field_other k fs o :
  k ∉ List.map snd fs -> obj_get k (fold_left add_field fs o) = obj_get k o.
Proof.
  revert o. induction fs as [|[i f] fs IH]; intros o Hk; cbn [fold_left]; [done|].
  cbn [List.map] in Hk. apply not_elem_of_cons in Hk as [Hk Hfs]. rewrite IH by done.
  unfold add_field. cbn [fst snd] in *. case_match; [|done]. by apply obj_get_set_ne.
Qed.

Lemma add_field_at k i fs o :
  NoDup (List.map snd fs) -> (i, k) ∈ fs -> obj_get k o = None ->
  obj_get k (fold_left add_field fs o) =
  (fun val => VNum (number_of_string val)) <$> cap (n + i) m.
Proof.
  revert o. induction fs as [|[j f] fs IH]; intros o Hnd Hin Ho; [by apply elem_of_nil in Hin|].
  cbn [List.map snd] in Hnd. apply NoDup_cons in Hnd as [Hf Hnd]. cbn [fold_left].
  apply elem_of_cons in Hin as [[= -> ->]|Hin].
  - rewrite add_field_other by done. unfold add_field. cbn [fst snd].
    destruct (cap (n + j) m); cbn; [apply obj_get_set_eq|done].
  - apply IH; [done..|]. unfold add_field. cbn [fst snd]. case_match; [|done].
    rewrite obj_get_set_ne; [done|]. intros ->. apply Hf.
    rewrite list_elem_of_In. apply in_map_iff. exists (i, f). by rewrite <- list_elem_of_In.
Qed.
End Fields.

(** The fields that carry prices. *)
Definition price_fields : list jstr :=
  js "input_unit_cost" :: js "output_unit_cost" :: extra_fields.

(** ** Normalization *)

Lemma cost_of_idemp v : cost_of (VNum (cost_of v)) = cost_of v.
Proof. unfold cost_of, num_or. cbn [number_of_val]. destruct (truthy_num (number_of_val v)) eqn:E; [by rewrite E|done]. Qed.

Lemma extra_NoDup (g : jstr -> jsval) : NoDup (obj_keys (List.map (fun f => (f, g f)) extra_fields)).
Proof.
  unfold obj_keys. rewrite map_map. cbn [fst]. rewrite map_id.
  apply (bool_decide_eq_true_1 _). by vm_compute.
Qed.

Lemma extra_get (g : jstr -> jsval) f :
  obj_get f (List.map (fun f => (f, g f)) extra_fields) =
  if bool_decide (f ∈ extra_fields) then Some (g f) else None.
Proof.
  induction extra_fields as [|h l IH]; [done|]. cbn [List.map obj_get]. rewrite IH.
  destruct (decide (f = h)) as [->|Hne].
  - rewrite bool_decide_true by done. rewrite bool_decide_true by (by left). done.
  - rewrite (bool_decide_false (f = h)) by done. apply (f_equal (fun b : bool => if b then _ else _)).
    apply bool_decide_ext. rewrite elem_of_cons. tauto.
Qed.

Lemma normalize_extra t f :
  f ∈ extra_fields -> tier_get f (normalizeVisualTier t) = VNum (cost_of (tier_get f t)).
Proof.
  intros Hf. unfold tier_get at 1, normalizeVisualTier. cbv zeta.
  rewrite obj_get_merge by apply extra_NoDup. rewrite extra_get, bool_decide_true by done. done.
Qed.

Lemma normalize_given t f v :
  f ∉ extra_fields -> NoDup (obj_keys t) -> obj_get f t = Some v ->
  obj_get f (normalizeVisualTier t) = Some v.
Proof.
  intros Hf Hnd Hv. unfold normalizeVisualTier. cbv zeta.
  rewrite obj_get_merge by apply extra_NoDup. rewrite extra_get, bool_decide_false by done.
  rewrite obj_get_merge by done. by rewrite Hv.
Qed.

Lemma merge_NoDup (a b : jsobj) : NoDup (obj_keys a) -> NoDup (obj_keys (obj_merge a b)).
Proof.
  unfold obj_merge. revert a. induction b as [|[k v] b IH]; intros a Ha; cbn [fold_left]; [done|].
  apply IH. by apply obj_set_NoDup.
Qed.

Lemma normalize_NoDup t : NoDup (obj_keys (normalizeVisualTier t)).
Proof.
  unfold normalizeVisualTier. cbv zeta. apply merge_NoDup, merge_NoDup.
  apply (bool_decide_eq_true_1 _). by vm_compute.
Qed.

(** ** One tier without conditions *)

Definition printable (x : num) : Prop :=
  literal (string_of_num x) /\ number_of_string (string_of_num x) = x.

(** A field whose cost is a finite double. *)
Definition priced (v : jsval) : Prop :=
  match v with VNum x => double x | _ => True end /\ is_finite (cost_of v) = true.

#[export] Instance priced_dec v : Decision (priced v).
Proof. unfold priced. destruct v; apply _. Defined.

Lemma number_of_val_double v : match v with VNum x => double x | _ => True end -> double (number_of_val v).
Proof. destruct v; cbn [number_of_val]; intros H; try done; [apply zero_double|auto with jsdb..]. Qed.

Lemma text_unit_num c : text_unit c = true -> num_unit c = true.
Proof.
  unfold text_unit, num_unit. destruct (is_digit c); [done|]. cbn [orb]. intros H.
  repeat (apply orb_true_iff in H as [H|H]); apply N.eqb_eq in H; subst; by vm_compute.
Qed.

(** Every finite price is printed as a literal that reads back as the price. *)
Lemma priced_printable v : priced v -> printable (cost_of v).
Proof.
  intros [Hv Hf]. assert (Hc : canonical (cost_of v)).
  { apply num_or_canonical; [by apply number_of_val_double|]. split_and!; [done| |done]. by exists 0. }
  split; [|by apply number_of_string_of_num].
  assert (Hd : double (cost_of v)) by (destruct (cost_of v); [done..|]; by destruct Hc as (? & ? & _)).
  destruct (string_of_num_units _ Hd Hf) as [Hne Hu]. split; [done|].
  eapply Forall_impl; [exact Hu|]. apply text_unit_num.
Qed.

Definition cost_text (tier : jsobj) (f : jstr) : option jstr :=
  let v := cost_of (tier_get f tier) in
  if num_eqb v num_zero then None else Some (string_of_num v).

Definition extra_terms (tier : jsobj) : list (jstr * option jstr) :=
  List.map (fun cv => (cv.2, cost_text tier cv.1)) BILLING_CACHE_VAR_MAP.

Lemma join_terms sep (a : jstr) l :
  join sep (a :: l) = a ++ concat (List.map (app sep) l).
Proof.
  revert a. induction l as [|b l IH]; intros a; [symmetry; apply app_nil_r|].
  change (join sep (a :: b :: l)) with (a ++ sep ++ join sep (b :: l)).
  cbn [List.map concat]. by rewrite IH, <- !app_assoc.
Qed.

#[local] Opaque js.

Lemma terms_text tier l :
  concat (List.map (app (js " + "))
    (omap (fun cv =>
             let v := cost_of (tier_get cv.1 tier) in
             if num_eqb v num_zero then None else Some (term cv.2 v)) l)) =
  print_terms (List.map (fun cv => (cv.2, cost_text tier cv.1)) l).
Proof.
  induction l as [|[f v] l IH]; [done|]. unfold print_terms, cost_text in *. csimpl.
  destruct (num_eqb _ _); [apply IH|]. csimpl. rewrite IH. unfold printed, term.
  by rewrite <- !app_assoc.
Qed.

#[local] Transparent js.

Lemma body_text tier :
  buildTierBodyExpr tier =
  js "p * " ++ string_of_num (cost_of (tier_get (js "input_unit_cost") tier)) ++
  js " + c * " ++ string_of_num (cost_of (tier_get (js "output_unit_cost") tier)) ++
  print_terms (extra_terms tier).
Proof.
  unfold buildTierBodyExpr. cbv zeta. rewrite join_terms. cbn [List.map concat].
  rewrite terms_text. fold (extra_terms tier). unfold term.
  change (js "p * ") with (js "p" ++ js " * "). change (js " + c * ") with (js " + " ++ js "c" ++ js " * ").
  by rewrite <- !app_assoc.
Qed.

Lemma generate_single tier :
  buildConditionStr (tier_get (js "conditions") tier) = [] ->
  generateExprFromVisualConfig (Some [tier]) =
  single_text (label_or (js "default") tier)
    (string_of_num (cost_of (tier_get (js "input_unit_cost") tier)))
    (string_of_num (cost_of (tier_get (js "output_unit_cost") tier)))
    (extra_terms tier).
Proof.
  intros Hc. cbn [generateExprFromVisualConfig]. rewrite Hc. cbn [truthy_str].
  unfold tier_call, single_text. by rewrite body_text.
Qed.

Lemma cost_zero v : num_eqb (cost_of v) num_zero = true -> cost_of v = num_zero.
Proof.
  unfold cost_of, num_or. destruct (number_of_val v) as [|[]|[] [|m]]; cbn; try done.
Qed.

Lemma visual_body_single lab a b l : visual_body (single_text lab a b l) = single_text lab a b l.
Proof.
  unfold visual_body, visual_version_regex. rewrite !seq_of_cons, re_match_anchored by done.
  by rewrite seq_lit_fail.
Qed.

(** The extra variables, with their positions. *)
Lemma extra_positions i f :
  (i, f) ∈ imap pair (List.map fst BILLING_CACHE_VAR_MAP) ->
  exists v, BILLING_CACHE_VAR_MAP !! i = Some (f, v).
Proof.
  intros Hin. apply elem_of_lookup_imap in Hin as (j & g & [= <- <-] & Hj).
  rewrite list_lookup_fmap in Hj. destruct (BILLING_CACHE_VAR_MAP !! i) as [[g' v]|]; [|done].
  cbn in Hj. exists v. by simplify_eq.
Qed.

Lemma matched_single tier st lab a b :
  caps st = captures 4 (extra_terms tier) [(3%nat, b); (2%nat, a); (1%nat, lab)] ->
  let t := matched_tier 1 [] st in
  NoDup (obj_keys t) /\
  obj_get (js "label") t = Some (VStr lab) /\
  obj_get (js "conditions") t = Some (VArr []) /\
  obj_get (js "input_unit_cost") t = Some (VNum (number_of_string a)) /\
  obj_get (js "output_unit_cost") t = Some (VNum (number_of_string b)) /\
  (forall f, f ∈ extra_fields ->
     tier_get f t = default VUndef ((fun x => VNum (number_of_string x)) <$> cost_text tier f)).
Proof.
  intros Hcs t.
  assert (Hcap : forall k, (k < 4)%nat ->
    cap k st = cap_lookup k [(3%nat, b); (2%nat, a); (1%nat, lab)]).
  { intros k Hk. unfold cap. rewrite Hcs. by apply captures_below. }
  set (base := [(js "conditions", VArr []);
                (js "input_unit_cost", VNum (number_of_string a));
                (js "output_unit_cost", VNum (number_of_string b));
                (js "label", VStr lab)]).
  assert (Ht : t = fold_left (add_field st 4) (imap pair (List.map fst BILLING_CACHE_VAR_MAP)) base).
  { unfold t, matched_tier, group_text. cbv zeta. cbn [Nat.add]. by rewrite !Hcap by lia. }
  rewrite Ht. clearbody t. clear Ht.
  assert (Hoth : forall k, k ∉ extra_fields ->
    obj_get k (fold_left (add_field st 4) (imap pair (List.map fst BILLING_CACHE_VAR_MAP)) base) =
    obj_get k base).
  { intros k Hk. apply add_field_other. exact Hk. }
  split_and!; [apply add_field_NoDup, (bool_decide_eq_true_1 _); by vm_compute
    |rewrite Hoth; [reflexivity|apply (bool_decide_eq_true_1 _); by vm_compute]..|].
  intros f Hf. unfold tier_get.
  assert (Hb : Forall (fun g => obj_get g base = None) extra_fields)
    by (repeat (apply Forall_cons_2; [reflexivity|]); apply Forall_nil_2).
  assert (Hi : In f (List.map snd (imap pair (List.map fst BILLING_CACHE_VAR_MAP))))
    by (apply list_elem_of_In; exact Hf).
  apply in_map_iff in Hi as ([i g] & Hg & Hi). cbn [snd] in Hg. subst g.
  apply list_elem_of_In in Hi.
  rewrite (add_field_at st 4 f i); [|apply (bool_decide_eq_true_1 _); by vm_compute|done|].
  2:{ rewrite Forall_forall in Hb. by apply Hb. }
  unfold cap. rewrite Hcs, captures_at.
  2:{ intros [|[|[|[|k]]]] ?; try lia. done. }
  destruct (extra_positions i f Hi) as [v Hv].
  assert (He : extra_terms tier !! i = Some (v, cost_text tier f)).
  { unfold extra_terms. change (List.map ?g ?l) with (g <$> l). by rewrite list_lookup_fmap, Hv. }
  by rewrite He.
Qed.

Lemma extra_fields_map : extra_fields = List.map fst BILLING_CACHE_VAR_MAP.
Proof. by vm_compute. Qed.

Lemma map_field_extra cv : In cv BILLING_CACHE_VAR_MAP -> cv.1 ∈ extra_fields.
Proof. intros H. rewrite extra_fields_map. apply list_elem_of_In. by apply in_map. Qed.

Lemma extra_price f : f ∈ extra_fields -> f ∈ price_fields.
Proof. intros H. right. by right. Qed.

Lemma terms_literal tier :
  Forall (fun f => printable (cost_of (tier_get f tier))) price_fields ->
  Forall (fun vx => forall x, vx.2 = Some x -> literal x) (extra_terms tier).
Proof.
  rewrite !Forall_forall. intros Hp [v o] Hin x E. cbn [snd] in E. subst o.
  rewrite list_elem_of_In in Hin. apply in_map_iff in Hin as (cv & [= _ Hc] & Hin).
  unfold cost_text in Hc. case_match; [done|]. injection Hc as <-.
  by apply Hp, extra_price, map_field_extra.
Qed.

Lemma cost_read tier f :
  printable (cost_of (tier_get f tier)) ->
  cost_of (default VUndef ((fun x => VNum (number_of_string x)) <$> cost_text tier f)) =
  cost_of (tier_get f tier).
Proof.
  intros [_ Hr]. unfold cost_text. cbv zeta. destruct (num_eqb _ _) eqn:E; cbn [fmap option_fmap option_map default].
  - transitivity num_zero; [reflexivity|symmetry; by apply cost_zero].
  - rewrite Hr. apply cost_of_idemp.
Qed.

(** Tiers with the same label and prices generate the same text. *)
Lemma same_generates t t' :
  buildConditionStr (tier_get (js "conditions") t) = [] ->
  buildConditionStr (tier_get (js "conditions") t') = [] ->
  label_or (js "default") t' = label_or (js "default") t ->
  (forall f, f ∈ price_fields -> cost_of (tier_get f t') = cost_of (tier_get f t)) ->
  generateExprFromVisualConfig (Some [t']) = generateExprFromVisualConfig (Some [t]).
Proof.
  intros Hc Hc' Hl Hp. rewrite !generate_single by done.
  rewrite Hl, !Hp by (by left || by (right; left)). f_equal. apply map_ext_in.
  intros cv Hin. unfold cost_text. by rewrite Hp by (by apply extra_price, map_field_extra).
Qed.

Ltac not_extra := apply (bool_decide_eq_true_1 _); vm_compute; reflexivity.

(** C11: a tier without conditions survives the editor.  The expression
    generated for it is parsed back to one tier with the same label, no
    conditions and the same nine prices, and that tier generates the same
    expression, provided the label is not empty and has no quote and the
    prices are finite. *)
Theorem visual_single_roundtrip tier :
  let lab := label_or (js "default") tier in
  buildConditionStr (tier_get (js "conditions") tier) = [] ->
  34 ∉ lab -> lab <> [] ->
  Forall (fun f => priced (tier_get f tier)) price_fields ->
  exists t',
    tryParseVisualConfig (Some (generateExprFromVisualConfig (Some [tier]))) = Some [t'] /\
    tier_get (js "label") t' = VStr lab /\
    tier_get (js "conditions") t' = VArr [] /\
    (forall f, f ∈ price_fields -> cost_of (tier_get f t') = cost_of (tier_get f tier)) /\
    generateExprFromVisualConfig (Some [t']) = generateExprFromVisualConfig (Some [tier]).
Proof.
  intros lab Hc Hq Hne Hp0.
  assert (Hp : Forall (fun f => printable (cost_of (tier_get f tier))) price_fields).
  { eapply Forall_impl; [exact Hp0|]. intros f. apply priced_printable. }
  pose proof (proj1 (Forall_forall _ _) Hp) as Hpf.
  destruct (single_run lab
    (string_of_num (cost_of (tier_get (js "input_unit_cost") tier)))
    (string_of_num (cost_of (tier_get (js "output_unit_cost") tier))) (extra_terms tier)) as (st & Hm & Hcs).
  { done. }
  { apply Hpf. by left. }
  { apply Hpf. right. by left. }
  { by vm_compute. }
  { by apply terms_literal. }
  destruct (matched_single tier st _ _ _ Hcs) as (Hnd & Hl & Hcd & Hin & Hout & Hex).
  set (t := matched_tier 1 [] st) in *.
  exists (normalizeVisualTier (normalizeVisualTier t)).
  assert (Hgiven : forall f v, f ∉ extra_fields -> obj_get f t = Some v ->
    tier_get f (normalizeVisualTier (normalizeVisualTier t)) = v).
  { intros f v Hf Hv. unfold tier_get. erewrite normalize_given; [done|done|apply normalize_NoDup|].
    by apply normalize_given. }
  assert (Hprice : forall f, f ∈ price_fields ->
    cost_of (tier_get f (normalizeVisualTier (normalizeVisualTier t))) = cost_of (tier_get f tier)).
  { intros f Hf. pose proof (Hpf f Hf) as [_ Hr].
    apply elem_of_cons in Hf as [->|[->|Hf]%elem_of_cons].
    - erewrite Hgiven; [|not_extra|exact Hin]. rewrite Hr. apply cost_of_idemp.
    - erewrite Hgiven; [|not_extra|exact Hout]. rewrite Hr. apply cost_of_idemp.
    - rewrite !normalize_extra, !cost_of_idemp, Hex by done. by apply cost_read, Hpf, extra_price. }
  assert (Hlab : tier_get (js "label") (normalizeVisualTier (normalizeVisualTier t)) = VStr lab)
    by (apply Hgiven; [not_extra|done]).
  assert (Hcond : tier_get (js "conditions") (normalizeVisualTier (normalizeVisualTier t)) = VArr [])
    by (apply Hgiven; [not_extra|done]).
  split_and!; [|done..|].
  - rewrite generate_single by done. fold lab. unfold tryParseVisualConfig.
    rewrite visual_body_single, Hm. unfold single_text. by destruct (jq "tier('") eqn:E.
  - apply same_generates; [done|by rewrite Hcond| |done].
    assert (Ht : truthy_str lab = true) by (clear -Hne; clearbody lab; by destruct lab).
    unfold label_or at 1. rewrite Hlab. cbn [truthy string_of_val]. by rewrite Ht.
Qed.

Definition sample_tier : jsobj :=
  [(js "label", VStr (js "base")); (js "conditions", VArr []);
   (js "input_unit_cost", VNum (number_of_string (js "2.5")));
   (js "output_unit_cost", VNum (number_of_string (js "10")));
   (js "cache_create_1h_unit_cost", VNum (number_of_string (js "0.3")))].

Lemma visual_single_roundtrip_witness :
  generateExprFromVisualConfig (Some [sample_tier]) =
    jq "tier('base', p * 2.5 + c * 10 + cc1h * 0.3)" /\
  exists t',
    tryParseVisualConfig (Some (generateExprFromVisualConfig (Some [sample_tier]))) = Some [t'] /\
    tier_get (js "label") t' = VStr (js "base").
Proof.
  split; [by vm_compute|].
  destruct (visual_single_roundtrip sample_tier) as (t' & H1 & H2 & _); [by vm_compute|..].
  - apply (bool_decide_eq_true_1 _). by vm_compute.
  - by vm_compute.
  - unfold price_fields, extra_fields. repeat apply Forall_cons_2; try apply Forall_nil_2.
    all: apply (bool_decide_eq_true_1 _); by vm_compute.
  - exists t'. split; [exact H1|]. rewrite H2. by vm_compute.
Defined.

(** The editor never shows an expression it would save differently,
    except in the single-tier form: an accepted expression that is not one
    plain tier call generates, up to white space, the text it was read from. *)
Theorem visual_parse_lossless expr cfg :
  re_match singleRe (visual_body expr) = None ->
  tryParseVisualConfig (Some expr) = Some cfg ->
  strip_ws (generateExprFromVisualConfig (Some cfg)) = strip_ws (visual_body expr).
Proof.
  unfold tryParseVisualConfig. intros Hs. destruct expr as [|c e]; [done|]. rewrite Hs.
  destruct (List.map _ _) as [|t ts]; [done|]. cbv zeta. case_test; [done|].
  intros [= <-]. prop_tests. done.
Qed.

Definition two_tiers : jstr :=
  jq "len <= 200 && p > 3 ? tier('a', p * 1 + c * 3) : tier('b', p * 2 + c * 4 + cr * 5)".

Lemma visual_parse_lossless_witness :
  exists cfg, tryParseVisualConfig (Some two_tiers) = Some cfg /\ length cfg = 2%nat /\
  strip_ws (generateExprFromVisualConfig (Some cfg)) = strip_ws (visual_body two_tiers).
Proof.
  eexists. split; [vm_compute; reflexivity|]. split; [reflexivity|].
  apply visual_parse_lossless; [by vm_compute|by vm_compute].
Defined.

(** The single-tier form is not compared with what it generates: the
    price of one minus two per token is read as no number, kept, and saved as
    a price of zero. *)
Theorem visual_single_unchecked :
  let expr := jq "tier('a', p * 1-2 + c * 3)" in
  let parsed := tryParseVisualConfig (Some expr) in
  parsed <> None /\ generateExprFromVisualConfig parsed = jq "tier('a', p * 0 + c * 3)".
Proof. by vm_compute. Qed.
