(* ===== verification/ModelMapping.v ===== *)
(** * Model lists and model mappings of a channel

    Models [features/channels/lib/model-mapping-validation.ts] and
    [features/channels/lib/upstream-update-utils.ts]. *)

From S2P Require Import Prelude.
From S2P Require Import JsString.
From S2P Require Import JsNumber.
From S2P Require Import JsValue.

Local Open Scope N_scope.

(** ** model-mapping-validation.ts *)

Definition parseModelsString (modelsStr : jstr) : list jstr :=
  if truthy_str modelsStr
  then List.filter truthy_str (List.map trim (split_on 44 modelsStr))
  else [].

Definition formatModelsArray (models : list jstr) : jstr := join (js ",") (uniq models).

(** Called on strings only, by its type. *)
Definition normalizeModelName (model : jstr) : jstr := trim model.

(** [JSON.parse] of a text that holds an object: not falsy, an array or a
    primitive. *)
Definition parsed_object (text : jstr) : option jsobj :=
  v ← json_parse text; as_object v.

Definition extractMappingSourceModels (modelMapping : jstr) : list jstr :=
  let trimmed := trim modelMapping in
  if negb (truthy_str trimmed) then []
  else match parsed_object trimmed with
       | None => []
       | Some parsed => uniq (List.filter truthy_str (List.map trim (obj_keys parsed)))
       end.

Definition extractRedirectModels (modelMapping : jstr) : list jstr :=
  let trimmed := trim modelMapping in
  if negb (truthy_str trimmed) then []
  else match parsed_object trimmed with
       | None => []
       | Some parsed =>
           uniq (List.filter truthy_str
                   (omap (fun v => match v with VStr s => Some (trim s) | _ => None end)
                      (obj_values parsed)))
       end.

(** The comparison of the two model lists, index by index. *)
Fixpoint same_models (current initial : list jstr) : bool :=
  match current, initial with
  | [], [] => true
  | c :: cs, i :: rest => (c =?= i) && same_models cs rest
  | _, _ => false
  end.

Definition hasModelConfigChanged (currentModels : list jstr) (currentModelMapping : jstr)
  (initialModels : list jstr) (initialModelMapping : jstr) : bool :=
  if (length initialModels =? 0)%nat && negb (truthy_str initialModelMapping) then true
  else if negb (length currentModels =? length initialModels)%nat then true
  else if negb (same_models currentModels initialModels) then true
  else trim currentModelMapping <?> trim initialModelMapping.

Definition findMissingModelsInMapping (modelMapping : jstr) (currentModels : list jstr)
  : list jstr :=
  if negb (truthy_str modelMapping) || (trim modelMapping =?= []) then []
  else match parsed_object modelMapping with
       | None => []
       | Some parsedMapping =>
           let modelSet := uniq (List.map normalizeModelName currentModels) in
           uniq (List.filter (fun key => truthy_str key && negb (includes key modelSet))
                   (List.map normalizeModelName (obj_keys parsedMapping)))
       end.

(** The result: [inl] with the error text, or valid. *)
Inductive Validation := Valid | Invalid (error : jstr).

Definition validateModelMappingJson (modelMapping : jstr) : Validation :=
  if negb (truthy_str modelMapping) || (trim modelMapping =?= []) then Valid
  else match json_parse modelMapping with
       | None => Invalid (js "Model mapping must be valid JSON format")
       | Some v =>
           match as_object v with
           | Some _ => Valid
           | None => Invalid (js "Model mapping must be a valid JSON object")
           end
       end.

Definition findExposedTargetModels (modelMapping : jstr) (currentModels : list jstr)
  : list jstr :=
  let redirectModels := extractRedirectModels modelMapping in
  if (length redirectModels =? 0)%nat then []
  else
    let modelSet := uniq (List.map normalizeModelName currentModels) in
    List.filter (fun model => includes (normalizeModelName model) modelSet) redirectModels.

Record Categories := MkCategories {
  normalizedCurrentModels : list jstr;
  normalizedRedirectModels : list jstr;
  classificationSet : list jstr;
  redirectOnlySet : list jstr
}.

Definition categorizeModelsWithRedirect (currentModels redirectModels : list jstr) : Categories :=
  let current := uniq (List.filter truthy_str (List.map normalizeModelName currentModels)) in
  let redirect := uniq (List.filter truthy_str (List.map normalizeModelName redirectModels)) in
  MkCategories current redirect (uniq (current ++ redirect))
    (uniq (List.filter (fun m => negb (includes m current)) redirect)).

(** ** upstream-update-utils.ts *)

(** [String(model || '').trim()]. *)
Definition model_text (v : jsval) : jstr := trim (if truthy v then string_of_val v else []).

(** The argument is an array by its type; [.map] on another truthy value
    throws. *)
Definition normalizeModelList (models : jsval) : outcome (list jstr) :=
  match (if truthy models then models else VArr []) with
  | VArr l => Ret (uniq (List.filter truthy_str (List.map model_text l)))
  | _ => Throws
  end.

Record UpstreamUpdateMeta := Meta {
  enabled : bool;
  pendingAddModels : list jstr;
  pendingRemoveModels : list jstr
}.

Definition parseUpstreamUpdateMeta (settings : jsval) : outcome UpstreamUpdateMeta :=
  let parsed :=
    match settings with
    | VObj _ => settings
    | VStr s => default VNull (json_parse s)
    | _ => VNull
    end in
  match parsed with
  | VObj _ | VArr _ =>
      add ← normalizeModelList (get_prop (js "upstream_model_update_last_detected_models") parsed);
      remove ← normalizeModelList (get_prop (js "upstream_model_update_last_removed_models") parsed);
      Ret (Meta (is_true (get_prop (js "upstream_model_update_check_enabled") parsed)) add remove)
  | _ => Ret (Meta false [] [])
  end.

(** * Facts *)

(** A model name as the editor keeps it. *)
Definition model_name : jstr -> Prop := word 44.

Lemma parse_joined ms :
  ms <> [] -> Forall model_name ms -> parseModelsString (join (js ",") ms) = ms.
Proof.
  intros Hne H. unfold parseModelsString. rewrite (join_words_truthy 44) by done.
  by apply (words_join 44).
Qed.

Lemma parse_names s : Forall model_name (parseModelsString s).
Proof. unfold parseModelsString. case_test; [apply words_word|constructor]. Qed.

(** The text form of a model list.  Formatting the list a text parses to
    and parsing it again gives that list without its duplicates, in order of
    first occurrence; so formatting is a normal form, and no name of a parsed
    list is blank, padded or contains a comma. *)
Theorem models_text_roundtrip s :
  let ms := parseModelsString s in
  Forall model_name ms /\
  parseModelsString (formatModelsArray ms) = uniq ms /\
  formatModelsArray (parseModelsString (formatModelsArray ms)) = formatModelsArray ms.
Proof.
  intros ms. assert (Hms : Forall model_name ms) by apply parse_names.
  assert (E : parseModelsString (formatModelsArray ms) = uniq ms).
  { unfold formatModelsArray. destruct (uniq ms) eqn:Eu; [done|]. rewrite <- Eu.
    apply parse_joined; [by rewrite Eu|by apply uniq_Forall]. }
  split_and!; [done|done|]. rewrite E. unfold formatModelsArray. by rewrite uniq_idemp.
Qed.

Lemma missing_spec mapping o models m :
  truthy_str (trim mapping) = true -> parsed_object mapping = Some o ->
  m ∈ findMissingModelsInMapping mapping models <->
  m <> [] /\ (m ∉ List.map trim models) /\ exists k, k ∈ obj_keys o /\ m = trim k.
Proof.
  intros Ht Ho. unfold findMissingModelsInMapping.
  assert (Hb : negb (truthy_str mapping) || (trim mapping =?= []) = false).
  { destruct mapping; [done|]. cbn [truthy_str negb orb].
    apply bool_decide_eq_false_2. by intros E; rewrite E in Ht. }
  rewrite Hb, Ho. unfold normalizeModelName. rewrite elem_of_uniq, elem_of_lfilter.
  rewrite andb_true_iff, negb_true_iff, includes_false, elem_of_uniq.
  rewrite list_elem_of_In, in_map_iff. setoid_rewrite list_elem_of_In.
  split.
  - intros [(k & <- & Hk) [Hm Hn]]. split_and!; [by destruct (trim k)|done|by exists k].
  - intros (Hm & Hn & k & Hk & ->). split_and!; [by exists k|by destruct (trim k)|done].
Qed.

(** The models reported missing from a channel are exactly the names its
    mapping redirects that its list lacks, each once, and adding them to the
    list leaves nothing missing. *)
Theorem missing_models_complete mapping o models :
  truthy_str (trim mapping) = true -> parsed_object mapping = Some o ->
  let missing := findMissingModelsInMapping mapping models in
  (forall m, m ∈ missing <->
     m <> [] /\ (m ∉ List.map trim models) /\ exists k, k ∈ obj_keys o /\ m = trim k) /\
  NoDup missing /\
  findMissingModelsInMapping mapping (models ++ missing) = [].
Proof.
  intros Ht Ho missing. split_and!.
  - intros m. by apply missing_spec.
  - unfold missing, findMissingModelsInMapping. repeat case_match; auto with jsdb; constructor.
  - destruct (findMissingModelsInMapping mapping (models ++ missing)) as [|m l] eqn:E; [done|].
    assert (Hm : m ∈ m :: l) by (by left). rewrite <- E in Hm.
    apply (missing_spec mapping o) in Hm as (Hne & Hnot & k & Hk & ->); [|done|done].
    exfalso. apply Hnot. rewrite map_app, elem_of_app.
    destruct (decide (trim k ∈ List.map trim models)); [by left|right].
    rewrite list_elem_of_In, in_map_iff. exists (trim k). rewrite trim_idemp. split; [done|].
    apply list_elem_of_In. apply (missing_spec mapping o); [done|done|]. eauto.
Qed.

Lemma missing_models_complete_witness :
  let mapping := jq "{'gpt-4':'gpt-4o',' claude ':'opus','':'x'}" in
  findMissingModelsInMapping mapping [js "gpt-4"] = [js "claude"] /\
  findMissingModelsInMapping mapping ([js "gpt-4"] ++ findMissingModelsInMapping mapping [js "gpt-4"]) = [].
Proof.
  intros mapping. split; [vm_compute; reflexivity|].
  eapply (missing_models_complete mapping).
  - vm_compute. reflexivity.
  - vm_compute. reflexivity.
Defined.

Lemma exposed_spec mapping models m :
  m ∈ findExposedTargetModels mapping models <->
  m ∈ extractRedirectModels mapping /\ trim m ∈ List.map trim models.
Proof.
  unfold findExposedTargetModels. destruct (extractRedirectModels mapping) as [|r rs] eqn:E.
  - split; [by intros ?%elem_of_nil|by intros [?%elem_of_nil _]].
  - rewrite <- E. replace (length (extractRedirectModels mapping) =? 0)%nat with false by (by rewrite E).
    unfold normalizeModelName. rewrite elem_of_lfilter, includes_true, elem_of_uniq. done.
Qed.

Lemma redirect_trimmed mapping m : m ∈ extractRedirectModels mapping -> trim m = m /\ m <> [].
Proof.
  unfold extractRedirectModels. case_test; [by intros ?%elem_of_nil|].
  destruct (parsed_object _) as [o|]; [|by intros ?%elem_of_nil].
  rewrite elem_of_uniq, elem_of_lfilter. intros [Hin Ht].
  apply list_elem_of_omap in Hin as (v & _ & Hv). destruct v; simplify_eq.
  split; [apply trim_idemp|]. by intros E; rewrite E in Ht.
Qed.

(** Removing the exposed redirect targets from a channel's list, as the
    editor offers, leaves no target exposed and removes nothing but targets of
    the mapping. *)
Theorem exposed_targets_removed mapping models :
  let exposed := findExposedTargetModels mapping models in
  let kept := List.filter (fun m => negb (includes (trim m) exposed)) models in
  findExposedTargetModels mapping kept = [] /\
  forall m, m ∈ models -> m ∉ kept -> trim m ∈ extractRedirectModels mapping.
Proof.
  intros exposed kept. split.
  - destruct (findExposedTargetModels mapping kept) as [|m l] eqn:E; [done|].
    assert (Hm : m ∈ m :: l) by (by left). rewrite <- E in Hm.
    apply exposed_spec in Hm as [Hr Hk]. destruct (redirect_trimmed _ _ Hr) as [Ht _].
    rewrite Ht, list_elem_of_In, in_map_iff in Hk. destruct Hk as (w & Hw & Hin).
    apply list_elem_of_In, elem_of_lfilter in Hin as [Hin Hf].
    apply negb_true_iff, includes_false in Hf. exfalso. apply Hf, exposed_spec. subst m.
    split; [done|]. rewrite trim_idemp. apply list_elem_of_In, in_map_iff. exists w.
    by rewrite <- list_elem_of_In.
  - intros m Hm Hk. destruct (includes (trim m) exposed) eqn:E.
    + apply includes_true, exposed_spec in E. tauto.
    + exfalso. apply Hk, elem_of_lfilter. by rewrite E.
Qed.

(** The categories of the model picker: the classified names are those of
    either list, the redirect-only names are those of the mapping alone, and no
    category repeats a name or holds a blank or padded one. *)
Theorem categories_partition current redirect m :
  let c := categorizeModelsWithRedirect current redirect in
  (m ∈ classificationSet c <-> m ∈ normalizedCurrentModels c \/ m ∈ redirectOnlySet c) /\
  ~ (m ∈ normalizedCurrentModels c /\ m ∈ redirectOnlySet c) /\
  (m ∈ normalizedCurrentModels c <-> m <> [] /\ exists w, w ∈ current /\ m = trim w) /\
  (m ∈ redirectOnlySet c <->
   m <> [] /\ (exists w, w ∈ redirect /\ m = trim w) /\ m ∉ normalizedCurrentModels c) /\
  NoDup (classificationSet c) /\ NoDup (redirectOnlySet c).
Proof.
  assert (Hn : forall l, m ∈ uniq (List.filter truthy_str (List.map normalizeModelName l)) <->
             m <> [] /\ exists w, w ∈ l /\ m = trim w).
  { intros l. unfold normalizeModelName. rewrite elem_of_uniq, elem_of_lfilter, list_elem_of_In, in_map_iff.
    setoid_rewrite list_elem_of_In. split.
    - intros [(w & <- & Hw) Ht]. split; [by destruct (trim w)|by exists w].
    - intros [Hne (w & Hw & ->)]. split; [by exists w|by destruct (trim w)]. }
  intros c. unfold c, categorizeModelsWithRedirect.
  cbn [normalizedCurrentModels classificationSet redirectOnlySet].
  pose proof (Hn current) as Hc. pose proof (Hn redirect) as Hr. clear Hn.
  set (cur := uniq (List.filter truthy_str (List.map normalizeModelName current))) in *.
  set (red := uniq (List.filter truthy_str (List.map normalizeModelName redirect))) in *.
  assert (Ho : m ∈ uniq (List.filter (fun x => negb (includes x cur)) red) <-> m ∈ red /\ m ∉ cur).
  { by rewrite elem_of_uniq, elem_of_lfilter, negb_true_iff, includes_false. }
  rewrite Ho, elem_of_uniq, elem_of_app.
  split_and!; auto with jsdb; destruct (decide (m ∈ cur)); tauto.
Qed.
