(* ===== verification/SettingsForms.v ===== *)
(** * Settings forms and the option updates they send

    Models [features/system-settings/integrations/]: [utils.ts],
    [payment-settings-core.ts], [alipay-settings.ts], [wechat-pay-settings.ts],
    [piggy-withdraw-settings.ts] and [qiniu-settings.ts].  Every form compares
    its normalized initial and next values field by field and sends one update
    per changed option; [SettingsForm] is the interface the builders share. *)

From S2P Require Import Prelude.
From S2P Require Import JsString.
From S2P Require Import JsNumber.
From S2P Require Import JsValue.
From stdpp Require Import gmap.

Local Open Scope N_scope.

(** ** utils.ts *)

Definition removeTrailingSlash (value : jstr) : jstr :=
  let trimmed := trim value in
  if negb (truthy_str trimmed) then []
  else reverse (drop_while (N.eqb 47) (reverse trimmed)).

(** [JSON.stringify] of a parsed value is never [undefined]. *)
Definition normalizeJsonForComparison (value : jstr) : jstr :=
  let trimmed := trim value in
  if negb (truthy_str trimmed) then []
  else match json_parse trimmed with
       | Some v => default [] (stringify v)
       | None => trimmed
       end.

Definition isValidJson (value : jstr) (predicate : jsval -> bool) : bool :=
  let trimmed := trim value in
  if negb (truthy_str trimmed) then true
  else match json_parse trimmed with
       | Some parsed => predicate parsed
       | None => false
       end.

(** Whether [getJsonError] returns a message; the text of a syntax error is the
    engine's. *)
Definition hasJsonError (value : jstr) (predicate : jsval -> bool) : bool :=
  let trimmed := trim value in
  if negb (truthy_str trimmed) then false
  else match json_parse trimmed with
       | Some parsed => negb (predicate parsed)
       | None => true
       end.

(** ** Options and updates *)

Inductive OptionValue :=
| OStr (s : jstr)
| ONum (x : num)
| OBool (b : bool).

(** [a === b]. *)
Definition same_value (a b : OptionValue) : bool :=
  match a, b with
  | OStr s, OStr t => s =?= t
  | ONum x, ONum y => num_eqb x y
  | OBool x, OBool y => Bool.eqb x y
  | _, _ => false
  end.

Record OptionUpdate := Update {
  key : jstr;
  value : OptionValue
}.

Definition pushChanged (k : jstr) (initial next : OptionValue) : list OptionUpdate :=
  if negb (same_value next initial) then [Update k next] else [].

Definition pushSecretChanged (k : jstr) (initial next : jstr) : list OptionUpdate :=
  if truthy_str next && (next <?> initial) then [Update k (OStr next)] else [].

Definition pushJsonChanged (k : jstr) (initial next : jstr) : list OptionUpdate :=
  if normalizeJsonForComparison next <?> normalizeJsonForComparison initial
  then [Update k (OStr next)] else [].

(** One comparison of a builder: an option that is sent when its value changes,
    a secret that is sent when it is filled in and changes, a JSON text that is
    sent when its content changes. *)
Inductive Field :=
| Changed (k : jstr) (initial next : OptionValue)
| SecretChanged (k : jstr) (initial next : jstr)
| JsonChanged (k : jstr) (initial next : jstr).

Definition push (f : Field) : list OptionUpdate :=
  match f with
  | Changed k i n => pushChanged k i n
  | SecretChanged k i n => pushSecretChanged k i n
  | JsonChanged k i n => pushJsonChanged k i n
  end.

Definition updates_of (fs : list Field) : list OptionUpdate := List.flat_map push fs.

Definition field_key (f : Field) : jstr :=
  match f with Changed k _ _ | SecretChanged k _ _ | JsonChanged k _ _ => k end.

(** The value of the option before the save. *)
Definition field_initial (f : Field) : OptionValue :=
  match f with
  | Changed _ i _ => i
  | SecretChanged _ i _ | JsonChanged _ i _ => OStr i
  end.

Definition field_next (f : Field) : OptionValue :=
  match f with
  | Changed _ _ n => n
  | SecretChanged _ _ n | JsonChanged _ _ n => OStr n
  end.

(** ** payment-settings-core.ts *)

Definition VIP_ACTIVATION_PRICE_KEY : jstr := js "payment_setting.vip_activation_price".
Definition VIP_ACTIVATION_LEVEL1_AMOUNT_KEY : jstr :=
  js "payment_setting.vip_activation_commission_level1_amount".
Definition VIP_ACTIVATION_LEVEL2_AMOUNT_KEY : jstr :=
  js "payment_setting.vip_activation_commission_level2_amount".
Definition COMMISSION_MIN_WITHDRAW_AMOUNT_KEY : jstr :=
  js "payment_setting.commission_min_withdraw_amount".

Definition isOptionalHttpUrl (v : jstr) : bool :=
  let trimmed := trim v in
  if negb (truthy_str trimmed) then true
  else starts_with (js "http://") trimmed || starts_with (js "https://") trimmed.

(** Lower casing the text of a number changes nothing. *)
Definition hasAtMostTwoDecimalPlaces (v : num) : bool :=
  if negb (is_finite v) then false
  else
    let normalized := string_of_num v in
    if includes_sub (js "e") normalized then
      let cents := num_mul v (num_of_Z 100) in
      num_ltb (num_abs (num_sub (num_round cents) cents)) (num_of_dec false 1 (-9))
    else
      match split_on 46 normalized with
      | _ :: d :: _ => (length d <=? 2)%nat
      | _ => true
      end.

Record GeneralPaymentSettingsValues := General {
  Price : num;
  MinTopUp : num;
  CommissionMinWithdrawAmount : num;
  DefaultUserTopupDiscount : num;
  DefaultVvipTopupDiscount : num;
  VipActivationPrice : num;
  VvipActivationCommissionLevel1Amount : num;
  VvipActivationCommissionLevel2Amount : num;
  PayMethods : jstr;
  AmountOptions : jstr;
  AmountDiscount : jstr
}.

(** The checks of zod on a number: finite, and the bound of the schema. *)
Definition z_min0 (x : num) : bool := is_finite x && num_geb x num_zero.
Definition z_gt0 (x : num) : bool := is_finite x && num_gtb x num_zero.
Definition z_discount (x : num) : bool := z_gt0 x && num_leb x (num_of_Z 1).

Definition is_json_array (v : jsval) : bool := match v with VArr _ => true | _ => false end.
Definition is_json_object (v : jsval) : bool := match v with VObj _ => true | _ => false end.

Definition generalPaymentSettingsSchema (v : GeneralPaymentSettingsValues) : bool :=
  z_min0 (Price v) && z_min0 (MinTopUp v) && z_min0 (CommissionMinWithdrawAmount v) &&
  z_discount (DefaultUserTopupDiscount v) && z_discount (DefaultVvipTopupDiscount v) &&
  z_gt0 (VipActivationPrice v) && hasAtMostTwoDecimalPlaces (VipActivationPrice v) &&
  z_min0 (VvipActivationCommissionLevel1Amount v) &&
  hasAtMostTwoDecimalPlaces (VvipActivationCommissionLevel1Amount v) &&
  z_min0 (VvipActivationCommissionLevel2Amount v) &&
  hasAtMostTwoDecimalPlaces (VvipActivationCommissionLevel2Amount v) &&
  negb (hasJsonError (PayMethods v) (fun _ => true)) &&
  negb (hasJsonError (AmountOptions v) is_json_array) &&
  negb (hasJsonError (AmountDiscount v) is_json_object) &&
  negb (num_gtb (num_add (VvipActivationCommissionLevel1Amount v)
                   (VvipActivationCommissionLevel2Amount v)) (VipActivationPrice v)).

Definition find_update (k : jstr) (updates : list OptionUpdate) : option OptionUpdate :=
  List.find (fun u => key u =?= k) updates.

Definition opt_list {A} (o : option A) : list A := match o with Some a => [a] | None => [] end.

Definition is_amount_key (k : jstr) : bool :=
  (k =?= VIP_ACTIVATION_PRICE_KEY) || (k =?= VIP_ACTIVATION_LEVEL1_AMOUNT_KEY) ||
  (k =?= VIP_ACTIVATION_LEVEL2_AMOUNT_KEY).

Definition orderVipActivationCommissionUpdates (updates : list OptionUpdate)
  (initial sanitized : GeneralPaymentSettingsValues) : list OptionUpdate :=
  let priceUpdate := find_update VIP_ACTIVATION_PRICE_KEY updates in
  let level1Update := find_update VIP_ACTIVATION_LEVEL1_AMOUNT_KEY updates in
  let level2Update := find_update VIP_ACTIVATION_LEVEL2_AMOUNT_KEY updates in
  match priceUpdate, level1Update, level2Update with
  | None, None, None => updates
  | _, _, _ =>
      let l1 := VvipActivationCommissionLevel1Amount in
      let l2 := VvipActivationCommissionLevel2Amount in
      let orderedAmountUpdates :=
        (if num_ltb (l1 sanitized) (l1 initial) then opt_list level1Update else []) ++
        (if num_ltb (l2 sanitized) (l2 initial) then opt_list level2Update else []) ++
        opt_list priceUpdate ++
        (if num_geb (l1 sanitized) (l1 initial) then opt_list level1Update else []) ++
        (if num_geb (l2 sanitized) (l2 initial) then opt_list level2Update else []) in
      List.filter (fun u => negb (is_amount_key (key u))) updates ++ orderedAmountUpdates
  end.

(** [Number(n)] of a number is the number. *)
Definition sanitize_general (v : GeneralPaymentSettingsValues) : GeneralPaymentSettingsValues :=
  General (Price v) (MinTopUp v) (CommissionMinWithdrawAmount v) (DefaultUserTopupDiscount v)
    (DefaultVvipTopupDiscount v) (VipActivationPrice v) (VvipActivationCommissionLevel1Amount v)
    (VvipActivationCommissionLevel2Amount v) (trim (PayMethods v)) (trim (AmountOptions v))
    (trim (AmountDiscount v)).

Definition general_fields (initial sanitized : GeneralPaymentSettingsValues) : list Field :=
  [Changed (js "Price") (ONum (Price initial)) (ONum (Price sanitized));
   Changed (js "MinTopUp") (ONum (MinTopUp initial)) (ONum (MinTopUp sanitized));
   Changed COMMISSION_MIN_WITHDRAW_AMOUNT_KEY (ONum (CommissionMinWithdrawAmount initial))
     (ONum (CommissionMinWithdrawAmount sanitized));
   Changed (js "payment_setting.default_user_topup_discount")
     (ONum (DefaultUserTopupDiscount initial)) (ONum (DefaultUserTopupDiscount sanitized));
   Changed (js "payment_setting.default_vvip_topup_discount")
     (ONum (DefaultVvipTopupDiscount initial)) (ONum (DefaultVvipTopupDiscount sanitized));
   Changed VIP_ACTIVATION_PRICE_KEY (ONum (VipActivationPrice initial))
     (ONum (VipActivationPrice sanitized));
   Changed VIP_ACTIVATION_LEVEL1_AMOUNT_KEY
     (ONum (VvipActivationCommissionLevel1Amount initial))
     (ONum (VvipActivationCommissionLevel1Amount sanitized));
   Changed VIP_ACTIVATION_LEVEL2_AMOUNT_KEY
     (ONum (VvipActivationCommissionLevel2Amount initial))
     (ONum (VvipActivationCommissionLevel2Amount sanitized));
   JsonChanged (js "PayMethods") (PayMethods initial) (PayMethods sanitized);
   JsonChanged (js "payment_setting.amount_options") (AmountOptions initial)
     (AmountOptions sanitized);
   JsonChanged (js "payment_setting.amount_discount") (AmountDiscount initial)
     (AmountDiscount sanitized)].

Definition buildGeneralPaymentSettingsUpdates (initialValues nextValues : GeneralPaymentSettingsValues)
  : list OptionUpdate :=
  let sanitized := sanitize_general nextValues in
  let initial := sanitize_general initialValues in
  orderVipActivationCommissionUpdates (updates_of (general_fields initial sanitized))
    initial sanitized.

Module Epay.

Record EpaySettingsValues := Values {
  PayAddress : jstr;
  EpayId : jstr;
  EpayKey : jstr;
  CustomCallbackAddress : jstr
}.

Definition epaySettingsSchema (v : EpaySettingsValues) : bool :=
  isOptionalHttpUrl (PayAddress v) && isOptionalHttpUrl (CustomCallbackAddress v).

Definition normalize (v : EpaySettingsValues) : EpaySettingsValues :=
  Values (removeTrailingSlash (PayAddress v)) (trim (EpayId v)) (trim (EpayKey v))
    (removeTrailingSlash (CustomCallbackAddress v)).

Definition fields (initialValues nextValues : EpaySettingsValues) : list Field :=
  let initial := normalize initialValues in
  let next := normalize nextValues in
  [Changed (js "PayAddress") (OStr (PayAddress initial)) (OStr (PayAddress next));
   Changed (js "EpayId") (OStr (EpayId initial)) (OStr (EpayId next));
   SecretChanged (js "EpayKey") (EpayKey initial) (EpayKey next);
   Changed (js "CustomCallbackAddress") (OStr (CustomCallbackAddress initial))
     (OStr (CustomCallbackAddress next))].

Definition buildEpaySettingsUpdates (initialValues nextValues : EpaySettingsValues)
  : list OptionUpdate := updates_of (fields initialValues nextValues).

End Epay.

Module Stripe.

Record StripeSettingsValues := Values {
  StripeApiSecret : jstr;
  StripeWebhookSecret : jstr;
  StripePriceId : jstr;
  StripeUnitPrice : num;
  StripeMinTopUp : num;
  StripePromotionCodesEnabled : bool
}.

Definition stripeSettingsSchema (v : StripeSettingsValues) : bool :=
  z_min0 (StripeUnitPrice v) && z_min0 (StripeMinTopUp v).

Definition normalize (v : StripeSettingsValues) : StripeSettingsValues :=
  Values (trim (StripeApiSecret v)) (trim (StripeWebhookSecret v)) (trim (StripePriceId v))
    (StripeUnitPrice v) (StripeMinTopUp v) (StripePromotionCodesEnabled v).

Definition fields (initialValues nextValues : StripeSettingsValues) : list Field :=
  let initial := normalize initialValues in
  let next := normalize nextValues in
  [SecretChanged (js "StripeApiSecret") (StripeApiSecret initial) (StripeApiSecret next);
   SecretChanged (js "StripeWebhookSecret") (StripeWebhookSecret initial) (StripeWebhookSecret next);
   Changed (js "StripePriceId") (OStr (StripePriceId initial)) (OStr (StripePriceId next));
   Changed (js "StripeUnitPrice") (ONum (StripeUnitPrice initial)) (ONum (StripeUnitPrice next));
   Changed (js "StripeMinTopUp") (ONum (StripeMinTopUp initial)) (ONum (StripeMinTopUp next));
   Changed (js "StripePromotionCodesEnabled") (OBool (StripePromotionCodesEnabled initial))
     (OBool (StripePromotionCodesEnabled next))].

Definition buildStripeSettingsUpdates (initialValues nextValues : StripeSettingsValues)
  : list OptionUpdate := updates_of (fields initialValues nextValues).

End Stripe.

Module Creem.

Record CreemSettingsValues := Values {
  CreemApiKey : jstr;
  CreemWebhookSecret : jstr;
  CreemTestMode : bool;
  CreemProducts : jstr
}.

Definition creemSettingsSchema (v : CreemSettingsValues) : bool :=
  negb (hasJsonError (CreemProducts v) is_json_array).

Definition normalize (v : CreemSettingsValues) : CreemSettingsValues :=
  Values (trim (CreemApiKey v)) (trim (CreemWebhookSecret v)) (CreemTestMode v)
    (trim (CreemProducts v)).

Definition fields (initialValues nextValues : CreemSettingsValues) : list Field :=
  let initial := normalize initialValues in
  let next := normalize nextValues in
  [SecretChanged (js "CreemApiKey") (CreemApiKey initial) (CreemApiKey next);
   SecretChanged (js "CreemWebhookSecret") (CreemWebhookSecret initial) (CreemWebhookSecret next);
   Changed (js "CreemTestMode") (OBool (CreemTestMode initial)) (OBool (CreemTestMode next));
   JsonChanged (js "CreemProducts") (CreemProducts initial) (CreemProducts next)].

Definition buildCreemSettingsUpdates (initialValues nextValues : CreemSettingsValues)
  : list OptionUpdate := updates_of (fields initialValues nextValues).

End Creem.

(** ** alipay-settings.ts *)

Module Alipay.

Record AlipaySettingsValues := Values {
  AlipayEnabled : bool;
  AlipaySandbox : bool;
  AlipayAppId : jstr;
  AlipayPrivateKey : jstr;
  AlipayPublicKey : jstr;
  AlipayUnitPrice : num;
  AlipayMinTopUp : num;
  AlipayReturnUrl : jstr;
  AlipayNotifyUrl : jstr
}.

Definition alipaySettingsSchema (v : AlipaySettingsValues) : bool :=
  z_gt0 (AlipayUnitPrice v) && z_min0 (AlipayMinTopUp v) &&
  isOptionalHttpUrl (AlipayReturnUrl v) && isOptionalHttpUrl (AlipayNotifyUrl v).

Definition normalizeAlipaySettings (v : AlipaySettingsValues) : AlipaySettingsValues :=
  Values (AlipayEnabled v) (AlipaySandbox v) (trim (AlipayAppId v)) (trim (AlipayPrivateKey v))
    (trim (AlipayPublicKey v)) (AlipayUnitPrice v) (AlipayMinTopUp v)
    (removeTrailingSlash (AlipayReturnUrl v)) (removeTrailingSlash (AlipayNotifyUrl v)).

Definition fields (initialValues nextValues : AlipaySettingsValues) : list Field :=
  let initial := normalizeAlipaySettings initialValues in
  let next := normalizeAlipaySettings nextValues in
  [Changed (js "AlipayEnabled") (OBool (AlipayEnabled initial)) (OBool (AlipayEnabled next));
   Changed (js "AlipaySandbox") (OBool (AlipaySandbox initial)) (OBool (AlipaySandbox next));
   Changed (js "AlipayAppId") (OStr (AlipayAppId initial)) (OStr (AlipayAppId next));
   SecretChanged (js "AlipayPrivateKey") (AlipayPrivateKey initial) (AlipayPrivateKey next);
   SecretChanged (js "AlipayPublicKey") (AlipayPublicKey initial) (AlipayPublicKey next);
   Changed (js "AlipayUnitPrice") (ONum (AlipayUnitPrice initial)) (ONum (AlipayUnitPrice next));
   Changed (js "AlipayMinTopUp") (ONum (AlipayMinTopUp initial)) (ONum (AlipayMinTopUp next));
   Changed (js "AlipayReturnUrl") (OStr (AlipayReturnUrl initial)) (OStr (AlipayReturnUrl next));
   Changed (js "AlipayNotifyUrl") (OStr (AlipayNotifyUrl initial)) (OStr (AlipayNotifyUrl next))].

Definition buildAlipaySettingsUpdates (initialValues nextValues : AlipaySettingsValues)
  : list OptionUpdate := updates_of (fields initialValues nextValues).

End Alipay.

(** ** wechat-pay-settings.ts *)

Module WechatPay.

Record WechatPaySettingsValues := Values {
  WechatPayEnabled : bool;
  WechatPaySandbox : bool;
  WechatPayAppId : jstr;
  WechatPayMchId : jstr;
  WechatPayMerchantSerialNo : jstr;
  WechatPayMerchantPrivateKey : jstr;
  WechatPayAPIv3Key : jstr;
  WechatPayPlatformSerialNo : jstr;
  WechatPayPlatformPublicKey : jstr;
  WechatPayUnitPrice : num;
  WechatPayMinTopUp : num;
  WechatPayNotifyUrl : jstr
}.

(** [new TextEncoder().encode(s).length]: unpaired surrogates are replaced by
    U+FFFD, which takes three bytes. *)
Fixpoint utf8_length (s : jstr) : nat :=
  match s with
  | [] => 0
  | c :: r =>
      if is_high_surrogate c then
        match r with
        | d :: r' => if is_low_surrogate d then 4 + utf8_length r' else 3 + utf8_length r
        | [] => 3
        end
      else (if c <? 128 then 1 else if c <? 2048 then 2 else 3) + utf8_length r
  end.

Definition wechatPaySettingsSchema (v : WechatPaySettingsValues) : bool :=
  (let trimmed := trim (WechatPayAPIv3Key v) in
   negb (truthy_str trimmed) || (utf8_length trimmed =? 32)%nat) &&
  z_gt0 (WechatPayUnitPrice v) && z_min0 (WechatPayMinTopUp v) &&
  isOptionalHttpUrl (WechatPayNotifyUrl v).

Definition normalizeWechatPaySettings (v : WechatPaySettingsValues) : WechatPaySettingsValues :=
  Values (WechatPayEnabled v) (WechatPaySandbox v) (trim (WechatPayAppId v))
    (trim (WechatPayMchId v)) (trim (WechatPayMerchantSerialNo v))
    (trim (WechatPayMerchantPrivateKey v)) (trim (WechatPayAPIv3Key v))
    (trim (WechatPayPlatformSerialNo v)) (trim (WechatPayPlatformPublicKey v))
    (WechatPayUnitPrice v) (WechatPayMinTopUp v) (removeTrailingSlash (WechatPayNotifyUrl v)).

(** The sandbox switch is normalized but not sent. *)
Definition fields (initialValues nextValues : WechatPaySettingsValues) : list Field :=
  let initial := normalizeWechatPaySettings initialValues in
  let next := normalizeWechatPaySettings nextValues in
  [Changed (js "WechatPayAppId") (OStr (WechatPayAppId initial)) (OStr (WechatPayAppId next));
   Changed (js "WechatPayMchId") (OStr (WechatPayMchId initial)) (OStr (WechatPayMchId next));
   Changed (js "WechatPayMerchantSerialNo") (OStr (WechatPayMerchantSerialNo initial))
     (OStr (WechatPayMerchantSerialNo next));
   SecretChanged (js "WechatPayMerchantPrivateKey") (WechatPayMerchantPrivateKey initial)
     (WechatPayMerchantPrivateKey next);
   SecretChanged (js "WechatPayAPIv3Key") (WechatPayAPIv3Key initial) (WechatPayAPIv3Key next);
   Changed (js "WechatPayPlatformSerialNo") (OStr (WechatPayPlatformSerialNo initial))
     (OStr (WechatPayPlatformSerialNo next));
   SecretChanged (js "WechatPayPlatformPublicKey") (WechatPayPlatformPublicKey initial)
     (WechatPayPlatformPublicKey next);
   Changed (js "WechatPayUnitPrice") (ONum (WechatPayUnitPrice initial))
     (ONum (WechatPayUnitPrice next));
   Changed (js "WechatPayMinTopUp") (ONum (WechatPayMinTopUp initial)) (ONum (WechatPayMinTopUp next));
   Changed (js "WechatPayNotifyUrl") (OStr (WechatPayNotifyUrl initial))
     (OStr (WechatPayNotifyUrl next));
   Changed (js "WechatPayEnabled") (OBool (WechatPayEnabled initial)) (OBool (WechatPayEnabled next))].

Definition buildWechatPaySettingsUpdates (initialValues nextValues : WechatPaySettingsValues)
  : list OptionUpdate := updates_of (fields initialValues nextValues).

End WechatPay.


(** ** qiniu-settings.ts *)

Module Qiniu.

Record QiniuSettingsValues := Values {
  Enabled : bool;
  BaseURL : jstr;
  ChildAccountBaseURL : jstr;
  AccessKey : jstr;
  SecretKey : jstr;
  RequestTimeout : num;
  RetryIntervalSeconds : num;
  OfficialLedgerEnabled : bool;
  OfficialLedgerCutoverTime : num;
  OfficialLedgerSyncIntervalSeconds : num;
  OfficialLedgerWindowHours : num;
  OfficialLedgerWindowDays : num;
  OfficialLedgerBatchSize : num;
  OfficialLedgerRateLimitPerSecond : num;
  OfficialLedgerRetryIntervalSeconds : num;
  CostDetailCutoverTime : num;
  CostDetailLookbackDays : num;
  CostDetailAutoApplyEnabled : bool;
  MarketCatalogEnabled : bool;
  MarketCatalogBaseURL : jstr;
  MarketCatalogTTLSeconds : num;
  MarketCatalogOverseas : bool;
  MarketCatalogFallbackEnabled : bool;
  ChildAccountEmailDomain : jstr;
  ChildAccountEmailPrefix : jstr;
  ChildAccountPasswordLength : num;
  ChildAccountRequestTimeout : num;
  ChildAccountRetryIntervalSeconds : num;
  ChildAccountBindingEnabled : bool;
  ChildAccountAssignmentMode : jstr;
  ChildAccountBindingCutoverTime : num
}.

Definition QINIU_CHILD_ACCOUNT_DEFAULT_BASE_URL : jstr := js "https://api.qiniu.com".
Definition QINIU_CHILD_ACCOUNT_DEFAULT_DOMAIN : jstr := js "uk72.cn".
Definition MODE_PARENT_ONLY : jstr := js "parent_only".
Definition MODE_ONE_KEY_ONE_CHILD : jstr := js "one_key_one_child".

(** [s || d]. *)
Definition str_or (s d : jstr) : jstr := if truthy_str s then s else d.

Section Qiniu.
(** Unicode lower casing is data of the language's library. *)
Variable toLowerCase : jstr -> jstr.

Definition normalizeQiniuChildAccountAssignmentMode (v : jstr) : jstr :=
  if toLowerCase (trim v) =?= MODE_ONE_KEY_ONE_CHILD then MODE_ONE_KEY_ONE_CHILD
  else MODE_PARENT_ONLY.

(** [s.replace(/^@/, '')]. *)
Definition strip_at (s : jstr) : jstr :=
  match s with 64 :: r => r | _ => s end.

Definition normalizeQiniuSettings (v : QiniuSettingsValues) : QiniuSettingsValues :=
  Values
    (Enabled v)
    (removeTrailingSlash (BaseURL v))
    (str_or (removeTrailingSlash (ChildAccountBaseURL v)) QINIU_CHILD_ACCOUNT_DEFAULT_BASE_URL)
    (trim (AccessKey v))
    (trim (SecretKey v))
    (RequestTimeout v)
    (RetryIntervalSeconds v)
    (OfficialLedgerEnabled v)
    (OfficialLedgerCutoverTime v)
    (OfficialLedgerSyncIntervalSeconds v)
    (OfficialLedgerWindowHours v)
    (OfficialLedgerWindowDays v)
    (OfficialLedgerBatchSize v)
    (OfficialLedgerRateLimitPerSecond v)
    (OfficialLedgerRetryIntervalSeconds v)
    (CostDetailCutoverTime v)
    (CostDetailLookbackDays v)
    (CostDetailAutoApplyEnabled v)
    (MarketCatalogEnabled v)
    (removeTrailingSlash (MarketCatalogBaseURL v))
    (MarketCatalogTTLSeconds v)
    (MarketCatalogOverseas v)
    (MarketCatalogFallbackEnabled v)
    (str_or (strip_at (toLowerCase (trim (ChildAccountEmailDomain v))))
       QINIU_CHILD_ACCOUNT_DEFAULT_DOMAIN)
    (str_or (trim (ChildAccountEmailPrefix v)) (js "child"))
    (ChildAccountPasswordLength v)
    (ChildAccountRequestTimeout v)
    (ChildAccountRetryIntervalSeconds v)
    (ChildAccountBindingEnabled v)
    (normalizeQiniuChildAccountAssignmentMode (ChildAccountAssignmentMode v))
    (ChildAccountBindingCutoverTime v).

Definition fields (initialValues nextValues : QiniuSettingsValues) : list Field :=
  let initial := normalizeQiniuSettings initialValues in
  let next := normalizeQiniuSettings nextValues in
  [Changed (js "qiniu_key_setting.enabled")
     (OBool (Enabled initial)) (OBool (Enabled next));
   Changed (js "qiniu_key_setting.base_url")
     (OStr (BaseURL initial)) (OStr (BaseURL next));
   Changed (js "qiniu_key_setting.child_account_base_url")
     (OStr (ChildAccountBaseURL initial)) (OStr (ChildAccountBaseURL next));
   SecretChanged (js "qiniu_key_setting.access_key")
     (AccessKey initial) (AccessKey next);
   SecretChanged (js "qiniu_key_setting.secret_key")
     (SecretKey initial) (SecretKey next);
   Changed (js "qiniu_key_setting.request_timeout")
     (ONum (RequestTimeout initial)) (ONum (RequestTimeout next));
   Changed (js "qiniu_key_setting.retry_interval_seconds")
     (ONum (RetryIntervalSeconds initial)) (ONum (RetryIntervalSeconds next));
   Changed (js "qiniu_key_setting.official_ledger_enabled")
     (OBool (OfficialLedgerEnabled initial)) (OBool (OfficialLedgerEnabled next));
   Changed (js "qiniu_key_setting.official_ledger_cutover_time")
     (ONum (OfficialLedgerCutoverTime initial)) (ONum (OfficialLedgerCutoverTime next));
   Changed (js "qiniu_key_setting.official_ledger_sync_interval_seconds")
     (ONum (OfficialLedgerSyncIntervalSeconds initial)) (ONum (OfficialLedgerSyncIntervalSeconds next));
   Changed (js "qiniu_key_setting.official_ledger_window_hours")
     (ONum (OfficialLedgerWindowHours initial)) (ONum (OfficialLedgerWindowHours next));
   Changed (js "qiniu_key_setting.official_ledger_window_days")
     (ONum (OfficialLedgerWindowDays initial)) (ONum (OfficialLedgerWindowDays next));
   Changed (js "qiniu_key_setting.official_ledger_batch_size")
     (ONum (OfficialLedgerBatchSize initial)) (ONum (OfficialLedgerBatchSize next));
   Changed (js "qiniu_key_setting.official_ledger_rate_limit_per_second")
     (ONum (OfficialLedgerRateLimitPerSecond initial)) (ONum (OfficialLedgerRateLimitPerSecond next));
   Changed (js "qiniu_key_setting.official_ledger_retry_interval_seconds")
     (ONum (OfficialLedgerRetryIntervalSeconds initial)) (ONum (OfficialLedgerRetryIntervalSeconds next));
   Changed (js "qiniu_key_setting.cost_detail_cutover_time")
     (ONum (CostDetailCutoverTime initial)) (ONum (CostDetailCutoverTime next));
   Changed (js "qiniu_key_setting.cost_detail_lookback_days")
     (ONum (CostDetailLookbackDays initial)) (ONum (CostDetailLookbackDays next));
   Changed (js "qiniu_key_setting.cost_detail_auto_apply_enabled")
     (OBool (CostDetailAutoApplyEnabled initial)) (OBool (CostDetailAutoApplyEnabled next));
   Changed (js "qiniu_key_setting.market_catalog_enabled")
     (OBool (MarketCatalogEnabled initial)) (OBool (MarketCatalogEnabled next));
   Changed (js "qiniu_key_setting.market_catalog_base_url")
     (OStr (MarketCatalogBaseURL initial)) (OStr (MarketCatalogBaseURL next));
   Changed (js "qiniu_key_setting.market_catalog_ttl_seconds")
     (ONum (MarketCatalogTTLSeconds initial)) (ONum (MarketCatalogTTLSeconds next));
   Changed (js "qiniu_key_setting.market_catalog_overseas")
     (OBool (MarketCatalogOverseas initial)) (OBool (MarketCatalogOverseas next));
   Changed (js "qiniu_key_setting.market_catalog_fallback_enabled")
     (OBool (MarketCatalogFallbackEnabled initial)) (OBool (MarketCatalogFallbackEnabled next));
   Changed (js "qiniu_key_setting.child_account_email_domain")
     (OStr (ChildAccountEmailDomain initial)) (OStr (ChildAccountEmailDomain next));
   Changed (js "qiniu_key_setting.child_account_email_prefix")
     (OStr (ChildAccountEmailPrefix initial)) (OStr (ChildAccountEmailPrefix next));
   Changed (js "qiniu_key_setting.child_account_password_length")
     (ONum (ChildAccountPasswordLength initial)) (ONum (ChildAccountPasswordLength next));
   Changed (js "qiniu_key_setting.child_account_request_timeout")
     (ONum (ChildAccountRequestTimeout initial)) (ONum (ChildAccountRequestTimeout next));
   Changed (js "qiniu_key_setting.child_account_retry_interval_seconds")
     (ONum (ChildAccountRetryIntervalSeconds initial)) (ONum (ChildAccountRetryIntervalSeconds next));
   Changed (js "qiniu_key_setting.child_account_binding_enabled")
     (OBool (ChildAccountBindingEnabled initial)) (OBool (ChildAccountBindingEnabled next));
   Changed (js "qiniu_key_setting.child_account_assignment_mode")
     (OStr (ChildAccountAssignmentMode initial)) (OStr (ChildAccountAssignmentMode next));
   Changed (js "qiniu_key_setting.child_account_binding_cutover_time")
     (ONum (ChildAccountBindingCutoverTime initial)) (ONum (ChildAccountBindingCutoverTime next))].

Definition buildQiniuSettingsUpdates (initialValues nextValues : QiniuSettingsValues)
  : list OptionUpdate := updates_of (fields initialValues nextValues).

End Qiniu.

End Qiniu.

(** ** piggy-withdraw-settings.ts *)

Section PiggyWithdraw.
(** The request of the caller: the response, or a thrown error. *)
Variable saveOptions : list OptionUpdate -> outcome bool.

(** [Ret true] when options were sent, [Ret false] when there was nothing to
    send; an unsuccessful response is thrown. *)
Definition savePiggyWithdrawSettingOptions (options : list OptionUpdate) : outcome bool :=
  if (length options =? 0)%nat then Ret false
  else
    success ← saveOptions options;
    if success : bool then Ret true else Throws.
End PiggyWithdraw.

(** * Facts *)

#[local] Opaque js.

(** ** The shared contract of the forms *)

(** What a form promises: no option is compared twice. *)
Class SettingsForm (V : Type) := {
  form_fields : V -> V -> list Field;
  form_keys initial next : NoDup (List.map field_key (form_fields initial next))
}.

Ltac distinct_keys := intros; apply (bool_decide_eq_true_1 _); vm_compute; reflexivity.

#[export] Instance EpayForm : SettingsForm Epay.EpaySettingsValues.
Proof. exists Epay.fields. distinct_keys. Defined.
#[export] Instance StripeForm : SettingsForm Stripe.StripeSettingsValues.
Proof. exists Stripe.fields. distinct_keys. Defined.
#[export] Instance CreemForm : SettingsForm Creem.CreemSettingsValues.
Proof. exists Creem.fields. distinct_keys. Defined.
#[export] Instance AlipayForm : SettingsForm Alipay.AlipaySettingsValues.
Proof. exists Alipay.fields. distinct_keys. Defined.
#[export] Instance WechatPayForm : SettingsForm WechatPay.WechatPaySettingsValues.
Proof. exists WechatPay.fields. distinct_keys. Defined.
#[export] Instance GeneralForm : SettingsForm GeneralPaymentSettingsValues.
Proof.
  exists (fun i n => general_fields (sanitize_general i) (sanitize_general n)). distinct_keys.
Defined.

(** The form of the cloud keys, for any lower casing. *)
Definition QiniuForm (toLowerCase : jstr -> jstr) : SettingsForm Qiniu.QiniuSettingsValues.
Proof. exists (Qiniu.fields toLowerCase). distinct_keys. Defined.

(** The server's option table, and what a list of updates does to it. *)
Definition apply_update (store : gmap jstr OptionValue) (u : OptionUpdate)
  : gmap jstr OptionValue := <[key u := value u]> store.

Definition apply_updates (us : list OptionUpdate) (store : gmap jstr OptionValue)
  : gmap jstr OptionValue := fold_left apply_update us store.

(** Updates whose keys differ from [k] leave [k] alone. *)
Lemma apply_other us store k :
  Forall (fun u => key u <> k) us -> apply_updates us store !! k = store !! k.
Proof.
  intros H. revert store. induction H as [|u us Hu _ IH]; intros store; [done|].
  unfold apply_updates in *. cbn [fold_left]. rewrite IH. unfold apply_update.
  by rewrite lookup_insert_ne.
Qed.

Lemma push_key f u : u ∈ push f -> key u = field_key f /\ value u = field_next f.
Proof.
  destruct f; cbn; unfold pushChanged, pushSecretChanged, pushJsonChanged; case_test;
    rewrite ?elem_of_nil, ?list_elem_of_singleton; try done; intros ->; done.
Qed.

Lemma updates_keys fs u : u ∈ updates_of fs -> key u ∈ List.map field_key fs.
Proof.
  unfold updates_of. rewrite list_elem_of_In, in_flat_map. intros (f & Hf & Hu).
  rewrite list_elem_of_In, in_map_iff. exists f. rewrite <- list_elem_of_In in Hu.
  by apply push_key in Hu as [-> _].
Qed.

(** Updates are minimal.  Every update a form sends is for an option of the
    form, carries its normalized next value and changes the stored one, and a
    form saved without edits sends nothing, provided its numbers are not NaN. *)
Theorem settings_updates_minimal {V} `{SettingsForm V} (initial next : V) u :
  (u ∈ updates_of (form_fields initial next) ->
   exists f, f ∈ form_fields initial next /\ key u = field_key f /\ value u = field_next f /\
             same_value (field_next f) (field_initial f) = false) /\
  (Forall (fun f => same_value (field_next f) (field_initial f) = true) (form_fields initial next) ->
   updates_of (form_fields initial next) = []).
Proof.
  assert (Hpush : forall f, same_value (field_next f) (field_initial f) = true -> push f = []).
  { intros [k i n|k i n|k i n]; cbn; unfold pushChanged, pushSecretChanged, pushJsonChanged.
    - by intros ->.
    - intros ->%bool_decide_eq_true_1. rewrite bool_decide_true by done. by rewrite andb_false_r.
    - intros ->%bool_decide_eq_true_1. by rewrite bool_decide_true. }
  split.
  - unfold updates_of. rewrite list_elem_of_In, in_flat_map. intros (f & Hf & Hu).
    exists f. rewrite list_elem_of_In. rewrite <- list_elem_of_In in Hu.
    destruct (push_key f u Hu) as [-> ->]. split_and!; try done.
    destruct (same_value _ _) eqn:E; [|done]. rewrite Hpush in Hu by done. by apply elem_of_nil in Hu.
  - unfold updates_of. induction 1 as [|f fs Hf _ IH]; [done|]. cbn [List.flat_map].
    by rewrite Hpush.
Qed.

Lemma settings_updates_minimal_witness :
  let v := Creem.Values (js "k ") (js "s") true (js "[ 1]") in
  updates_of (form_fields v (Creem.Values (js " k") (js "s") true (js "[ 1]"))) = [].
Proof.
  intros v. apply (settings_updates_minimal (H := CreemForm) v _ (Update [] (OBool true))).
  repeat constructor.
Defined.

(** The WeChat Pay switch is sent after the credentials it depends on: if
    it is among the updates, it is the last of them. *)
Theorem wechat_enable_last initial next pre u post :
  WechatPay.buildWechatPaySettingsUpdates initial next = pre ++ u :: post ->
  key u = js "WechatPayEnabled" -> post = [].
Proof.
  unfold WechatPay.buildWechatPaySettingsUpdates. intros E Hk.
  assert (Hsplit : exists fs f, WechatPay.fields initial next = fs ++ [f] /\
            (js "WechatPayEnabled" ∉ List.map field_key fs) /\ (length (push f) <= 1)%nat).
  { unfold WechatPay.fields.
    match goal with |- exists fs f, [?a; ?b; ?c; ?d; ?e; ?g; ?h; ?i; ?j; ?k; ?l] = _ /\ _ /\ _ =>
      exists [a; b; c; d; e; g; h; i; j; k], l end.
    split_and!; [done| |cbn; unfold pushChanged; case_test; cbn; lia].
    apply (bool_decide_eq_false_1 _). vm_compute. reflexivity. }
  destruct Hsplit as (fs & f & Hfs & Hnot & Hlen). rewrite Hfs in E.
  unfold updates_of in E. rewrite flat_map_app in E. fold (updates_of fs) in E.
  cbn [List.flat_map] in E. rewrite app_nil_r in E.
  destruct (push f) as [|x [|y r]]; cbn in Hlen; [| |lia].
  - exfalso. apply Hnot. rewrite <- Hk. apply updates_keys. rewrite app_nil_r in E.
    rewrite E. apply elem_of_app. right. by left.
  - destruct (decide (post = [])) as [|Hp]; [done|]. exfalso. apply Hnot. rewrite <- Hk.
    apply updates_keys.
    destruct post as [|z post] using rev_ind; [done|]. clear IHpost.
    rewrite app_comm_cons, app_assoc in E. apply app_inj_tail in E as [-> _].
    apply elem_of_app. right. by left.
Qed.

Lemma wechat_enable_last_witness :
  let v b s := WechatPay.Values b false (js "app") s [] [] [] [] [] num_zero num_zero [] in
  let us := WechatPay.buildWechatPaySettingsUpdates (v false []) (v true (js "mch")) in
  us = [Update (js "WechatPayMchId") (OStr (js "mch")); Update (js "WechatPayEnabled") (OBool true)] /\
  forall pre u post, us = pre ++ u :: post -> key u = js "WechatPayEnabled" -> post = [].
Proof.
  intros v us. split; [vm_compute; reflexivity|].
  intros pre u post. apply wechat_enable_last.
Defined.

(** ** The order of the activation amounts *)

(** The three amounts the server checks together, and the effect of one update
    on them. *)
Record Amounts := MkAmounts { am_price : num; am_level1 : num; am_level2 : num }.

Definition apply_amount (a : Amounts) (u : OptionUpdate) : Amounts :=
  match value u with
  | ONum x =>
      if key u =?= VIP_ACTIVATION_PRICE_KEY then MkAmounts x (am_level1 a) (am_level2 a)
      else if key u =?= VIP_ACTIVATION_LEVEL1_AMOUNT_KEY then MkAmounts (am_price a) x (am_level2 a)
      else if key u =?= VIP_ACTIVATION_LEVEL2_AMOUNT_KEY then MkAmounts (am_price a) (am_level1 a) x
      else a
  | _ => a
  end.

(** The check of the server: the commissions do not exceed the price. *)
Definition amounts_ok (a : Amounts) : bool :=
  num_leb (num_add (am_level1 a) (am_level2 a)) (am_price a).

Definition amounts_of (v : GeneralPaymentSettingsValues) : Amounts :=
  MkAmounts (VipActivationPrice v) (VvipActivationCommissionLevel1Amount v)
    (VvipActivationCommissionLevel2Amount v).

Lemma amount_keys :
  VIP_ACTIVATION_PRICE_KEY <> VIP_ACTIVATION_LEVEL1_AMOUNT_KEY /\
  VIP_ACTIVATION_PRICE_KEY <> VIP_ACTIVATION_LEVEL2_AMOUNT_KEY /\
  VIP_ACTIVATION_LEVEL1_AMOUNT_KEY <> VIP_ACTIVATION_LEVEL2_AMOUNT_KEY.
Proof. split_and!; apply (bool_decide_eq_false_1 _); vm_compute; reflexivity. Qed.

Lemma apply_amount_other a u : is_amount_key (key u) = false -> apply_amount a u = a.
Proof.
  unfold is_amount_key, apply_amount. intros [[-> ->]%orb_false_iff ->]%orb_false_iff.
  by destruct (value u).
Qed.

Lemma apply_amounts_other us a :
  Forall (fun u => is_amount_key (key u) = false) us -> fold_left apply_amount us a = a.
Proof. induction 1 as [|u us Hu _ IH]; cbn; [done|]. by rewrite apply_amount_other. Qed.

(** Finding the update of a field in the list of a form's updates. *)
Lemma find_updates fs f :
  NoDup (List.map field_key fs) -> f ∈ fs ->
  find_update (field_key f) (updates_of fs) = head (push f).
Proof.
  induction fs as [|g fs IH]; intros Hnd Hf; [by apply elem_of_nil in Hf|].
  cbn [List.map] in Hnd. apply NoDup_cons in Hnd as [Hg Hnd].
  assert (Happ : forall k a b, find_update k (a ++ b) =
            match find_update k a with Some u => Some u | None => find_update k b end).
  { intros k a b. unfold find_update. induction a as [|x a IHa]; cbn; [done|]. by case_test. }
  assert (Hnone : forall k us, k ∉ List.map key us -> find_update k us = None).
  { intros k us Hk. unfold find_update. destruct (List.find _ us) as [u|] eqn:E; [|done].
    apply List.find_some in E as [Hin Hu]. apply bool_decide_eq_true_1 in Hu. exfalso. apply Hk.
    rewrite list_elem_of_In, in_map_iff. eauto. }
  unfold updates_of. cbn [List.flat_map]. fold (updates_of fs). rewrite Happ.
  apply elem_of_cons in Hf as [->|Hf].
  - assert (Hp : find_update (field_key g) (push g) = head (push g)).
    { destruct (push g) as [|u us] eqn:E; [done|]. unfold find_update. cbn.
      destruct (push_key g u) as [-> _]; [rewrite E; by left|]. by rewrite bool_decide_true. }
    rewrite Hp. destruct (push g); cbn; [|done]. apply Hnone.
    rewrite list_elem_of_In, in_map_iff. intros (u & Hk & Hu). apply Hg. rewrite <- Hk.
    by apply updates_keys, list_elem_of_In.
  - rewrite Hnone; [by apply IH|]. rewrite list_elem_of_In, in_map_iff. intros (u & Hk & Hu).
    rewrite <- list_elem_of_In in Hu. apply push_key in Hu as [Hu _]. apply Hg.
    rewrite <- Hu, Hk. by apply list_elem_of_In, in_map, list_elem_of_In.
Qed.

(** Raising the price or lowering a commission keeps the check. *)
Definition finite (x : num) : Prop := wf_num x /\ is_finite x = true.

Lemma amounts_ok_mono p a b p' a' b' :
  finite p -> finite a -> finite b -> finite p' -> finite a' -> finite b' ->
  amounts_ok (MkAmounts p a b) = true ->
  num_leb a' a = true -> num_leb b' b = true -> num_leb p p' = true ->
  amounts_ok (MkAmounts p' a' b') = true.
Proof.
  unfold finite, amounts_ok. cbn. intros [? ?] [? ?] [? ?] [? ?] [? ?] [? ?] Hok Ha Hb Hp.
  apply (num_leb_trans _ p); [by apply num_add_wf|done|done| |done].
  apply (num_leb_trans _ (num_add a b)); [by apply num_add_wf|by apply num_add_wf|done| |done].
  by apply num_add_mono.
Qed.

(** The updates of the three amounts. *)
Definition price_updates (i n : GeneralPaymentSettingsValues) : list OptionUpdate :=
  pushChanged VIP_ACTIVATION_PRICE_KEY (ONum (VipActivationPrice i)) (ONum (VipActivationPrice n)).
Definition level1_updates (i n : GeneralPaymentSettingsValues) : list OptionUpdate :=
  pushChanged VIP_ACTIVATION_LEVEL1_AMOUNT_KEY (ONum (VvipActivationCommissionLevel1Amount i))
    (ONum (VvipActivationCommissionLevel1Amount n)).
Definition level2_updates (i n : GeneralPaymentSettingsValues) : list OptionUpdate :=
  pushChanged VIP_ACTIVATION_LEVEL2_AMOUNT_KEY (ONum (VvipActivationCommissionLevel2Amount i))
    (ONum (VvipActivationCommissionLevel2Amount n)).

Lemma updates_not_amount fs :
  forallb (fun f => negb (is_amount_key (field_key f))) fs = true ->
  Forall (fun u => is_amount_key (key u) = false) (updates_of fs).
Proof.
  intros Hfs. apply Forall_forall. intros u Hu. unfold updates_of in Hu.
  rewrite list_elem_of_In, in_flat_map in Hu. destruct Hu as (f & Hf & Hu).
  rewrite <- list_elem_of_In in Hu. apply push_key in Hu as [-> _].
  rewrite forallb_forall in Hfs. by apply negb_true_iff, Hfs.
Qed.

Lemma general_split i n :
  exists X Y,
    updates_of (general_fields i n) =
      X ++ price_updates i n ++ level1_updates i n ++ level2_updates i n ++ Y /\
    Forall (fun u => is_amount_key (key u) = false) X /\
    Forall (fun u => is_amount_key (key u) = false) Y.
Proof.
  unfold general_fields.
  match goal with |- context [updates_of [?a; ?b; ?c; ?d; ?e; ?p; ?l1; ?l2; ?x; ?y; ?z]] =>
    exists (updates_of [a; b; c; d; e]), (updates_of [x; y; z]) end.
  split_and!.
  - unfold updates_of. cbn [List.flat_map]. rewrite !app_nil_r, <- !app_assoc. reflexivity.
  - apply updates_not_amount. vm_compute. reflexivity.
  - apply updates_not_amount. vm_compute. reflexivity.
Qed.

Lemma filter_amount_key k i n :
  is_amount_key k = true ->
  List.filter (fun u => negb (is_amount_key (key u))) (pushChanged k i n) = [].
Proof. intros Hk. unfold pushChanged. case_test; cbn; [by rewrite Hk|done]. Qed.

Lemma amount_key_tests :
  is_amount_key VIP_ACTIVATION_PRICE_KEY = true /\
  is_amount_key VIP_ACTIVATION_LEVEL1_AMOUNT_KEY = true /\
  is_amount_key VIP_ACTIVATION_LEVEL2_AMOUNT_KEY = true.
Proof. vm_compute. done. Qed.

Lemma filter_parts (X P L1 L2 Y : list OptionUpdate) :
  let other := fun u => negb (is_amount_key (key u)) in
  Forall (fun u => is_amount_key (key u) = false) X ->
  Forall (fun u => is_amount_key (key u) = false) Y ->
  List.filter other P = [] -> List.filter other L1 = [] -> List.filter other L2 = [] ->
  List.filter other (X ++ P ++ L1 ++ L2 ++ Y) = X ++ Y.
Proof.
  intros other HX HY HP H1 H2. rewrite !lfilter_app, HP, H1, H2. cbn [app].
  rewrite !filter_all; [done|..]; (eapply Forall_impl; [eassumption|]; unfold other; by intros u ->).
Qed.

Lemma opt_list_push k i n : opt_list (head (pushChanged k i n)) = pushChanged k i n.
Proof. unfold pushChanged. by case_test. Qed.

Lemma find_general i n f :
  f ∈ general_fields i n ->
  find_update (field_key f) (updates_of (general_fields i n)) = head (push f).
Proof. intros Hf. apply find_updates; [|done]. revert Hf. intros _. distinct_keys. Qed.

(** The ordered list: everything else, then the amounts around the price. *)
Lemma order_general i n :
  let l1 := VvipActivationCommissionLevel1Amount in
  let l2 := VvipActivationCommissionLevel2Amount in
  exists X Y,
    updates_of (general_fields i n) =
      X ++ price_updates i n ++ level1_updates i n ++ level2_updates i n ++ Y /\
    Forall (fun u => is_amount_key (key u) = false) (X ++ Y) /\
    orderVipActivationCommissionUpdates (updates_of (general_fields i n)) i n =
      (X ++ Y) ++
      (if num_ltb (l1 n) (l1 i) then level1_updates i n else []) ++
      (if num_ltb (l2 n) (l2 i) then level2_updates i n else []) ++
      price_updates i n ++
      (if num_geb (l1 n) (l1 i) then level1_updates i n else []) ++
      (if num_geb (l2 n) (l2 i) then level2_updates i n else []).
Proof.
  intros l1 l2. destruct (general_split i n) as (X & Y & E & HX & HY). exists X, Y.
  split; [done|]. split; [by apply Forall_app|].
  assert (Hp : find_update VIP_ACTIVATION_PRICE_KEY (updates_of (general_fields i n)) =
               head (price_updates i n)).
  { pose proof (find_general i n (Changed VIP_ACTIVATION_PRICE_KEY (ONum (VipActivationPrice i))
               (ONum (VipActivationPrice n)))) as Hx.
    cbn [field_key push] in Hx. apply Hx. unfold general_fields. do 5 right. left. }
  assert (H1 : find_update VIP_ACTIVATION_LEVEL1_AMOUNT_KEY (updates_of (general_fields i n)) =
               head (level1_updates i n)).
  { pose proof (find_general i n (Changed VIP_ACTIVATION_LEVEL1_AMOUNT_KEY (ONum (VvipActivationCommissionLevel1Amount i))
               (ONum (VvipActivationCommissionLevel1Amount n)))) as Hx.
    cbn [field_key push] in Hx. apply Hx. unfold general_fields. do 6 right. left. }
  assert (H2 : find_update VIP_ACTIVATION_LEVEL2_AMOUNT_KEY (updates_of (general_fields i n)) =
               head (level2_updates i n)).
  { pose proof (find_general i n (Changed VIP_ACTIVATION_LEVEL2_AMOUNT_KEY (ONum (VvipActivationCommissionLevel2Amount i))
               (ONum (VvipActivationCommissionLevel2Amount n)))) as Hx.
    cbn [field_key push] in Hx. apply Hx. unfold general_fields. do 7 right. left. }
  assert (Hf : List.filter (fun u => negb (is_amount_key (key u))) (updates_of (general_fields i n)) = X ++ Y).
  { destruct amount_key_tests as (T0 & T1 & T2). rewrite E.
    apply filter_parts; [exact HX|exact HY|..].
    - exact (filter_amount_key _ _ _ T0).
    - exact (filter_amount_key _ _ _ T1).
    - exact (filter_amount_key _ _ _ T2). }
  unfold orderVipActivationCommissionUpdates. rewrite Hp, H1, H2, Hf.
  pose proof (opt_list_push _ _ _ : opt_list (head (price_updates i n)) = price_updates i n) as OP.
  pose proof (opt_list_push _ _ _ : opt_list (head (level1_updates i n)) = level1_updates i n) as O1.
  pose proof (opt_list_push _ _ _ : opt_list (head (level2_updates i n)) = level2_updates i n) as O2.
  clear Hp H1 H2 Hf. rewrite E. clear E.
  generalize dependent (price_updates i n). generalize dependent (level1_updates i n).
  generalize dependent (level2_updates i n). intros L2 O2 L1 O1 P OP.
  destruct (head P) as [p|], (head L1) as [a|], (head L2) as [b|]; cbn in OP, O1, O2;
    subst P L1 L2; try done.
  repeat case_test; cbn; by rewrite app_nil_r.
Qed.

Lemma apply_price a x :
  apply_amount a (Update VIP_ACTIVATION_PRICE_KEY (ONum x)) = MkAmounts x (am_level1 a) (am_level2 a).
Proof. unfold apply_amount. cbn [key value]. by rewrite bool_decide_true. Qed.

Lemma apply_level1 a x :
  apply_amount a (Update VIP_ACTIVATION_LEVEL1_AMOUNT_KEY (ONum x)) =
  MkAmounts (am_price a) x (am_level2 a).
Proof.
  destruct amount_keys as (K1 & _). unfold apply_amount. cbn [key value].
  rewrite bool_decide_false by congruence. by rewrite bool_decide_true.
Qed.

Lemma apply_level2 a x :
  apply_amount a (Update VIP_ACTIVATION_LEVEL2_AMOUNT_KEY (ONum x)) =
  MkAmounts (am_price a) (am_level1 a) x.
Proof.
  destruct amount_keys as (_ & K2 & K3). unfold apply_amount. cbn [key value].
  rewrite !bool_decide_false by congruence. by rewrite bool_decide_true.
Qed.

(** How the two values of one amount are ordered, and what is sent for it. *)
Lemma amount_cases k x y :
  finite x -> finite y ->
  (num_ltb y x = true /\ num_geb y x = false /\ num_leb y x = true /\
   pushChanged k (ONum x) (ONum y) = [Update k (ONum y)]) \/
  (num_ltb y x = false /\ num_geb y x = true /\ num_leb x y = true /\
   (pushChanged k (ONum x) (ONum y) = [Update k (ONum y)] \/
    pushChanged k (ONum x) (ONum y) = [] /\ num_leb y x = true)).
Proof.
  intros [_ Fx] [_ Fy]. apply is_finite_not_nan in Fx, Fy. unfold pushChanged, num_geb. cbn [same_value].
  destruct (num_ltb y x) eqn:El.
  - left. pose proof (num_ltb_leb y x El) as Hle.
    destruct (num_leb x y) eqn:Eg; [apply num_leb_ltb in Eg; congruence|].
    destruct (num_eqb y x) eqn:Ee; [|done]. apply num_eqb_leb in Ee as [_ Ee]. congruence.
  - right. pose proof (num_not_ltb y x Fy Fx El) as Hle.
    destruct (num_eqb y x) eqn:Ee; [apply num_eqb_leb in Ee as [Ee _]|];
      cbn [negb]; (split_and!; [done..|]); auto.
Qed.

Lemma price_cases k x y :
  finite x -> finite y ->
  pushChanged k (ONum x) (ONum y) = [Update k (ONum y)] \/
  (pushChanged k (ONum x) (ONum y) = [] /\ num_leb y x = true /\ num_leb x y = true).
Proof.
  intros _ _. unfold pushChanged. cbn [same_value].
  destruct (num_eqb y x) eqn:Ee; [right; apply num_eqb_leb in Ee as [? ?]; done|by left].
Qed.

Lemma finite_refl x : finite x -> num_leb x x = true.
Proof. intros [_ F]. by apply num_leb_refl, is_finite_not_nan. Qed.

#[local] Opaque num_leb num_ltb num_geb num_eqb num_add wf_num is_finite amounts_ok apply_amount.
#[local] Opaque VIP_ACTIVATION_PRICE_KEY VIP_ACTIVATION_LEVEL1_AMOUNT_KEY VIP_ACTIVATION_LEVEL2_AMOUNT_KEY.

Section Ordering.
Variables (p0 a0 b0 p1 a1 b1 : num).
Hypothesis Fp0 : finite p0.
Hypothesis Fa0 : finite a0.
Hypothesis Fb0 : finite b0.
Hypothesis Fp1 : finite p1.
Hypothesis Fa1 : finite a1.
Hypothesis Fb1 : finite b1.

Let P := pushChanged VIP_ACTIVATION_PRICE_KEY (ONum p0) (ONum p1).
Let L1 := pushChanged VIP_ACTIVATION_LEVEL1_AMOUNT_KEY (ONum a0) (ONum a1).
Let L2 := pushChanged VIP_ACTIVATION_LEVEL2_AMOUNT_KEY (ONum b0) (ONum b1).

(** The amounts as they are sent: falling commissions, the price, the others. *)
Definition ordered_amounts : list OptionUpdate :=
  (if num_ltb a1 a0 then L1 else []) ++ (if num_ltb b1 b0 then L2 else []) ++ P ++
  (if num_geb a1 a0 then L1 else []) ++ (if num_geb b1 b0 then L2 else []).

Lemma ordered_perm : ordered_amounts ≡ₚ P ++ L1 ++ L2.
Proof.
  unfold ordered_amounts.
  destruct (amount_cases VIP_ACTIVATION_LEVEL1_AMOUNT_KEY a0 a1 Fa0 Fa1) as [(-> & -> & _)|(-> & -> & _)];
  destruct (amount_cases VIP_ACTIVATION_LEVEL2_AMOUNT_KEY b0 b1 Fb0 Fb1) as [(-> & -> & _)|(-> & -> & _)];
  clearbody P L1 L2; rewrite ?app_nil_l, ?app_nil_r.
  - rewrite app_assoc. apply Permutation_app_comm.
  - rewrite !app_assoc. apply Permutation_app_tail, Permutation_app_comm.
  - rewrite app_assoc, (Permutation_app_comm L2 P), <- app_assoc.
    apply Permutation_app_head, Permutation_app_comm.
  - done.
Qed.

Lemma ordered_prefix_ok k :
  amounts_ok (MkAmounts p0 a0 b0) = true -> amounts_ok (MkAmounts p1 a1 b1) = true ->
  amounts_ok (fold_left apply_amount (take k ordered_amounts) (MkAmounts p0 a0 b0)) = true.
Proof.
  intros Ok0 Ok1.
  assert (Hok : forall p a b, finite p -> finite a -> finite b ->
     (num_leb a a0 = true /\ num_leb b b0 = true /\ num_leb p0 p = true) \/
     (num_leb a a1 = true /\ num_leb b b1 = true /\ num_leb p1 p = true) ->
     amounts_ok (MkAmounts p a b) = true).
  { intros p a b ? ? ? [(? & ? & ?)|(? & ? & ?)];
      [by apply (amounts_ok_mono p0 a0 b0)|by apply (amounts_ok_mono p1 a1 b1)]. }
  pose proof (finite_refl a0 Fa0). pose proof (finite_refl b0 Fb0). pose proof (finite_refl p0 Fp0).
  pose proof (finite_refl a1 Fa1). pose proof (finite_refl b1 Fb1). pose proof (finite_refl p1 Fp1).
  unfold ordered_amounts, P, L1, L2. clear P L1 L2.
  pose proof (amount_cases VIP_ACTIVATION_LEVEL1_AMOUNT_KEY a0 a1 Fa0 Fa1) as C1.
  pose proof (amount_cases VIP_ACTIVATION_LEVEL2_AMOUNT_KEY b0 b1 Fb0 Fb1) as C2.
  pose proof (price_cases VIP_ACTIVATION_PRICE_KEY p0 p1 Fp0 Fp1) as C0.
  pose proof apply_price as A0. pose proof apply_level1 as A1. pose proof apply_level2 as A2.
  generalize dependent VIP_ACTIVATION_PRICE_KEY. intros kp C0 A0.
  generalize dependent VIP_ACTIVATION_LEVEL1_AMOUNT_KEY. intros k1 C1 A1.
  generalize dependent VIP_ACTIVATION_LEVEL2_AMOUNT_KEY. intros k2 C2 A2.
  destruct C1 as [(-> & -> & La & ->)|(-> & -> & La & [->|[-> La']])];
  destruct C2 as [(-> & -> & Lb & ->)|(-> & -> & Lb & [->|[-> Lb']])];
  destruct C0 as [->|(-> & Lp & Lp')];
  cbn [app]; destruct k as [|[|[|k]]]; cbn [take fold_left];
  rewrite ?take_nil; cbn [fold_left];
  rewrite ?A0, ?A1, ?A2; cbn [am_price am_level1 am_level2];
  (apply Hok; [assumption..|]); first [left; split_and!; assumption|right; split_and!; assumption].
Qed.
End Ordering.

(** C6: saving the activation amounts never passes through a state the server
    rejects.  When the stored commissions fit the stored price and the new ones
    fit the new price, then after every prefix of the ordered updates the
    commissions fit the price, whatever rises or falls; and ordering only
    permutes the updates, so none is lost or repeated. *)
Theorem vip_updates_never_rejected initial next k :
  let i := amounts_of initial in
  let n := amounts_of next in
  finite (am_price i) -> finite (am_level1 i) -> finite (am_level2 i) ->
  finite (am_price n) -> finite (am_level1 n) -> finite (am_level2 n) ->
  amounts_ok i = true -> amounts_ok n = true ->
  let us := buildGeneralPaymentSettingsUpdates initial next in
  amounts_ok (fold_left apply_amount (take k us) i) = true /\
  us ≡ₚ updates_of (form_fields initial next).
Proof.
  intros i n Fp0 Fa0 Fb0 Fp1 Fa1 Fb1 Ok0 Ok1 us.
  destruct (order_general (sanitize_general initial) (sanitize_general next))
    as (X & Y & E & HXY & Eo).
  unfold us, buildGeneralPaymentSettingsUpdates. rewrite Eo.
  change (updates_of (form_fields initial next)) with
    (updates_of (general_fields (sanitize_general initial) (sanitize_general next))). rewrite E.
  unfold price_updates, level1_updates, level2_updates. clear E Eo us.
  rewrite take_app, fold_left_app, (apply_amounts_other (take _ (X ++ Y))) by (by apply Forall_take).
  split; [by apply ordered_prefix_ok|].
  etrans; [apply Permutation_app_head, ordered_perm; done|].
  rewrite <- !app_assoc. apply Permutation_app_head.
  rewrite (Permutation_app_comm Y). by rewrite <- !app_assoc.
Qed.

Lemma vip_updates_never_rejected_witness :
  let v (p a b : Z) := General (num_of_Z 1) (num_of_Z 1) (num_of_Z 1) (num_of_Z 1) (num_of_Z 1)
                   (num_of_Z p) (num_of_Z a) (num_of_Z b) [] [] [] in
  let us := buildGeneralPaymentSettingsUpdates (v 100%Z 60%Z 40%Z) (v 50%Z 10%Z 40%Z) in
  List.map value us = [ONum (num_of_Z 10); ONum (num_of_Z 50)] /\
  amounts_ok (fold_left apply_amount (take 1 us) (amounts_of (v 100%Z 60%Z 40%Z))) = true.
Proof.
  intros v us. split; [vm_compute; reflexivity|].
  apply (vip_updates_never_rejected (v 100%Z 60%Z 40%Z) (v 50%Z 10%Z 40%Z) 1).
  all: try (split; vm_compute; reflexivity).
  all: vm_compute; reflexivity.
Defined.

(** ** What each form sends *)

(** What becomes of one option: a text, compared after its normalization; a
    number; a switch; a secret, for which a blank field means no change; a JSON
    text, compared by its content.  [None]: nothing is sent. *)
Definition text_change (normal : jstr -> jstr) (i n : jstr) : option OptionValue :=
  if normal n =?= normal i then None else Some (OStr (normal n)).
Definition num_change (i n : num) : option OptionValue :=
  if num_eqb n i then None else Some (ONum n).
Definition bool_change (i n : bool) : option OptionValue :=
  if Bool.eqb n i then None else Some (OBool n).
Definition secret_change (i n : jstr) : option OptionValue :=
  if (trim n =?= []) || (trim n =?= trim i) then None else Some (OStr (trim n)).
Definition json_change (i n : jstr) : option OptionValue :=
  if normalizeJsonForComparison (trim n) =?= normalizeJsonForComparison (trim i) then None
  else Some (OStr (trim n)).

(** The options of each form, with the field of the form that each shows. *)
Definition epay_changes (i n : Epay.EpaySettingsValues) : list (jstr * option OptionValue) :=
  [(js "PayAddress", text_change removeTrailingSlash (Epay.PayAddress i) (Epay.PayAddress n));
   (js "EpayId", text_change trim (Epay.EpayId i) (Epay.EpayId n));
   (js "EpayKey", secret_change (Epay.EpayKey i) (Epay.EpayKey n));
   (js "CustomCallbackAddress", text_change removeTrailingSlash (Epay.CustomCallbackAddress i) (Epay.CustomCallbackAddress n))].

Definition stripe_changes (i n : Stripe.StripeSettingsValues) : list (jstr * option OptionValue) :=
  [(js "StripeApiSecret", secret_change (Stripe.StripeApiSecret i) (Stripe.StripeApiSecret n));
   (js "StripeWebhookSecret", secret_change (Stripe.StripeWebhookSecret i) (Stripe.StripeWebhookSecret n));
   (js "StripePriceId", text_change trim (Stripe.StripePriceId i) (Stripe.StripePriceId n));
   (js "StripeUnitPrice", num_change (Stripe.StripeUnitPrice i) (Stripe.StripeUnitPrice n));
   (js "StripeMinTopUp", num_change (Stripe.StripeMinTopUp i) (Stripe.StripeMinTopUp n));
   (js "StripePromotionCodesEnabled", bool_change (Stripe.StripePromotionCodesEnabled i) (Stripe.StripePromotionCodesEnabled n))].

Definition creem_changes (i n : Creem.CreemSettingsValues) : list (jstr * option OptionValue) :=
  [(js "CreemApiKey", secret_change (Creem.CreemApiKey i) (Creem.CreemApiKey n));
   (js "CreemWebhookSecret", secret_change (Creem.CreemWebhookSecret i) (Creem.CreemWebhookSecret n));
   (js "CreemTestMode", bool_change (Creem.CreemTestMode i) (Creem.CreemTestMode n));
   (js "CreemProducts", json_change (Creem.CreemProducts i) (Creem.CreemProducts n))].

Definition alipay_changes (i n : Alipay.AlipaySettingsValues) : list (jstr * option OptionValue) :=
  [(js "AlipayEnabled", bool_change (Alipay.AlipayEnabled i) (Alipay.AlipayEnabled n));
   (js "AlipaySandbox", bool_change (Alipay.AlipaySandbox i) (Alipay.AlipaySandbox n));
   (js "AlipayAppId", text_change trim (Alipay.AlipayAppId i) (Alipay.AlipayAppId n));
   (js "AlipayPrivateKey", secret_change (Alipay.AlipayPrivateKey i) (Alipay.AlipayPrivateKey n));
   (js "AlipayPublicKey", secret_change (Alipay.AlipayPublicKey i) (Alipay.AlipayPublicKey n));
   (js "AlipayUnitPrice", num_change (Alipay.AlipayUnitPrice i) (Alipay.AlipayUnitPrice n));
   (js "AlipayMinTopUp", num_change (Alipay.AlipayMinTopUp i) (Alipay.AlipayMinTopUp n));
   (js "AlipayReturnUrl", text_change removeTrailingSlash (Alipay.AlipayReturnUrl i) (Alipay.AlipayReturnUrl n));
   (js "AlipayNotifyUrl", text_change removeTrailingSlash (Alipay.AlipayNotifyUrl i) (Alipay.AlipayNotifyUrl n))].

Definition wechat_changes (i n : WechatPay.WechatPaySettingsValues) : list (jstr * option OptionValue) :=
  [(js "WechatPayAppId", text_change trim (WechatPay.WechatPayAppId i) (WechatPay.WechatPayAppId n));
   (js "WechatPayMchId", text_change trim (WechatPay.WechatPayMchId i) (WechatPay.WechatPayMchId n));
   (js "WechatPayMerchantSerialNo", text_change trim (WechatPay.WechatPayMerchantSerialNo i) (WechatPay.WechatPayMerchantSerialNo n));
   (js "WechatPayMerchantPrivateKey", secret_change (WechatPay.WechatPayMerchantPrivateKey i) (WechatPay.WechatPayMerchantPrivateKey n));
   (js "WechatPayAPIv3Key", secret_change (WechatPay.WechatPayAPIv3Key i) (WechatPay.WechatPayAPIv3Key n));
   (js "WechatPayPlatformSerialNo", text_change trim (WechatPay.WechatPayPlatformSerialNo i) (WechatPay.WechatPayPlatformSerialNo n));
   (js "WechatPayPlatformPublicKey", secret_change (WechatPay.WechatPayPlatformPublicKey i) (WechatPay.WechatPayPlatformPublicKey n));
   (js "WechatPayUnitPrice", num_change (WechatPay.WechatPayUnitPrice i) (WechatPay.WechatPayUnitPrice n));
   (js "WechatPayMinTopUp", num_change (WechatPay.WechatPayMinTopUp i) (WechatPay.WechatPayMinTopUp n));
   (js "WechatPayNotifyUrl", text_change removeTrailingSlash (WechatPay.WechatPayNotifyUrl i) (WechatPay.WechatPayNotifyUrl n));
   (js "WechatPayEnabled", bool_change (WechatPay.WechatPayEnabled i) (WechatPay.WechatPayEnabled n))].

Definition general_changes (i n : GeneralPaymentSettingsValues) : list (jstr * option OptionValue) :=
  [(js "Price", num_change (Price i) (Price n));
   (js "MinTopUp", num_change (MinTopUp i) (MinTopUp n));
   (js "payment_setting.commission_min_withdraw_amount", num_change (CommissionMinWithdrawAmount i) (CommissionMinWithdrawAmount n));
   (js "payment_setting.default_user_topup_discount", num_change (DefaultUserTopupDiscount i) (DefaultUserTopupDiscount n));
   (js "payment_setting.default_vvip_topup_discount", num_change (DefaultVvipTopupDiscount i) (DefaultVvipTopupDiscount n));
   (js "payment_setting.vip_activation_price", num_change (VipActivationPrice i) (VipActivationPrice n));
   (js "payment_setting.vip_activation_commission_level1_amount", num_change (VvipActivationCommissionLevel1Amount i) (VvipActivationCommissionLevel1Amount n));
   (js "payment_setting.vip_activation_commission_level2_amount", num_change (VvipActivationCommissionLevel2Amount i) (VvipActivationCommissionLevel2Amount n));
   (js "PayMethods", json_change (PayMethods i) (PayMethods n));
   (js "payment_setting.amount_options", json_change (AmountOptions i) (AmountOptions n));
   (js "payment_setting.amount_discount", json_change (AmountDiscount i) (AmountDiscount n))].

Definition qiniu_changes (toLowerCase : jstr -> jstr) (i n : Qiniu.QiniuSettingsValues)
  : list (jstr * option OptionValue) :=
  [(js "qiniu_key_setting.enabled",
    bool_change (Qiniu.Enabled i) (Qiniu.Enabled n));
   (js "qiniu_key_setting.base_url",
    text_change removeTrailingSlash (Qiniu.BaseURL i) (Qiniu.BaseURL n));
   (js "qiniu_key_setting.child_account_base_url",
    text_change (fun s => Qiniu.str_or (removeTrailingSlash s) (js "https://api.qiniu.com")) (Qiniu.ChildAccountBaseURL i) (Qiniu.ChildAccountBaseURL n));
   (js "qiniu_key_setting.access_key",
    secret_change (Qiniu.AccessKey i) (Qiniu.AccessKey n));
   (js "qiniu_key_setting.secret_key",
    secret_change (Qiniu.SecretKey i) (Qiniu.SecretKey n));
   (js "qiniu_key_setting.request_timeout",
    num_change (Qiniu.RequestTimeout i) (Qiniu.RequestTimeout n));
   (js "qiniu_key_setting.retry_interval_seconds",
    num_change (Qiniu.RetryIntervalSeconds i) (Qiniu.RetryIntervalSeconds n));
   (js "qiniu_key_setting.official_ledger_enabled",
    bool_change (Qiniu.OfficialLedgerEnabled i) (Qiniu.OfficialLedgerEnabled n));
   (js "qiniu_key_setting.official_ledger_cutover_time",
    num_change (Qiniu.OfficialLedgerCutoverTime i) (Qiniu.OfficialLedgerCutoverTime n));
   (js "qiniu_key_setting.official_ledger_sync_interval_seconds",
    num_change (Qiniu.OfficialLedgerSyncIntervalSeconds i) (Qiniu.OfficialLedgerSyncIntervalSeconds n));
   (js "qiniu_key_setting.official_ledger_window_hours",
    num_change (Qiniu.OfficialLedgerWindowHours i) (Qiniu.OfficialLedgerWindowHours n));
   (js "qiniu_key_setting.official_ledger_window_days",
    num_change (Qiniu.OfficialLedgerWindowDays i) (Qiniu.OfficialLedgerWindowDays n));
   (js "qiniu_key_setting.official_ledger_batch_size",
    num_change (Qiniu.OfficialLedgerBatchSize i) (Qiniu.OfficialLedgerBatchSize n));
   (js "qiniu_key_setting.official_ledger_rate_limit_per_second",
    num_change (Qiniu.OfficialLedgerRateLimitPerSecond i) (Qiniu.OfficialLedgerRateLimitPerSecond n));
   (js "qiniu_key_setting.official_ledger_retry_interval_seconds",
    num_change (Qiniu.OfficialLedgerRetryIntervalSeconds i) (Qiniu.OfficialLedgerRetryIntervalSeconds n));
   (js "qiniu_key_setting.cost_detail_cutover_time",
    num_change (Qiniu.CostDetailCutoverTime i) (Qiniu.CostDetailCutoverTime n));
   (js "qiniu_key_setting.cost_detail_lookback_days",
    num_change (Qiniu.CostDetailLookbackDays i) (Qiniu.CostDetailLookbackDays n));
   (js "qiniu_key_setting.cost_detail_auto_apply_enabled",
    bool_change (Qiniu.CostDetailAutoApplyEnabled i) (Qiniu.CostDetailAutoApplyEnabled n));
   (js "qiniu_key_setting.market_catalog_enabled",
    bool_change (Qiniu.MarketCatalogEnabled i) (Qiniu.MarketCatalogEnabled n));
   (js "qiniu_key_setting.market_catalog_base_url",
    text_change removeTrailingSlash (Qiniu.MarketCatalogBaseURL i) (Qiniu.MarketCatalogBaseURL n));
   (js "qiniu_key_setting.market_catalog_ttl_seconds",
    num_change (Qiniu.MarketCatalogTTLSeconds i) (Qiniu.MarketCatalogTTLSeconds n));
   (js "qiniu_key_setting.market_catalog_overseas",
    bool_change (Qiniu.MarketCatalogOverseas i) (Qiniu.MarketCatalogOverseas n));
   (js "qiniu_key_setting.market_catalog_fallback_enabled",
    bool_change (Qiniu.MarketCatalogFallbackEnabled i) (Qiniu.MarketCatalogFallbackEnabled n));
   (js "qiniu_key_setting.child_account_email_domain",
    text_change (fun s => Qiniu.str_or (Qiniu.strip_at (toLowerCase (trim s))) (js "uk72.cn")) (Qiniu.ChildAccountEmailDomain i) (Qiniu.ChildAccountEmailDomain n));
   (js "qiniu_key_setting.child_account_email_prefix",
    text_change (fun s => Qiniu.str_or (trim s) (js "child")) (Qiniu.ChildAccountEmailPrefix i) (Qiniu.ChildAccountEmailPrefix n));
   (js "qiniu_key_setting.child_account_password_length",
    num_change (Qiniu.ChildAccountPasswordLength i) (Qiniu.ChildAccountPasswordLength n));
   (js "qiniu_key_setting.child_account_request_timeout",
    num_change (Qiniu.ChildAccountRequestTimeout i) (Qiniu.ChildAccountRequestTimeout n));
   (js "qiniu_key_setting.child_account_retry_interval_seconds",
    num_change (Qiniu.ChildAccountRetryIntervalSeconds i) (Qiniu.ChildAccountRetryIntervalSeconds n));
   (js "qiniu_key_setting.child_account_binding_enabled",
    bool_change (Qiniu.ChildAccountBindingEnabled i) (Qiniu.ChildAccountBindingEnabled n));
   (js "qiniu_key_setting.child_account_assignment_mode",
    text_change (fun s => if toLowerCase (trim s) =?= js "one_key_one_child" then js "one_key_one_child" else js "parent_only") (Qiniu.ChildAccountAssignmentMode i) (Qiniu.ChildAccountAssignmentMode n));
   (js "qiniu_key_setting.child_account_binding_cutover_time",
    num_change (Qiniu.ChildAccountBindingCutoverTime i) (Qiniu.ChildAccountBindingCutoverTime n))].

(** The updates realise the changes: every change is sent, once, and nothing else;
    a server that stores them has the new value of every changed option and its
    old value of every other one. *)
Definition sends (us : list OptionUpdate) (changes : list (jstr * option OptionValue)) : Prop :=
  NoDup (List.map key us) /\
  (forall k v, Update k v ∈ us <-> (k, Some v) ∈ changes) /\
  (forall store k, apply_updates us store !! k =
     match obj_get k changes with Some (Some v) => Some v | _ => store !! k end).

Definition change_of (f : Field) : jstr * option OptionValue :=
  (field_key f, option_map value (head (push f))).

Lemma push_change f :
  push f = match (change_of f).2 with Some v => [Update (field_key f) v] | None => [] end.
Proof. destruct f; cbn; unfold pushChanged, pushSecretChanged, pushJsonChanged; by case_test. Qed.

Lemma apply_found us store k v :
  NoDup (List.map key us) -> Update k v ∈ us -> apply_updates us store !! k = Some v.
Proof.
  intros Hnd Hin. revert store. induction us as [|u us IH]; intros store; [by apply elem_of_nil in Hin|].
  cbn [List.map] in Hnd. apply NoDup_cons in Hnd as [Hu Hnd].
  change (apply_updates (u :: us) store) with (apply_updates us (apply_update store u)).
  apply elem_of_cons in Hin as [<-|Hin]; [|by apply IH].
  rewrite apply_other; [unfold apply_update; cbn; by rewrite lookup_insert_eq|].
  apply Forall_forall. intros u' Hu' Hk. apply Hu. cbn [key]. rewrite <- Hk.
  by apply list_elem_of_In, in_map, list_elem_of_In.
Qed.

Lemma obj_get_elem {V} k (x : V) o : NoDup (obj_keys o) -> obj_get k o = Some x <-> (k, x) ∈ o.
Proof.
  induction o as [|[k' y] o IH]; cbn; intros Hnd; [by rewrite elem_of_nil|].
  apply NoDup_cons in Hnd as [Hk Hnd]. rewrite elem_of_cons. case_bool_decide as E.
  - subst. split; [intros [= ->]; by left|]. intros [[= ->]|Hin]; [done|]. destruct Hk.
    apply list_elem_of_In, (in_map fst _ (k', x)), list_elem_of_In, Hin.
  - rewrite IH by done. split; [by right|]. intros [[= -> ->]|?]; done.
Qed.

Lemma sends_intro us changes :
  NoDup (List.map key us) -> NoDup (obj_keys changes) ->
  (forall k v, Update k v ∈ us <-> (k, Some v) ∈ changes) -> sends us changes.
Proof.
  intros Hnd Hkeys Hin. split_and!; [done|done|]. intros store k.
  destruct (obj_get k changes) as [[v|]|] eqn:E.
  - apply apply_found; [done|]. by apply Hin, obj_get_elem.
  - apply apply_other, Forall_forall. intros [k' v] Hu Hk. cbn in Hk. subst k'.
    apply Hin, obj_get_elem in Hu; [|done]. congruence.
  - apply apply_other, Forall_forall. intros [k' v] Hu Hk. cbn in Hk. subst k'.
    apply Hin, obj_get_elem in Hu; [|done]. congruence.
Qed.

Lemma fields_keys fs : NoDup (List.map field_key fs) -> NoDup (List.map key (updates_of fs)).
Proof.
  induction fs as [|f fs IH]; intros Hnd; [constructor|]. cbn [List.map] in Hnd.
  apply NoDup_cons in Hnd as [Hf Hnd]. unfold updates_of. cbn [List.flat_map]. fold (updates_of fs).
  rewrite push_change. destruct ((change_of f).2); [|by apply IH]. cbn [List.map app key].
  apply NoDup_cons. split; [|by apply IH].
  intros Hin. apply list_elem_of_In, in_map_iff in Hin as (u & Hk & Hu).
  apply Hf. rewrite <- Hk. by apply updates_keys, list_elem_of_In.
Qed.

Lemma fields_send us fs :
  NoDup (List.map field_key fs) -> us ≡ₚ updates_of fs -> sends us (List.map change_of fs).
Proof.
  intros Hnd Hp. apply sends_intro.
  - rewrite (Permutation_map key Hp). by apply fields_keys.
  - unfold obj_keys. rewrite List.map_map. exact Hnd.
  - intros k v. rewrite Hp. clear Hp Hnd. induction fs as [|f fs IH].
    + cbn. by rewrite !elem_of_nil.
    + unfold updates_of. cbn [List.flat_map List.map]. fold (updates_of fs).
      rewrite elem_of_app, elem_of_cons, IH, push_change.
      change (change_of f) with (field_key f, (change_of f).2).
      destruct ((change_of f).2) as [w|]; cbn [snd].
      * rewrite list_elem_of_singleton. split; (intros [E|?]; [left|by right]); congruence.
      * rewrite elem_of_nil. split; (intros [E|?]; [|by right]); [done|congruence].
Qed.

(** Ordering only permutes the updates of the general form. *)
Lemma general_perm initial next :
  let l1 := VvipActivationCommissionLevel1Amount in
  let l2 := VvipActivationCommissionLevel2Amount in
  finite (l1 initial) -> finite (l2 initial) -> finite (l1 next) -> finite (l2 next) ->
  buildGeneralPaymentSettingsUpdates initial next ≡ₚ
  updates_of (general_fields (sanitize_general initial) (sanitize_general next)).
Proof.
  intros l1 l2 Fa0 Fb0 Fa1 Fb1.
  destruct (order_general (sanitize_general initial) (sanitize_general next))
    as (X & Y & E & HXY & Eo).
  unfold buildGeneralPaymentSettingsUpdates. rewrite Eo, E.
  etrans; [apply Permutation_app_head, ordered_perm; done|].
  rewrite <- !app_assoc. apply Permutation_app_head.
  rewrite (Permutation_app_comm Y). by rewrite <- !app_assoc.
Qed.

(** The changes are those of the fields, kind by kind. *)
Lemma change_text normal k i n :
  change_of (Changed k (OStr (normal i)) (OStr (normal n))) = (k, text_change normal i n).
Proof. unfold change_of, text_change. cbn. unfold pushChanged. cbn. by case_bool_decide. Qed.

Lemma change_num k i n : change_of (Changed k (ONum i) (ONum n)) = (k, num_change i n).
Proof. unfold change_of, num_change. cbn. unfold pushChanged. cbn [same_value]. by destruct (num_eqb n i). Qed.

Lemma change_bool k i n : change_of (Changed k (OBool i) (OBool n)) = (k, bool_change i n).
Proof. unfold change_of, bool_change. cbn. unfold pushChanged. cbn [same_value]. by destruct i, n. Qed.

Lemma change_secret k i n : change_of (SecretChanged k (trim i) (trim n)) = (k, secret_change i n).
Proof.
  unfold change_of, secret_change. cbn. unfold pushSecretChanged.
  destruct (trim n) as [|c r]; [done|]. rewrite (bool_decide_false (c :: r = [])) by done. cbn.
  by case_bool_decide.
Qed.

Lemma change_json k i n : change_of (JsonChanged k (trim i) (trim n)) = (k, json_change i n).
Proof. unfold change_of, json_change. cbn. unfold pushJsonChanged. by case_bool_decide. Qed.

Lemma sends_as us changes fs :
  List.map change_of fs = changes -> NoDup (List.map field_key fs) -> us ≡ₚ updates_of fs ->
  sends us changes.
Proof. intros <-. apply fields_send. Qed.

(** The fields of a form, one after the other. *)
Ltac same_change :=
  match goal with
  | |- _ = (?k, text_change ?f ?i ?n) => exact (change_text f k i n)
  | |- _ = (?k, num_change ?i ?n) => exact (change_num k i n)
  | |- _ = (?k, bool_change ?i ?n) => exact (change_bool k i n)
  | |- _ = (?k, secret_change ?i ?n) => exact (change_secret k i n)
  | |- _ = (?k, json_change ?i ?n) => exact (change_json k i n)
  end.

Ltac same_changes changes fields :=
  unfold changes, fields; cbv zeta; cbn [List.map];
  repeat (apply f_equal2; [same_change|]); reflexivity.

(** C5: saving a settings form sends what the form shows.  For each of the seven
    forms (easy pay, Stripe, Creem, Alipay, WeChat Pay, the general payment
    settings and the cloud keys), the updates computed from the initial and the
    edited values contain exactly one update for every option whose field changed,
    under the key of that option and with the normalized text, number or switch of
    its own field, and nothing else: a field that shows the same normalized value
    is not sent, a secret left blank is not sent, a JSON text is sent when its
    content changed.  So whatever options the server has before, after the save
    every changed option has its new value and every other option the one it had.
    For the general form the two commission amounts are finite, as its schema
    demands.  The sandbox switch of WeChat Pay is no option of its form. *)
Theorem settings_save_exact :
  (forall i n, sends (Epay.buildEpaySettingsUpdates i n) (epay_changes i n)) /\
  (forall i n, sends (Stripe.buildStripeSettingsUpdates i n) (stripe_changes i n)) /\
  (forall i n, sends (Creem.buildCreemSettingsUpdates i n) (creem_changes i n)) /\
  (forall i n, sends (Alipay.buildAlipaySettingsUpdates i n) (alipay_changes i n)) /\
  (forall i n, sends (WechatPay.buildWechatPaySettingsUpdates i n) (wechat_changes i n)) /\
  (forall toLowerCase i n,
     sends (Qiniu.buildQiniuSettingsUpdates toLowerCase i n) (qiniu_changes toLowerCase i n)) /\
  (forall i n,
     finite (VvipActivationCommissionLevel1Amount i) -> finite (VvipActivationCommissionLevel2Amount i) ->
     finite (VvipActivationCommissionLevel1Amount n) -> finite (VvipActivationCommissionLevel2Amount n) ->
     sends (buildGeneralPaymentSettingsUpdates i n) (general_changes i n)).
Proof.
  split_and!.
  - intros i n. apply (sends_as _ _ (Epay.fields i n)); [same_changes epay_changes Epay.fields|distinct_keys|done].
  - intros i n. apply (sends_as _ _ (Stripe.fields i n)); [same_changes stripe_changes Stripe.fields|distinct_keys|done].
  - intros i n. apply (sends_as _ _ (Creem.fields i n)); [same_changes creem_changes Creem.fields|distinct_keys|done].
  - intros i n. apply (sends_as _ _ (Alipay.fields i n)); [same_changes alipay_changes Alipay.fields|distinct_keys|done].
  - intros i n. apply (sends_as _ _ (WechatPay.fields i n));
      [same_changes wechat_changes WechatPay.fields|distinct_keys|done].
  - intros lower i n. apply (sends_as _ _ (Qiniu.fields lower i n));
      [same_changes qiniu_changes Qiniu.fields|distinct_keys|done].
  - intros i n Fa0 Fb0 Fa1 Fb1.
    apply (sends_as _ _ (general_fields (sanitize_general i) (sanitize_general n)));
      [same_changes general_changes general_fields|distinct_keys|by apply general_perm].
Qed.

(** A changed merchant, a new address with a slash too many, a blank secret. *)
Lemma settings_save_exact_witness :
  let i := Epay.Values (js "https://pay") (js "7") (js "old") [] in
  let n := Epay.Values (js "https://pay/") (js "8") (js "  ") [] in
  let v (p a b : Z) := General (num_of_Z 1) (num_of_Z 1) (num_of_Z 1) (num_of_Z 1) (num_of_Z 1)
                   (num_of_Z p) (num_of_Z a) (num_of_Z b) [] [] [] in
  Epay.buildEpaySettingsUpdates i n = [Update (js "EpayId") (OStr (js "8"))] /\
  (forall store k, apply_updates (Epay.buildEpaySettingsUpdates i n) store !! k =
     match obj_get k (epay_changes i n) with Some (Some v) => Some v | _ => store !! k end) /\
  sends (buildGeneralPaymentSettingsUpdates (v 100%Z 60%Z 40%Z) (v 50%Z 10%Z 40%Z))
    (general_changes (v 100%Z 60%Z 40%Z) (v 50%Z 10%Z 40%Z)).
Proof.
  intros i n v. destruct settings_save_exact as (He & _ & _ & _ & _ & _ & Hg).
  split_and!; [vm_compute; reflexivity|apply He|]. apply Hg; split; vm_compute; reflexivity.
Defined.
