(* ===== verification/Playground.v ===== *)
(** * Playground conversations

    Models [features/playground/lib/message-utils.ts],
    [features/playground/lib/payload-builder.ts] and the message updates of
    [features/playground/hooks/use-chat-handler.ts].  A hook callback that
    updates the conversation is a function on the list of messages; the events
    of a stream are a sequence of such updates. *)

From S2P Require Import Prelude.
From S2P Require Import JsString.
From S2P Require Import JsNumber.
From S2P Require Import JsValue.

Local Open Scope N_scope.

(** ** Data *)

Inductive MessageRole := User | Assistant | System.
Inductive MessageStatus := Loading | Streaming | Complete | Error.

#[export] Instance MessageRole_eq : EqDecision MessageRole.
Proof. solve_decision. Defined.
#[export] Instance MessageStatus_eq : EqDecision MessageStatus.
Proof. solve_decision. Defined.

Record MessageVersion := Version {
  id : jstr;
  content : jstr
}.

Record Reasoning := MkReasoning {
  r_content : jstr;
  duration : num
}.

(** Optional fields are options; the inner option of [errorCode] is [null]. *)
Record Message := MkMessage {
  key : jstr;
  from : MessageRole;
  versions : list MessageVersion;
  sources : jsval;
  reasoning : option Reasoning;
  isReasoningStreaming : option bool;
  isReasoningComplete : option bool;
  isContentComplete : option bool;
  status : option MessageStatus;
  errorCode : option (option jstr)
}.

Definition API_REQUEST_ERROR : jstr := js "Request error occurred".
Definition INTERRUPTED : jstr := js "Generation was interrupted".

(** ** message-utils.ts *)

(** Identifiers come from [nanoid]; they are arguments here. *)
Definition createMessageVersion (nanoid content : jstr) : MessageVersion := Version nanoid content.

Definition getCurrentVersion (message : Message) : MessageVersion :=
  match versions message with
  | v :: _ => v
  | [] => Version (js "default") []
  end.

Definition set_versions (vs : list MessageVersion) (m : Message) : Message :=
  MkMessage (key m) (from m) vs (sources m) (reasoning m) (isReasoningStreaming m)
    (isReasoningComplete m) (isContentComplete m) (status m) (errorCode m).

Definition set_reasoning (r : option Reasoning) (streaming : bool) (m : Message) : Message :=
  MkMessage (key m) (from m) (versions m) (sources m) r (Some streaming)
    (isReasoningComplete m) (isContentComplete m) (status m) (errorCode m).

Definition set_status (s : MessageStatus) (m : Message) : Message :=
  MkMessage (key m) (from m) (versions m) (sources m) (reasoning m) (isReasoningStreaming m)
    (isReasoningComplete m) (isContentComplete m) (Some s) (errorCode m).

Definition set_error (code : option jstr) (m : Message) : Message :=
  MkMessage (key m) (from m) (versions m) (sources m) (reasoning m) (Some false)
    (isReasoningComplete m) (isContentComplete m) (Some Error) (Some code).

Definition updateCurrentVersionContent (message : Message) (c : jstr) : Message :=
  set_versions [Version (id (getCurrentVersion message)) c] message.

Definition createUserMessage (k v content : jstr) : Message :=
  MkMessage k User [createMessageVersion v content] VUndef None None None None None None.

Definition createLoadingAssistantMessage (k v : jstr) : Message :=
  MkMessage k Assistant [createMessageVersion v []] VUndef None (Some false) (Some false)
    (Some false) (Some Loading) None.

Inductive ContentPart := PText (text : jstr) | PImage (url : jstr).
Inductive MessageContent := CText (text : jstr) | CParts (parts : list ContentPart).

Definition buildMessageContent (text : jstr) (imageUrls : list jstr) : MessageContent :=
  let validImages := List.filter (fun url => truthy_str (trim url)) imageUrls in
  match validImages with
  | [] => CText text
  | _ => CParts (PText text :: List.map (fun url => PImage (trim url)) validImages)
  end.

Definition getTextContent (c : MessageContent) : jstr :=
  match c with
  | CText t => t
  | CParts ps =>
      match List.find (fun p => match p with PText _ => true | _ => false end) ps with
      | Some (PText t) => t
      | _ => []
      end
  end.

(** The role and the content of the current version. *)
Definition formatMessageForAPI (message : Message) : MessageRole * jstr :=
  (from message, content (getCurrentVersion message)).

(** A role is never empty and the content of a version never undefined, by
    their types. *)
Definition isValidMessage (message : Message) : bool :=
  match versions message with
  | [] => false
  | v :: _ => negb ((from message =?= Assistant) && negb (truthy_str (trim (content v))))
  end.

Definition open_tag : jstr := js "<think>".
Definition close_tag : jstr := js "</think>".

Record Parsed := MkParsed {
  visibleContent : jstr;
  p_reasoning : jstr;
  hasUnclosedTag : bool
}.

(** The loop of [parseThinkTags] from [currentPos]; the text before it is
    consumed.  Every round moves past a tag, so the length is enough fuel. *)
Fixpoint think_loop (fuel : nat) (rest : jstr) (visible reason : list jstr)
  : list jstr * list jstr * bool :=
  match index_of open_tag rest with
  | None => (if truthy_str rest then visible ++ [rest] else visible, reason, false)
  | Some openPos =>
      let visible := if (0 <? openPos)%nat then visible ++ [take openPos rest] else visible in
      let afterOpen := drop (openPos + 7) rest in
      match index_of close_tag afterOpen with
      | None => (visible, reason ++ [afterOpen], true)
      | Some closePos =>
          match fuel with
          | O => (visible, reason, false)
          | S f =>
              think_loop f (drop (closePos + 8) afterOpen) visible
                (reason ++ [take closePos afterOpen])
          end
      end
  end.

Definition parseThinkTags (c : jstr) : Parsed :=
  if negb (includes_sub open_tag c) then MkParsed c [] false
  else
    let '(visibleParts, reasoningParts, hasUnclosed) := think_loop (length c) c [] [] in
    MkParsed (trim (join [] visibleParts)) (trim (join [10; 10] reasoningParts)) hasUnclosed.

(** The array with its last element replaced when it is an assistant's. *)
Definition updateLastAssistantMessage (messages : list Message) (updater : Message -> Message)
  : list Message :=
  match last messages with
  | None => messages
  | Some m =>
      if from m <?> Assistant then messages
      else take (length messages - 1) messages ++ [updater m]
  end.

Definition error_text (e : jstr) : jstr := API_REQUEST_ERROR ++ js ": " ++ e.

(** [errorCode || null]. *)
Definition code_or_null (c : option jstr) : option jstr :=
  match c with Some (x :: r) => Some (x :: r) | _ => None end.

Definition updateAssistantMessageWithError (messages : list Message) (errorMessage : jstr)
  (code : option jstr) : list Message :=
  updateLastAssistantMessage messages (fun message =>
    set_error (code_or_null code)
      (updateCurrentVersionContent message (error_text errorMessage))).

Definition processStreamingContent (message : Message) (contentChunk : jstr) : Message :=
  let fullContent := content (getCurrentVersion message) ++ contentChunk in
  let p := parseThinkTags fullContent in
  let finalReasoning :=
    if truthy_str (p_reasoning p) then Some (MkReasoning (p_reasoning p) num_zero)
    else reasoning message in
  set_reasoning finalReasoning (hasUnclosedTag p)
    (updateCurrentVersionContent message fullContent).

(** [a || b || c || ''] on optional strings. *)
Fixpoint first_text (l : list (option jstr)) : jstr :=
  match l with
  | [] => []
  | Some (c :: s) :: _ => c :: s
  | _ :: l' => first_text l'
  end.

Definition finalizeMessage (message : Message) (apiReasoningContent : option jstr) : Message :=
  let p := parseThinkTags (content (getCurrentVersion message)) in
  let finalReasoning :=
    first_text [apiReasoningContent; r_content <$> reasoning message; Some (p_reasoning p)] in
  let dur := num_or (from_option duration NaN (reasoning message)) num_zero in
  set_reasoning
    (if truthy_str finalReasoning then Some (MkReasoning finalReasoning dur) else None) false
    (updateCurrentVersionContent message (visibleContent p)).

Definition is_stuck (m : Message) : bool :=
  (from m =?= Assistant) && ((status m =?= Some Loading) || (status m =?= Some Streaming)).

(** The index the backward loop stops at. *)
Fixpoint last_stuck (messages : list Message) : option nat :=
  match messages with
  | [] => None
  | m :: ms =>
      match last_stuck ms with
      | Some i => Some (S i)
      | None => if is_stuck m then Some 0%nat else None
      end
  end.

Definition has_text (c : jstr) : bool := truthy_str (trim c).

Definition sanitizeMessage (m : Message) : Message :=
  let finalized := finalizeMessage m None in
  let hasContent := has_text (content (getCurrentVersion finalized)) in
  let hasReasoning := match reasoning finalized with Some r => has_text (r_content r) | None => false end in
  if hasContent || hasReasoning
  then set_reasoning (reasoning finalized) false (set_status Complete finalized)
  else
    let e := updateCurrentVersionContent finalized (error_text INTERRUPTED) in
    set_reasoning (reasoning e) false (set_status Error e).

Definition sanitizeMessagesOnLoad (messages : list Message) : list Message :=
  match last_stuck messages with
  | None => messages
  | Some i =>
      match messages !! i with
      | Some m => <[i := sanitizeMessage m]> messages
      | None => messages
      end
  end.

(** ** payload-builder.ts *)

(** The configuration: a parameter is absent, [null] or a number. *)
Record PlaygroundConfig := Config {
  model : jstr;
  config_group : jstr;
  stream : bool;
  parameters : list (jstr * option num)
}.

Definition parameterKeys : list jstr :=
  [js "temperature"; js "top_p"; js "max_tokens"; js "frequency_penalty";
   js "presence_penalty"; js "seed"].

Record ChatCompletionRequest := Payload {
  pl_model : jstr;
  pl_group : jstr;
  pl_messages : list (MessageRole * jstr);
  pl_stream : bool;
  pl_parameters : list (jstr * num)
}.

Definition buildChatCompletionPayload (messages : list Message) (config : PlaygroundConfig)
  (parameterEnabled : jstr -> bool) : ChatCompletionRequest :=
  Payload (model config) (config_group config)
    (List.map formatMessageForAPI (List.filter isValidMessage messages)) (stream config)
    (omap (fun k =>
             if parameterEnabled k then
               match obj_get k (parameters config) with
               | Some (Some x) => Some (k, x)
               | _ => None
               end
             else None) parameterKeys).

(** ** use-chat-handler.ts *)

Definition status_is (s : MessageStatus) (m : Message) : bool := status m =?= Some s.

Definition handleReasoningChunk (chunk : jstr) (messages : list Message) : list Message :=
  updateLastAssistantMessage messages (fun message =>
    if status_is Error message then message
    else
      set_status Streaming
        (set_reasoning
           (Some (MkReasoning (from_option r_content [] (reasoning message) ++ chunk) num_zero))
           true message)).

Definition handleContentChunk (chunk : jstr) (messages : list Message) : list Message :=
  updateLastAssistantMessage messages (fun message =>
    if status_is Error message then message
    else set_status Streaming (processStreamingContent message chunk)).

Definition handleStreamComplete (messages : list Message) : list Message :=
  updateLastAssistantMessage messages (fun message =>
    if status_is Complete message || status_is Error message then message
    else set_status Complete (finalizeMessage message None)).

Definition handleStreamError (error : jstr) (code : option jstr) (messages : list Message)
  : list Message := updateAssistantMessageWithError messages error code.

(** The answer of a request without streaming: the first choice, if any, with
    its content and reasoning. *)
Definition handleResponse (choice : option (option jstr * option jstr)) (messages : list Message)
  : list Message :=
  match choice with
  | None => messages
  | Some (c, r) =>
      updateLastAssistantMessage messages (fun message =>
        set_status Complete
          (finalizeMessage
             (set_versions [Version (id (getCurrentVersion message)) (default [] c)] message) r))
  end.

Definition stopGeneration (messages : list Message) : list Message :=
  updateLastAssistantMessage messages (fun message =>
    if status_is Loading message || status_is Streaming message
    then set_status Complete (finalizeMessage message None)
    else message).

(** What a stream does to the conversation. *)
Inductive StreamEvent :=
| EvReasoning (chunk : jstr)
| EvContent (chunk : jstr)
| EvComplete
| EvError (error : jstr) (code : option jstr)
| EvStop.

Definition stream_step (messages : list Message) (e : StreamEvent) : list Message :=
  match e with
  | EvReasoning c => handleReasoningChunk c messages
  | EvContent c => handleContentChunk c messages
  | EvComplete => handleStreamComplete messages
  | EvError e c => handleStreamError e c messages
  | EvStop => stopGeneration messages
  end.

(** * Facts *)

(** ** Reasoning tags *)

Lemma starts_with_app_cases (p a b : jstr) :
  starts_with p (a ++ b) = true ->
  starts_with p a = true \/ exists p2, p = a ++ p2 /\ p2 <> [] /\ starts_with p2 b = true.
Proof.
  revert p. induction a as [|c a IH]; intros p H; simpl in H.
  - destruct p; [by left|]. right. by eexists.
  - destruct p as [|x p]; [by left|]. simpl in H. apply andb_true_iff in H as [Hx H].
    apply N.eqb_eq in Hx. subst x. destruct (IH p H) as [H1|(p2 & -> & Hne & H2)].
    + left. simpl. by rewrite N.eqb_refl.
    + right. by exists p2.
Qed.

(** A tag that starts with a unit it does not repeat is found where it is put. *)
Lemma index_of_put x q v r :
  x ∉ q -> index_of (x :: q) v = None -> index_of (x :: q) (v ++ (x :: q) ++ r) = Some (length v).
Proof.
  intros Hx. induction v as [|c v IH]; intros Hv; cbn [app].
  - pose proof (starts_with_app (x :: q) r) as E. cbn [app] in E. cbn [index_of]. by rewrite E.
  - cbn [index_of] in Hv |- *. destruct (starts_with (x :: q) (c :: v)) eqn:E; [done|].
    destruct (starts_with (x :: q) (c :: v ++ x :: q ++ r)) eqn:E2.
    + exfalso. apply (starts_with_app_cases (x :: q) (c :: v) (x :: q ++ r)) in E2 as [E2|(p2 & Ep & Hne & E2)].
      { congruence. }
      destruct p2 as [|y p2]; [done|]. simpl in E2. apply andb_true_iff in E2 as [Hy _].
      apply N.eqb_eq in Hy. subst y. apply Hx. injection Ep as _ ->.
      apply elem_of_app. right. by left.
    + destruct (index_of (x :: q) v) eqn:Ev; [done|]. cbn [app] in IH. by rewrite IH.
Qed.

Lemma open_put v r : index_of open_tag v = None -> index_of open_tag (v ++ open_tag ++ r) = Some (length v).
Proof. apply index_of_put. by apply (bool_decide_eq_false_1 _). Qed.

Lemma close_put v r : index_of close_tag v = None -> index_of close_tag (v ++ close_tag ++ r) = Some (length v).
Proof. apply index_of_put. by apply (bool_decide_eq_false_1 _). Qed.

(** A content as blocks of visible text followed by a closed reasoning block,
    and what comes last: visible text, or visible text and an open block. *)
Inductive Tail := TVisible (v : jstr) | TOpen (v r : jstr).

Definition render_tail (t : Tail) : jstr :=
  match t with TVisible v => v | TOpen v r => v ++ open_tag ++ r end.

Fixpoint render (blocks : list (jstr * jstr)) (t : Tail) : jstr :=
  match blocks with
  | [] => render_tail t
  | (v, r) :: bs => v ++ open_tag ++ r ++ close_tag ++ render bs t
  end.

Definition tail_ok (t : Tail) : Prop :=
  match t with
  | TVisible v => index_of open_tag v = None
  | TOpen v r => index_of open_tag v = None /\ index_of close_tag r = None
  end.

Definition block_ok (b : jstr * jstr) : Prop :=
  index_of open_tag b.1 = None /\ index_of close_tag b.2 = None.

Definition tail_visible (t : Tail) : jstr := match t with TVisible v | TOpen v _ => v end.
Definition tail_reasons (t : Tail) : list jstr := match t with TVisible _ => [] | TOpen _ r => [r] end.
Definition tail_open (t : Tail) : bool := match t with TVisible _ => false | TOpen _ _ => true end.

(** What parsing should give. *)
Definition think_spec (blocks : list (jstr * jstr)) (t : Tail) : Parsed :=
  MkParsed (trim (concat (List.map fst blocks) ++ tail_visible t))
    (trim (join [10; 10] (List.map snd blocks ++ tail_reasons t))) (tail_open t).

Lemma join_nil l : join [] l = concat l.
Proof. induction l as [|w [|w' l] IH]; cbn in *; [done|by rewrite app_nil_r|]. by rewrite IH. Qed.

Lemma join_nil_snoc l w : join [] (if truthy_str w then l ++ [w] else l) = join [] l ++ w.
Proof.
  destruct w as [|c w]; cbn [truthy_str]; [by rewrite app_nil_r|].
  rewrite !join_nil, concat_app. cbn. by rewrite app_nil_r.
Qed.

Lemma drop_put (v t r : jstr) : drop (length v + length t) (v ++ t ++ r) = r.
Proof. by rewrite <- drop_drop, drop_app_length, drop_app_length. Qed.

Lemma think_loop_spec blocks t fuel vis rea :
  Forall block_ok blocks -> tail_ok t -> (length blocks <= fuel)%nat ->
  let '(vs, rs, u) := think_loop fuel (render blocks t) vis rea in
  join [] vs = join [] vis ++ concat (List.map fst blocks) ++ tail_visible t /\
  rs = rea ++ List.map snd blocks ++ tail_reasons t /\ u = tail_open t.
Proof.
  intros Hb Ht. revert fuel vis rea. induction Hb as [|[v r] bs [Hv Hr] _ IH]; intros fuel vis rea Hf.
  - destruct t as [v|v r]; cbn [render render_tail tail_visible tail_reasons tail_open List.map app concat].
    + destruct fuel; cbn [think_loop]; rewrite Ht; (split_and!; [by rewrite join_nil_snoc|by rewrite app_nil_r|done]).
    + destruct Ht as [Hv Hr].
      assert (Hd : drop (length v + 7) (v ++ open_tag ++ r) = r) by apply (drop_put v open_tag r).
      destruct fuel; cbn [think_loop]; rewrite open_put, Hd, Hr, take_app_length by done;
        (split_and!; [|done|done]);
        (destruct v as [|c v]; cbn [length Nat.ltb Nat.leb]; [by rewrite app_nil_r|]);
        apply (join_nil_snoc vis (c :: v)).
  - cbn [length] in Hf. destruct fuel as [|fuel]; [lia|]. cbn [render fst snd] in *.
    cbn [think_loop]. rewrite open_put by done.
    assert (Hd : drop (length v + 7) (v ++ open_tag ++ r ++ close_tag ++ render bs t) =
                 r ++ close_tag ++ render bs t) by apply (drop_put v open_tag).
    assert (Hd2 : drop (length r + 8) (r ++ close_tag ++ render bs t) = render bs t)
      by apply (drop_put r close_tag).
    rewrite Hd, close_put, Hd2, !take_app_length by done.
    set (vis' := if (0 <? length v)%nat then vis ++ [v] else vis).
    specialize (IH fuel vis' (rea ++ [r]) ltac:(lia)).
    destruct (think_loop fuel (render bs t) vis' (rea ++ [r])) as [[vs rs] u].
    destruct IH as (-> & -> & ->). cbn [List.map concat fst snd]. split_and!; [|by rewrite <- !app_assoc|done].
    assert (Hvis : join [] vis' = join [] vis ++ v).
    { unfold vis'. destruct v as [|c v]; cbn [length Nat.ltb Nat.leb]; [by rewrite app_nil_r|].
      apply (join_nil_snoc vis (c :: v)). }
    rewrite Hvis. by rewrite <- !app_assoc.
Qed.

Lemma render_length blocks t : (length blocks <= length (render blocks t))%nat.
Proof.
  induction blocks as [|[v r] bs IH]; cbn [length render]; [lia|]. rewrite !length_app.
  change (length open_tag) with 7%nat. lia.
Qed.

Lemma render_has_tag blocks t :
  blocks <> [] \/ tail_open t = true -> includes_sub open_tag (render blocks t) = true.
Proof.
  destruct blocks as [|[v r] bs]; [destruct t; intros [?|?]; try done|intros _]; apply includes_middle.
Qed.

Lemma tags_ne : open_tag <> [] /\ close_tag <> [].
Proof. split; by apply (bool_decide_eq_false_1 _). Qed.

(** Cutting a content at its tags. *)
Lemma decompose n (c : jstr) :
  (length c <= n)%nat ->
  exists blocks t, c = render blocks t /\ Forall block_ok blocks /\ tail_ok t.
Proof.
  revert c. induction n as [|n IH]; intros c Hn.
  { destruct c; [|simpl in Hn; lia]. by exists [], (TVisible []). }
  destruct (index_of open_tag c) as [i|] eqn:Ei.
  2: { exists [], (TVisible c). split_and!; [done|constructor|done]. }
  destruct (index_of_cut open_tag c i (proj1 tags_ne) Ei) as (r & Ec & Hv).
  destruct (index_of close_tag r) as [k|] eqn:Ek.
  2: { exists [], (TOpen (take i c) r). split_and!; [exact Ec|constructor|done]. }
  destruct (index_of_cut close_tag r k (proj2 tags_ne) Ek) as (r2 & Er & Hk).
  destruct (IH r2) as (bs & t & -> & Hbs & Ht).
  { apply (f_equal length) in Ec, Er. rewrite !length_app in Ec, Er.
    change (length open_tag) with 7%nat in Ec. change (length close_tag) with 8%nat in Er. lia. }
  exists ((take i c, take k r) :: bs), t. split_and!; [|by constructor|done].
  cbn [render]. by rewrite <- Er.
Qed.

(** C7: the reasoning parser loses nothing and guesses nothing.  Every content
    can be cut into visible texts and reasoning blocks, the last of which may be
    open; and for every content with a tag that is cut so, the parser returns
    the visible texts joined, the blocks joined by a blank line, both trimmed,
    and whether the last block is open. *)
Theorem think_tags_exact (c : jstr) :
  (exists blocks t, c = render blocks t /\ Forall block_ok blocks /\ tail_ok t) /\
  forall blocks t,
    c = render blocks t -> Forall block_ok blocks -> tail_ok t ->
    blocks <> [] \/ tail_open t = true ->
    parseThinkTags c = think_spec blocks t.
Proof.
  split; [by apply (decompose (length c))|]. intros blocks t -> Hb Ht Htag.
  unfold parseThinkTags. rewrite render_has_tag by done. cbn [negb].
  pose proof (think_loop_spec blocks t (length (render blocks t)) [] [] Hb Ht (render_length _ _)) as H.
  destruct (think_loop _ _ [] []) as [[vs rs] u]. destruct H as (-> & -> & ->). done.
Qed.

(** ** Streams *)

(** The effect of an event on the last message, when it is an assistant's. *)
Definition message_step (m : Message) (e : StreamEvent) : Message :=
  match e with
  | EvReasoning chunk =>
      if status_is Error m then m
      else set_status Streaming
             (set_reasoning
                (Some (MkReasoning (from_option r_content [] (reasoning m) ++ chunk) num_zero)) true m)
  | EvContent chunk =>
      if status_is Error m then m else set_status Streaming (processStreamingContent m chunk)
  | EvComplete =>
      if status_is Complete m || status_is Error m then m
      else set_status Complete (finalizeMessage m None)
  | EvError e c => set_error (code_or_null c) (updateCurrentVersionContent m (error_text e))
  | EvStop =>
      if status_is Loading m || status_is Streaming m
      then set_status Complete (finalizeMessage m None) else m
  end.

Lemma update_last ms m f :
  from m = Assistant -> updateLastAssistantMessage (ms ++ [m]) f = ms ++ [f m].
Proof.
  intros Ha. unfold updateLastAssistantMessage. rewrite last_snoc, Ha, bool_decide_true by done.
  cbn [negb]. rewrite length_app. cbn [length].
  replace (length ms + 1 - 1)%nat with (length ms) by lia. by rewrite take_app_length.
Qed.

Lemma update_not_last ms m f : from m <> Assistant -> updateLastAssistantMessage (ms ++ [m]) f = ms ++ [m].
Proof.
  intros Ha. unfold updateLastAssistantMessage. rewrite last_snoc. by rewrite bool_decide_false.
Qed.

Lemma stream_step_last ms m e :
  stream_step (ms ++ [m]) e =
  ms ++ [if from m =?= Assistant then message_step m e else m].
Proof.
  case_bool_decide as Ha.
  - destruct e; cbn [stream_step];
      unfold handleReasoningChunk, handleContentChunk, handleStreamComplete, handleStreamError,
        updateAssistantMessageWithError, stopGeneration; by rewrite update_last.
  - destruct e; cbn [stream_step];
      unfold handleReasoningChunk, handleContentChunk, handleStreamComplete, handleStreamError,
        updateAssistantMessageWithError, stopGeneration; by rewrite update_not_last.
Qed.

Lemma message_step_frame m e : key (message_step m e) = key m /\ from (message_step m e) = from m.
Proof. destruct e; cbn [message_step]; repeat case_test; done. Qed.

Lemma stream_fold ms m evs :
  fold_left stream_step evs (ms ++ [m]) =
  ms ++ [if from m =?= Assistant then fold_left message_step evs m else m].
Proof.
  revert m. induction evs as [|e evs IH]; intros m; cbn [fold_left]; [by case_test|].
  rewrite stream_step_last. destruct (decide (from m = Assistant)) as [Ha|Ha].
  - rewrite (bool_decide_true _ Ha), IH. destruct (message_step_frame m e) as [_ ->].
    by rewrite (bool_decide_true _ Ha).
  - by rewrite (bool_decide_false _ Ha), IH, (bool_decide_false _ Ha).
Qed.

Lemma message_fold_frame m evs :
  key (fold_left message_step evs m) = key m /\ from (fold_left message_step evs m) = from m.
Proof.
  revert m. induction evs as [|e evs IH]; intros m; cbn; [done|].
  destruct (IH (message_step m e)) as [-> ->]. apply message_step_frame.
Qed.

(** A stream only writes the message it answers.  Whatever events arrive, in
    whatever order, every earlier message stays as it is, the conversation keeps
    its length, the last message keeps its key and role, and nothing changes at
    all when the last message is not an assistant's. *)
Theorem stream_writes_last_only ms m evs :
  exists m', fold_left stream_step evs (ms ++ [m]) = ms ++ [m'] /\
    key m' = key m /\ from m' = from m /\ (from m <> Assistant -> m' = m).
Proof.
  rewrite stream_fold. eexists. split; [done|]. case_bool_decide as Ha; [|done].
  destruct (message_fold_frame m evs) as [-> ->]. done.
Qed.

(** An error is final.  Once the answer shows an error, later chunks, the end
    of the stream and a stop leave it as it is; and a complete answer is not
    touched by a second end or a stop. *)
Theorem terminal_states ms m evs :
  (status m = Some Error ->
   Forall (fun e => match e with EvError _ _ => False | _ => True end) evs ->
   fold_left stream_step evs (ms ++ [m]) = ms ++ [m]) /\
  (status m = Some Complete ->
   Forall (fun e => match e with EvComplete | EvStop => True | _ => False end) evs ->
   fold_left stream_step evs (ms ++ [m]) = ms ++ [m]).
Proof.
  rewrite stream_fold. split; intros Hs Hev; case_bool_decide; try done; do 2 f_equal.
  - induction Hev as [|e evs He _ IH]; cbn [fold_left]; [done|].
    assert (E : message_step m e = m); [|by rewrite E].
    destruct e; try done; cbn [message_step]; unfold status_is; rewrite Hs; done.
  - induction Hev as [|e evs He _ IH]; cbn [fold_left]; [done|].
    assert (E : message_step m e = m); [|by rewrite E].
    destruct e; try done; cbn [message_step]; unfold status_is; rewrite Hs; done.
Qed.

(** *** Chunks *)

Definition current (m : Message) : jstr := content (getCurrentVersion m).

Lemma no_tag_prefix a b : includes_sub open_tag (a ++ b) = false -> includes_sub open_tag a = false.
Proof.
  intros Hi. destruct (includes_sub open_tag a) eqn:E; [|done]. exfalso.
  unfold includes_sub in E. destruct (index_of open_tag a) as [i|] eqn:Ei; [|done].
  destruct (index_of_cut _ _ _ (proj1 tags_ne) Ei) as (r & Er & _).
  rewrite Er, <- !app_assoc, includes_middle in Hi. done.
Qed.

Lemma content_chunk m c :
  status_is Error m = false ->
  let m' := message_step m (EvContent c) in
  let p := parseThinkTags (current m ++ c) in
  current m' = current m ++ c /\ status m' = Some Streaming /\
  reasoning m' = (if truthy_str (p_reasoning p) then Some (MkReasoning (p_reasoning p) num_zero)
                  else reasoning m).
Proof. intros He. cbn [message_step]. by rewrite He. Qed.

Lemma content_chunks m cs :
  status_is Error m = false -> cs <> [] ->
  let m' := fold_left message_step (List.map EvContent cs) m in
  let p := parseThinkTags (current m ++ concat cs) in
  current m' = current m ++ concat cs /\ status m' = Some Streaming /\
  (truthy_str (p_reasoning p) = true -> reasoning m' = Some (MkReasoning (p_reasoning p) num_zero)) /\
  (includes_sub open_tag (current m ++ concat cs) = false -> reasoning m' = reasoning m).
Proof.
  revert m. induction cs as [|c cs IH]; intros m He Hne; [done|]. cbn [List.map fold_left concat].
  destruct (content_chunk m c He) as (Hc & Hs & Hr).
  set (m1 := message_step m (EvContent c)) in *.
  assert (Hno : includes_sub open_tag (current m ++ c ++ concat cs) = false ->
                reasoning m1 = reasoning m).
  { intros Hi. rewrite Hr.
    unfold parseThinkTags. rewrite app_assoc in Hi. by rewrite (no_tag_prefix _ _ Hi). }
  destruct cs as [|c2 cs].
  - cbn [fold_left List.map concat] in *. rewrite !app_nil_r in *. split_and!; [done|done| |done].
    intros Ht. by rewrite Hr, Ht.
  - assert (He1 : status_is Error m1 = false) by (unfold status_is; by rewrite Hs).
    destruct (IH m1 He1 ltac:(done)) as (Hc2 & Hs2 & Hr2 & Hn2).
    rewrite Hc, <- app_assoc in Hc2, Hr2, Hn2. split_and!; [done|done|done|].
    intros Hi. rewrite Hn2, Hno by done. done.
Qed.

Lemma finished_answer ms m cs :
  from m = Assistant -> status m = Some Loading -> current m = [] -> reasoning m = None -> cs <> [] ->
  let p := parseThinkTags (concat cs) in
  exists m',
    fold_left stream_step (List.map EvContent cs ++ [EvComplete]) (ms ++ [m]) = ms ++ [m'] /\
    status m' = Some Complete /\ isReasoningStreaming m' = Some false /\
    current m' = visibleContent p /\
    (p_reasoning p <> [] -> reasoning m' = Some (MkReasoning (p_reasoning p) num_zero)) /\
    (includes_sub open_tag (concat cs) = false -> reasoning m' = None).
Proof.
  intros Ha Hs Hc Hr Hne p. rewrite stream_fold, Ha, bool_decide_true by done.
  eexists. split; [done|]. rewrite fold_left_app. cbn [fold_left].
  assert (He : status_is Error m = false) by (unfold status_is; by rewrite Hs).
  destruct (content_chunks m cs He Hne) as (Hc' & Hs' & Hr' & Hn').
  rewrite Hc in Hc', Hr', Hn'. cbn [app] in Hc', Hr', Hn'. fold p in Hr'.
  set (m1 := fold_left message_step (List.map EvContent cs) m) in *.
  cbn [message_step]. unfold status_is. rewrite Hs'. cbn [orb].
  replace (bool_decide (Some Streaming = Some Complete) || bool_decide (Some Streaming = Some Error))
    with false by done.
  unfold finalizeMessage. fold (current m1). rewrite Hc'. fold p.
  split_and!; [done|done|done| |].
  - intros Hp. cbn [set_status set_reasoning reasoning].
    assert (Ht : truthy_str (p_reasoning p) = true) by (revert Hp; by destruct (p_reasoning p)).
    rewrite (Hr' Ht). cbn [first_text fmap option_fmap option_map r_content from_option duration].
    destruct (p_reasoning p) as [|x r] eqn:E; [done|]. cbn [first_text truthy_str]. done.
  - intros Hi. cbn [set_status set_reasoning reasoning]. rewrite (Hn' Hi), Hr.
    assert (Hp0 : p_reasoning p = []) by (unfold p, parseThinkTags; by rewrite Hi).
    by rewrite Hp0.
Qed.

(** *** Chunks of both kinds *)

(** The pieces of text a message of the server brings: reasoning, then content;
    an empty piece is no event. *)
Definition piece_events (piece : jstr * jstr) : list StreamEvent :=
  (if truthy_str piece.2 then [EvReasoning piece.2] else []) ++
  (if truthy_str piece.1 then [EvContent piece.1] else []).

Definition live (m : Message) : Prop := status m = Some Loading \/ status m = Some Streaming.

Lemma live_not_done m : live m -> status_is Error m = false /\ status_is Complete m = false.
Proof. unfold status_is. by intros [-> | ->]. Qed.

(** The reasoning a message has after more of it arrived. *)
Definition more_reasoning (o : option Reasoning) (r : jstr) : option Reasoning :=
  if truthy_str r then Some (MkReasoning (from_option r_content [] o ++ r) num_zero) else o.

Lemma more_reasoning_app o a b : more_reasoning (more_reasoning o a) b = more_reasoning o (a ++ b).
Proof.
  unfold more_reasoning. destruct a as [|x a]; [done|]. cbn [truthy_str app].
  destruct b as [|y b]; cbn [truthy_str]; [by rewrite app_nil_r|]. cbn [from_option r_content].
  by rewrite <- app_assoc.
Qed.

Lemma piece_step m c r :
  live m ->
  let m' := fold_left message_step (piece_events (c, r)) m in
  live m' /\ current m' = current m ++ c /\
  (includes_sub open_tag (current m ++ c) = false -> reasoning m' = more_reasoning (reasoning m) r).
Proof.
  intros Hl. assert (Hn : forall m, live m -> message_step m (EvContent c) =
    set_status Streaming (processStreamingContent m c)).
  { intros m1 [H _]%live_not_done. cbn [message_step]. by rewrite H. }
  unfold piece_events, more_reasoning. cbn [fst snd].
  assert (Hr : forall m1, live m1 -> let m' := fold_left message_step (if truthy_str c then [EvContent c] else []) m1 in
    live m' /\ current m' = current m1 ++ c /\
    (includes_sub open_tag (current m1 ++ c) = false -> reasoning m' = reasoning m1)).
  { intros m1 H1. destruct c as [|x c]; cbn [truthy_str fold_left]; [by rewrite app_nil_r|].
    destruct (content_chunk m1 (x :: c) (proj1 (live_not_done _ H1))) as (Hc & Hs & Hre).
    split_and!; [by right|done|]. intros Hi. rewrite Hre. unfold parseThinkTags. by rewrite Hi. }
  destruct (truthy_str r) eqn:Er; cbn [app fold_left].
  - set (m1 := message_step m (EvReasoning r)).
    assert (E1 : live m1 /\ current m1 = current m /\
      reasoning m1 = Some (MkReasoning (from_option r_content [] (reasoning m) ++ r) num_zero)).
    { unfold m1. cbn [message_step]. rewrite (proj1 (live_not_done _ Hl)). split_and!; [by right|done|done]. }
    destruct E1 as (H1 & Hc1 & Hr1). destruct (Hr m1 H1) as (? & Hc2 & Hr2).
    rewrite Hc1, Hr1 in *. done.
  - apply Hr, Hl.
Qed.

Lemma pieces_step m ps :
  live m ->
  let m' := fold_left message_step (List.flat_map piece_events ps) m in
  live m' /\ current m' = current m ++ concat (List.map fst ps) /\
  (includes_sub open_tag (current m ++ concat (List.map fst ps)) = false ->
   reasoning m' = more_reasoning (reasoning m) (concat (List.map snd ps))).
Proof.
  revert m. induction ps as [|[c r] ps IH]; intros m Hl; cbn [List.flat_map List.map concat fold_left].
  - by rewrite app_nil_r.
  - rewrite fold_left_app. destruct (piece_step m c r Hl) as (H1 & Hc1 & Hr1).
    destruct (IH _ H1) as (H2 & Hc2 & Hr2). cbn [fst snd]. rewrite Hc1 in Hc2, Hr2.
    rewrite <- app_assoc in Hc2, Hr2. split_and!; [done|done|]. intros Hi. rewrite Hr2 by done.
    rewrite Hr1 by (rewrite app_assoc in Hi; by eapply no_tag_prefix). apply more_reasoning_app.
Qed.

Lemma content_pieces ps :
  concat (List.map snd ps) = [] ->
  List.flat_map piece_events ps = List.map EvContent (List.filter truthy_str (List.map fst ps)).
Proof.
  induction ps as [|[c r] ps IH]; cbn [List.flat_map List.map concat List.filter]; [done|]. cbn [fst snd].
  intros [-> Hr]%app_eq_nil. rewrite IH by done. unfold piece_events. cbn [fst snd truthy_str app].
  by destruct c.
Qed.

Lemma concat_filter_truthy (cs : list jstr) : concat (List.filter truthy_str cs) = concat cs.
Proof. induction cs as [|[|x c] cs IH]; cbn; [done|done|by rewrite IH]. Qed.

(** The end of a stream: the visible text of the whole content; the reasoning
    that was sent as such when the content has no tag, and the one in the tags of
    the content when nothing was sent as such and the tags hold any. *)
Lemma finished_stream ms m ps :
  from m = Assistant -> status m = Some Loading -> current m = [] -> reasoning m = None ->
  let content := concat (List.map fst ps) in
  let sent := concat (List.map snd ps) in
  let p := parseThinkTags content in
  exists m',
    fold_left stream_step (List.flat_map piece_events ps ++ [EvComplete]) (ms ++ [m]) = ms ++ [m'] /\
    key m' = key m /\ status m' = Some Complete /\ isReasoningStreaming m' = Some false /\
    current m' = visibleContent p /\
    (includes_sub open_tag content = false ->
       reasoning m' = if truthy_str sent then Some (MkReasoning sent num_zero) else None) /\
    (sent = [] -> p_reasoning p <> [] -> reasoning m' = Some (MkReasoning (p_reasoning p) num_zero)).
Proof.
  intros Ha Hs Hc Hr content sent p. rewrite stream_fold, Ha, bool_decide_true by done.
  eexists. split; [done|]. split; [apply message_fold_frame|]. rewrite fold_left_app. cbn [fold_left].
  destruct (pieces_step m ps (or_introl Hs)) as (Hl & Hc' & Hn).
  rewrite Hc in Hc', Hn. cbn [app] in Hc', Hn. fold content sent in Hc', Hn.
  assert (Ht : sent = [] -> p_reasoning p <> [] ->
    reasoning (fold_left message_step (List.flat_map piece_events ps) m) = Some (MkReasoning (p_reasoning p) num_zero)).
  { intros Hsent Hp. rewrite content_pieces by done.
    destruct (List.filter truthy_str (List.map fst ps)) as [|c cs] eqn:Ef.
    - exfalso. apply Hp. unfold p, content. by rewrite <- concat_filter_truthy, Ef.
    - assert (He : status_is Error m = false) by (unfold status_is; by rewrite Hs).
      destruct (content_chunks m (c :: cs) He ltac:(done)) as (_ & _ & Hp' & _).
      rewrite <- Ef in Hp' |- *. rewrite concat_filter_truthy, Hc in Hp'. apply Hp'. unfold p, content in Hp. cbn [app].
      by destruct (p_reasoning _). }
  set (m1 := fold_left message_step (List.flat_map piece_events ps) m) in *.
  cbn [message_step]. destruct (live_not_done m1 Hl) as [-> ->]. cbn [orb].
  unfold finalizeMessage. fold (current m1). rewrite Hc'. fold p.
  split_and!; [done|done|done| |].
  - intros Hi. cbn [set_status set_reasoning reasoning]. rewrite (Hn Hi), Hr.
    assert (Hp0 : p_reasoning p = []) by (unfold p, parseThinkTags; by rewrite Hi).
    rewrite Hp0. unfold more_reasoning. by destruct sent.
  - intros Hsent Hp. cbn [set_status set_reasoning reasoning]. rewrite (Ht Hsent Hp).
    cbn [first_text fmap option_fmap option_map r_content from_option duration].
    by destruct (p_reasoning p).
Qed.

(** The answer does not depend on how the server cuts it.  However a content
    is split into chunks, the finished message shows the visible text of the
    whole content and is complete; its reasoning is that of the whole content
    whenever that is not empty, and none when the content has no tag. *)
Theorem chunking_irrelevant ms m cs :
  from m = Assistant -> status m = Some Loading -> current m = [] -> reasoning m = None -> cs <> [] ->
  let p := parseThinkTags (concat cs) in
  exists m',
    fold_left stream_step (List.map EvContent cs ++ [EvComplete]) (ms ++ [m]) = ms ++ [m'] /\
    status m' = Some Complete /\ isReasoningStreaming m' = Some false /\
    current m' = visibleContent p /\
    (p_reasoning p <> [] -> reasoning m' = Some (MkReasoning (p_reasoning p) num_zero)) /\
    (includes_sub open_tag (concat cs) = false -> reasoning m' = None).
Proof. apply finished_answer. Qed.

Lemma chunking_irrelevant_witness :
  let m := createLoadingAssistantMessage (js "k") (js "v") in
  exists m',
    fold_left stream_step (List.map EvContent [js "<thi"; js "nk>plan</th"; js "ink> Hello"] ++ [EvComplete]) [m]
      = [m'] /\
    current m' = js "Hello" /\ reasoning m' = Some (MkReasoning (js "plan") num_zero).
Proof.
  intros m.
  destruct (chunking_irrelevant [] m [js "<thi"; js "nk>plan</th"; js "ink> Hello"])
    as (m' & E & _ & _ & Hc & Hr & _); try done.
  exists m'. split; [exact E|]. split.
  - rewrite Hc. vm_compute. reflexivity.
  - rewrite Hr; [vm_compute; reflexivity|]. vm_compute. discriminate.
Defined.

(** The one way chunks show through: when the server sends an empty reasoning
    block and cuts its closing tag, the cut part of the tag is shown as
    reasoning of the finished message. *)
Theorem cut_empty_block_leaves_fragment :
  let m := createLoadingAssistantMessage (js "k") (js "v") in
  let final cs := fold_left stream_step (List.map EvContent cs ++ [EvComplete]) [m] in
  option_map reasoning (last (final [js "<think></think>Hi"])) = Some None /\
  option_map reasoning (last (final [js "<think></"; js "think>Hi"])) =
    Some (Some (MkReasoning (js "</") num_zero)).
Proof. split; vm_compute; reflexivity. Qed.

(** ** Loading a stored conversation *)

Lemma last_stuck_spec ms :
  match last_stuck ms with
  | Some i => exists m, ms !! i = Some m /\ is_stuck m = true
  | None => Forall (fun m => is_stuck m = false) ms
  end.
Proof.
  induction ms as [|m ms IH]; cbn [last_stuck]; [constructor|].
  destruct (last_stuck ms) as [i|]; [exact IH|].
  destruct (is_stuck m) eqn:E; [by exists m|by constructor].
Qed.

Lemma sanitize_not_stuck m : is_stuck (sanitizeMessage m) = false.
Proof. unfold sanitizeMessage, is_stuck. case_test; cbn; apply andb_false_r. Qed.

Lemma trim_nonblank c s : is_ws c = false -> trim (c :: s) <> [].
Proof. rewrite trim_nil, Forall_cons. intros Hc [Hw _]. congruence. Qed.

Lemma error_text_has e : has_text (error_text e) = true.
Proof.
  unfold has_text, error_text.
  change (API_REQUEST_ERROR ++ ?x) with (82 :: drop 1 API_REQUEST_ERROR ++ x).
  pose proof (trim_nonblank 82 (drop 1 API_REQUEST_ERROR ++ js ": " ++ e) eq_refl) as H.
  by destruct (trim _).
Qed.

Lemma sanitize_shows m :
  let s := sanitizeMessage m in
  has_text (current s) = true \/
  exists r, reasoning s = Some r /\ has_text (r_content r) = true.
Proof.
  intros s. unfold s, sanitizeMessage. case_test.
  - apply orb_true_iff in Heqb as [H|H]; [left; exact H|right].
    destruct (reasoning (finalizeMessage m None)) as [r|] eqn:E; [|done]. exists r. done.
  - left. apply error_text_has.
Qed.

Lemma insert_count {A} (f : A -> bool) (l : list A) i x y :
  l !! i = Some x -> f x = true -> f y = false ->
  length (List.filter f l) = S (length (List.filter f (<[i := y]> l))).
Proof.
  revert i. induction l as [|a l IH]; intros i Hi Hx Hy; [done|].
  destruct i as [|i]; cbn in *; simplify_eq.
  - by rewrite Hx, Hy.
  - destruct (f a); cbn; by rewrite (IH i).
Qed.

(** Loading a stored conversation settles exactly one interrupted answer, the
    last one: it becomes complete or an error with text to show, every other
    message is unchanged, and the number of answers still marked as loading or
    streaming falls by one.  So a conversation with two of them keeps one. *)
Theorem sanitize_settles_one ms :
  length (sanitizeMessagesOnLoad ms) = length ms /\
  length (List.filter is_stuck (sanitizeMessagesOnLoad ms)) =
    pred (length (List.filter is_stuck ms)) /\
  (forall j m, ms !! j = Some m -> is_stuck m = false -> sanitizeMessagesOnLoad ms !! j = Some m) /\
  (forall j m', sanitizeMessagesOnLoad ms !! j = Some m' -> ms !! j = Some m' \/
     (is_stuck m' = false /\
      (has_text (current m') = true \/
       exists r, reasoning m' = Some r /\ has_text (r_content r) = true))).
Proof.
  unfold sanitizeMessagesOnLoad. pose proof (last_stuck_spec ms) as H.
  destruct (last_stuck ms) as [i|].
  - destruct H as (m & Hm & Hs). rewrite Hm. split_and!.
    + apply length_insert.
    + rewrite (insert_count is_stuck ms i m (sanitizeMessage m)) by (done || apply sanitize_not_stuck).
      done.
    + intros j m1 Hj Hns. rewrite list_lookup_insert_ne; [done|]. intros <-. congruence.
    + intros j m' Hj. destruct (decide (i = j)) as [<-|Hne].
      * rewrite list_lookup_insert_eq in Hj by (by eapply lookup_lt_Some). injection Hj as <-. right.
        split; [apply sanitize_not_stuck|apply sanitize_shows].
      * rewrite list_lookup_insert_ne in Hj by done. by left.
  - split_and!; [done| |done|by left].
    rewrite filter_none by done. done.
Qed.

(** ** The request *)

(** What is sent.  The request carries exactly the messages with a version
    whose answer is not blank, in order, with their current text; a parameter is
    sent exactly when it is enabled and set. *)
Theorem payload_exact ms config enabled :
  let p := buildChatCompletionPayload ms config enabled in
  pl_messages p = omap (fun m => if isValidMessage m then Some (from m, current m) else None) ms /\
  Forall (fun rc => rc.1 = Assistant -> has_text rc.2 = true) (pl_messages p) /\
  (forall k x, (k, x) ∈ pl_parameters p <->
     k ∈ parameterKeys /\ enabled k = true /\ obj_get k (parameters config) = Some (Some x)).
Proof.
  intros p. split_and!.
  - unfold p, buildChatCompletionPayload. cbn [pl_messages].
    induction ms as [|m ms IH]; cbn [List.filter List.map omap list_omap]; [done|].
    destruct (isValidMessage m); cbn [List.map]; by rewrite IH.
  - unfold p, buildChatCompletionPayload. cbn [pl_messages]. apply Forall_forall. intros rc Hin.
    rewrite list_elem_of_In, in_map_iff in Hin. destruct Hin as (m & <- & Hm).
    apply filter_In in Hm as [_ Hv]. unfold isValidMessage in Hv. cbn. intros Ha.
    unfold getCurrentVersion. destruct (versions m); [done|]. rewrite Ha, bool_decide_true in Hv by done.
    cbn in Hv. by rewrite negb_involutive in Hv.
  - intros k x. unfold p, buildChatCompletionPayload. cbn [pl_parameters].
    rewrite list_elem_of_omap. split.
    + intros (k' & Hk' & E). destruct (enabled k') eqn:Ee; [|done].
      destruct (obj_get k' (parameters config)) as [[y|]|] eqn:Eo; simplify_eq. done.
    + intros (Hk & He & Ho). exists k. by rewrite He, Ho.
Qed.
