(* ===== verification/ChannelUtils.v ===== *)
(** * Channel utilities

    Models [features/channels/lib/channel-utils.ts] and the tables of
    [features/channels/constants.ts] it reads: channel types, key masking, list
    parsing, attention flags, aggregation by tag and key deduplication.
    Currency, date and translation functions of other modules are not part of
    it. *)

From S2P Require Import Prelude.
From S2P Require Import JsString.
From S2P Require Import JsNumber.
From S2P Require Import JsValue.

Local Open Scope N_scope.

(** ** Types *)

Definition CHANNEL_TYPES : list (N * jstr) :=
  [(0, js "Unknown"); (1, js "OpenAI"); (2, js "Midjourney");
   (3, js "Azure"); (4, js "Ollama"); (5, js "MidjourneyPlus");
   (6, js "OpenAIMax"); (7, js "OhMyGPT"); (8, js "Custom");
   (9, js "AILS"); (10, js "AI Proxy"); (11, js "PaLM");
   (12, js "API2GPT"); (13, js "AIGC2D"); (14, js "Anthropic");
   (15, js "Baidu"); (16, js "Zhipu"); (17, js "Ali");
   (18, js "Xunfei"); (19, js "360"); (20, js "OpenRouter");
   (21, js "AI Proxy Library"); (22, js "FastGPT"); (23, js "Tencent");
   (24, js "Gemini"); (25, js "Moonshot"); (26, js "Zhipu V4");
   (27, js "Perplexity"); (31, js "LingYiWanWu"); (33, js "AWS");
   (34, js "Cohere"); (35, js "MiniMax"); (36, js "SunoAPI");
   (37, js "Dify"); (38, js "Jina"); (39, js "Cloudflare");
   (40, js "SiliconFlow"); (41, js "Vertex AI"); (42, js "Mistral");
   (43, js "DeepSeek"); (44, js "MokaAI"); (45, js "VolcEngine");
   (46, js "Baidu V2"); (47, js "Xinference"); (48, js "xAI");
   (49, js "Coze"); (50, js "Kling"); (51, js "Jimeng");
   (52, js "Vidu"); (53, js "Submodel"); (54, js "DoubaoVideo");
   (55, js "Sora"); (56, js "Replicate"); (57, js "Codex")].

Definition CHANNEL_TYPE_DISPLAY_ORDER : list N :=
  [1; 14; 33; 24; 43; 3; 41; 48; 42; 34; 20; 4; 40; 27;
   25; 17; 26; 15; 46; 23; 18; 45; 31; 35; 49; 19; 47; 37;
   38; 39; 11; 8; 57; 22; 21; 44; 2; 5; 36; 50; 51; 52;
   53; 54; 55; 56].

Definition TYPE_TO_ICON : list (N * jstr) :=
  [(1, js "OpenAI"); (6, js "OpenAI"); (7, js "OpenAI");
   (8, js "OpenAI"); (3, js "Azure"); (14, js "Claude");
   (24, js "Gemini"); (11, js "Google"); (41, js "Gemini");
   (33, js "Aws"); (39, js "Cloudflare"); (15, js "Baidu");
   (46, js "Baidu"); (16, js "Zhipu"); (26, js "Zhipu");
   (17, js "Qwen"); (18, js "Spark"); (23, js "Hunyuan");
   (19, js "Ai360"); (25, js "Moonshot"); (31, js "Yi");
   (35, js "Minimax"); (45, js "Volcengine"); (4, js "Ollama");
   (27, js "Perplexity"); (34, js "Cohere"); (42, js "Mistral");
   (43, js "DeepSeek"); (48, js "XAI"); (49, js "Coze");
   (40, js "SiliconCloud"); (44, js "OpenAI"); (20, js "OpenRouter");
   (2, js "Midjourney"); (5, js "Midjourney"); (50, js "Kling");
   (51, js "Jimeng"); (52, js "Vidu"); (36, js "Suno");
   (55, js "OpenAI"); (54, js "Doubao"); (56, js "Replicate");
   (37, js "Dify"); (38, js "Jina"); (22, js "FastGPT");
   (47, js "Xinference"); (53, js "OpenAI"); (10, js "OpenAI");
   (21, js "OpenAI"); (12, js "OpenAI"); (13, js "OpenAI");
   (9, js "OpenAI")].

Fixpoint table_get {V} (k : N) (t : list (N * V)) : option V :=
  match t with
  | [] => None
  | (k', v) :: t' => if k =? k' then Some v else table_get k t'
  end.

Definition getChannelTypeLabel (type : N) : jstr := default (js "Unknown") (table_get type CHANNEL_TYPES).

Definition getChannelTypeIcon (type : N) : jstr := default (js "OpenAI") (table_get type TYPE_TO_ICON).

(** The options of the type picker: the display order, then the other types. *)
Definition CHANNEL_TYPE_OPTIONS : list (N * jstr) :=
  let ordered :=
    omap (fun i => l ← table_get i CHANNEL_TYPES; if truthy_str l then Some (i, l) else None)
      CHANNEL_TYPE_DISPLAY_ORDER in
  let seen := List.map fst ordered in
  ordered ++ List.filter (fun kv => negb (kv.1 =? 0) && negb (includes kv.1 seen)) CHANNEL_TYPES.

(** ** Channels *)

Record ChannelInfo := Info {
  is_multi_key : bool;
  multi_key_size : N;
  multi_key_status_list : option (list (jstr * N))
}.

(** The fields the utilities read. *)
Record Channel := MkChannel {
  chan_id : N;
  name : jstr;
  tag : option jstr;
  status : N;
  group : jstr;
  used_quota : num;
  response_time : num;
  priority : option Z;
  weight : option Z;
  balance : num;
  channel_info : option ChannelInfo
}.

Definition isChannelEnabled (channel : Channel) : bool := status channel =? 1.

Definition isMultiKeyChannel (channel : Channel) : bool :=
  match channel_info channel with Some i => is_multi_key i | None => false end.

(** ** Keys *)

Definition countKeys (key : jstr) : nat :=
  length (List.filter (fun k => truthy_str (trim k)) (split_on 10 key)).

Definition formatChannelKey (key : jstr) (isMultiKey : bool) : jstr :=
  if negb (truthy_str key) then []
  else if isMultiKey then
    dec_of_N (N.of_nat (length (List.filter (fun k => truthy_str (trim k)) (split_on 10 key))))
      ++ js " keys"
  else if (length key <=? 16)%nat then take 4 key ++ js "..." ++ slice_last 4 key
  else take 8 key ++ js "..." ++ slice_last 8 key.

Definition formatKeyPreview (key : jstr) (maxLength : nat) : jstr :=
  if negb (truthy_str key) then []
  else if (length key <=? maxLength)%nat then key
  else take maxLength key ++ js "...".

(** ** Lists *)

Definition parseModelsList (models : jstr) : list jstr :=
  if negb (truthy_str models) then []
  else List.filter truthy_str (List.map trim (split_on 44 models)).

Definition formatModelsString (models : list jstr) : jstr := join (js ",") models.
Definition formatGroupsString (groups : list jstr) : jstr := join (js ",") groups.

Section Groups.
(** [a.localeCompare(b) <= 0]; the collation is data of the language's library. *)
Variable localeLe : jstr -> jstr -> bool.

(** The comparison of [parseGroupsList] is at most zero. *)
Definition group_le (a b : jstr) : bool :=
  if a =?= js "default" then true
  else if b =?= js "default" then false
  else localeLe a b.

Definition parseGroupsList (groups : jstr) : list jstr :=
  if negb (truthy_str groups) then []
  else sort_by group_le (List.filter truthy_str (List.map trim (split_on 44 groups))).

Definition validateGroups (groups : jstr) : bool := (0 <? length (parseGroupsList groups))%nat.
End Groups.

(** ** Settings *)

(** The parsed settings, an empty object on blank or invalid text. *)
Definition parseChannelSettings (settingStr : option jstr) : jsval :=
  match settingStr with
  | None | Some [] => VObj []
  | Some s => default (VObj []) (json_parse s)
  end.

Definition parseChannelOtherSettings (settingsStr : option jstr) : jsval :=
  match settingsStr with
  | None | Some [] => VObj []
  | Some s => if s =?= js "{}" then VObj [] else default (VObj []) (json_parse s)
  end.

Definition validateChannelSettings (settings : jstr) : bool :=
  if negb (truthy_str settings) || (trim settings =?= []) then true
  else match json_parse settings with Some _ => true | None => false end.

(** ** Balance, response time, priority *)

Inductive BalanceVariant := BSuccess | BWarning | BDanger | BNeutral.

Definition getBalanceVariant (b : num) : BalanceVariant :=
  if num_eqb b num_zero then BNeutral
  else if num_ltb b (num_of_Z 1) then BDanger
  else if num_ltb b (num_of_Z 10) then BWarning
  else BSuccess.

Inductive Rating := Excellent | Good | Fair | Poor | UnknownTime.

Definition getResponseTimeConfig (timeMs : num) : Rating :=
  if num_eqb timeMs num_zero then UnknownTime
  else if num_leb timeMs (num_of_Z 500) then Excellent
  else if num_leb timeMs (num_of_Z 1000) then Good
  else if num_leb timeMs (num_of_Z 2000) then Fair
  else if num_leb timeMs (num_of_Z 5000) then Poor
  else Poor.

(** Without a translation function. *)
Definition formatResponseTime (timeMs : num) : jstr :=
  if num_eqb timeMs num_zero then js "Not tested"
  else if num_ltb timeMs (num_of_Z 1000) then string_of_num timeMs ++ js "ms"
  else to_fixed (num_div timeMs (num_of_Z 1000)) 2 ++ js "s".

Definition getPriorityDisplay (p : option Z) : jstr :=
  match p with None => js "0" | Some z => dec_of_Z z end.

Definition getWeightDisplay (w : option Z) : jstr :=
  match w with None => js "0" | Some z => dec_of_Z z end.

(** ** Validation and attention *)

Definition validateChannelName (n : jstr) : bool := truthy_str (trim n).
Definition validateApiKey (key : jstr) : bool := truthy_str (trim key).
Definition validateModels (models : jstr) : bool := (0 <? length (parseModelsList models))%nat.

Definition all_keys_disabled (channel : Channel) : bool :=
  match channel_info channel with
  | Some i =>
      is_multi_key i &&
      match multi_key_status_list i with
      | Some l => multi_key_size i <=? N.of_nat (length (obj_keys l))
      | None => false
      end
  | None => false
  end.

Definition low_balance (channel : Channel) : bool :=
  num_gtb (balance channel) num_zero && num_ltb (balance channel) (num_of_Z 1).

Definition channelNeedsAttention (channel : Channel) : bool :=
  if status channel =? 3 then true
  else if low_balance channel then true
  else if all_keys_disabled channel then true
  else false.

Definition getAttentionReason (channel : Channel) : option jstr :=
  if status channel =? 3 then Some (js "Auto-disabled")
  else if low_balance channel then Some (js "Low balance")
  else if all_keys_disabled channel then Some (js "All keys disabled")
  else None.

(** ** Aggregation by tag *)

(** The aggregate row: its tag (also its key, id and name), the fields that are
    aggregated, the children, and the channel whose other fields are spread
    into it.  The type, balance, times and models of a row are constants and
    are not repeated. *)
Record TagRow := MkRow {
  row_base : Channel;
  row_tag : jstr;
  row_status : option N;
  row_group : jstr;
  row_used_quota : num;
  row_response_time : num;
  row_priority : option Z;
  row_weight : option Z;
  row_children : list Channel
}.

Definition tag_of (c : Channel) : jstr := default [] (tag c).

Definition new_row (c : Channel) : TagRow :=
  MkRow c (tag_of c) None [] num_zero num_zero (Some (-1)%Z) (Some (-1)%Z) [].

(** Same value, or [null] when the children differ; [-1] is the start value. *)
Definition merge_value (row child : option Z) : option Z :=
  if row =?= Some (-1)%Z then child
  else if row <?> child then None
  else row.

Definition merge_group (row child : jstr) : jstr :=
  if row =?= [] then child
  else
    let existing := List.filter truthy_str (split_on 44 row) in
    fold_left (fun acc g => if includes g existing then acc else acc ++ js "," ++ g)
      (List.filter truthy_str (split_on 44 child)) row.

(** The body of the loop once the row of the channel's tag is at hand. *)
Definition add_child (row : TagRow) (c : Channel) : TagRow :=
  let children := row_children row ++ [c] in
  let n := num_of_Z (Z.of_nat (length children)) in
  let n1 := num_of_Z (Z.of_nat (length children) - 1) in
  MkRow (row_base row) (row_tag row)
    (if status c =? 1 then Some 1
     else match row_status row with None => Some (status c) | s => s end)
    (merge_group (row_group row) (group c))
    (num_add (row_used_quota row) (used_quota c))
    (num_div (num_add (num_mul (row_response_time row) n1) (response_time c)) n)
    (merge_value (row_priority row) (priority c))
    (merge_value (row_weight row) (weight c))
    children.

(** The rows share their objects with the map: a row is updated in place, at its
    position in the result. *)
Fixpoint update_row (c : Channel) (rows : list TagRow) : list TagRow :=
  match rows with
  | [] => [add_child (new_row c) c]
  | r :: rs => if row_tag r =?= tag_of c then add_child r c :: rs else r :: update_row c rs
  end.

Definition aggregateChannelsByTag (channels : list Channel) : list TagRow :=
  fold_left (fun rows c => update_row c rows) channels [].

(** ** Key deduplication *)

Record Dedup := MkDedup {
  deduplicatedText : jstr;
  beforeCount : nat;
  afterCount : nat;
  removedCount : Z
}.

Definition deduplicateKeys (keysText : jstr) : Dedup :=
  if negb (truthy_str keysText) || (trim keysText =?= []) then MkDedup [] 0 0 0
  else
    let keyLines := split_on 10 keysText in
    let deduplicatedKeys := uniq (List.filter truthy_str (List.map trim keyLines)) in
    MkDedup (join [10] deduplicatedKeys) (length keyLines) (length deduplicatedKeys)
      (Z.of_nat (length keyLines) - Z.of_nat (length deduplicatedKeys)).

(** * Facts *)

(** ** Aggregation *)

(** The children of a tag, and the row they make when added in order. *)
Definition children_of (t : jstr) (cs : list Channel) : list Channel :=
  List.filter (fun c => tag_of c =?= t) cs.

Definition row_of (cs : list Channel) : option TagRow :=
  match cs with [] => None | c :: _ => Some (fold_left add_child cs (new_row c)) end.

(** The specification: one row per tag, in order of first appearance. *)
Definition grouped (channels : list Channel) : list TagRow :=
  omap (fun t => row_of (children_of t channels)) (uniq (List.map tag_of channels)).

Lemma add_child_tag r c : row_tag (add_child r c) = row_tag r.
Proof. done. Qed.

Lemma fold_add_facts cs r :
  let r' := fold_left add_child cs r in
  row_tag r' = row_tag r /\ row_children r' = row_children r ++ cs /\ row_base r' = row_base r.
Proof.
  revert r. induction cs as [|c cs IH]; intros r; cbn [fold_left]; [by rewrite app_nil_r|].
  destruct (IH (add_child r c)) as (-> & -> & ->). cbn. by rewrite <- app_assoc.
Qed.

Lemma children_snoc t cs c :
  children_of t (cs ++ [c]) = children_of t cs ++ (if tag_of c =?= t then [c] else []).
Proof. unfold children_of. rewrite lfilter_app. cbn. by case_bool_decide. Qed.

Lemma children_nil t cs : t ∉ List.map tag_of cs -> children_of t cs = [].
Proof.
  intros Ht. apply filter_none, Forall_forall. intros c Hc. apply bool_decide_eq_false. intros <-.
  apply Ht. by apply list_elem_of_In, in_map, list_elem_of_In.
Qed.

Lemma children_some t cs : t ∈ List.map tag_of cs -> children_of t cs <> [].
Proof.
  intros Ht Hn. rewrite list_elem_of_In, in_map_iff in Ht. destruct Ht as (c & <- & Hc).
  apply (not_elem_of_nil c). rewrite <- Hn. apply elem_of_lfilter.
  rewrite bool_decide_true by done. by rewrite list_elem_of_In.
Qed.

Lemma row_of_snoc cs c r : row_of cs = Some r -> row_of (cs ++ [c]) = Some (add_child r c).
Proof. destruct cs as [|c0 cs]; [done|]. cbn. intros [= <-]. by rewrite fold_left_app. Qed.

Lemma row_of_tag cs t r : row_of cs = Some r -> Forall (fun c => tag_of c = t) cs -> row_tag r = t.
Proof.
  destruct cs as [|c cs]; [done|]. cbn [row_of]. intros [= <-] [Hc _]%Forall_cons.
  etransitivity; [apply (fold_add_facts (c :: cs) (new_row c))|exact Hc].
Qed.

Lemma children_tag t cs : Forall (fun c => tag_of c = t) (children_of t cs).
Proof.
  apply Forall_forall. intros c Hc. apply elem_of_lfilter in Hc as [_ Hc].
  by apply bool_decide_eq_true_1 in Hc.
Qed.

(** Updating the row of a tag in a list of rows by distinct tags. *)
Lemma update_rows (ts : list jstr) (f : jstr -> option TagRow) (g : jstr -> option TagRow) c :
  NoDup ts ->
  (forall t, t ∈ ts -> exists r, f t = Some r /\ row_tag r = t) ->
  (forall t, t ∈ ts -> t <> tag_of c -> g t = f t) ->
  (forall r, tag_of c ∈ ts -> f (tag_of c) = Some r -> g (tag_of c) = Some (add_child r c)) ->
  update_row c (omap f ts) =
  omap g ts ++ (if bool_decide (tag_of c ∈ ts) then [] else [add_child (new_row c) c]).
Proof.
  induction ts as [|t ts IH]; intros Hnd Hf Hg Hc; [done|].
  apply NoDup_cons in Hnd as [Ht Hnd]. destruct (Hf t) as (r & Er & Htag); [by left|].
  csimpl. rewrite Er. cbn [update_row]. rewrite Htag.
  destruct (decide (t = tag_of c)) as [E|E].
  - rewrite E in *. rewrite (bool_decide_true (tag_of c = _)) by done. rewrite (Hc r) by (done || by left). rewrite bool_decide_true by (by left).
    rewrite app_nil_r. f_equal.
    apply omap_ext_in. intros t' Ht'. symmetry. apply Hg; [by right|]. by intros ->.
  - rewrite (bool_decide_false (t = _)) by done.
    rewrite (Hg t) by (done || by left). rewrite Er. rewrite IH; [|done|..].
    + assert (E2 : tag_of c ∈ t :: ts <-> tag_of c ∈ ts).
      { rewrite elem_of_cons. split; [by intros [?|?]|by right]. }
      by rewrite (bool_decide_ext _ _ E2).
    + intros t' Ht'. apply Hf. by right.
    + intros t' Ht' Hne. apply Hg; [by right|done].
    + intros r' Ht' Er'. apply Hc; [by right|done].
Qed.

Lemma aggregate_grouped channels : aggregateChannelsByTag channels = grouped channels.
Proof.
  induction channels as [|c cs IH] using rev_ind; [done|].
  unfold aggregateChannelsByTag in *. rewrite fold_left_app. cbn [fold_left]. rewrite IH.
  unfold grouped. rewrite map_app. cbn [List.map]. rewrite uniq_snoc, omap_app.
  rewrite (update_rows _ _ (fun t => row_of (children_of t (cs ++ [c])))).
  - f_equal. rewrite (bool_decide_ext _ _ (elem_of_uniq (tag_of c) (List.map tag_of cs))).
    case_bool_decide as Hin; [done|]. csimpl. rewrite children_snoc, bool_decide_true by done.
    by rewrite children_nil.
  - apply NoDup_uniq.
  - intros t Ht. apply (proj1 (elem_of_uniq t _)) in Ht. destruct (children_of t cs) as [|c0 l] eqn:E.
    { destruct (children_some t cs Ht E). }
    exists (fold_left add_child (c0 :: l) (new_row c0)). split; [done|].
    apply (row_of_tag (c0 :: l)); [done|]. rewrite <- E. apply children_tag.
  - intros t _ Hne. by rewrite children_snoc, bool_decide_false, app_nil_r by done.
  - intros r _ Er. rewrite children_snoc, bool_decide_true by done. by apply row_of_snoc.
Qed.

Lemma map_tag_grouped channels :
  List.map row_tag (grouped channels) = uniq (List.map tag_of channels).
Proof.
  unfold grouped. assert (H : forall t, t ∈ uniq (List.map tag_of channels) -> t ∈ List.map tag_of channels)
    by (intros t; apply elem_of_uniq).
  induction (uniq (List.map tag_of channels)) as [|t ts IH]; [done|]. csimpl.
  destruct (children_of t channels) as [|c0 l] eqn:E.
  { destruct (children_some t channels); [apply H; by left|done]. }
  cbn [row_of List.map]. f_equal; [|apply IH; intros; apply H; by right].
  apply (row_of_tag (c0 :: l)); [done|]. rewrite <- E. apply children_tag.
Qed.

(** The shared value of a list of settings, [null] when they differ. *)
Definition common (l : list (option Z)) : option Z :=
  match l with
  | [] => None
  | p :: ps => if forallb (fun q => q =?= p) ps then p else None
  end.

Lemma merge_none ps : fold_left merge_value ps None = None.
Proof.
  induction ps as [|p ps IH]; cbn [fold_left]; [done|].
  unfold merge_value at 2. by destruct (None <?> p).
Qed.

Lemma merge_some ps p :
  p <> Some (-1)%Z -> fold_left merge_value ps p = (if forallb (fun q => q =?= p) ps then p else None).
Proof.
  intros Hp. induction ps as [|q ps IH]; cbn [fold_left forallb]; [done|].
  unfold merge_value at 2. rewrite (bool_decide_false (p = _)) by done.
  destruct (decide (q = p)) as [->|Hq].
  - rewrite !bool_decide_true by done. apply IH.
  - rewrite (bool_decide_false (p = q)) by congruence. rewrite (bool_decide_false (q = p)) by done. apply merge_none.
Qed.

Lemma merge_common ps :
  ps <> [] -> Some (-1)%Z ∉ ps -> fold_left merge_value ps (Some (-1)%Z) = common ps.
Proof.
  destruct ps as [|p ps]; [done|]. intros _ Hn. apply not_elem_of_cons in Hn as [Hp _].
  cbn [fold_left common]. unfold merge_value at 2. rewrite bool_decide_true by done.
  by apply merge_some.
Qed.

(** The fields of a row are folds over the children. *)
Lemma fold_fields cs r :
  let r' := fold_left add_child cs r in
  row_priority r' = fold_left merge_value (List.map priority cs) (row_priority r) /\
  row_weight r' = fold_left merge_value (List.map weight cs) (row_weight r) /\
  row_used_quota r' = fold_left num_add (List.map used_quota cs) (row_used_quota r) /\
  row_group r' = fold_left merge_group (List.map group cs) (row_group r).
Proof.
  revert r. induction cs as [|c cs IH]; intros r; cbn [fold_left List.map]; [done|].
  apply (IH (add_child r c)).
Qed.

Lemma fold_status cs r :
  row_status (fold_left add_child cs r) =
  if existsb isChannelEnabled cs then Some 1
  else match row_status r with None => option_map status (head cs) | s => s end.
Proof.
  revert r. induction cs as [|c cs IH]; intros r; cbn [fold_left existsb head option_map].
  { by destruct (row_status r). }
  rewrite IH. unfold isChannelEnabled at 2. cbn [add_child row_status].
  destruct (status c =? 1) eqn:E; cbn [orb].
  - by destruct (existsb _ _).
  - destruct (existsb _ _); [done|]. by destruct (row_status r).
Qed.

(** The group names of a list text. *)
Definition parts (s : jstr) : list jstr := List.filter truthy_str (split_on 44 s).

Lemma parts_snoc s g : g <> [] -> 44 ∉ g -> parts (s ++ js "," ++ g) = parts s ++ [g].
Proof.
  intros Hg Hc. change (js "," ++ g) with (44 :: g). unfold parts.
  rewrite split_on_cut, (split_on_word _ g), lfilter_app by done. by destruct g.
Qed.

Lemma parts_word s g : g ∈ parts s -> g <> [] /\ 44 ∉ g.
Proof.
  intros [Hg Ht]%elem_of_lfilter. split; [by destruct g|].
  pose proof (split_on_free 44 s) as Hf. rewrite Forall_forall in Hf. by apply Hf.
Qed.

Lemma merge_parts_fold existing gs row :
  Forall (fun g => g <> [] /\ 44 ∉ g) gs ->
  existing ⊆ parts row ->
  same_elements
    (parts (fold_left (fun acc g => if includes g existing then acc else acc ++ js "," ++ g) gs row))
    (parts row ++ gs).
Proof.
  intros Hgs. revert row. induction Hgs as [|g gs [Hg Hc] Hgs IH]; intros row Hsub; cbn [fold_left].
  { by rewrite app_nil_r. }
  destruct (includes g existing) eqn:E.
  - rewrite IH by done. intros x. rewrite !elem_of_app, elem_of_cons.
    apply includes_true, Hsub in E. split; [tauto|]. intros [?|[->|?]]; tauto.
  - rewrite IH by (rewrite parts_snoc by done; intros x Hx; apply elem_of_app; auto). rewrite parts_snoc by done.
    by rewrite <- app_assoc.
Qed.

Lemma merge_parts row child : same_elements (parts (merge_group row child)) (parts row ++ parts child).
Proof.
  unfold merge_group. case_bool_decide as E; [by subst|].
  apply merge_parts_fold; [|done]. apply Forall_forall, parts_word.
Qed.

Lemma fold_parts gs row :
  same_elements (parts (fold_left merge_group gs row)) (parts row ++ concat (List.map parts gs)).
Proof.
  revert row. induction gs as [|g gs IH]; intros row; cbn [fold_left List.map concat].
  { by rewrite app_nil_r. }
  rewrite IH, merge_parts. by rewrite app_assoc.
Qed.

(** What a row shows of its children. *)
Record row_shows (r : TagRow) : Prop := {
  shows_children : row_children r <> [];
  shows_enabled : row_status r = Some 1 <-> exists c, c ∈ row_children r /\ isChannelEnabled c = true;
  shows_disabled : existsb isChannelEnabled (row_children r) = false ->
    row_status r = option_map status (head (row_children r));
  shows_quota : row_used_quota r = fold_left num_add (List.map used_quota (row_children r)) num_zero;
  shows_priority : Some (-1)%Z ∉ List.map priority (row_children r) ->
    row_priority r = common (List.map priority (row_children r));
  shows_weight : Some (-1)%Z ∉ List.map weight (row_children r) ->
    row_weight r = common (List.map weight (row_children r));
  shows_groups :
    same_elements (parts (row_group r)) (concat (List.map parts (List.map group (row_children r))))
}.

Lemma existsb_elem {A} (f : A -> bool) l : existsb f l = true <-> exists x, x ∈ l /\ f x = true.
Proof. rewrite existsb_exists. by setoid_rewrite list_elem_of_In. Qed.

Lemma head_disabled cs :
  existsb isChannelEnabled cs = false -> option_map status (head cs) <> Some 1.
Proof.
  destruct cs as [|c cs]; [done|]. cbn. unfold isChannelEnabled at 1.
  intros [E _]%orb_false_iff [= H]. by rewrite H in E.
Qed.

Lemma row_of_shows cs r : row_of cs = Some r -> row_children r = cs /\ row_shows r.
Proof.
  destruct cs as [|c cs]; [done|]. cbn [row_of]. intros [= Er].
  change (fold_left add_child (c :: cs) (new_row c) = r) in Er.
  destruct (fold_add_facts (c :: cs) (new_row c)) as (_ & Hch & _).
  destruct (fold_fields (c :: cs) (new_row c)) as (Hp & Hw & Hq & Hg).
  pose proof (fold_status (c :: cs) (new_row c)) as Hs.
  rewrite Er in *. cbn [new_row row_children app] in Hch. split; [done|].
  rewrite <- Hch in Hs, Hp, Hw, Hq, Hg. assert (Hne : row_children r <> []) by (by rewrite Hch).
  assert (Hne' : forall A (f : Channel -> A), List.map f (row_children r) <> [])
    by (intros A f; by destruct (row_children r)).
  cbn [new_row row_status row_priority row_weight row_used_quota row_group] in *. split.
  - done.
  - rewrite <- existsb_elem, Hs. destruct (existsb _ _) eqn:E; [done|].
    split; [|done]. intros H. by apply head_disabled in E.
  - intros E. by rewrite Hs, E.
  - done.
  - intros Hn. rewrite Hp. by apply merge_common.
  - intros Hn. rewrite Hw. by apply merge_common.
  - rewrite Hg. apply (fold_parts _ []).
Qed.

(** C12: aggregation by tag.  The rows are the distinct tags in order of first
    appearance; a row's children are exactly the channels of its tag in their
    order; the row is enabled iff some child is, and otherwise carries the
    first child's status; its used quota is the sum over the children; its
    priority and weight are the common value or null, provided no child uses
    the start value -1; its groups are exactly the children's groups. *)
Theorem aggregation_exact channels :
  let rows := aggregateChannelsByTag channels in
  List.map row_tag rows = uniq (List.map tag_of channels) /\
  Forall (fun r => row_children r = children_of (row_tag r) channels /\ row_shows r) rows.
Proof.
  cbn zeta. rewrite aggregate_grouped. split; [apply map_tag_grouped|].
  apply Forall_forall. intros r Hr. unfold grouped in Hr.
  apply list_elem_of_omap in Hr as (t & _ & Er).
  rewrite (row_of_tag _ t r Er (children_tag t channels)). by apply row_of_shows.
Qed.

(** The start value -1 of priority and weight is not told apart from a
    child's own -1: two channels of a tag with the priorities -1 and 5 are
    shown with the common priority 5, although the priorities differ. *)
Theorem priority_sentinel_mixed :
  let chan p := MkChannel 1 (js "a") (Some (js "t")) 1 (js "default") num_zero num_zero
                  (Some p) (Some 0%Z) num_zero None in
  List.map row_priority (aggregateChannelsByTag [chan (-1)%Z; chan 5%Z]) = [Some 5%Z] /\
  common [Some (-1)%Z; Some 5%Z] = None.
Proof. by vm_compute. Qed.

(** ** Keys *)

Lemma slice_last_length n (s : jstr) : length (slice_last n s) = Nat.min n (length s).
Proof. unfold slice_last. rewrite length_drop. lia. Qed.

Lemma take_drop_overlap (s : jstr) a b :
  (length s <= a + b)%nat -> take (length s - b) (take a s) ++ slice_last b s = s.
Proof.
  intros H. rewrite take_take, Nat.min_l by lia. unfold slice_last. apply take_drop.
Qed.

(** The number of units of a key shown at either end. *)
Definition shown_units (key : jstr) : nat := if (length key <=? 16)%nat then 4 else 8.

Lemma format_single key :
  key <> [] ->
  formatChannelKey key false =
  take (shown_units key) key ++ js "..." ++ slice_last (shown_units key) key.
Proof. intros H. unfold formatChannelKey, shown_units. destruct key; [done|]. cbn [truthy_str negb]. by case_match. Qed.

(** Masking.  The display of a single key of more than 8 units shows its
    ends and nothing else (4 units each up to length 16, 8 beyond): keys of
    the same length are shown alike iff their ends agree.  A key of at most 8
    units is not masked at all: the display determines it. *)
Theorem key_mask_exact key other :
  key <> [] -> length other = length key ->
  (formatChannelKey other false = formatChannelKey key false <->
   take (shown_units key) other = take (shown_units key) key /\
   slice_last (shown_units key) other = slice_last (shown_units key) key) /\
  ((length key <= 8)%nat ->
   let shown := formatChannelKey key false in
   take (length key - 4) shown ++ slice_last (Nat.min 4 (length key)) shown = key).
Proof.
  intros Hk Hl. assert (Ho : other <> []) by (intros ->; by destruct key).
  assert (Hs : shown_units other = shown_units key) by (unfold shown_units; by rewrite Hl).
  rewrite (format_single other Ho), (format_single key Hk), Hs. split.
  - split; [|by intros [-> ->]]. intros E.
    apply app_inj_1 in E as [E1 E2]; [|by rewrite !length_take, Hl].
    apply app_inv_head in E2. done.
  - intros H8. unfold shown_units. rewrite (proj2 (Nat.leb_le _ _)) by lia. cbv zeta.
    rewrite take_app_le by (rewrite length_take; lia).
    etransitivity; [|exact (take_drop_overlap key 4 4 H8)]. f_equal.
    unfold slice_last at 1. rewrite !length_app, slice_last_length, app_assoc.
    rewrite drop_app_ge by (rewrite length_app; lia). rewrite !length_app.
    match goal with |- drop ?n _ = _ => replace n with 0%nat by lia end. done.
Qed.

Lemma key_mask_exact_witness :
  let shown := formatChannelKey (js "sk-12") false in
  shown = js "sk-1...k-12" /\ take 1 shown ++ slice_last 4 shown = js "sk-12".
Proof.
  split; [reflexivity|].
  refine (proj2 (key_mask_exact (js "sk-12") (js "sk-12") _ eq_refl) _); [done|vm_compute; lia].
Defined.

Lemma dedup_run t :
  words 10 t <> [] ->
  deduplicateKeys t =
  MkDedup (join [10] (uniq (words 10 t))) (length (split_on 10 t)) (length (uniq (words 10 t)))
    (Z.of_nat (length (split_on 10 t)) - Z.of_nat (length (uniq (words 10 t)))).
Proof.
  intros Ht. unfold deduplicateKeys. rewrite (bool_decide_false (trim t = [])).
  - by destruct t.
  - by intros ?%(words_blank 10).
Qed.

Lemma uniq_words_join t :
  words 10 t <> [] ->
  let ks := uniq (words 10 t) in
  split_on 10 (join [10] ks) = ks /\ words 10 (join [10] ks) = ks /\ ks <> [].
Proof.
  intros Ht ks. assert (Hk : Forall (word 10) ks) by apply uniq_Forall, words_word.
  assert (Hne : ks <> []).
  { destruct (words 10 t) as [|w ws] eqn:E; [done|]. intros Hn.
    apply (not_elem_of_nil w). rewrite <- Hn. unfold ks. rewrite elem_of_uniq. by left. }
  split_and!; [|by apply words_join|done]. apply split_join; [done|].
  eapply Forall_impl; [exact Hk|]. by intros w (_ & _ & ?).
Qed.

(** Deduplication of keys.  The result text has one line per distinct
    nonblank trimmed line of the input, in order of first occurrence, and the
    counts are the numbers of lines before and after, with their difference;
    deduplicating the result changes and removes nothing. *)
Theorem deduplicate_exact keysText :
  words 10 keysText <> [] ->
  let d := deduplicateKeys keysText in
  split_on 10 (deduplicatedText d) = uniq (words 10 keysText) /\
  beforeCount d = length (split_on 10 keysText) /\
  afterCount d = length (uniq (words 10 keysText)) /\
  removedCount d = (Z.of_nat (beforeCount d) - Z.of_nat (afterCount d))%Z /\
  deduplicateKeys (deduplicatedText d) = MkDedup (deduplicatedText d) (afterCount d) (afterCount d) 0.
Proof.
  intros Hne. cbv zeta. rewrite dedup_run by done. cbn [deduplicatedText beforeCount afterCount removedCount].
  destruct (uniq_words_join keysText Hne) as (Hs & Hw & Hu).
  split_and!; [done..|]. rewrite dedup_run by (by rewrite Hw).
  rewrite Hw, Hs, uniq_idemp. f_equal. lia.
Qed.

Lemma deduplicate_exact_witness :
  words 10 (js " k1" ++ [10; 10] ++ js "k2" ++ [10] ++ js "k1") <> [] /\
  deduplicateKeys (js "k1" ++ [10] ++ js "k2") = MkDedup (js "k1" ++ [10] ++ js "k2") 2 2 0.
Proof.
  split; [done|].
  refine (proj2 (proj2 (proj2 (proj2
    (deduplicate_exact (js " k1" ++ [10; 10] ++ js "k2" ++ [10] ++ js "k1") _))))). done.
Defined.

(** ** Groups *)

Section GroupFacts.
Variable localeLe : jstr -> jstr -> bool.
Hypothesis locale_total : forall a b, localeLe a b = false -> localeLe b a = true.
Hypothesis locale_trans : forall a b c, localeLe a b = true -> localeLe b c = true -> localeLe a c = true.

Lemma group_le_total a b : group_le localeLe a b = false -> group_le localeLe b a = true.
Proof. unfold group_le. repeat case_bool_decide; try done. apply locale_total. Qed.

Lemma group_le_trans a b c :
  group_le localeLe a b = true -> group_le localeLe b c = true -> group_le localeLe a c = true.
Proof. unfold group_le. repeat case_bool_decide; try done. apply locale_trans. Qed.

Lemma groups_words g : parseGroupsList localeLe g = sort_by (group_le localeLe) (words 44 g).
Proof. unfold parseGroupsList. by destruct g. Qed.

(** Group lists.  With the library's collation a total preorder, the
    parsed groups are the trimmed nonblank pieces of the text, each as often
    as it occurs, in collation order after all occurrences of the default
    group; printing them and parsing again gives the same list. *)
Theorem groups_sorted_roundtrip g :
  let l := parseGroupsList localeLe g in
  l ≡ₚ words 44 g /\
  StronglySorted (fun a b => a = js "default" \/ (b <> js "default" /\ localeLe a b = true)) l /\
  parseGroupsList localeLe (formatGroupsString l) = l.
Proof.
  cbv zeta. rewrite groups_words. set (l := sort_by _ _).
  assert (Hp : l ≡ₚ words 44 g) by apply sort_by_perm.
  assert (Hs : StronglySorted (fun a b => group_le localeLe a b = true) l)
    by (apply sort_by_sorted; [apply group_le_total|apply group_le_trans]).
  split_and!; [done| |].
  - eapply StronglySorted_weaken; [|exact Hs]. intros a b. unfold group_le.
    repeat case_bool_decide; [by left|done|by right].
  - rewrite groups_words. unfold formatGroupsString. destruct (decide (l = [])) as [->|Hne]; [done|].
    rewrite (words_join 44); [by apply sort_by_id|done|]. rewrite Hp. apply words_word.
Qed.
End GroupFacts.

Lemma groups_sorted_roundtrip_witness :
  parseGroupsList str_leb (formatGroupsString (parseGroupsList str_leb (js "vip, default,b"))) =
  [js "default"; js "b"; js "vip"].
Proof.
  change [js "default"; js "b"; js "vip"] with (parseGroupsList str_leb (js "vip, default,b")).
  apply (groups_sorted_roundtrip str_leb str_leb_total str_leb_trans (js "vip, default,b")).
Defined.
