(* ===== verification/ChannelForm.v ===== *)
(** * The channel form

    Models [features/channels/lib/channel-form.ts]: the form's values, their
    defaults from a stored channel, the two JSON columns [setting] and
    [settings] a form writes, and the payloads of creating and updating a
    channel.  Values that come out of the stored JSON unchecked ([x || d]) are
    kept as values of the language; payloads are objects. *)

From S2P Require Import Prelude.
From S2P Require Import JsString.
From S2P Require Import JsNumber.
From S2P Require Import JsValue.
From S2P Require Import JsJson.

Local Open Scope N_scope.

(** ** Data *)

(** The fields stored in the [setting] column. *)
Record ExtraSettings := MkExtra {
  force_format : jsval;
  thinking_to_content : jsval;
  proxy : jsval;
  pass_through_body_enabled : jsval;
  system_prompt : jsval;
  system_prompt_override : jsval
}.

(** The fields stored in the [settings] column. *)
Record TypeSettings := MkTypeSettings {
  is_enterprise_account : bool;
  vertex_key_type : jsval;
  aws_key_type : jsval;
  azure_responses_version : jsval;
  allow_service_tier : bool;
  disable_store : bool;
  allow_safety_identifier : bool;
  allow_include_obfuscation : bool;
  allow_inference_geo : bool;
  allow_speed : bool;
  claude_beta_query : bool;
  upstream_model_update_check_enabled : bool;
  upstream_model_update_auto_sync_enabled : bool;
  upstream_model_update_ignored_models : jstr
}.

Inductive AddMode := Single | Batch | MultiToSingle.

#[export] Instance AddMode_eq : EqDecision AddMode.
Proof. solve_decision. Defined.

(** [ChannelFormValues]; [undefined] is [None]. *)
Record ChannelFormValues := Form {
  name : jstr;
  type_ : N;
  base_url : option jstr;
  key : jstr;
  openai_organization : option jstr;
  models : jstr;
  group : list jstr;
  model_mapping : option jstr;
  priority : option num;
  weight : option num;
  test_model : option jstr;
  auto_ban : option num;
  status : num;
  status_code_mapping : option jstr;
  tag : option jstr;
  remark : option jstr;
  setting : option jstr;
  param_override : option jstr;
  header_override : option jstr;
  settings : option jstr;
  other : option jstr;
  multi_key_mode : option AddMode;
  multi_key_type : option jstr;
  batch_add_set_key_prefix_2_name : option bool;
  key_mode : option jstr;
  extra : ExtraSettings;
  typed : TypeSettings
}.

(** The stored channel, as far as the form reads it. *)
Record ApiChannel := MkApiChannel {
  api_name : jstr;
  api_type : N;
  api_base_url : option jstr;
  api_openai_organization : option jstr;
  api_models : jstr;
  api_group : jstr;
  api_model_mapping : option jstr;
  api_priority : option num;
  api_weight : option num;
  api_test_model : option jstr;
  api_auto_ban : option num;
  api_status : num;
  api_status_code_mapping : option jstr;
  api_tag : option jstr;
  api_remark : jstr;
  api_setting : option jstr;
  api_param_override : option jstr;
  api_header_override : option jstr;
  api_settings : jstr;
  api_other : jstr;
  api_multi_key_mode : jstr
}.

Definition channelFormSchema (f : ChannelFormValues) : bool :=
  (1 <=? length (name f))%nat && (1 <=? length (models f))%nat &&
  (1 <=? length (group f))%nat &&
  match remark f with Some r => (length r <=? 255)%nat | None => true end.

Definition default_extra : ExtraSettings :=
  MkExtra (VBool false) (VBool false) (VStr []) (VBool false) (VStr []) (VBool false).

Definition default_typed : TypeSettings :=
  MkTypeSettings false (VStr (lit "json")) (VStr (lit "ak_sk")) (VStr [])
    false false false false false false false false false [].

Definition CHANNEL_FORM_DEFAULT_VALUES : ChannelFormValues :=
  Form [] 1 (Some []) [] (Some []) [] [lit "default"] (Some [])
    (Some num_zero) (Some num_zero) (Some []) (Some (num_of_Z 1)) (num_of_Z 1)
    (Some []) (Some []) (Some []) (Some []) (Some []) (Some []) (Some (lit "{}")) (Some [])
    (Some Single) (Some (lit "random")) (Some false) (Some (lit "append")) default_extra default_typed.

(** ** Lists and validation *)

Definition parseModels (ms : jstr) : list jstr :=
  if negb (truthy_str ms) then []
  else List.filter truthy_str (List.map trim (split_on 44 ms)).

Definition parseGroups (gs : jstr) : list jstr :=
  if negb (truthy_str gs) then []
  else List.filter truthy_str (List.map trim (split_on 44 gs)).

Definition formatModels (ms : list jstr) : jstr := join (lit ",") ms.
Definition formatGroups (gs : list jstr) : jstr := join (lit ",") gs.

Definition validateJSON (value : jstr) : bool :=
  if negb (truthy_str value) || (trim value =?= []) then true
  else match json_parse value with Some _ => true | None => false end.

Definition validateModelMapping (value : jstr) : bool :=
  if negb (truthy_str value) || (trim value =?= []) then true else validateJSON value.

(** ** From a stored channel to the form *)

(** The reads of [JSON.parse(channel.setting)]; reading [null] throws, which
    the source catches, and leaves the defaults, as reading [undefined] does. *)
Definition read_setting (parsed : jsval) : ExtraSettings :=
  MkExtra (val_or (get_prop (lit "force_format") parsed) (VBool false))
    (val_or (get_prop (lit "thinking_to_content") parsed) (VBool false))
    (val_or (get_prop (lit "proxy") parsed) (VStr []))
    (val_or (get_prop (lit "pass_through_body_enabled") parsed) (VBool false))
    (val_or (get_prop (lit "system_prompt") parsed) (VStr []))
    (val_or (get_prop (lit "system_prompt_override") parsed) (VBool false)).

Definition read_settings (parsed : jsval) : TypeSettings :=
  MkTypeSettings (is_true (get_prop (lit "openrouter_enterprise") parsed))
    (val_or (get_prop (lit "vertex_key_type") parsed) (VStr (lit "json")))
    (val_or (get_prop (lit "aws_key_type") parsed) (VStr (lit "ak_sk")))
    (val_or (get_prop (lit "azure_responses_version") parsed) (VStr []))
    (is_true (get_prop (lit "allow_service_tier") parsed))
    (is_true (get_prop (lit "disable_store") parsed))
    (is_true (get_prop (lit "allow_safety_identifier") parsed))
    (is_true (get_prop (lit "allow_include_obfuscation") parsed))
    (is_true (get_prop (lit "allow_inference_geo") parsed))
    (is_true (get_prop (lit "allow_speed") parsed))
    (is_true (get_prop (lit "claude_beta_query") parsed))
    (is_true (get_prop (lit "upstream_model_update_check_enabled") parsed))
    (is_true (get_prop (lit "upstream_model_update_auto_sync_enabled") parsed))
    (match get_prop (lit "upstream_model_update_ignored_models") parsed with
     | VArr l => string_of_val (VArr l)
     | _ => []
     end).

(** [s || d] on an optional string. *)
Definition opt_or (s : option jstr) (d : jstr) : jstr :=
  match s with Some (c :: r) => c :: r | _ => d end.

(** [x || 0] on an optional number. *)
Definition num_or_zero (x : option num) : num := num_or (default NaN x) num_zero.

Definition transformChannelToFormDefaults (channel : ApiChannel) : ChannelFormValues :=
  let extraSettings :=
    if truthy_str (opt_or (api_setting channel) []) then
      match json_parse (opt_or (api_setting channel) []) with
      | Some parsed => read_setting parsed
      | None => default_extra
      end
    else default_extra in
  let typeSettings :=
    if truthy_str (api_settings channel) then
      match json_parse (api_settings channel) with
      | Some parsed => read_settings parsed
      | None => default_typed
      end
    else default_typed in
  Form (api_name channel) (api_type channel) (Some (opt_or (api_base_url channel) [])) []
    (Some (opt_or (api_openai_organization channel) [])) (api_models channel)
    (parseGroups (opt_or (Some (api_group channel)) (lit "default")))
    (Some (opt_or (api_model_mapping channel) []))
    (Some (num_or_zero (api_priority channel))) (Some (num_or_zero (api_weight channel)))
    (Some (opt_or (api_test_model channel) []))
    (Some (default (num_of_Z 1) (api_auto_ban channel))) (api_status channel)
    (Some (opt_or (api_status_code_mapping channel) [])) (Some (opt_or (api_tag channel) []))
    (Some (api_remark channel)) (Some (opt_or (api_setting channel) []))
    (Some (opt_or (api_param_override channel) [])) (Some (opt_or (api_header_override channel) []))
    (Some (opt_or (Some (api_settings channel)) (lit "{}"))) (Some (api_other channel))
    (Some Single) (Some (opt_or (Some (api_multi_key_mode channel)) (lit "random"))) (Some false)
    (Some (lit "append"))
    extraSettings typeSettings.

(** ** From the form to the stored columns *)

Definition setting_object (formData : ChannelFormValues) : jsobj :=
  let e := extra formData in
  [(lit "force_format", val_or (force_format e) (VBool false));
   (lit "thinking_to_content", val_or (thinking_to_content e) (VBool false));
   (lit "proxy", val_or (proxy e) (VStr []));
   (lit "pass_through_body_enabled", val_or (pass_through_body_enabled e) (VBool false));
   (lit "system_prompt", val_or (system_prompt e) (VStr []));
   (lit "system_prompt_override", val_or (system_prompt_override e) (VBool false))].

Definition buildSettingJSON (formData : ChannelFormValues) : jstr :=
  default [] (stringify (VObj (setting_object formData))).

Definition MODEL_FETCHABLE_TYPES : list N :=
  [1; 4; 14; 17; 20; 23; 24; 25; 26; 27; 31; 34; 35; 40; 42; 43; 47; 48].

(** [if ('k' in o) delete o.k]. *)
Definition drop_key (k : jstr) (o : jsobj) : jsobj := if obj_has k o then obj_delete k o else o.

(** [if (c) o.k = v else if ('k' in o) delete o.k]. *)
Definition put_or_drop (c : bool) (k : jstr) (v : jsval) (o : jsobj) : jsobj :=
  if c then obj_set k v o else drop_key k o.

(** The text fields of the ignored models, without duplicates. *)
Definition ignored_models (t : TypeSettings) : jsval :=
  VArr (List.map VStr
    (uniq (List.filter truthy_str
             (List.map trim (split_on 44 (upstream_model_update_ignored_models t)))))).

(** The upstream model update fields, of the types whose models can be fetched. *)
Definition put_upstream (t : TypeSettings) (o : jsobj) : jsobj :=
  let o := obj_set (lit "upstream_model_update_check_enabled")
             (VBool (upstream_model_update_check_enabled t)) o in
  let enabled := is_true (get_prop (lit "upstream_model_update_check_enabled") (VObj o)) in
  let o := obj_set (lit "upstream_model_update_auto_sync_enabled")
             (VBool (enabled && upstream_model_update_auto_sync_enabled t)) o in
  let o := obj_set (lit "upstream_model_update_ignored_models") (ignored_models t) o in
  let detected := get_prop (lit "upstream_model_update_last_detected_models") (VObj o) in
  let o := if negb (match detected with VArr _ => true | _ => false end) ||
              negb (is_true (get_prop (lit "upstream_model_update_check_enabled") (VObj o)))
           then obj_set (lit "upstream_model_update_last_detected_models") (VArr []) o else o in
  match get_prop (lit "upstream_model_update_last_check_time") (VObj o) with
  | VNum _ => o
  | _ => obj_set (lit "upstream_model_update_last_check_time") (VNum num_zero) o
  end.

(** The passthrough controls of OpenAI channels. *)
Definition put_openai (type : N) (t : TypeSettings) (o : jsobj) : jsobj :=
  if type =? 1 then
    obj_set (lit "allow_inference_geo") (VBool (allow_inference_geo t))
      (obj_set (lit "allow_include_obfuscation") (VBool (allow_include_obfuscation t))
         (obj_set (lit "allow_safety_identifier") (VBool (allow_safety_identifier t))
            (obj_set (lit "disable_store") (VBool (disable_store t)) o)))
  else
    let o := drop_key (lit "disable_store") o in
    let o := drop_key (lit "allow_safety_identifier") o in
    let o := drop_key (lit "allow_include_obfuscation") o in
    if negb (type =? 14) then drop_key (lit "allow_inference_geo") o else o.

(** The passthrough controls of Anthropic channels. *)
Definition put_anthropic (type : N) (t : TypeSettings) (o : jsobj) : jsobj :=
  if type =? 14 then
    obj_set (lit "claude_beta_query") (VBool (claude_beta_query t))
      (obj_set (lit "allow_speed") (VBool (allow_speed t))
         (obj_set (lit "allow_inference_geo") (VBool (allow_inference_geo t)) o))
  else drop_key (lit "claude_beta_query") (drop_key (lit "allow_speed") o).

(** The statements of [buildSettingsJSON] on the parsed object. *)
Definition settings_object (type : N) (t : TypeSettings) (o : jsobj) : jsobj :=
  let o := put_or_drop (type =? 41) (lit "vertex_key_type")
             (val_or (vertex_key_type t) (VStr (lit "json"))) o in
  let o := put_or_drop ((type =? 3) && truthy (azure_responses_version t))
             (lit "azure_responses_version") (azure_responses_version t) o in
  let o := put_or_drop (type =? 20) (lit "openrouter_enterprise")
             (VBool (is_enterprise_account t)) o in
  let o := put_or_drop (type =? 33) (lit "aws_key_type")
             (val_or (aws_key_type t) (VStr (lit "ak_sk"))) o in
  let o := put_or_drop ((type =? 1) || (type =? 14)) (lit "allow_service_tier")
             (VBool (allow_service_tier t)) o in
  let o := put_openai type t o in
  let o := put_anthropic type t o in
  if includes type MODEL_FETCHABLE_TYPES then put_upstream t o else o.

(** [in] and assignment throw on a value that is not an object; the named
    properties of an array are not serialized. *)
Definition buildSettingsJSON (formData : ChannelFormValues) : outcome jstr :=
  let existing := opt_or (settings formData) (lit "{}") in
  let parsed :=
    if existing =?= lit "{}" then VObj []
    else default (VObj []) (json_parse existing) in
  match parsed with
  | VObj o =>
      Ret (default [] (stringify (VObj (settings_object (type_ formData) (typed formData) o))))
  | VArr l => Ret (default [] (stringify (VArr l)))
  | _ => Throws
  end.

(** ** Payloads *)

(** [s || null]. *)
Definition or_null (s : option jstr) : jsval :=
  match s with Some (c :: r) => VStr (c :: r) | _ => VNull end.

(** [x || null] on an optional number. *)
Definition num_or_null (x : option num) : jsval :=
  match x with Some n => if truthy_num n then VNum n else VNull | None => VNull end.

(** The loop that turns empty strings into [null]. *)
Definition clean_empty (o : jsobj) : jsobj :=
  List.map (fun kv => (kv.1, match kv.2 with VStr [] => VNull | v => v end)) o.

Record CreatePayload := MkCreate {
  mode : AddMode;
  create_multi_key_mode : option jstr;
  create_batch_prefix : option bool;
  channel_object : jsobj
}.

Definition transformFormDataToCreatePayload (formData : ChannelFormValues) : outcome CreatePayload :=
  settings_json ← buildSettingsJSON formData;
  let m := default Single (multi_key_mode formData) in
  let channel :=
    [(lit "name", VStr (name formData)); (lit "type", VNum (num_of_Z (Z.of_N (type_ formData))));
     (lit "base_url", or_null (base_url formData)); (lit "key", VStr (key formData));
     (lit "openai_organization", or_null (openai_organization formData));
     (lit "models", VStr (models formData)); (lit "group", VStr (formatGroups (group formData)));
     (lit "model_mapping", or_null (model_mapping formData));
     (lit "priority", num_or_null (priority formData)); (lit "weight", num_or_null (weight formData));
     (lit "test_model", or_null (test_model formData));
     (lit "auto_ban", VNum (default (num_of_Z 1) (auto_ban formData)));
     (lit "status", VNum (status formData));
     (lit "status_code_mapping", or_null (status_code_mapping formData));
     (lit "tag", or_null (tag formData)); (lit "remark", VStr (opt_or (remark formData) []));
     (lit "setting", VStr (buildSettingJSON formData));
     (lit "param_override", or_null (param_override formData));
     (lit "header_override", or_null (header_override formData));
     (lit "settings", VStr settings_json); (lit "other", VStr (opt_or (other formData) []))] in
  Ret (MkCreate m
    (if m =?= MultiToSingle then multi_key_type formData else None)
    (if m =?= Batch then batch_add_set_key_prefix_2_name formData else None)
    (clean_empty channel)).

(** The fields sent as text even when empty, so that the server clears them. *)
Definition clearable (formData : ChannelFormValues) : list (jstr * option jstr) :=
  [(lit "base_url", base_url formData); (lit "openai_organization", openai_organization formData);
   (lit "test_model", test_model formData); (lit "tag", tag formData);
   (lit "remark", remark formData); (lit "model_mapping", model_mapping formData);
   (lit "status_code_mapping", status_code_mapping formData);
   (lit "param_override", param_override formData);
   (lit "header_override", header_override formData)].

(** The fields of an update that the form always sends. *)
Definition update_base (f : ChannelFormValues) (channelId : num) (settings_json : jstr) : jsobj :=
  [(lit "id", VNum channelId); (lit "name", VStr (name f));
   (lit "type", VNum (num_of_Z (Z.of_N (type_ f))));
   (lit "base_url", or_null (base_url f));
   (lit "openai_organization", or_null (openai_organization f));
   (lit "models", VStr (models f)); (lit "group", VStr (formatGroups (group f)));
   (lit "model_mapping", or_null (model_mapping f));
   (lit "priority", VNum (default num_zero (priority f)));
   (lit "weight", VNum (default num_zero (weight f)));
   (lit "test_model", or_null (test_model f));
   (lit "auto_ban", VNum (default (num_of_Z 1) (auto_ban f)));
   (lit "status", VNum (status f));
   (lit "status_code_mapping", or_null (status_code_mapping f));
   (lit "tag", or_null (tag f)); (lit "remark", VStr (opt_or (remark f) []));
   (lit "setting", VStr (buildSettingJSON f));
   (lit "param_override", or_null (param_override f));
   (lit "header_override", or_null (header_override f));
   (lit "settings", VStr settings_json); (lit "other", VStr (opt_or (other f) []))].

Definition transformFormDataToUpdatePayload (formData : ChannelFormValues) (channelId : num)
  : outcome jsobj :=
  settings_json ← buildSettingsJSON formData;
  let payload := update_base formData channelId settings_json in
  let payload :=
    if truthy_str (key formData) && truthy_str (trim (key formData))
    then obj_set (lit "key") (VStr (key formData)) payload else payload in
  Ret (fold_left (fun p kv => obj_set kv.1 (VStr (opt_or kv.2 [])) p)
         (clearable formData) (clean_empty payload)).

(** * Facts *)

(** ** The settings column as a list of actions *)

Inductive Action := Put (v : jsval) | Drop | Keep.

Definition act (o : jsobj) (ka : jstr * Action) : jsobj :=
  match ka.2 with Put v => obj_set ka.1 v o | Drop => drop_key ka.1 o | Keep => o end.

(** What the actions leave at a key. *)
Fixpoint net (k : jstr) (ops : list (jstr * Action)) (acc : option jsval) : option jsval :=
  match ops with
  | [] => acc
  | (k', a) :: ops' =>
      net k ops'
        (if k =?= k' then match a with Put v => Some v | Drop => None | Keep => acc end else acc)
  end.

Lemma drop_key_get k k' o : obj_get k (drop_key k' o) = if k =?= k' then None else obj_get k o.
Proof.
  unfold drop_key, obj_has. destruct (obj_get k' o) eqn:E; [apply obj_get_delete|].
  case_bool_decide; by subst.
Qed.

Lemma act_get k ops o : obj_get k (fold_left act ops o) = net k ops (obj_get k o).
Proof.
  revert o. induction ops as [|[k' a] ops IH]; intros o; cbn [fold_left net]; [done|].
  rewrite IH. f_equal. unfold act. cbn [fst snd]. destruct a as [v| |].
  - apply obj_get_set.
  - apply drop_key_get.
  - by case_bool_decide.
Qed.

Lemma net_other k ops acc : k ∉ List.map fst ops -> net k ops acc = acc.
Proof.
  revert acc. induction ops as [|[k' a] ops IH]; intros acc Hk; cbn [net]; [done|].
  cbn [List.map fst] in Hk. apply not_elem_of_cons in Hk as [Hk Hops].
  rewrite bool_decide_false by done. by apply IH.
Qed.

Definition when (c : bool) (v : jsval) : Action := if c then Put v else Drop.

Definition type_actions (type : N) (t : TypeSettings) : list (jstr * Action) :=
  [(lit "vertex_key_type", when (type =? 41) (val_or (vertex_key_type t) (VStr (lit "json"))));
   (lit "azure_responses_version",
    when ((type =? 3) && truthy (azure_responses_version t)) (azure_responses_version t));
   (lit "openrouter_enterprise", when (type =? 20) (VBool (is_enterprise_account t)));
   (lit "aws_key_type", when (type =? 33) (val_or (aws_key_type t) (VStr (lit "ak_sk"))));
   (lit "allow_service_tier", when ((type =? 1) || (type =? 14)) (VBool (allow_service_tier t)));
   (lit "disable_store", when (type =? 1) (VBool (disable_store t)));
   (lit "allow_safety_identifier", when (type =? 1) (VBool (allow_safety_identifier t)));
   (lit "allow_include_obfuscation", when (type =? 1) (VBool (allow_include_obfuscation t)));
   (lit "allow_inference_geo",
    if type =? 1 then Put (VBool (allow_inference_geo t)) else if type =? 14 then Keep else Drop);
   (lit "allow_inference_geo", if type =? 14 then Put (VBool (allow_inference_geo t)) else Keep);
   (lit "allow_speed", when (type =? 14) (VBool (allow_speed t)));
   (lit "claude_beta_query", when (type =? 14) (VBool (claude_beta_query t)))].

Lemma put_act c k v o : put_or_drop c k v o = act o (k, when c v).
Proof. by destruct c. Qed.

Lemma put_openai_act type t o :
  put_openai type t o =
  act (act (act (act o
    (lit "disable_store", when (type =? 1) (VBool (disable_store t))))
    (lit "allow_safety_identifier", when (type =? 1) (VBool (allow_safety_identifier t))))
    (lit "allow_include_obfuscation", when (type =? 1) (VBool (allow_include_obfuscation t))))
    (lit "allow_inference_geo",
     if type =? 1 then Put (VBool (allow_inference_geo t)) else if type =? 14 then Keep else Drop).
Proof. unfold put_openai. destruct (type =? 1), (type =? 14); reflexivity. Qed.

Lemma put_anthropic_act type t o :
  put_anthropic type t o =
  act (act (act o
    (lit "allow_inference_geo", if type =? 14 then Put (VBool (allow_inference_geo t)) else Keep))
    (lit "allow_speed", when (type =? 14) (VBool (allow_speed t))))
    (lit "claude_beta_query", when (type =? 14) (VBool (claude_beta_query t))).
Proof. unfold put_anthropic. destruct (type =? 14); reflexivity. Qed.

Lemma settings_object_actions type t o :
  settings_object type t o =
  let o' := fold_left act (type_actions type t) o in
  if includes type MODEL_FETCHABLE_TYPES then put_upstream t o' else o'.
Proof.
  unfold settings_object, type_actions. cbv zeta. cbn [fold_left].
  rewrite !put_act, put_openai_act, put_anthropic_act. reflexivity.
Qed.

(** Distinct literal keys. *)
Ltac key_ne := apply (bool_decide_eq_true_1 _); vm_compute; reflexivity.

Ltac get_keys :=
  repeat (rewrite obj_get_set;
          first [rewrite bool_decide_true by reflexivity | rewrite bool_decide_false by key_ne]).

Definition upstream_keys : list jstr :=
  [lit "upstream_model_update_check_enabled"; lit "upstream_model_update_auto_sync_enabled";
   lit "upstream_model_update_ignored_models"; lit "upstream_model_update_last_detected_models";
   lit "upstream_model_update_last_check_time"].

(** The last two fields are written only when they are missing or reset. *)
Lemma put_upstream_get t o k :
  k ∉ upstream_keys \/ k = lit "upstream_model_update_check_enabled" \/
  k = lit "upstream_model_update_auto_sync_enabled" \/
  k = lit "upstream_model_update_ignored_models" ->
  obj_get k (put_upstream t o) =
  obj_get k (obj_set (lit "upstream_model_update_ignored_models") (ignored_models t)
    (obj_set (lit "upstream_model_update_auto_sync_enabled")
       (VBool (upstream_model_update_check_enabled t && upstream_model_update_auto_sync_enabled t))
       (obj_set (lit "upstream_model_update_check_enabled")
          (VBool (upstream_model_update_check_enabled t)) o))).
Proof.
  intros Hk. unfold put_upstream. cbv zeta.
  assert (H1 : k <> lit "upstream_model_update_last_detected_models")
    by (destruct Hk as [Hk | [-> | [-> | ->]]]; [|key_ne..]; intros ->; apply Hk; do 3 right; by left).
  assert (H2 : k <> lit "upstream_model_update_last_check_time")
    by (destruct Hk as [Hk | [-> | [-> | ->]]]; [|key_ne..]; intros ->; apply Hk; do 4 right; by left).
  match goal with |- context [is_true (get_prop _ (VObj (obj_set _ (VBool ?b) o)))] =>
    replace (is_true (get_prop (lit "upstream_model_update_check_enabled")
      (VObj (obj_set (lit "upstream_model_update_check_enabled") (VBool b) o)))) with b
      by (cbn [get_prop]; rewrite obj_get_set_eq; by destruct b) end.
  clear Hk. revert H1 H2.
  generalize (lit "upstream_model_update_last_check_time")
    (lit "upstream_model_update_last_detected_models")
    (lit "upstream_model_update_check_enabled") (lit "upstream_model_update_auto_sync_enabled")
    (lit "upstream_model_update_ignored_models").
  intros kt kd kc ka ki H1 H2.
  case_match; case_match; repeat first [rewrite (obj_get_set_ne kd k) by exact H1
    | rewrite (obj_get_set_ne kt k) by exact H2]; reflexivity.
Qed.

(** ** Reading back what was written *)

(** The fields a channel of the type keeps, as the form shows them again. *)
Definition kept (type : N) (t : TypeSettings) (o : jsobj) : TypeSettings :=
  let up := includes type MODEL_FETCHABLE_TYPES in
  let old := read_settings (VObj o) in
  MkTypeSettings ((type =? 20) && is_enterprise_account t)
    (if type =? 41 then val_or (vertex_key_type t) (VStr (lit "json")) else VStr (lit "json"))
    (if type =? 33 then val_or (aws_key_type t) (VStr (lit "ak_sk")) else VStr (lit "ak_sk"))
    (if type =? 3 then val_or (azure_responses_version t) (VStr []) else VStr [])
    (((type =? 1) || (type =? 14)) && allow_service_tier t)
    ((type =? 1) && disable_store t)
    ((type =? 1) && allow_safety_identifier t)
    ((type =? 1) && allow_include_obfuscation t)
    (((type =? 1) || (type =? 14)) && allow_inference_geo t)
    ((type =? 14) && allow_speed t)
    ((type =? 14) && claude_beta_query t)
    (if up then upstream_model_update_check_enabled t else upstream_model_update_check_enabled old)
    (if up then upstream_model_update_check_enabled t && upstream_model_update_auto_sync_enabled t
     else upstream_model_update_auto_sync_enabled old)
    (if up then join (lit ",") (uniq (words 44 (upstream_model_update_ignored_models t)))
     else upstream_model_update_ignored_models old).

(** The keys of the actions, in their order. *)
Definition type_keys : list jstr :=
  [lit "vertex_key_type"; lit "azure_responses_version"; lit "openrouter_enterprise";
   lit "aws_key_type"; lit "allow_service_tier"; lit "disable_store"; lit "allow_safety_identifier";
   lit "allow_include_obfuscation"; lit "allow_inference_geo"; lit "allow_inference_geo";
   lit "allow_speed"; lit "claude_beta_query"].

Lemma type_keys_actions type t : List.map fst (type_actions type t) = type_keys.
Proof. reflexivity. Qed.

Lemma settings_get_type type t o k :
  k ∉ upstream_keys ->
  obj_get k (settings_object type t o) = net k (type_actions type t) (obj_get k o).
Proof.
  intros Hk. rewrite settings_object_actions. cbv zeta. rewrite <- act_get. case_match; [|done].
  rewrite put_upstream_get by (by left).
  assert (H1 : k <> lit "upstream_model_update_ignored_models")
    by (intros ->; apply Hk; do 2 right; by left).
  assert (H2 : k <> lit "upstream_model_update_auto_sync_enabled")
    by (intros ->; apply Hk; right; by left).
  assert (H3 : k <> lit "upstream_model_update_check_enabled") by (intros ->; apply Hk; by left).
  rewrite (obj_get_set_ne _ k) by exact H1. rewrite (obj_get_set_ne _ k) by exact H2.
  by rewrite (obj_get_set_ne _ k) by exact H3.
Qed.

Lemma settings_get_upstream type t o k :
  k ∉ type_keys ->
  obj_get k (settings_object type t o) =
  (if includes type MODEL_FETCHABLE_TYPES
   then obj_get k (put_upstream t (fold_left act (type_actions type t) o)) else obj_get k o).
Proof.
  intros Hk. rewrite settings_object_actions. cbv zeta. case_match; [done|].
  rewrite act_get. apply net_other. by rewrite type_keys_actions.
Qed.

(** What each key of the actions ends up with. *)
Definition apply_action (a : Action) (acc : option jsval) : option jsval :=
  match a with Put v => Some v | Drop => None | Keep => acc end.

Lemma net_key type t i k a acc :
  i <> 8%nat -> i <> 9%nat ->
  type_actions type t !! i = Some (k, a) -> net k (type_actions type t) acc = apply_action a acc.
Proof.
  intros H8 H9. unfold type_actions.
  match goal with
  | |- [(_, ?a1); (_, ?a2); (_, ?a3); (_, ?a4); (_, ?a5); (_, ?a6);
        (_, ?a7); (_, ?a8); (_, ?a9); (_, ?a10); (_, ?a11); (_, ?a12)] !! _ = _ -> _ =>
      generalize a1 a2 a3 a4 a5 a6 a7 a8 a9 a10 a11 a12
  end.
  intros b1 b2 b3 b4 b5 b6 b7 b8 b9 b10 b11 b12.
  do 12 (destruct i as [|i]; [cbn [lookup list_lookup]; intros [= <- <-]; try done;
    vm_compute; reflexivity|]). done.
Qed.

Lemma net_geo type t acc :
  net (lit "allow_inference_geo") (type_actions type t) acc =
  (if (type =? 1) || (type =? 14) then Some (VBool (allow_inference_geo t)) else None).
Proof.
  transitivity
    (apply_action (if type =? 14 then Put (VBool (allow_inference_geo t)) else Keep)
      (apply_action
        (if type =? 1 then Put (VBool (allow_inference_geo t)) else if type =? 14 then Keep else Drop)
        acc)).
  - unfold type_actions.
    match goal with
    | |- net _ [(_, ?a1); (_, ?a2); (_, ?a3); (_, ?a4); (_, ?a5); (_, ?a6);
                (_, ?a7); (_, ?a8); (_, ?a9); (_, ?a10); (_, ?a11); (_, ?a12)] _ = _ =>
        generalize a1 a2 a3 a4 a5 a6 a7 a8 a9 a10 a11 a12
    end. intros. vm_compute. reflexivity.
  - by destruct (type =? 1), (type =? 14).
Qed.

Lemma strings_join l : string_of_val (VArr (List.map VStr l)) = join (lit ",") l.
Proof. cbn [string_of_val]. f_equal. rewrite map_map. apply map_id. Qed.

Ltac not_key := apply (bool_decide_eq_true_1 _); vm_compute; reflexivity.

Lemma read_type_bool type t o k c b :
  k ∉ upstream_keys ->
  net k (type_actions type t) (obj_get k o) = (if c : bool then Some (VBool b) else None) ->
  is_true (get_prop k (VObj (settings_object type t o))) = c && b.
Proof.
  intros Hk E. cbn [get_prop]. rewrite settings_get_type, E by done. by destruct c, b.
Qed.

Lemma read_flag type t o i k c b :
  k ∉ upstream_keys -> i <> 8%nat -> i <> 9%nat ->
  type_actions type t !! i = Some (k, when c (VBool b)) ->
  is_true (get_prop k (VObj (settings_object type t o))) = c && b.
Proof.
  intros Hk H8 H9 Ha. apply read_type_bool; [done|]. rewrite (net_key type t i k _ _ H8 H9 Ha).
  by destruct c.
Qed.

Ltac read_flag_at i := apply (read_flag _ _ _ i); [not_key|done|done|reflexivity].

Lemma val_or_idemp v d : val_or (val_or v d) d = val_or v d.
Proof. unfold val_or. destruct (truthy v) eqn:E; [by rewrite E|]. by destruct (truthy d). Qed.

Lemma val_or_none d : val_or VUndef d = d.
Proof. done. Qed.

(** Reads of the keys that hold a value rather than a flag. *)
Lemma read_type_value type t o i k a :
  k ∉ upstream_keys -> i <> 8%nat -> i <> 9%nat -> type_actions type t !! i = Some (k, a) ->
  get_prop k (VObj (settings_object type t o)) = default VUndef (apply_action a (obj_get k o)).
Proof.
  intros Hk H8 H9 Ha. cbn [get_prop]. rewrite settings_get_type by done.
  by rewrite (net_key type t i k a).
Qed.

Lemma read_upstream type t o k :
  k ∉ type_keys ->
  get_prop k (VObj (settings_object type t o)) =
  (if includes type MODEL_FETCHABLE_TYPES
   then default VUndef (obj_get k (put_upstream t (fold_left act (type_actions type t) o)))
   else get_prop k (VObj o)).
Proof. intros Hk. cbn [get_prop]. rewrite settings_get_upstream by done. by case_match. Qed.

Lemma read_back_upstream type t o :
  let s := read_settings (VObj (settings_object type t o)) in
  upstream_model_update_check_enabled s = upstream_model_update_check_enabled (kept type t o) /\
  upstream_model_update_auto_sync_enabled s = upstream_model_update_auto_sync_enabled (kept type t o) /\
  upstream_model_update_ignored_models s = upstream_model_update_ignored_models (kept type t o).
Proof.
  cbv zeta. unfold kept. cbv zeta.
  cbn [read_settings upstream_model_update_check_enabled upstream_model_update_auto_sync_enabled
       upstream_model_update_ignored_models].
  rewrite !read_upstream by not_key. case_match; [|done].
  rewrite (put_upstream_get _ _ (lit "upstream_model_update_check_enabled"))
    by (right; left; reflexivity).
  rewrite (put_upstream_get _ _ (lit "upstream_model_update_auto_sync_enabled"))
    by (right; right; left; reflexivity).
  rewrite (put_upstream_get _ _ (lit "upstream_model_update_ignored_models"))
    by (right; right; right; reflexivity).
  assert (Hci : lit "upstream_model_update_check_enabled" <> lit "upstream_model_update_ignored_models")
    by not_key.
  assert (Hca : lit "upstream_model_update_check_enabled" <> lit "upstream_model_update_auto_sync_enabled")
    by not_key.
  assert (Hai : lit "upstream_model_update_auto_sync_enabled" <> lit "upstream_model_update_ignored_models")
    by not_key.
  revert Hci Hca Hai.
  generalize (lit "upstream_model_update_check_enabled") (lit "upstream_model_update_auto_sync_enabled")
    (lit "upstream_model_update_ignored_models"). intros kc ka ki Hci Hca Hai.
  rewrite (obj_get_set_ne ki kc) by done. rewrite (obj_get_set_ne ka kc) by done.
  rewrite (obj_get_set_ne ki ka) by done.
  rewrite !obj_get_set_eq. cbn [default is_true].
  split_and!; [by destruct (upstream_model_update_check_enabled t)
    |by destruct (_ && _)|]. unfold ignored_models. cbn [from_option]. apply strings_join.
Qed.

Lemma read_back_flags type t o :
  let s := read_settings (VObj (settings_object type t o)) in
  let k := kept type t o in
  is_enterprise_account s = is_enterprise_account k /\
  allow_service_tier s = allow_service_tier k /\
  disable_store s = disable_store k /\
  allow_safety_identifier s = allow_safety_identifier k /\
  allow_include_obfuscation s = allow_include_obfuscation k /\
  allow_inference_geo s = allow_inference_geo k /\
  allow_speed s = allow_speed k /\
  claude_beta_query s = claude_beta_query k.
Proof.
  cbv zeta. unfold kept, read_settings. cbv zeta.
  cbn [is_enterprise_account allow_service_tier disable_store allow_safety_identifier
       allow_include_obfuscation allow_inference_geo allow_speed claude_beta_query].
  split_and!; [read_flag_at 2%nat|read_flag_at 4%nat|read_flag_at 5%nat|read_flag_at 6%nat
    |read_flag_at 7%nat| |read_flag_at 10%nat|read_flag_at 11%nat].
  apply read_type_bool; [not_key|apply net_geo].
Qed.

Lemma read_back_values type t o :
  let s := read_settings (VObj (settings_object type t o)) in
  let k := kept type t o in
  vertex_key_type s = vertex_key_type k /\ aws_key_type s = aws_key_type k /\
  azure_responses_version s = azure_responses_version k.
Proof.
  cbv zeta. unfold kept, read_settings. cbv zeta.
  cbn [vertex_key_type aws_key_type azure_responses_version].
  split_and!.
  - erewrite (read_type_value _ _ _ 0%nat); [|not_key|done|done|reflexivity].
    unfold when. destruct (type =? 41); [apply val_or_idemp|done].
  - erewrite (read_type_value _ _ _ 3%nat); [|not_key|done|done|reflexivity].
    unfold when. destruct (type =? 33); [apply val_or_idemp|done].
  - erewrite (read_type_value _ _ _ 1%nat); [|not_key|done|done|reflexivity].
    unfold when. destruct (type =? 3); [|done]. cbn [andb]. unfold val_or.
    destruct (truthy (azure_responses_version t)) eqn:E; cbn [apply_action default from_option id];
      [by rewrite E|done].
Qed.

Lemma typed_ext a b :
  is_enterprise_account a = is_enterprise_account b ->
  vertex_key_type a = vertex_key_type b -> aws_key_type a = aws_key_type b ->
  azure_responses_version a = azure_responses_version b ->
  allow_service_tier a = allow_service_tier b -> disable_store a = disable_store b ->
  allow_safety_identifier a = allow_safety_identifier b ->
  allow_include_obfuscation a = allow_include_obfuscation b ->
  allow_inference_geo a = allow_inference_geo b -> allow_speed a = allow_speed b ->
  claude_beta_query a = claude_beta_query b ->
  upstream_model_update_check_enabled a = upstream_model_update_check_enabled b ->
  upstream_model_update_auto_sync_enabled a = upstream_model_update_auto_sync_enabled b ->
  upstream_model_update_ignored_models a = upstream_model_update_ignored_models b ->
  a = b.
Proof. destruct a, b. cbn. intros. by subst. Qed.

(** C15: the settings column.  Writing the type-specific fields of a form into
    the stored object and reading them back shows: for the credential, passthrough
    and version fields, the form's values where the field applies to the channel's
    type and the defaults where it does not, so that such a field of a former type
    is not carried over; for a type whose models can be fetched, the form's upstream
    check, automatic sync only together with the check, and the ignored models
    trimmed and without duplicates; for any other type, the three upstream fields of
    the stored object as they were, whatever the form holds: these are carried over
    from a former type.  Every property that the form does not know, and for a type
    whose models cannot be fetched also the two in which the server records its last
    check, keeps its value. *)
Theorem settings_column_exact type t o :
  read_settings (VObj (settings_object type t o)) = kept type t o /\
  (forall k, k ∉ type_keys -> k ∉ upstream_keys ->
     obj_get k (settings_object type t o) = obj_get k o) /\
  (includes type MODEL_FETCHABLE_TYPES = false ->
   forall k, k ∉ type_keys -> obj_get k (settings_object type t o) = obj_get k o).
Proof.
  split_and!.
  - destruct (read_back_flags type t o) as (?&?&?&?&?&?&?&?).
    destruct (read_back_values type t o) as (?&?&?).
    destruct (read_back_upstream type t o) as (?&?&?). by apply typed_ext.
  - intros k Ht Hu. rewrite settings_get_type by done. apply net_other.
    by rewrite type_keys_actions.
  - intros Hf k Ht. by rewrite settings_get_upstream, Hf.
Qed.

(** The settings of an OpenAI channel with the upstream check and a stored-answers
    switch, saved as a Vertex channel: the switch is dropped, the check is not. *)
Example type_change_keeps_upstream_check :
  let o := [(lit "disable_store", VBool true); (lit "upstream_model_update_check_enabled", VBool true)] in
  let off := MkTypeSettings false VUndef VUndef VUndef false false false false false false false false false [] in
  let o' := settings_object 41 off o in
  obj_get (lit "disable_store") o' = None /\
  obj_get (lit "upstream_model_update_check_enabled") o' = Some (VBool true).
Proof. split; vm_compute; reflexivity. Qed.

(** ** Payloads *)

(** ** The setting column *)

(** The fields as the schema types them. *)
Definition typed_extra (e : ExtraSettings) : Prop :=
  exists ff tc px pt sp so,
    e = MkExtra (VBool ff) (VBool tc) (VStr px) (VBool pt) (VStr sp) (VBool so) /\
    units_ok px /\ units_ok sp.

Lemma val_or_self v d : match v with VBool b => b = false -> d = VBool false | VStr s => s = [] -> d = VStr []
                        | _ => False end -> val_or v d = v.
Proof. unfold val_or. destruct v as [| |[]|x|[|c s]|l|o]; cbn; try done; by intros ->. Qed.

(** The setting column.  The text the form stores is read back as the same
    six fields, through JSON text and its escapes. *)
Theorem setting_column_roundtrip f c :
  typed_extra (extra f) -> api_setting c = Some (buildSettingJSON f) ->
  extra (transformChannelToFormDefaults c) = extra f.
Proof.
  intros (ff & tc & px & pt & sp & so & He & Hpx & Hsp) Hc.
  set (o := [(lit "force_format", VBool ff); (lit "thinking_to_content", VBool tc);
             (lit "proxy", VStr px); (lit "pass_through_body_enabled", VBool pt);
             (lit "system_prompt", VStr sp); (lit "system_prompt_override", VBool so)]).
  assert (Ho : setting_object f = o).
  { unfold setting_object. rewrite He. cbv zeta. cbn [force_format thinking_to_content proxy
      pass_through_body_enabled system_prompt system_prompt_override].
    by rewrite !val_or_self by done. }
  assert (Hp : exists t, buildSettingJSON f = t /\ opt_or (Some t) [] = t /\ truthy_str t = true /\
                         json_parse t = Some (VObj o)).
  { unfold buildSettingJSON. rewrite Ho. eexists. split; [reflexivity|].
    split; [reflexivity|]. split; [reflexivity|].
    rewrite (json_roundtrip (VObj o)); [apply plain_norm; split_and!; try done; vm_compute; reflexivity| |reflexivity].
    apply val_ok_obj. unfold o. repeat (apply Forall_cons_2; [split; [repeat constructor|]; done|]). apply Forall_nil_2. }
  destruct Hp as (t & Ht & Ho1 & Ho2 & Ho3). rewrite Ht in Hc.
  unfold transformChannelToFormDefaults. rewrite Hc. cbv zeta. rewrite Ho1, Ho2, Ho3. cbn [extra].
  rewrite He. unfold read_setting. by rewrite !val_or_self by done.
Qed.

Definition clean_value (v : jsval) : jsval := match v with VStr [] => VNull | _ => v end.

Lemma clean_empty_get k o : obj_get k (clean_empty o) = clean_value <$> obj_get k o.
Proof.
  induction o as [|[k' v] o IH]; [done|]. cbn [clean_empty List.map obj_get fst snd].
  fold (clean_empty o). case_bool_decide; [|done]. by destruct v as [| | | |[|]| |].
Qed.

(** The writes after the cleaning, by distinct keys. *)
Lemma put_texts_get k l o :
  NoDup (List.map fst l) ->
  obj_get k (fold_left (fun p (kv : jstr * option jstr) => obj_set kv.1 (VStr (opt_or kv.2 [])) p) l o) =
  match obj_get k l with Some v => Some (VStr (opt_or v [])) | None => obj_get k o end.
Proof.
  revert o. induction l as [|[k' v] l IH]; intros o Hnd; cbn [fold_left List.map obj_get fst snd] in *;
    [done|]. apply NoDup_cons in Hnd as [Hk Hnd]. rewrite IH by done.
  destruct (decide (k = k')) as [->|Hne].
  - rewrite bool_decide_true by done. rewrite obj_get_set_eq.
    destruct (obj_get k' l) eqn:E; [|done]. exfalso. apply Hk.
    change (List.map fst l) with (obj_keys l). apply obj_keys_get. by eexists.
  - rewrite bool_decide_false by done. by rewrite obj_get_set_ne.
Qed.

Lemma clearable_NoDup f : NoDup (List.map fst (clearable f)).
Proof. apply (bool_decide_eq_true_1 _). by vm_compute. Qed.

Lemma opt_or_default v : opt_or v [] = default [] v.
Proof. by destruct v as [[|]|]. Qed.

Lemma trim_truthy s : truthy_str s && truthy_str (trim s) = truthy_str (trim s).
Proof. by destruct s. Qed.

(** The value of a key of the update payload. *)
Lemma update_get f id j k :
  buildSettingsJSON f = Ret j ->
  exists p, transformFormDataToUpdatePayload f id = Ret p /\
  obj_get k p =
  match obj_get k (clearable f) with
  | Some v => Some (VStr (default [] v))
  | None =>
      if (k =?= lit "key") && truthy_str (trim (key f)) then Some (clean_value (VStr (key f)))
      else clean_value <$> obj_get k (update_base f id j)
  end.
Proof.
  intros Ej. unfold transformFormDataToUpdatePayload. rewrite Ej. cbn [mbind outcome_bind].
  eexists. split; [reflexivity|]. rewrite put_texts_get by apply clearable_NoDup.
  destruct (obj_get k (clearable f)); [by rewrite opt_or_default|].
  rewrite clean_empty_get, trim_truthy. destruct (truthy_str (trim (key f))).
  - rewrite obj_get_set. by case_bool_decide.
  - by rewrite andb_false_r.
Qed.

Lemma update_throws f id : buildSettingsJSON f = Throws -> transformFormDataToUpdatePayload f id = Throws.
Proof. intros E. unfold transformFormDataToUpdatePayload. by rewrite E. Qed.

Lemma parse_groups_words s : parseGroups s = words 44 s.
Proof. by destruct s. Qed.

(** Saving an edit.  The key is sent exactly when it is not blank, as it
    was typed; the nine optional texts are always sent as texts, empty when
    cleared; every other field is the form's value with empty texts turned into
    null.  The only failure is a stored settings text that is JSON but neither
    an object nor an array, on which building the payload throws. *)
Theorem update_payload_exact f id :
  match buildSettingsJSON f with
  | Throws => transformFormDataToUpdatePayload f id = Throws
  | Ret j =>
      exists p, transformFormDataToUpdatePayload f id = Ret p /\
      obj_get (lit "key") p =
        (if truthy_str (trim (key f)) then Some (VStr (key f)) else None) /\
      (forall k v, obj_get k (clearable f) = Some v -> obj_get k p = Some (VStr (default [] v))) /\
      (forall k, obj_get k (clearable f) = None -> k <> lit "key" ->
         obj_get k p = clean_value <$> obj_get k (update_base f id j))
  end.
Proof.
  destruct (buildSettingsJSON f) as [j|] eqn:Ej; [|by apply update_throws].
  destruct (update_get f id j (lit "key") Ej) as (p & Ep & Hkey).
  exists p. split; [done|]. split_and!.
  - rewrite Hkey. cbn [clearable]. destruct (trim (key f)) as [|c r] eqn:E; [by vm_compute|].
    destruct (key f); [done|]. by vm_compute.
  - intros k v Hv. destruct (update_get f id j k Ej) as (p' & Ep' & Hk). rewrite Hv in Hk. congruence.
  - intros k Hn Hne. destruct (update_get f id j k Ej) as (p' & Ep' & Hk).
    rewrite Hn, bool_decide_false in Hk by done. cbn [andb] in Hk. congruence.
Qed.

(** C16: an edit without changes.  Loading a stored channel into the form and
    saving it sends no key, and sends under their own names the stored nine optional
    texts (a missing one as the empty text), the name, models and other text (an
    empty one as null), the type, the status, the priority and weight (a missing
    number as zero), the automatic ban (a missing one as one) and the groups
    trimmed (the default group if there is none).  The two settings columns are
    built anew from the form and are not part of this property; the hypothesis
    excludes only a stored settings text that is JSON but neither an object nor an
    array, on which saving throws. *)
Theorem unchanged_edit_keeps c id p :
  transformFormDataToUpdatePayload (transformChannelToFormDefaults c) id = Ret p ->
  obj_get (lit "key") p = None /\
  (obj_get (lit "base_url") p = Some (VStr (default [] (api_base_url c))) /\
   obj_get (lit "openai_organization") p = Some (VStr (default [] (api_openai_organization c))) /\
   obj_get (lit "test_model") p = Some (VStr (default [] (api_test_model c))) /\
   obj_get (lit "tag") p = Some (VStr (default [] (api_tag c))) /\
   obj_get (lit "remark") p = Some (VStr (api_remark c)) /\
   obj_get (lit "model_mapping") p = Some (VStr (default [] (api_model_mapping c))) /\
   obj_get (lit "status_code_mapping") p = Some (VStr (default [] (api_status_code_mapping c))) /\
   obj_get (lit "param_override") p = Some (VStr (default [] (api_param_override c))) /\
   obj_get (lit "header_override") p = Some (VStr (default [] (api_header_override c)))) /\
  obj_get (lit "id") p = Some (VNum id) /\
  obj_get (lit "name") p = Some (clean_value (VStr (api_name c))) /\
  obj_get (lit "type") p = Some (VNum (num_of_Z (Z.of_N (api_type c)))) /\
  obj_get (lit "models") p = Some (clean_value (VStr (api_models c))) /\
  obj_get (lit "other") p = Some (clean_value (VStr (api_other c))) /\
  obj_get (lit "status") p = Some (VNum (api_status c)) /\
  obj_get (lit "auto_ban") p = Some (VNum (default (num_of_Z 1) (api_auto_ban c))) /\
  obj_get (lit "priority") p = Some (VNum (num_or_zero (api_priority c))) /\
  obj_get (lit "weight") p = Some (VNum (num_or_zero (api_weight c))) /\
  obj_get (lit "group") p =
    Some (clean_value (VStr (join [44] (words 44 (opt_or (Some (api_group c)) (js "default")))))).
Proof.
  intros Hp. set (f := transformChannelToFormDefaults c) in *.
  destruct (buildSettingsJSON f) as [j|] eqn:Ej; [|by rewrite update_throws in Hp].
  assert (G : forall k, obj_get k p =
    match obj_get k (clearable f) with
    | Some v => Some (VStr (default [] v))
    | None =>
        if (k =?= lit "key") && truthy_str (trim (key f)) then Some (clean_value (VStr (key f)))
        else clean_value <$> obj_get k (update_base f id j)
    end).
  { intros k. destruct (update_get f id j k Ej) as (p' & Ep' & Hk).
    rewrite <- Hk. congruence. }
  rewrite !G. clear G Hp Ej.
  split_and!; try reflexivity; try (rewrite <- opt_or_default; reflexivity).
  - transitivity (Some (clean_value (VStr (opt_or (Some (api_other c)) [])))); [reflexivity|].
    by destruct (api_other c).
  - transitivity (Some (clean_value (VStr (formatGroups (group f))))); [reflexivity|].
    do 3 f_equal. unfold formatGroups. f_equal. apply parse_groups_words.
Qed.

Definition sample_channel : ApiChannel :=
  MkApiChannel (js "main") 1 None None (js "gpt-4") (js "vip, default") None None
    (Some (num_of_Z 5)) None None (num_of_Z 1) None (Some (js "t")) [] None None None
    (js "{}") [] [].

Definition sample_payload : jsobj :=
  match transformFormDataToUpdatePayload (transformChannelToFormDefaults sample_channel) num_zero with
  | Ret p => p
  | Throws => []
  end.

Lemma unchanged_edit_keeps_witness :
  length sample_payload = 21%nat /\ obj_get (lit "key") sample_payload = None.
Proof.
  split; [by vm_compute|].
  apply (unchanged_edit_keeps sample_channel num_zero sample_payload).
  unfold sample_payload.
  destruct (transformFormDataToUpdatePayload _ _) as [p|] eqn:E; [reflexivity|].
  exfalso. revert E. vm_compute. discriminate.
Defined.

(** A form with a proxy and a prompt that JSON has to escape. *)
Definition sample_form : ChannelFormValues :=
  let f := CHANNEL_FORM_DEFAULT_VALUES in
  Form (name f) (type_ f) (base_url f) (key f) (openai_organization f) (models f) (group f)
    (model_mapping f) (priority f) (weight f) (test_model f) (auto_ban f) (status f)
    (status_code_mapping f) (tag f) (remark f) (setting f) (param_override f) (header_override f)
    (settings f) (other f) (multi_key_mode f) (multi_key_type f)
    (batch_add_set_key_prefix_2_name f) (key_mode f)
    (MkExtra (VBool true) (VBool false) (VStr (lit "http://p")) (VBool true)
       (VStr (jq "say 'hi'" ++ [10])) (VBool false)) (typed f).

Definition sample_stored : ApiChannel :=
  MkApiChannel (js "main") 1 None None (js "gpt-4") (js "vip, default") None None
    (Some (num_of_Z 5)) None None (num_of_Z 1) None (Some (js "t")) []
    (Some (buildSettingJSON sample_form)) None None (js "{}") [] [].

Lemma setting_column_roundtrip_witness :
  typed_extra (extra sample_form) /\
  extra (transformChannelToFormDefaults sample_stored) = extra sample_form.
Proof.
  assert (H : typed_extra (extra sample_form)).
  { exists true, false, (lit "http://p"), true, (jq "say 'hi'" ++ [10]), false.
    split_and!; [reflexivity|..]; apply (bool_decide_eq_true_1 _); by vm_compute. }
  split; [exact H|]. apply (setting_column_roundtrip sample_form sample_stored H). reflexivity.
Defined.
