(* ===== verification/ParamOverride.v ===== *)
(** * Parameter override rules

    Models the rules of
    [features/channels/components/dialogs/param-override-editor-dialog.tsx]:
    the operations and conditions of an override, reading them from JSON,
    validating them and building the JSON that is saved, and the drafts of the
    [return_error], [prune_objects], [pass_headers] and [sync_fields] modes.
    The dialog that edits them is in [ParamOverrideEditor]. *)

From S2P Require Import Prelude.
From S2P Require Import JsString.
From S2P Require Import JsNumber.
From S2P Require Import JsDecimal.
From S2P Require Import JsValue.
From S2P Require Import JsJson.

Local Open Scope N_scope.

(** ** Data *)

(** [ParamOverrideCondition], and [PruneRule], which has the same fields. *)
Record Condition := MkCondition {
  cond_id : jstr;
  cond_path : jstr;
  cond_mode : jstr;
  cond_value_text : jstr;
  cond_invert : bool;
  cond_pass_missing_key : bool
}.

(** [ParamOverrideOperation]. *)
Record Operation := MkOperation {
  op_id : jstr;
  op_description : jstr;
  op_path : jstr;
  op_mode : jstr;
  op_from : jstr;
  op_to : jstr;
  op_value_text : jstr;
  op_keep_origin : bool;
  op_logic : jstr;
  op_conditions : list Condition
}.

Definition OPERATION_MODE_VALUES : list jstr :=
  [lit "set"; lit "delete"; lit "append"; lit "prepend"; lit "copy"; lit "move"; lit "replace";
   lit "regex_replace"; lit "trim_prefix"; lit "trim_suffix"; lit "ensure_prefix";
   lit "ensure_suffix"; lit "trim_space"; lit "to_lower"; lit "to_upper"; lit "return_error";
   lit "prune_objects"; lit "pass_headers"; lit "sync_fields"; lit "set_header";
   lit "delete_header"; lit "copy_header"; lit "move_header"].

Definition CONDITION_MODE_VALUES : list jstr :=
  [lit "full"; lit "prefix"; lit "suffix"; lit "contains"; lit "gt"; lit "gte"; lit "lt"; lit "lte"].

(** The fields a mode uses; an absent field of the table is [false]. *)
Record Meta := MkMeta {
  meta_path : bool;
  meta_pathOptional : bool;
  meta_value : bool;
  meta_from : bool;
  meta_to : bool;
  meta_keepOrigin : bool;
  meta_pathAlias : bool
}.

Definition meta_target : Meta := MkMeta true false false false false false false.
Definition meta_write : Meta := MkMeta true false true false false true false.
Definition meta_transfer : Meta := MkMeta false false false true true false false.
Definition meta_replace : Meta := MkMeta true false false true false false false.
Definition meta_affix : Meta := MkMeta true false true false false false false.
Definition meta_header_transfer : Meta := MkMeta false false false true true true true.

Definition MODE_META : list (jstr * Meta) :=
  [(lit "delete", meta_target); (lit "set", meta_write); (lit "append", meta_write);
   (lit "prepend", meta_write); (lit "copy", meta_transfer); (lit "move", meta_transfer);
   (lit "replace", meta_replace); (lit "regex_replace", meta_replace);
   (lit "trim_prefix", meta_affix); (lit "trim_suffix", meta_affix);
   (lit "ensure_prefix", meta_affix); (lit "ensure_suffix", meta_affix);
   (lit "trim_space", meta_target); (lit "to_lower", meta_target); (lit "to_upper", meta_target);
   (lit "return_error", MkMeta false false true false false false false);
   (lit "prune_objects", MkMeta false true true false false false false);
   (lit "pass_headers", MkMeta false false true false false true false);
   (lit "sync_fields", meta_transfer); (lit "set_header", meta_write);
   (lit "delete_header", meta_target); (lit "copy_header", meta_header_transfer);
   (lit "move_header", meta_header_transfer)].

(** [MODE_META[mode] || MODE_META.set]. *)
Definition meta_of (mode : jstr) : Meta := default meta_write (obj_get mode MODE_META).

Definition VALUE_REQUIRED_MODES : list jstr :=
  [lit "trim_prefix"; lit "trim_suffix"; lit "ensure_prefix"; lit "ensure_suffix";
   lit "set_header"; lit "return_error"; lit "prune_objects"; lit "pass_headers"].

Definition FROM_REQUIRED_MODES : list jstr :=
  [lit "copy"; lit "move"; lit "replace"; lit "regex_replace"; lit "copy_header";
   lit "move_header"; lit "sync_fields"].

Definition TO_REQUIRED_MODES : list jstr :=
  [lit "copy"; lit "move"; lit "copy_header"; lit "move_header"; lit "sync_fields"].

(** ** Values as text *)

(** [JSON.stringify] does not throw on values that come from JSON. *)
Definition toValueText (value : jsval) : jstr :=
  match value with
  | VUndef => []
  | VStr s => s
  | _ => default [] (stringify value)
  end.

Definition parseLooseValue (valueText : jstr) : jsval :=
  let raw := trim valueText in
  match raw with
  | [] => VStr []
  | _ => default (VStr raw) (json_parse raw)
  end.

Definition verifyJSON (text : jstr) : bool :=
  match json_parse text with Some _ => true | None => false end.

(** ** Identifiers *)

Definition str_field (k : jstr) (v : jsval) : jstr :=
  match get_prop k v with VStr s => s | _ => [] end.

(** [set.has(v) ? v : d] for a set of strings. *)
Definition mode_field (modes : list jstr) (d : jstr) (v : jsval) : jstr :=
  match v with VStr s => if includes s modes then s else d | _ => d end.

(** A computation that takes identifiers from the seed and may throw. *)
Definition gen (A : Type) : Type := N -> outcome (A * N).

Definition gen_ret {A} (a : A) : gen A := fun n => Ret (a, n).
Definition gen_bind {A B} (m : gen A) (f : A -> gen B) : gen B :=
  fun n => '(a, n') ← m n; f a n'.
Definition gen_throw {A} : gen A := fun _ => Throws.

Fixpoint gen_map {A B} (f : A -> gen B) (l : list A) : gen (list B) :=
  match l with
  | [] => gen_ret []
  | a :: r => gen_bind (f a) (fun b => gen_bind (gen_map f r) (fun bs => gen_ret (b :: bs)))
  end.

Section Rules.

(** [Date.now()] when the identifier with this number is made. *)
Context (now : N -> N).

Definition local_id (n : N) : jstr := lit "po_" ++ dec_of_N (now n) ++ lit "_" ++ dec_of_N n.

Definition nextLocalId : gen jstr := fun n => Ret (local_id n, n + 1).

(** Reading a property of [null] throws; of [undefined], the parameter's
    default [{}] is read. *)
Definition normalizeCondition (condition : jsval) : gen Condition :=
  gen_bind nextLocalId (fun id =>
    match condition with
    | VNull => gen_throw
    | _ =>
        gen_ret (MkCondition id (str_field (lit "path") condition)
          (mode_field CONDITION_MODE_VALUES (lit "full") (get_prop (lit "mode") condition))
          (toValueText (get_prop (lit "value") condition))
          (is_true (get_prop (lit "invert") condition))
          (is_true (get_prop (lit "pass_missing_key") condition)))
    end).

Definition createDefaultCondition : gen Condition := normalizeCondition (VObj []).

(** Compared after [toUpperCase]; no unit outside ASCII is converted to a letter of
    [AND] or [OR]. *)
Definition logic_field (d other : jstr) (v : jsval) : jstr :=
  if to_upper (string_of_val (val_or v (VStr d))) =?= other then other else d.

Definition normalizeOperation (operation : jsval) : gen Operation :=
  gen_bind nextLocalId (fun id =>
    match operation with
    | VNull => gen_throw
    | _ =>
        gen_bind (match get_prop (lit "conditions") operation with
                  | VArr l => gen_map normalizeCondition l
                  | _ => gen_ret []
                  end) (fun conditions =>
        gen_ret (MkOperation id (str_field (lit "description") operation)
          (str_field (lit "path") operation)
          (mode_field OPERATION_MODE_VALUES (lit "set") (get_prop (lit "mode") operation))
          (str_field (lit "from") operation) (str_field (lit "to") operation)
          (toValueText (get_prop (lit "value") operation))
          (is_true (get_prop (lit "keep_origin") operation))
          (logic_field (lit "OR") (lit "AND") (get_prop (lit "logic") operation)) conditions))
    end).

Definition createDefaultOperation : gen Operation :=
  normalizeOperation (VObj [(lit "mode", VStr (lit "set"))]).

End Rules.

(** ** Lists of operations *)

Inductive Position := Before | After.

#[export] Instance Position_eq : EqDecision Position.
Proof. solve_decision. Defined.

(** [l.findIndex(f)]. *)
Fixpoint find_index {A} (f : A -> bool) (l : list A) : option nat :=
  match l with
  | [] => None
  | x :: r => if f x then Some 0%nat else S <$> find_index f r
  end.

Definition reorderOperations (ops : list Operation) (sourceId targetId : jstr) (position : Position)
  : list Operation :=
  if negb (truthy_str sourceId) || negb (truthy_str targetId) || (sourceId =?= targetId) then ops
  else
    match find_index (fun o => op_id o =?= sourceId) ops with
    | None => ops
    | Some srcIdx =>
        let next := take srcIdx ops ++ drop (S srcIdx) ops in
        match ops !! srcIdx, find_index (fun o => op_id o =?= targetId) next with
        | Some moved, Some i =>
            let insertIdx := match position with After => S i | Before => i end in
            take insertIdx next ++ moved :: drop insertIdx next
        | _, _ => ops
        end
    end.

Definition isOperationBlank (operation : Operation) : bool :=
  let hasCondition :=
    List.existsb (fun c =>
      truthy_str (trim (cond_path c)) || truthy_str (trim (cond_value_text c)) ||
      (cond_mode c <?> lit "full") || cond_invert c || cond_pass_missing_key c)
      (op_conditions operation) in
  (op_mode operation =?= lit "set") && negb (truthy_str (trim (op_path operation))) &&
  negb (truthy_str (trim (op_from operation))) && negb (truthy_str (trim (op_to operation))) &&
  (trim (op_value_text operation) =?= []) && negb (op_keep_origin operation) && negb hasCondition.

(** ** Drafts of the special modes *)

Inductive SyncType := SyncJson | SyncHeader.

#[export] Instance SyncType_eq : EqDecision SyncType.
Proof. solve_decision. Defined.

(** No unit outside ASCII is converted to a letter of [header]. *)
Definition parseSyncTargetSpec (spec : jstr) : SyncType * jstr :=
  let raw := trim spec in
  match raw with
  | [] => (SyncJson, [])
  | _ =>
      match index_of (lit ":") raw with
      | None => (SyncJson, raw)
      | Some idx =>
          let prefix := to_lower (trim (take idx raw)) in
          let key := trim (drop (S idx) raw) in
          if prefix =?= lit "header" then (SyncHeader, key) else (SyncJson, key)
      end
  end.

Definition buildSyncTargetSpec (type : SyncType) (key : jstr) : jstr :=
  let normalizedType := match type with SyncHeader => lit "header" | SyncJson => lit "json" end in
  match trim key with
  | [] => []
  | normalizedKey => normalizedType ++ lit ":" ++ normalizedKey
  end.

Record ReturnErrorDraft := MkReturnError {
  re_message : jstr;
  re_statusCode : num;
  re_code : jstr;
  re_type : jstr;
  re_skipRetry : bool;
  re_simpleMode : bool
}.

(** An integer from 100 to 599, or 400. *)
Definition status_or_400 (x : num) : num :=
  if is_integer x && num_geb x (num_of_Z 100) && num_leb x (num_of_Z 599) then x else num_of_Z 400.

Definition return_error_defaults : ReturnErrorDraft :=
  MkReturnError [] (num_of_Z 400) [] [] true true.

(** [String(v || '').trim()]. *)
Definition text_or_empty (v : jsval) : jstr := trim (string_of_val (val_or v (VStr []))).

Definition parseReturnErrorDraft (valueText : jstr) : ReturnErrorDraft :=
  let raw := trim valueText in
  match raw with
  | [] => return_error_defaults
  | _ =>
      match json_parse raw with
      | Some (VObj o) =>
          let parsed := VObj o in
          let statusRaw := match get_prop (lit "status_code") parsed with
                           | VUndef => get_prop (lit "status") parsed
                           | v => v
                           end in
          MkReturnError
            (text_or_empty (val_or (get_prop (lit "message") parsed) (get_prop (lit "msg") parsed)))
            (status_or_400 (number_of_val statusRaw))
            (text_or_empty (get_prop (lit "code") parsed))
            (text_or_empty (get_prop (lit "type") parsed))
            (negb (is_false (get_prop (lit "skip_retry") parsed))) false
      | _ => MkReturnError raw (num_of_Z 400) [] [] true true
      end
  end.

(** [if (c) o[k] = v]. *)
Definition put_if (c : bool) (k : jstr) (v : jsval) (o : jsobj) : jsobj :=
  if c then obj_set k v o else o.

Definition return_error_payload (draft : ReturnErrorDraft) : jsobj :=
  let code := trim (re_code draft) in
  let type := trim (re_type draft) in
  let payload := [(lit "message", VStr (trim (re_message draft)));
                  (lit "status_code", VNum (status_or_400 (re_statusCode draft)))] in
  let payload := put_if (truthy_str code) (lit "code") (VStr code) payload in
  let payload := put_if (truthy_str type) (lit "type") (VStr type) payload in
  put_if (negb (re_skipRetry draft)) (lit "skip_retry") (VBool false) payload.

Definition buildReturnErrorValueText (draft : ReturnErrorDraft) : jstr :=
  if re_simpleMode draft then trim (re_message draft)
  else default [] (stringify (VObj (return_error_payload draft))).

Record PruneObjectsDraft := MkPrune {
  pr_simpleMode : bool;
  pr_typeText : jstr;
  pr_logic : jstr;
  pr_recursive : bool;
  pr_rules : list Condition
}.

Section Prune.
Context (now : N -> N).

Definition normalizePruneRule (rule : jsval) : gen Condition := normalizeCondition now rule.

(** [Object.entries(v).map(([path, value]) => ({ path, mode: 'full', value }))]. *)
Definition entry_rules (o : jsobj) : list jsval :=
  List.map (fun kv => VObj [(lit "path", VStr kv.1); (lit "mode", VStr (lit "full"));
                            (lit "value", kv.2)]) o.

(** The rules [where] and [conditions] describe, before normalisation. *)
Definition prune_sources (parsed : jsval) : list jsval :=
  match get_prop (lit "where") parsed with VObj o => entry_rules o | _ => [] end ++
  match get_prop (lit "conditions") parsed with
  | VArr l => List.filter (fun v => match v with VArr _ | VObj _ => true | _ => false end) l
  | VObj o => entry_rules o
  | _ => []
  end.

Definition is_undefined (v : jsval) : bool := match v with VUndef => true | _ => false end.

Definition parsePruneObjectsDraft (valueText : jstr) : gen PruneObjectsDraft :=
  let plain_text t := gen_ret (MkPrune true t (lit "AND") true []) in
  let raw := trim valueText in
  match raw with
  | [] => plain_text []
  | _ =>
      match json_parse raw with
      | None => plain_text raw
      | Some (VStr s) => plain_text (trim s)
      | Some (VObj o) =>
          let parsed := VObj o in
          gen_bind (gen_map normalizePruneRule (prune_sources parsed)) (fun rules =>
          gen_ret (MkPrune
            (is_undefined (get_prop (lit "logic") parsed) &&
             is_undefined (get_prop (lit "recursive") parsed) &&
             is_undefined (get_prop (lit "where") parsed) &&
             is_undefined (get_prop (lit "conditions") parsed))
            (match get_prop (lit "type") parsed with VUndef => [] | v => trim (string_of_val v) end)
            (logic_field (lit "AND") (lit "OR") (get_prop (lit "logic") parsed))
            (negb (is_false (get_prop (lit "recursive") parsed))) rules))
      | Some parsed =>
          plain_text (if is_nullish parsed then [] else trim (string_of_val parsed))
      end
  end.
End Prune.

Definition prune_condition (rule : Condition) : jsval :=
  let payload := [(lit "path", VStr (trim (cond_path rule)));
                  (lit "mode", VStr (if includes (cond_mode rule) CONDITION_MODE_VALUES
                                     then cond_mode rule else lit "full"))] in
  let valueRaw := trim (cond_value_text rule) in
  let payload := put_if (truthy_str valueRaw) (lit "value") (parseLooseValue valueRaw) payload in
  let payload := put_if (cond_invert rule) (lit "invert") (VBool true) payload in
  VObj (put_if (cond_pass_missing_key rule) (lit "pass_missing_key") (VBool true) payload).

Definition buildPruneObjectsValueText (draft : PruneObjectsDraft) : jstr :=
  let typeText := trim (pr_typeText draft) in
  if pr_simpleMode draft then typeText
  else
    let payload := put_if (truthy_str typeText) (lit "type") (VStr typeText) [] in
    let payload := put_if (to_upper (if truthy_str (pr_logic draft) then pr_logic draft else lit "AND") =?= lit "OR")
                     (lit "logic") (VStr (lit "OR")) payload in
    let payload := put_if (negb (pr_recursive draft)) (lit "recursive") (VBool false) payload in
    let conditions :=
      List.map prune_condition
        (List.filter (fun rule => truthy_str (trim (cond_path rule))) (pr_rules draft)) in
    let payload := put_if (match conditions with [] => false | _ => true end)
                     (lit "conditions") (VArr conditions) payload in
    if negb (truthy (get_prop (lit "type") (VObj payload))) &&
       negb (truthy (get_prop (lit "conditions") (VObj payload)))
    then default [] (stringify (VObj [(lit "logic", VStr (lit "AND"))]))
    else default [] (stringify (VObj payload)).

(** [String(i ?? '').trim()]. *)
Definition nullish_text (v : jsval) : jstr := if is_nullish v then [] else trim (string_of_val v).

Definition parsePassHeaderNames (rawValue : jsval) : list jstr :=
  let names l := List.filter truthy_str (List.map nullish_text l) in
  match rawValue with
  | VArr l => names l
  | VObj o =>
      match get_prop (lit "headers") (VObj o) with
      | VArr l => names l
      | _ =>
          match get_prop (lit "header") (VObj o) with
          | VUndef => []
          | v => match nullish_text v with [] => [] | single => [single] end
          end
      end
  | VStr s => words 44 s
  | _ => []
  end.

(** ** Validation *)

(** [condition.mode || 'full']. *)
Definition buildConditionPayload (condition : Condition) : option jsobj :=
  let path := trim (cond_path condition) in
  if truthy_str path then
    let payload := [(lit "path", VStr path);
                    (lit "mode", VStr (if truthy_str (cond_mode condition) then cond_mode condition
                                       else lit "full"));
                    (lit "value", parseLooseValue (cond_value_text condition))] in
    let payload := put_if (cond_invert condition) (lit "invert") (VBool true) payload in
    Some (put_if (cond_pass_missing_key condition) (lit "pass_missing_key") (VBool true) payload)
  else None.

(** The messages of [validateOperations]; each comes with the line of the rule. *)
Inductive Problem :=
| MissingPath | MissingFrom | MissingTo | MissingValue | NoErrorMessage | NoPruneConditions
| NoHeaderNames | InvalidHeaders.

(** [operation.mode || 'set']. *)
Definition mode_of (op : Operation) : jstr :=
  if truthy_str (op_mode op) then op_mode op else lit "set".

Definition check_return_error (raw : jstr) : option Problem :=
  match raw with
  | [] => Some MissingValue
  | _ =>
      match json_parse raw with
      | Some (VObj o) =>
          if truthy_str (text_or_empty (get_prop (lit "message") (VObj o))) then None
          else Some NoErrorMessage
      | _ => None
      end
  end.

Definition check_pass_headers (raw : jstr) : option Problem :=
  match raw with
  | [] => Some NoHeaderNames
  | _ =>
      match parsePassHeaderNames (parseLooseValue raw) with
      | [] => Some InvalidHeaders
      | _ => None
      end
  end.

(** The body of the loop. *)
Definition check_operation (op : Operation) : option Problem :=
  let mode := mode_of op in
  let meta := meta_of mode in
  let pathValue := trim (op_path op) in
  let raw := trim (op_value_text op) in
  let aliased := meta_pathAlias meta && truthy_str pathValue in
  if meta_path meta && negb (truthy_str pathValue) then Some MissingPath
  else if includes mode FROM_REQUIRED_MODES && negb (truthy_str (trim (op_from op))) &&
          negb aliased then Some MissingFrom
  else if includes mode TO_REQUIRED_MODES && negb (truthy_str (trim (op_to op))) &&
          negb aliased then Some MissingTo
  else if includes mode VALUE_REQUIRED_MODES && (raw =?= []) then Some MissingValue
  else
    match (if mode =?= lit "return_error" then check_return_error raw else None) with
    | Some p => Some p
    | None =>
        if (mode =?= lit "prune_objects") && (raw =?= []) then Some NoPruneConditions
        else if mode =?= lit "pass_headers" then check_pass_headers raw
        else None
    end.

Fixpoint validate_from (line : N) (operations : list Operation) : option (Problem * N) :=
  match operations with
  | [] => None
  | op :: r =>
      match check_operation op with
      | Some p => Some (p, line)
      | None => validate_from (line + 1) r
      end
  end.

Definition validateOperations (operations : list Operation) : option (Problem * N) :=
  validate_from 1 operations.

(** ** The saved JSON *)

Definition operation_payload (operation : Operation) : jsobj :=
  let mode := mode_of operation in
  let meta := meta_of mode in
  let descriptionValue := trim (op_description operation) in
  let pathValue := trim (op_path operation) in
  let fromValue := trim (op_from operation) in
  let toValue := trim (op_to operation) in
  let has_path := truthy_str pathValue in
  let payload := [(lit "mode", VStr mode)] in
  let payload := put_if (truthy_str descriptionValue) (lit "description") (VStr descriptionValue) payload in
  let payload := put_if (meta_path meta) (lit "path") (VStr pathValue) payload in
  let payload := put_if (meta_pathOptional meta && has_path) (lit "path") (VStr pathValue) payload in
  let payload := put_if (meta_value meta) (lit "value") (parseLooseValue (op_value_text operation)) payload in
  let payload := put_if (meta_keepOrigin meta && op_keep_origin operation) (lit "keep_origin")
                   (VBool true) payload in
  let payload := put_if (meta_from meta) (lit "from") (VStr fromValue) payload in
  let payload := put_if (negb (meta_to meta) && truthy_str toValue) (lit "to") (VStr toValue) payload in
  let payload := put_if (meta_to meta) (lit "to") (VStr toValue) payload in
  let payload :=
    if meta_pathAlias meta then
      let payload := put_if (negb (truthy (get_prop (lit "from") (VObj payload))) && has_path)
                       (lit "from") (VStr pathValue) payload in
      put_if (negb (truthy (get_prop (lit "to") (VObj payload))) && has_path)
        (lit "to") (VStr pathValue) payload
    else payload in
  match omap buildConditionPayload (op_conditions operation) with
  | [] => payload
  | conditions =>
      obj_set (lit "logic")
        (VStr (if op_logic operation =?= lit "AND" then lit "AND" else lit "OR"))
        (obj_set (lit "conditions") (VArr (List.map VObj conditions)) payload)
  end.

(** [{ operations: l }]. *)
Definition with_rules (l : list jsval) : jsval := VObj [(lit "operations", VArr l)].

Definition operations_value (ops : list Operation) : jsval :=
  with_rules (List.map (fun o => VObj (operation_payload o)) ops).

(** [inl] is the error that is thrown. *)
Definition buildOperationsJson (sourceOperations : list Operation) (validate : bool)
  : (Problem * N) + jstr :=
  let filteredOps := List.filter (fun o => negb (isOperationBlank o)) sourceOperations in
  match filteredOps with
  | [] => inr []
  | _ =>
      match (if validate then validateOperations filteredOps else None) with
      | Some message => inl message
      | None => inr (default [] (stringify_pretty (operations_value filteredOps)))
      end
  end.

(** ** Opening the editor *)

Inductive EditMode := Visual | Json.
Inductive VisualMode := Operations | Legacy.

#[export] Instance EditMode_eq : EqDecision EditMode.
Proof. solve_decision. Defined.
#[export] Instance VisualMode_eq : EqDecision VisualMode.
Proof. solve_decision. Defined.

Record EditorState := MkEditorState {
  editMode : EditMode;
  visualMode : VisualMode;
  legacyValue : jstr;
  operations : list Operation;
  jsonText : jstr;
  jsonError : bool
}.

Definition parseInitialState (now : N -> N) (rawValue : jstr) : gen EditorState :=
  let trimmed := trim rawValue in
  let with_default mode vmode legacy text err :=
    gen_bind (createDefaultOperation now) (fun op =>
      gen_ret (MkEditorState mode vmode legacy [op] text err)) in
  match trimmed with
  | [] => with_default Visual Operations [] [] false
  | _ =>
      match json_parse trimmed with
      | None => with_default Json Operations [] rawValue true
      | Some parsed =>
          let pretty := default [] (stringify_pretty parsed) in
          match parsed with
          | VObj o =>
              match get_prop (lit "operations") parsed with
              | VArr [] => with_default Visual Operations [] pretty false
              | VArr l =>
                  gen_bind (gen_map (normalizeOperation now) l) (fun ops =>
                    gen_ret (MkEditorState Visual Operations [] ops pretty false))
              | _ => with_default Visual Legacy pretty pretty false
              end
          | _ => with_default Json Operations [] pretty false
          end
      end
  end.

(** * Facts *)

(** ** Text of values *)

Lemma value_head_not_ws c : value_head c = true -> is_ws c = false.
Proof.
  intros H%value_head_cases. rewrite !elem_of_cons in H.
  repeat destruct H as [->|H]; [by vm_compute..|]. by apply not_elem_of_nil in H.
Qed.

Lemma trimmed_intro c d (s t : jstr) :
  s = c :: t -> last s = Some d -> is_ws c = false -> is_ws d = false -> trimmed s.
Proof. intros -> Hl Hc Hd. split; intros x; [by intros [= <-]|rewrite Hl; by intros [= <-]]. Qed.

(** Printed values have no white space around them. *)
Lemma render_trimmed g v t : val_ok v -> render g v = Some t -> trimmed t.
Proof.
  intros Hv Ht. destruct (render_head g v t Hv Ht) as (c & t' & Et & Hc).
  assert (Hlast : exists d, last t = Some d /\ is_ws d = false).
  2:{ destruct Hlast as (d & Hd & Hw). eapply trimmed_intro; [done..|by apply value_head_not_ws|done]. }
  destruct v as [| |[]|x|s|l|o]; cbn [render stringify] in Ht; [done|..];
    injection Ht as <-.
  1-3: eexists; split; [vm_compute; reflexivity|by vm_compute].
  - destruct (is_finite x) eqn:Hf; [|eexists; split; [vm_compute; reflexivity|by vm_compute]].
    destruct (string_of_num_units x Hv Hf) as [Hne Hu].
    destruct (last (string_of_num x)) as [d|] eqn:El; [|by apply last_None in El]. exists d. split; [done|].
    apply text_unit_not_ws. apply last_Some in El as [l El]. rewrite El in Hu.
    apply Forall_app in Hu as [_ Hu]. by inversion_clear Hu.
  - exists 34. split; [|done]. unfold quote. by rewrite app_comm_cons, last_snoc.
  - exists 93. split; [|done]. by rewrite app_comm_cons, last_snoc.
  - exists 125. split; [|done]. by rewrite app_comm_cons, last_snoc.
Qed.

Lemma normal_text v : normal v -> match v with VStr _ => False | _ => True end ->
  exists c t, toValueText v = c :: t /\ trimmed (c :: t) /\ json_parse (c :: t) = Some v.
Proof.
  intros Hv Hs. destruct (normal_reads v Hv) as (c & t & Ht & _ & Hp).
  exists c, t. rewrite stringify_render in Ht. split_and!; [|by eapply render_trimmed, Ht; apply Hv|done].
  unfold toValueText. rewrite stringify_render, Ht. by destruct v.
Qed.

(** The value of a text survives being shown and read again: any value but a
    string, and a string that does not itself read as another value. *)
Definition stable_value (v : jsval) : Prop :=
  match v with
  | VStr s => units_ok s /\ trim s = s /\ (s = [] \/ json_parse s = None)
  | _ => normal v
  end.

Lemma loose_text v : stable_value v -> parseLooseValue (toValueText v) = v.
Proof.
  intros Hv. assert (Hgo : normal v -> match v with VStr _ => False | _ => True end ->
    parseLooseValue (toValueText v) = v).
  { intros Hn Hs. destruct (normal_text v Hn Hs) as (c & t & -> & Ht & Hp).
    unfold parseLooseValue. by rewrite (trim_id _ Ht), Hp. }
  destruct v as [| |b|x|s|l|o]; try (by apply Hgo). cbn [stable_value toValueText] in *.
  destruct Hv as (_ & Ht & Hp). unfold parseLooseValue. rewrite Ht.
  destruct s as [|c s]; [done|]. destruct Hp as [Hp|Hp]; [done|]. by rewrite Hp.
Qed.

Lemma stable_normal v : stable_value v -> normal v.
Proof. destruct v; try done. by intros (Hu & _). Qed.

(** Plain text that is not JSON is its own value. *)
Lemma loose_plain t : units_ok t -> json_parse (trim t) = None -> stable_value (parseLooseValue t).
Proof.
  intros Hu Hp. unfold parseLooseValue. destruct (trim t) as [|c r] eqn:E; [split_and!; [constructor|done|by left]|].
  rewrite Hp. cbn [from_option]. rewrite <- E. split_and!; [|apply trim_idemp|right; by rewrite E].
  eapply Forall_forall. intros x Hx. eapply Forall_forall in Hu; [exact Hu|]. by apply trim_elem.
Qed.

(** ** The fields of a payload *)

Lemma put_if_get c k v o k' :
  obj_get k' (put_if c k v o) = if (k' =?= k) && c then Some v else obj_get k' o.
Proof.
  unfold put_if. destruct c; [|by rewrite andb_false_r]. rewrite obj_get_set. by case_bool_decide.
Qed.

Lemma put_if_ordered c k v o : ordered o -> ordered (put_if c k v o).
Proof. unfold put_if. destruct c; [apply obj_set_ordered|done]. Qed.

Lemma put_if_members (P : jsval -> Prop) c k v o :
  units_ok k -> (c = true -> P v) -> members P o -> members P (put_if c k v o).
Proof. unfold put_if. destruct c; [|done]. intros. apply obj_set_members; auto. Qed.

(** Decides comparisons of literal keys. *)
Ltac keys :=
  repeat match goal with
  | |- context [bool_decide (?a = ?b)] =>
      first [rewrite (bool_decide_true (a = b)) by reflexivity
            |rewrite (bool_decide_false (a = b)) by key_ne]; cbn [andb]
  end.

Ltac gets := rewrite ?obj_get_set, ?put_if_get; cbn [obj_get]; keys.

Definition when (c : bool) (v : jsval) : option jsval := if c then Some v else None.

(** [from] and [to] of a mode that lets the path stand for them. *)
Definition aliased (meta : Meta) (path : jstr) (f : option jsval) : option jsval :=
  if meta_pathAlias meta && negb (truthy (default VUndef f)) && truthy_str path
  then Some (VStr path) else f.

(** The part of the payload before the conditions. *)
Definition payload_head (op : Operation) : jsobj :=
  operation_payload (MkOperation (op_id op) (op_description op) (op_path op) (op_mode op) (op_from op)
    (op_to op) (op_value_text op) (op_keep_origin op) (op_logic op) []).

Lemma payload_split op :
  operation_payload op =
  match omap buildConditionPayload (op_conditions op) with
  | [] => payload_head op
  | cs => obj_set (lit "logic") (VStr (if op_logic op =?= lit "AND" then lit "AND" else lit "OR"))
            (obj_set (lit "conditions") (VArr (List.map VObj cs)) (payload_head op))
  end.
Proof. unfold payload_head, operation_payload. reflexivity. Qed.

Section Payload.
Context (op : Operation).
Let meta := meta_of (mode_of op).
Let path := trim (op_path op).
Let from_ := when (meta_from meta) (VStr (trim (op_from op))).
Let to_ := if meta_to meta then Some (VStr (trim (op_to op)))
           else when (truthy_str (trim (op_to op))) (VStr (trim (op_to op))).

(** Before the aliases. *)
Definition payload_base : jsobj :=
  put_if (meta_to meta) (lit "to") (VStr (trim (op_to op)))
   (put_if (negb (meta_to meta) && truthy_str (trim (op_to op))) (lit "to") (VStr (trim (op_to op)))
   (put_if (meta_from meta) (lit "from") (VStr (trim (op_from op)))
   (put_if (meta_keepOrigin meta && op_keep_origin op) (lit "keep_origin") (VBool true)
   (put_if (meta_value meta) (lit "value") (parseLooseValue (op_value_text op))
   (put_if (meta_pathOptional meta && truthy_str path) (lit "path") (VStr path)
   (put_if (meta_path meta) (lit "path") (VStr path)
   (put_if (truthy_str (trim (op_description op))) (lit "description") (VStr (trim (op_description op)))
     [(lit "mode", VStr (mode_of op))]))))))).

(** The field at a key. *)
Definition field (t f : option jsval) (k : jstr) : option jsval :=
  if k =?= lit "to" then t
  else if k =?= lit "from" then f
  else if k =?= lit "keep_origin" then when (meta_keepOrigin meta && op_keep_origin op) (VBool true)
  else if k =?= lit "value" then when (meta_value meta) (parseLooseValue (op_value_text op))
  else if k =?= lit "path" then when (meta_path meta || (meta_pathOptional meta && truthy_str path)) (VStr path)
  else if k =?= lit "description" then
    when (truthy_str (trim (op_description op))) (VStr (trim (op_description op)))
  else if k =?= lit "mode" then Some (VStr (mode_of op)) else None.

Lemma payload_base_get k : obj_get k payload_base = field to_ from_ k.
Proof using.
  unfold payload_base, field, to_, from_. rewrite !put_if_get. cbn [obj_get].
  generalize (parseLooseValue (op_value_text op)) as v. intros v.
  repeat (match goal with |- context [bool_decide (k = ?b)] =>
    destruct (decide (k = b)) as [->|?]; [keys|rewrite !(bool_decide_false (k = b)) by done; cbn [andb]] end).
  all: unfold when; try done.
  1: destruct (meta_to meta); by destruct (truthy_str (trim (op_to op))).
  1: by destruct (meta_path meta), (meta_pathOptional meta && truthy_str path).
Qed.

Lemma payload_head_base :
  payload_head op =
  if meta_pathAlias meta then
    put_if (negb (truthy (default VUndef to_)) && truthy_str path) (lit "to") (VStr path)
      (put_if (negb (truthy (default VUndef from_)) && truthy_str path) (lit "from") (VStr path)
         payload_base)
  else payload_base.
Proof using.
  unfold payload_head, operation_payload. cbn [op_id op_description op_path op_mode op_from op_to
    op_value_text op_keep_origin op_logic op_conditions omap list_omap]. cbv zeta.
  change (mode_of (MkOperation _ _ _ _ _ _ _ _ _ _)) with (mode_of op). fold meta. fold path.
  change (put_if (meta_to meta) _ _ _) with payload_base. destruct (meta_pathAlias meta); [|done].
  cbn [get_prop]. rewrite put_if_get. keys. by rewrite !payload_base_get.
Qed.

Lemma payload_head_get k :
  obj_get k (payload_head op) = field (aliased meta path to_) (aliased meta path from_) k.
Proof using.
  rewrite payload_head_base. unfold aliased. destruct (meta_pathAlias meta); [|apply payload_base_get].
  rewrite !put_if_get, payload_base_get. cbn [andb]. unfold field.
  destruct (decide (k = lit "to")) as [->|Ht]; [keys; by case_test|].
  rewrite !(bool_decide_false (k = lit "to")) by done. cbn [andb].
  destruct (decide (k = lit "from")) as [->|Hf]; [keys; by case_test|].
  by rewrite !(bool_decide_false (k = lit "from")) by done.
Qed.

Lemma payload_head_ordered : ordered (payload_head op).
Proof using.
  rewrite payload_head_base. unfold payload_base.
  assert (H : ordered [(lit "mode", VStr (mode_of op))]) by (split; repeat constructor; apply not_elem_of_nil).
  destruct (meta_pathAlias meta); repeat apply put_if_ordered; done.
Qed.

Lemma payload_head_members (P : jsval -> Prop) :
  (forall s, s ∈ [mode_of op; trim (op_description op); path; trim (op_from op); trim (op_to op)] -> P (VStr s)) ->
  P (VBool true) -> P (parseLooseValue (op_value_text op)) -> members P (payload_head op).
Proof using.
  intros Hs Hb Hv. rewrite payload_head_base. unfold payload_base.
  assert (H : members P [(lit "mode", VStr (mode_of op))])
    by (apply Forall_cons_2; [split; [units|apply Hs; by left]|apply Forall_nil_2]).
  destruct (meta_pathAlias meta); repeat (apply put_if_members; [units|..]); try done; intros _; apply Hs;
    rewrite !elem_of_cons; tauto.
Qed.
End Payload.

(** ** Conditions *)

(** A condition of the editor whose value text is stable. *)
Definition valid_condition (c : Condition) : Prop :=
  includes (cond_mode c) CONDITION_MODE_VALUES = true /\ units_ok (cond_path c) /\
  stable_value (parseLooseValue (cond_value_text c)).

Lemma units_ok_trim s : units_ok s -> units_ok (trim s).
Proof.
  intros H. apply Forall_forall. intros x Hx. eapply Forall_forall in H; [exact H|]. by apply trim_elem.
Qed.

Lemma includes_truthy s l : includes s l = true -> Forall (fun x => truthy_str x = true) l -> truthy_str s = true.
Proof. intros Hi%includes_true Hl. rewrite Forall_forall in Hl. by apply Hl. Qed.

Lemma condition_mode_truthy c : valid_condition c -> truthy_str (cond_mode c) = true.
Proof. intros (Hm & _). eapply includes_truthy; [exact Hm|]. repeat constructor. Qed.

(** What the editor shows for a saved condition. *)
Definition reopened_condition (id : jstr) (c : Condition) : Condition :=
  MkCondition id (trim (cond_path c)) (cond_mode c)
    (toValueText (parseLooseValue (cond_value_text c))) (cond_invert c) (cond_pass_missing_key c).

Section Condition.
Context (c : Condition) (Hc : valid_condition c) (p : jsobj) (Hp : buildConditionPayload c = Some p).

Lemma condition_payload_get k :
  obj_get k p =
  if k =?= lit "pass_missing_key" then when (cond_pass_missing_key c) (VBool true)
  else if k =?= lit "invert" then when (cond_invert c) (VBool true)
  else if k =?= lit "path" then Some (VStr (trim (cond_path c)))
  else if k =?= lit "mode" then Some (VStr (cond_mode c))
  else if k =?= lit "value" then Some (parseLooseValue (cond_value_text c)) else None.
Proof using Hc Hp.
  unfold buildConditionPayload in Hp. cbv zeta in Hp. rewrite condition_mode_truthy in Hp by done.
  destruct (truthy_str (trim (cond_path c))) eqn:Et; [|done]. injection Hp as <-.
  generalize (parseLooseValue (cond_value_text c)). intros v. rewrite !put_if_get. cbn [obj_get].
  repeat (match goal with |- context [bool_decide (k = ?b)] =>
    destruct (decide (k = b)) as [->|?]; [keys|rewrite !(bool_decide_false (k = b)) by done; cbn [andb]] end).
  all: done.
Qed.

Lemma condition_payload_normal : normal (VObj p).
Proof using Hc Hp.
  unfold buildConditionPayload in Hp. cbv zeta in Hp.
  destruct (truthy_str (trim (cond_path c))) eqn:Et; [|done]. rewrite condition_mode_truthy in Hp by done.
  injection Hp as <-. destruct Hc as (Hm & Hu & Hv). apply normal_obj.
  - do 2 apply put_if_ordered. split.
    + apply (bool_decide_eq_true_1 (NoDup [lit "path"; lit "mode"; lit "value"])). vm_compute. reflexivity.
    + cbn. repeat constructor.
  - repeat (apply put_if_members; [units|intros _; apply normal_bool|]).
    repeat (apply Forall_cons_2; [split; [units|]|]); [..|apply Forall_nil_2].
    + by apply normal_str, units_ok_trim.
    + apply normal_str. apply includes_true in Hm. clear -Hm.
      assert (H : Forall units_ok CONDITION_MODE_VALUES) by units. rewrite Forall_forall in H. by apply H.
    + by apply stable_normal.
Qed.

Lemma condition_reopened now n :
  normalizeCondition now (VObj p) n = Ret (reopened_condition (local_id now n) c, n + 1).
Proof using Hc Hp.
  unfold normalizeCondition, gen_bind, nextLocalId, gen_ret, str_field. cbn [get_prop mbind outcome_bind].
  rewrite !condition_payload_get. keys. unfold reopened_condition. destruct Hc as (Hm & _).
  cbn [from_option id mode_field]. rewrite Hm. by destruct (cond_invert c), (cond_pass_missing_key c).
Qed.
End Condition.

(** Saving the reopened condition gives the same payload. *)
Lemma condition_resaved c id p :
  valid_condition c -> buildConditionPayload c = Some p ->
  buildConditionPayload (reopened_condition id c) = Some p.
Proof.
  intros (_ & _ & Hv) Hp. unfold buildConditionPayload in *. cbn [reopened_condition cond_path cond_mode
    cond_value_text cond_invert cond_pass_missing_key]. by rewrite trim_idemp, loose_text.
Qed.

(** ** Operations *)

(** An operation of the editor whose value texts are stable. *)
Definition valid_operation (op : Operation) : Prop :=
  includes (op_mode op) OPERATION_MODE_VALUES = true /\
  Forall units_ok [op_description op; op_path op; op_from op; op_to op] /\
  stable_value (parseLooseValue (op_value_text op)) /\
  (parseLooseValue (op_value_text op) = VStr [] -> trim (op_value_text op) = []) /\
  Forall valid_condition (op_conditions op).

Definition text_of (v : option jsval) : jstr := match v with Some (VStr s) => s | _ => [] end.

Definition saved_from (op : Operation) : jstr :=
  let meta := meta_of (mode_of op) in
  text_of (aliased meta (trim (op_path op)) (when (meta_from meta) (VStr (trim (op_from op))))).

Definition saved_to (op : Operation) : jstr :=
  let meta := meta_of (mode_of op) in
  text_of (aliased meta (trim (op_path op))
    (if meta_to meta then Some (VStr (trim (op_to op)))
     else when (truthy_str (trim (op_to op))) (VStr (trim (op_to op))))).

(** What the editor shows for a saved operation. *)
Definition reopened (id : jstr) (conditions : list Condition) (op : Operation) : Operation :=
  let meta := meta_of (mode_of op) in
  MkOperation id (trim (op_description op))
    (if meta_path meta || meta_pathOptional meta then trim (op_path op) else []) (op_mode op)
    (saved_from op) (saved_to op)
    (if meta_value meta then toValueText (parseLooseValue (op_value_text op)) else [])
    (meta_keepOrigin meta && op_keep_origin op)
    (match omap buildConditionPayload (op_conditions op) with
     | [] => lit "OR"
     | _ => if op_logic op =?= lit "AND" then lit "AND" else lit "OR"
     end) conditions.

Lemma valid_mode op : valid_operation op -> mode_of op = op_mode op.
Proof.
  intros (Hm & _). unfold mode_of. rewrite (includes_truthy _ _ Hm); [done|]. repeat constructor.
Qed.

Lemma conditions_reopened now cs n :
  Forall valid_condition cs ->
  exists cs' n', gen_map (normalizeCondition now) (List.map VObj (omap buildConditionPayload cs)) n = Ret (cs', n') /\
    n <= n' /\ omap buildConditionPayload cs' = omap buildConditionPayload cs /\ Forall valid_condition cs'.
Proof.
  intros Hcs. revert n. induction Hcs as [|c cs Hc Hcs IH]; intros n.
  - by exists [], n.
  - csimpl. destruct (buildConditionPayload c) as [p|] eqn:Ep; [|apply IH]. cbn [List.map gen_map].
    destruct (IH (n + 1)) as (cs' & n' & Hm & Hle & Ho & Hv).
    exists (reopened_condition (local_id now n) c :: cs'), n'. split_and!; [|lia| |].
    + unfold gen_bind at 1. rewrite (condition_reopened c Hc p Ep). cbn [mbind outcome_bind].
      unfold gen_bind at 1. rewrite Hm. done.
    + csimpl. rewrite (condition_resaved c _ p Hc Ep). by rewrite Ho.
    + constructor; [|done]. destruct Hc as (Hcm & Hcu & Hcv). split_and!; [done|by apply units_ok_trim|].
      cbn [reopened_condition cond_value_text]. by rewrite loose_text.
Qed.

Lemma payload_get op k :
  obj_get k (operation_payload op) =
  match omap buildConditionPayload (op_conditions op) with
  | [] => obj_get k (payload_head op)
  | cs => if k =?= lit "logic" then Some (VStr (if op_logic op =?= lit "AND" then lit "AND" else lit "OR"))
          else if k =?= lit "conditions" then Some (VArr (List.map VObj cs))
          else obj_get k (payload_head op)
  end.
Proof. rewrite payload_split. destruct (omap _ _); [done|]. by rewrite !obj_get_set. Qed.

Lemma payload_normal op : valid_operation op -> normal (VObj (operation_payload op)).
Proof.
  intros Hop. pose proof (valid_mode op Hop) as Hmode. destruct Hop as (Hm & Hu & Hv & _ & Hcs).
  rewrite !Forall_cons in Hu. destruct Hu as (Hu1 & Hu2 & Hu3 & Hu4 & _).
  assert (Hmu : units_ok (op_mode op)).
  { apply includes_true in Hm. assert (H : Forall units_ok OPERATION_MODE_VALUES) by units.
    rewrite Forall_forall in H. by apply H. }
  assert (Hh : members normal (payload_head op)).
  { apply payload_head_members; [|apply normal_bool|by apply stable_normal].
    intros s Hs. rewrite !elem_of_cons in Hs. rewrite Hmode in Hs.
    repeat destruct Hs as [->|Hs]; [..|by apply not_elem_of_nil in Hs]; apply normal_str; auto using units_ok_trim. }
  pose proof (payload_head_ordered op) as Ho. rewrite payload_split.
  destruct (omap buildConditionPayload (op_conditions op)) as [|c cs] eqn:E; [by apply normal_obj|].
  apply normal_obj; [by do 2 apply obj_set_ordered|].
  apply obj_set_members; [units|apply normal_str; case_test; units|].
  apply obj_set_members; [units| |done]. apply normal_arr. rewrite <- E. clear -Hcs.
  induction Hcs as [|c cs Hc Hcs IH]; [constructor|]. csimpl.
  destruct (buildConditionPayload c) eqn:Ec; [|done]. constructor; [by eapply condition_payload_normal|done].
Qed.

Lemma payload_field op k :
  k <> lit "logic" -> k <> lit "conditions" ->
  obj_get k (operation_payload op) = obj_get k (payload_head op).
Proof.
  intros H1 H2. rewrite payload_get. destruct (omap _ _); [done|].
  by rewrite !bool_decide_false by done.
Qed.

Ltac payload_fields := rewrite !payload_field by key_ne; rewrite !payload_head_get; unfold field; keys.

Lemma payload_text op k o :
  obj_get k (operation_payload op) = o -> str_field k (VObj (operation_payload op)) = text_of o.
Proof. intros <-. unfold str_field, text_of. cbn [get_prop]. by destruct (obj_get k _) as [[]|]. Qed.

Lemma logic_reopened op :
  logic_field (lit "OR") (lit "AND") (get_prop (lit "logic") (VObj (operation_payload op))) =
  match omap buildConditionPayload (op_conditions op) with
  | [] => lit "OR"
  | _ => if op_logic op =?= lit "AND" then lit "AND" else lit "OR"
  end.
Proof.
  cbn [get_prop]. rewrite payload_get. destruct (omap _ _).
  - rewrite payload_head_get. unfold field. keys. by vm_compute.
  - keys. case_test; by vm_compute.
Qed.

Lemma operation_reopened now op n :
  valid_operation op ->
  exists cs' n', normalizeOperation now (VObj (operation_payload op)) n =
      Ret (reopened (local_id now n) cs' op, n') /\ n < n' /\
    omap buildConditionPayload cs' = omap buildConditionPayload (op_conditions op) /\
    Forall valid_condition cs'.
Proof.
  intros Hop. pose proof (valid_mode op Hop) as Hmode. destruct Hop as (Hm & _ & _ & _ & Hcs).
  assert (Hc : exists cs' n', (match get_prop (lit "conditions") (VObj (operation_payload op)) with
                  | VArr l => gen_map (normalizeCondition now) l | _ => gen_ret [] end) (n + 1) = Ret (cs', n') /\
    n < n' /\ omap buildConditionPayload cs' = omap buildConditionPayload (op_conditions op) /\
    Forall valid_condition cs').
  { destruct (conditions_reopened now _ (n + 1) Hcs) as (cs' & n' & Hg & Hle & Ho & Hv).
    cbn [get_prop]. rewrite payload_get. destruct (omap buildConditionPayload (op_conditions op)) eqn:E.
    - rewrite payload_head_get. unfold field. keys. exists [], (n + 1). split_and!; [done|lia|done|constructor].
    - keys. exists cs', n'. split_and!; [done|lia|done|done]. }
  destruct Hc as (cs' & n' & Hg & Hlt & Ho & Hv). exists cs', n'. split_and!; [|done..].
  unfold normalizeOperation, gen_bind at 1, nextLocalId. cbn [mbind outcome_bind].
  unfold gen_bind. rewrite Hg. cbn [mbind outcome_bind]. unfold gen_ret. do 2 f_equal.
  unfold reopened. rewrite logic_reopened.
  rewrite !(payload_text op _ _ eq_refl). cbn [get_prop]. payload_fields.
  rewrite Hmode. cbn [from_option id mode_field]. rewrite Hm.
  assert (Ht : forall s, text_of (when (truthy_str s) (VStr s)) = s) by (by intros [|]).
  rewrite Ht. unfold saved_from, saved_to. rewrite Hmode. cbv zeta. set (meta := meta_of (op_mode op)).
  f_equal.
  - destruct (meta_path meta), (meta_pathOptional meta); cbn [orb andb]; done.
  - by destruct (meta_value meta).
  - by destruct (meta_keepOrigin meta && op_keep_origin op).
Qed.

(** ** Saving again *)

Lemma obj_get_value {V} k (o : list (jstr * V)) v : obj_get k o = Some v -> v ∈ obj_values o.
Proof.
  induction o as [|[k1 v1] o IH]; [done|]. cbn [obj_get obj_values List.map snd]. case_test.
  - intros [= ->]. by left.
  - intros H. right. by apply IH.
Qed.

Definition metas : list Meta :=
  [meta_target; meta_write; meta_transfer; meta_replace; meta_affix; meta_header_transfer;
   MkMeta false false true false false false false; MkMeta false true true false false false false;
   MkMeta false false true false false true false].

#[export] Instance Meta_eq : EqDecision Meta.
Proof. solve_decision. Defined.

Lemma meta_cases m : meta_of m ∈ metas.
Proof.
  unfold meta_of. destruct (obj_get m MODE_META) as [x|] eqn:E; cbn [from_option].
  - apply obj_get_value in E. assert (H : Forall (fun x => x ∈ metas) (obj_values MODE_META))
      by (apply (bool_decide_eq_true_1 _); vm_compute; reflexivity).
    rewrite Forall_forall in H. by apply H.
  - right. by left.
Qed.

Lemma text_when s : text_of (when (truthy_str s) (VStr s)) = s.
Proof. by destruct s. Qed.

Lemma trim_if_empty s : truthy_str (trim s) = false -> trim s = [].
Proof. by destruct (trim s). Qed.

Lemma payload_head_resaved i cs op :
  valid_operation op -> payload_head (reopened i cs op) = payload_head op.
Proof.
  intros Hop. pose proof (valid_mode op Hop) as Hmode. destruct Hop as (_ & _ & Hv & _).
  apply loose_text in Hv. rewrite !payload_head_base. unfold payload_base.
  assert (Em : mode_of (reopened i cs op) = mode_of op) by done. rewrite Em.
  unfold reopened, saved_from, saved_to. cbn [op_description op_path op_mode op_from op_to op_value_text op_keep_origin].
  rewrite trim_idemp. unfold aliased. pose proof (meta_cases (mode_of op)) as Hc.
  unfold metas in Hc. rewrite !elem_of_cons in Hc.
  repeat destruct Hc as [->|Hc]; [..|by apply not_elem_of_nil in Hc].
  all: cbn [meta_path meta_pathOptional meta_value meta_from meta_to meta_keepOrigin meta_pathAlias
    meta_target meta_write meta_transfer meta_replace meta_affix meta_header_transfer andb orb negb when text_of
    from_option id truthy]; rewrite ?text_when, ?trim_idemp, ?Hv.
  all: try done.
  destruct (truthy_str (trim (op_path op))) eqn:Ep, (truthy_str (trim (op_from op))) eqn:Ef,
    (truthy_str (trim (op_to op))) eqn:Et; cbn [andb negb text_of truthy]; rewrite ?trim_idemp, ?Ep, ?Ef, ?Et;
    cbn [andb negb truthy_str trim]; rewrite ?(trim_if_empty _ Ep), ?(trim_if_empty _ Ef), ?(trim_if_empty _ Et);
    try done.
  all: unfold put_if; destruct (op_keep_origin op), (truthy_str (trim (op_description op))); reflexivity.
Qed.

Lemma payload_resaved i cs op :
  valid_operation op -> omap buildConditionPayload cs = omap buildConditionPayload (op_conditions op) ->
  operation_payload (reopened i cs op) = operation_payload op.
Proof.
  intros Hop Hcs. rewrite !payload_split, payload_head_resaved by done.
  cbn [reopened op_conditions op_logic]. rewrite Hcs.
  destruct (omap buildConditionPayload (op_conditions op)); [done|].
  by destruct (bool_decide (op_logic op = lit "AND")).
Qed.

(** The checks of the value look at its text only to see whether it is blank. *)
Definition check_value (mode : jstr) (blank : bool) (v : jsval) : option Problem :=
  if includes mode VALUE_REQUIRED_MODES && blank then Some MissingValue
  else
    match (if mode =?= lit "return_error" then
             if blank then Some MissingValue
             else match v with
                  | VObj o => if truthy_str (text_or_empty (get_prop (lit "message") (VObj o))) then None
                              else Some NoErrorMessage
                  | _ => None
                  end
           else None) with
    | Some p => Some p
    | None =>
        if (mode =?= lit "prune_objects") && blank then Some NoPruneConditions
        else if mode =?= lit "pass_headers" then
          if blank then Some NoHeaderNames
          else match parsePassHeaderNames v with [] => Some InvalidHeaders | _ => None end
        else None
    end.

Definition check_fields (mode path from to : jstr) : option Problem :=
  let meta := meta_of mode in
  let aliased := meta_pathAlias meta && truthy_str path in
  if meta_path meta && negb (truthy_str path) then Some MissingPath
  else if includes mode FROM_REQUIRED_MODES && negb (truthy_str from) && negb aliased then Some MissingFrom
  else if includes mode TO_REQUIRED_MODES && negb (truthy_str to) && negb aliased then Some MissingTo
  else None.

Lemma loose_trim t : parseLooseValue (trim t) = parseLooseValue t.
Proof. unfold parseLooseValue. by rewrite trim_idemp. Qed.

Lemma check_split op :
  check_operation op =
  match check_fields (mode_of op) (trim (op_path op)) (trim (op_from op)) (trim (op_to op)) with
  | Some p => Some p
  | None => check_value (mode_of op) (trim (op_value_text op) =?= []) (parseLooseValue (op_value_text op))
  end.
Proof.
  unfold check_operation, check_fields, check_value. cbv zeta. do 3 (case_test; [done|]).
  destruct (trim (op_value_text op)) as [|c r] eqn:E; [by rewrite bool_decide_true|].
  rewrite bool_decide_false by done. unfold check_return_error, check_pass_headers. rewrite <- E, loose_trim.
  assert (Hv : parseLooseValue (op_value_text op) = default (VStr (c :: r)) (json_parse (c :: r)))
    by (unfold parseLooseValue; by rewrite E).
  rewrite E, Hv. by destruct (json_parse (c :: r)) as [[]|].
Qed.

(** A stable text shows its value, and is blank exactly when it was. *)
Lemma value_resaved t :
  let v := parseLooseValue t in
  stable_value v -> (v = VStr [] -> trim t = []) ->
  (trim (toValueText v) =?= []) = (trim t =?= []).
Proof.
  cbv zeta. intros Hv Hb. apply bool_decide_ext. split.
  - intros H. destruct (parseLooseValue t) as [| |b|x|s|l|o] eqn:E;
      try (destruct (normal_text _ Hv I) as (c & r & Er & Ht & _); rewrite Er, trim_id in H; done).
    destruct Hv as (_ & Ht & _). cbn [toValueText] in H. rewrite Ht in H. subst s. by apply Hb.
  - intros H. unfold parseLooseValue. by rewrite H.
Qed.

Lemma mode_tables m :
  includes m OPERATION_MODE_VALUES = true ->
  (includes m FROM_REQUIRED_MODES = true -> meta_from (meta_of m) = true) /\
  (includes m TO_REQUIRED_MODES = true -> meta_to (meta_of m) = true) /\
  (includes m VALUE_REQUIRED_MODES || (m =?= lit "return_error") || (m =?= lit "prune_objects") ||
     (m =?= lit "pass_headers") = true -> meta_value (meta_of m) = true).
Proof.
  intros Hm. apply includes_true in Hm.
  assert (H : Forall (fun m =>
    implb (includes m FROM_REQUIRED_MODES) (meta_from (meta_of m)) &&
    implb (includes m TO_REQUIRED_MODES) (meta_to (meta_of m)) &&
    implb (includes m VALUE_REQUIRED_MODES || (m =?= lit "return_error") || (m =?= lit "prune_objects") ||
     (m =?= lit "pass_headers")) (meta_value (meta_of m)) = true) OPERATION_MODE_VALUES)
    by (apply forallb_Forall; vm_compute; reflexivity).
  rewrite Forall_forall in H. specialize (H m Hm). rewrite !andb_true_iff, !implb_true_iff in H. tauto.
Qed.

Lemma check_value_unused m b v :
  meta_value (meta_of m) = false -> includes m OPERATION_MODE_VALUES = true -> check_value m b v = None.
Proof.
  intros Hv Hm. destruct (mode_tables m Hm) as (_ & _ & Ht). unfold check_value.
  destruct (_ || _ || _ || _) eqn:E; [rewrite Ht in Hv by done; done|].
  apply orb_false_iff in E as [E ->]. apply orb_false_iff in E as [E ->]. by apply orb_false_iff in E as [-> ->].
Qed.

Lemma check_resaved i cs op :
  valid_operation op -> check_operation op = None -> check_operation (reopened i cs op) = None.
Proof.
  intros Hop. pose proof (valid_mode op Hop) as Hmode. destruct Hop as (Hm & _ & Hv & Hb & _).
  rewrite !check_split. change (mode_of (reopened i cs op)) with (mode_of op). rewrite Hmode.
  destruct (check_fields (op_mode op) _ _ _) eqn:Ef; [done|]. intros Hc.
  assert (Ef' : check_fields (op_mode op) (trim (op_path (reopened i cs op)))
    (trim (op_from (reopened i cs op))) (trim (op_to (reopened i cs op))) = None).
  { revert Ef. destruct (mode_tables _ Hm) as (Hfr & Hto & _). unfold check_fields. cbv zeta.
    unfold reopened, saved_from, saved_to, aliased. cbn [op_path op_from op_to]. rewrite Hmode.
    pose proof (meta_cases (op_mode op)) as Hcs. unfold metas in Hcs. rewrite !elem_of_cons in Hcs.
    remember (meta_of (op_mode op)) as meta eqn:Em. clear Em.
    repeat destruct Hcs as [->|Hcs]; [..|by apply not_elem_of_nil in Hcs].
    all: cbn [meta_path meta_pathOptional meta_value meta_from meta_to meta_keepOrigin meta_pathAlias
      meta_target meta_write meta_transfer meta_replace meta_affix meta_header_transfer andb orb negb when text_of
      from_option id truthy] in *; rewrite ?text_when, ?trim_idemp.
    all: destruct (includes (op_mode op) FROM_REQUIRED_MODES), (includes (op_mode op) TO_REQUIRED_MODES);
      try (by specialize (Hfr eq_refl)); try (by specialize (Hto eq_refl)); cbn [andb]; try done.
    all: destruct (truthy_str (trim (op_path op))) eqn:Ep, (truthy_str (trim (op_from op))) eqn:Eff,
      (truthy_str (trim (op_to op))) eqn:Et; cbn [andb negb text_of]; rewrite ?trim_idemp, ?Ep, ?Eff, ?Et; done. }
  rewrite Ef'. cbn [reopened op_value_text]. rewrite Hmode.
  destruct (meta_value (meta_of (op_mode op))) eqn:Emv; [|by apply check_value_unused].
  by rewrite value_resaved, loose_text by done.
Qed.

Lemma reopened_not_blank i cs op :
  valid_operation op -> check_operation op = None -> isOperationBlank (reopened i cs op) = false.
Proof.
  intros Hop Hc. pose proof (valid_mode op Hop) as Hmode.
  unfold isOperationBlank, reopened. cbn [op_mode op_path op_from op_to op_value_text op_keep_origin op_conditions].
  rewrite Hmode. destruct (decide (op_mode op = lit "set")) as [E|Hn]; [|by rewrite bool_decide_false].
  rewrite check_split, Hmode in Hc. unfold check_fields in Hc. rewrite E in Hc |- *.
  change (meta_of (lit "set")) with meta_write in *. cbn [meta_path meta_write andb orb] in *.
  destruct (truthy_str (trim (op_path op))) eqn:Et; cbn [negb] in Hc; [|done].
  rewrite trim_idemp, Et. rewrite bool_decide_true by done. done.
Qed.

Lemma validate_none line ops : validate_from line ops = None <-> Forall (fun op => check_operation op = None) ops.
Proof.
  revert line. induction ops as [|op ops IH]; intros line; cbn [validate_from]; [by split|].
  rewrite Forall_cons, <- (IH (line + 1)). destruct (check_operation op); [|tauto]. by split; [|intros [? _]].
Qed.

(** Reopening a list of saved operations. *)
Lemma operations_reopened now ops n :
  Forall valid_operation ops -> Forall (fun op => check_operation op = None) ops ->
  exists ops' n', gen_map (normalizeOperation now) (List.map (fun o => VObj (operation_payload o)) ops) n = Ret (ops', n') /\
    List.map operation_payload ops' = List.map operation_payload ops /\
    Forall (fun op => check_operation op = None) ops' /\
    Forall (fun op => isOperationBlank op = false) ops' /\ length ops' = length ops.
Proof.
  intros Hv. revert n. induction Hv as [|op ops Hop Hv IH]; intros n Hc; [by exists [], n|].
  inversion_clear Hc as [|? ? Hc1 Hc2]. cbn [List.map gen_map].
  destruct (operation_reopened now op n Hop) as (cs' & n1 & Hg & _ & Ho & _).
  destruct (IH n1 Hc2) as (ops' & n2 & Hm & Hp & Hck & Hbl & Hl).
  exists (reopened (local_id now n) cs' op :: ops'), n2. split_and!.
  - unfold gen_bind at 1. rewrite Hg. cbn [mbind outcome_bind]. unfold gen_bind at 1. rewrite Hm. done.
  - cbn [List.map]. by rewrite Hp, payload_resaved.
  - constructor; [by apply check_resaved|done].
  - constructor; [by apply reopened_not_blank|done].
  - cbn. by rewrite Hl.
Qed.

Lemma operations_value_normal ops : Forall valid_operation ops -> normal (operations_value ops).
Proof.
  intros Hv. apply normal_obj.
  - split; repeat constructor. apply not_elem_of_nil.
  - apply Forall_cons_2; [|apply Forall_nil_2]. split; [units|]. apply normal_arr.
    apply Forall_forall. intros x Hx. rewrite list_elem_of_In in Hx. apply in_map_iff in Hx as (op & <- & Hin).
    apply payload_normal. rewrite Forall_forall in Hv. apply Hv. by apply list_elem_of_In.
Qed.

Definition nonblank (ops : list Operation) : list Operation :=
  List.filter (fun o => negb (isOperationBlank o)) ops.

Lemma normal_pretty v : normal v ->
  exists c t, stringify_pretty v = Some (c :: t) /\ trim (c :: t) = c :: t /\ json_parse (c :: t) = Some v.
Proof.
  intros [Hv Hn]. destruct (stringify_pretty v) as [t|] eqn:E.
  - pose proof (pretty_roundtrip v t Hv E) as Hp. rewrite Hn in Hp.
    destruct (render_head (Some []) v t Hv E) as (c & r & -> & _). exists c, r.
    split_and!; [done| |done]. by eapply trim_id, render_trimmed.
  - apply (norm_none (Some [])) in E. congruence.
Qed.

Lemma operations_value_payloads ops ops' :
  List.map operation_payload ops' = List.map operation_payload ops ->
  operations_value ops' = operations_value ops.
Proof.
  intros H. unfold operations_value. f_equal.
  rewrite <- (List.map_map operation_payload VObj), H. apply List.map_map.
Qed.

(** The text saved for valid rules, and what it is read as. *)
Lemma saved_rules ops j :
  Forall valid_operation ops -> buildOperationsJson ops true = inr j -> j <> [] ->
  exists c t x l, j = c :: t /\ trim j = j /\ json_parse j = Some (with_rules (x :: l)) /\
    stringify_pretty (with_rules (x :: l)) = Some j /\
    forall now n, exists ops' n', gen_map (normalizeOperation now) (x :: l) n = Ret (ops', n') /\
      length ops' = length (nonblank ops) /\ buildOperationsJson ops' true = inr j.
Proof.
  intros Hv Hb Hj. unfold buildOperationsJson in Hb. cbv zeta in Hb. fold (nonblank ops) in Hb.
  assert (Hv' : Forall valid_operation (nonblank ops)) by (by apply Forall_lfilter).
  set (fs := nonblank ops) in *. clearbody fs.
  assert (Hc : Forall (fun op => check_operation op = None) fs).
  { apply (validate_none 1). destruct fs; [done|]. unfold validateOperations in Hb.
    by destruct (validate_from 1 (o :: fs)). }
  destruct (normal_pretty _ (operations_value_normal fs Hv')) as (c & t & Ht & Htrim & Hp).
  assert (Ej : j = c :: t).
  { destruct fs; [by injection Hb as <-|]. unfold validateOperations in Hb.
    rewrite (proj2 (validate_none 1 _) Hc), Ht in Hb. by injection Hb as <-. }
  destruct fs as [|f0 fs0]; [cbn in Hb; injection Hb as <-; done|]. clear Hb. subst j.
  exists c, t, (VObj (operation_payload f0)), (List.map (fun o => VObj (operation_payload o)) fs0).
  split_and!; try done. intros now n.
  destruct (operations_reopened now _ n Hv' Hc) as (ops' & n' & Hg & Hpay & Hc' & Hb' & Hl).
  exists ops', n'. split_and!; [done|done|]. unfold buildOperationsJson. cbv zeta.
  rewrite filter_all by (apply Forall_forall; intros x Hx; rewrite Forall_forall in Hb'; by rewrite Hb').
  destruct ops' as [|o' os']; [done|]. unfold validateOperations.
  rewrite (proj2 (validate_none 1 _) Hc'). by rewrite (operations_value_payloads (f0 :: fs0)), Ht.
Qed.

(** C13: saving and reopening rules.  When the visual editor saves rules that
    validate and whose values are stable texts, opening the saved text shows the
    visual editor with as many rules and the same JSON text, and saving them
    without a change writes the same text again. *)
Theorem saved_rules_reopen now ops j n :
  Forall valid_operation ops -> buildOperationsJson ops true = inr j -> j <> [] ->
  exists st n', parseInitialState now j n = Ret (st, n') /\
    editMode st = Visual /\ visualMode st = Operations /\ jsonText st = j /\ jsonError st = false /\
    length (operations st) = length (nonblank ops) /\
    buildOperationsJson (operations st) true = inr j.
Proof.
  intros Hv Hb Hj. destruct (saved_rules ops j Hv Hb Hj) as (c & t & x & l & Ej & Htrim & Hp & Ht & Hre).
  destruct (Hre now n) as (ops' & n' & Hg & Hl & Hb').
  exists (MkEditorState Visual Operations [] ops' j false), n'. split_and!; try done.
  unfold parseInitialState. cbv zeta. rewrite Htrim, Hp, Ht. rewrite Ej. cbn [from_option id].
  change (get_prop (lit "operations") (with_rules (x :: l))) with (VArr (x :: l)).
  unfold with_rules. cbv iota beta. unfold gen_bind at 1. by rewrite Hg.
Qed.

(** A rule whose value text is not JSON. *)
Lemma valid_plain op :
  includes (op_mode op) OPERATION_MODE_VALUES = true ->
  Forall units_ok [op_description op; op_path op; op_from op; op_to op; op_value_text op] ->
  json_parse (trim (op_value_text op)) = None -> Forall valid_condition (op_conditions op) ->
  valid_operation op.
Proof.
  rewrite !Forall_cons. intros Hm (H1 & H2 & H3 & H4 & H5 & _) Hp Hc.
  split_and!; [done|rewrite !Forall_cons; by split_and!|by apply loose_plain| |done].
  unfold parseLooseValue. rewrite Hp. destruct (trim (op_value_text op)); [done|]. by intros [= ?].
Qed.

Definition sample_ops : list Operation :=
  [MkOperation (lit "a") (lit " note ") (lit "temperature ") (lit "set") [] [] (lit " 0.7") true (lit "AND")
     [MkCondition (lit "c") (lit "model") (lit "prefix") (lit "openai/") true false];
   MkOperation (lit "b") [] (lit "X-Key") (lit "copy_header") [] (lit "X-Auth") [] false (lit "OR") [];
   MkOperation (lit "d") [] [] (lit "set") [] [] [] false (lit "OR") []].

Lemma sample_ops_valid : Forall valid_operation sample_ops.
Proof.
  apply Forall_cons_2; [|apply Forall_cons_2; [|apply Forall_cons_2; [|apply Forall_nil_2]]].
  2,3: apply valid_plain; [by vm_compute|units|by vm_compute|apply Forall_nil_2].
  split_and!; [by vm_compute|units| |by vm_compute|].
  + split; [apply (bool_decide_eq_true_1 (double (number_of_string (lit "0.7")))); by vm_compute|by vm_compute].
  + apply Forall_cons_2; [|apply Forall_nil_2].
    split_and!; [by vm_compute|units|apply loose_plain; [units|by vm_compute]].
Qed.

Definition sample_json : jstr :=
  match buildOperationsJson sample_ops true with inr j => j | inl _ => [] end.

Lemma saved_rules_reopen_witness :
  length sample_json = 431%nat /\
  exists st n', parseInitialState id sample_json 7 = Ret (st, n') /\ length (operations st) = 2%nat /\
    buildOperationsJson (operations st) true = inr sample_json.
Proof.
  split; [by vm_compute|].
  destruct (saved_rules_reopen id sample_ops sample_json 7) as (st & n' & H1 & _ & _ & _ & _ & H2 & H3).
  - apply sample_ops_valid.
  - unfold sample_json. destruct (buildOperationsJson sample_ops true) as [e|j] eqn:E; [|done].
    exfalso. revert E. vm_compute. discriminate.
  - unfold sample_json. by vm_compute.
  - exists st, n'. split_and!; [exact H1|rewrite H2; by vm_compute|exact H3].
Defined.

(** The text of a string that reads as another value changes the saved type:
    opening and saving a rule that sets the string 123 sets the number 123. *)
Definition string_rule : jsval :=
  VObj [(lit "operations", VArr [VObj [(lit "mode", VStr (lit "set")); (lit "path", VStr (lit "user"));
                                       (lit "value", VStr (lit "123"))]])].

Theorem string_value_retyped :
  exists st n j, parseInitialState id (default [] (stringify_pretty string_rule)) 0 = Ret (st, n) /\
    buildOperationsJson (operations st) true = inr j /\
    json_parse j = Some (VObj [(lit "operations", VArr [VObj [(lit "mode", VStr (lit "set"));
      (lit "path", VStr (lit "user")); (lit "value", VNum (num_of_Z 123))]])]).
Proof.
  destruct (parseInitialState id (default [] (stringify_pretty string_rule)) 0) as [[st n]|] eqn:E;
    [|exfalso; revert E; vm_compute; discriminate].
  exists st, n. vm_compute in E. injection E as <- <-.
  eexists. split_and!; [reflexivity|vm_compute; reflexivity|vm_compute; reflexivity].
Qed.

(** ** Validation *)

(** What the server needs of a saved rule. *)
Definition complete_payload (p : jsobj) : Prop :=
  let m := text_of (obj_get (lit "mode") p) in
  (meta_path (meta_of m) = true -> text_of (obj_get (lit "path") p) <> []) /\
  (m ∈ FROM_REQUIRED_MODES -> text_of (obj_get (lit "from") p) <> []) /\
  (m ∈ TO_REQUIRED_MODES -> text_of (obj_get (lit "to") p) <> []) /\
  (m ∈ VALUE_REQUIRED_MODES -> is_Some (obj_get (lit "value") p)) /\
  (forall o, m = lit "return_error" -> obj_get (lit "value") p = Some (VObj o) ->
     text_or_empty (get_prop (lit "message") (VObj o)) <> []) /\
  (forall v, m = lit "pass_headers" -> obj_get (lit "value") p = Some v -> parsePassHeaderNames v <> []).

Lemma truthy_str_ne s : truthy_str s = true <-> s <> [].
Proof. by destruct s. Qed.

Lemma check_value_none mode b v :
  check_value mode b v = None ->
  (mode = lit "return_error" -> forall o, v = VObj o -> text_or_empty (get_prop (lit "message") (VObj o)) <> []) /\
  (mode = lit "pass_headers" -> parsePassHeaderNames v <> []).
Proof.
  unfold check_value. intros H. split.
  - intros -> o ->. destruct b; [done|]. keys. apply truthy_str_ne.
    rewrite (bool_decide_true (lit "return_error" = lit "return_error")) in H by done.
    rewrite andb_false_r in H. by destruct (truthy_str (text_or_empty _)).
  - intros ->. destruct b; [done|].
    rewrite (bool_decide_true (lit "pass_headers" = lit "pass_headers")) in H by done.
    rewrite (bool_decide_false (lit "pass_headers" = lit "return_error")) in H by key_ne.
    rewrite !andb_false_r in H. by destruct (parsePassHeaderNames v).
Qed.

Lemma checked_payload op :
  includes (op_mode op) OPERATION_MODE_VALUES = true -> check_operation op = None ->
  complete_payload (operation_payload op).
Proof.
  intros Hm. assert (Hmode : mode_of op = op_mode op).
  { unfold mode_of. rewrite (includes_truthy _ _ Hm); [done|]. repeat constructor. }
  rewrite check_split. destruct (check_fields _ _ _ _) eqn:Ef; [done|]. rewrite Hmode in *.
  intros [Hre Hph]%check_value_none. destruct (mode_tables _ Hm) as (Hfr & Hto & Hva).
  unfold complete_payload. cbv zeta. payload_fields. rewrite Hmode. cbn [text_of].
  unfold check_fields in Ef. cbv zeta in Ef.
  destruct (meta_path (meta_of (op_mode op)) && negb _) eqn:E1; [done|].
  destruct (includes (op_mode op) FROM_REQUIRED_MODES && _ && _) eqn:E2; [done|].
  destruct (includes (op_mode op) TO_REQUIRED_MODES && _ && _) eqn:E3; [done|]. clear Ef.
  set (meta := meta_of (op_mode op)) in *. unfold aliased, when. split_and!.
  - intros Hp. rewrite Hp in E1 |- *. cbn [andb orb text_of] in *. apply truthy_str_ne.
    by apply negb_false_iff in E1.
  - intros Hi%includes_true. rewrite Hi in E2. rewrite (Hfr Hi). cbn [andb from_option id truthy] in *.
    destruct (trim (op_from op)); cbn [truthy_str negb andb] in *; [|destruct (meta_pathAlias meta); cbn; done].
    apply negb_false_iff, andb_true_iff in E2 as [-> Hp]. rewrite Hp. by apply truthy_str_ne.
  - intros Hi%includes_true. rewrite Hi in E3. rewrite (Hto Hi). cbn [andb from_option id truthy] in *.
    destruct (trim (op_to op)); cbn [truthy_str negb andb] in *; [|destruct (meta_pathAlias meta); cbn; done].
    apply negb_false_iff, andb_true_iff in E3 as [-> Hp]. rewrite Hp. by apply truthy_str_ne.
  - intros Hi%includes_true. rewrite Hva by (by rewrite Hi). by eexists.
  - intros o Ho Hv. case_test; [|done]. injection Hv as Hv. by apply Hre.
  - intros v Ho Hv. case_test; [|done]. injection Hv as <-. by apply Hph.
Qed.

(** What can be wrong with a rule, mode by mode and without regard to the order of
    the checks.  A blank text consists of white space. *)
Definition has_problem (op : Operation) (p : Problem) : Prop :=
  let m := op_mode op in
  let blank t := trim t = [] in
  match p with
  | MissingPath =>
      blank (op_path op) /\
      m ∈ [lit "set"; lit "delete"; lit "append"; lit "prepend"; lit "replace"; lit "regex_replace";
           lit "trim_prefix"; lit "trim_suffix"; lit "ensure_prefix"; lit "ensure_suffix";
           lit "trim_space"; lit "to_lower"; lit "to_upper"; lit "set_header"; lit "delete_header"]
  | MissingFrom =>
      blank (op_from op) /\
      (m ∈ [lit "copy"; lit "move"; lit "replace"; lit "regex_replace"; lit "sync_fields"] \/
       blank (op_path op) /\ m ∈ [lit "copy_header"; lit "move_header"])
  | MissingTo =>
      blank (op_to op) /\
      (m ∈ [lit "copy"; lit "move"; lit "sync_fields"] \/
       blank (op_path op) /\ m ∈ [lit "copy_header"; lit "move_header"])
  | MissingValue =>
      blank (op_value_text op) /\
      m ∈ [lit "trim_prefix"; lit "trim_suffix"; lit "ensure_prefix"; lit "ensure_suffix";
           lit "set_header"; lit "return_error"; lit "prune_objects"; lit "pass_headers"]
  | NoErrorMessage =>
      m = lit "return_error" /\
      exists o, json_parse (trim (op_value_text op)) = Some (VObj o) /\
        text_or_empty (get_prop (lit "message") (VObj o)) = []
  | InvalidHeaders =>
      m = lit "pass_headers" /\ ~ blank (op_value_text op) /\
      parsePassHeaderNames (parseLooseValue (op_value_text op)) = []
  | NoPruneConditions | NoHeaderNames => False
  end.

(** The order in which a rule with several problems reports them. *)
Definition rank (p : Problem) : N :=
  match p with
  | MissingPath => 0 | MissingFrom => 1 | MissingTo => 2 | MissingValue => 3
  | NoErrorMessage => 4 | NoPruneConditions => 5 | NoHeaderNames => 6 | InvalidHeaders => 7
  end.

(** The tables of the dialog say of each listed mode what [has_problem] says. *)
Lemma mode_requirements m :
  includes m OPERATION_MODE_VALUES = true ->
  (meta_path (meta_of m) = true <->
   m ∈ [lit "set"; lit "delete"; lit "append"; lit "prepend"; lit "replace"; lit "regex_replace";
        lit "trim_prefix"; lit "trim_suffix"; lit "ensure_prefix"; lit "ensure_suffix";
        lit "trim_space"; lit "to_lower"; lit "to_upper"; lit "set_header"; lit "delete_header"]) /\
  (includes m FROM_REQUIRED_MODES = true /\ meta_pathAlias (meta_of m) = false <->
   m ∈ [lit "copy"; lit "move"; lit "replace"; lit "regex_replace"; lit "sync_fields"]) /\
  (includes m TO_REQUIRED_MODES = true /\ meta_pathAlias (meta_of m) = false <->
   m ∈ [lit "copy"; lit "move"; lit "sync_fields"]) /\
  (includes m FROM_REQUIRED_MODES = true /\ meta_pathAlias (meta_of m) = true <->
   m ∈ [lit "copy_header"; lit "move_header"]) /\
  (includes m TO_REQUIRED_MODES = true /\ meta_pathAlias (meta_of m) = true <->
   m ∈ [lit "copy_header"; lit "move_header"]).
Proof.
  intros Hm%includes_true. revert m Hm. apply Forall_forall.
  apply (bool_decide_eq_true_1 _). vm_compute. reflexivity.
Qed.

Section Listed.
Context (op : Operation) (Hm : includes (op_mode op) OPERATION_MODE_VALUES = true).

Lemma blank_falsy t : negb (truthy_str t) = true <-> t = [].
Proof. by destruct t. Qed.

Lemma listed_mode_of : mode_of op = op_mode op.
Proof. unfold mode_of. rewrite (includes_truthy _ _ Hm); [done|]. repeat constructor. Qed.

Lemma test_cases (b : bool) (P : Prop) : (b = true <-> P) -> (b = true /\ P) \/ (b = false /\ ~ P).
Proof. intros H. destruct b; [left; tauto|right]. split; [done|]. by intros HP%H. Qed.

(** Each test of the loop decides its problem. *)
Lemma path_test :
  meta_path (meta_of (op_mode op)) && negb (truthy_str (trim (op_path op))) = true <->
  has_problem op MissingPath.
Proof.
  destruct (mode_requirements _ Hm) as (H & _). rewrite andb_true_iff, H, blank_falsy.
  cbn [has_problem]. tauto.
Qed.

Lemma alias_test (b : bool) : negb (meta_pathAlias (meta_of (op_mode op)) && truthy_str (trim (op_path op))) = b ->
  b = true <-> meta_pathAlias (meta_of (op_mode op)) = false \/
               meta_pathAlias (meta_of (op_mode op)) = true /\ trim (op_path op) = [].
Proof.
  intros <-. rewrite <- blank_falsy. destruct (meta_pathAlias _); cbn [andb negb]; [|tauto].
  split; [by right|by intros [|[]]].
Qed.

Lemma from_test :
  includes (op_mode op) FROM_REQUIRED_MODES && negb (truthy_str (trim (op_from op))) &&
  negb (meta_pathAlias (meta_of (op_mode op)) && truthy_str (trim (op_path op))) = true <->
  has_problem op MissingFrom.
Proof.
  destruct (mode_requirements _ Hm) as (_ & H1 & _ & H2 & _).
  rewrite !andb_true_iff, (alias_test _ eq_refl), blank_falsy. cbn [has_problem].
  rewrite <- H1, <- H2. tauto.
Qed.

Lemma to_test :
  includes (op_mode op) TO_REQUIRED_MODES && negb (truthy_str (trim (op_to op))) &&
  negb (meta_pathAlias (meta_of (op_mode op)) && truthy_str (trim (op_path op))) = true <->
  has_problem op MissingTo.
Proof.
  destruct (mode_requirements _ Hm) as (_ & _ & H1 & _ & H2).
  rewrite !andb_true_iff, (alias_test _ eq_refl), blank_falsy. cbn [has_problem].
  rewrite <- H1, <- H2. tauto.
Qed.

Lemma value_test :
  includes (op_mode op) VALUE_REQUIRED_MODES && (trim (op_value_text op) =?= []) = true <->
  has_problem op MissingValue.
Proof. rewrite andb_true_iff, includes_true, bool_decide_eq_true. cbn [has_problem]. tauto. Qed.

Lemma check_return_error_exact raw p :
  raw <> [] ->
  check_return_error raw = Some p <->
  p = NoErrorMessage /\ exists o, json_parse raw = Some (VObj o) /\
                          text_or_empty (get_prop (lit "message") (VObj o)) = [].
Proof.
  intros Hne. unfold check_return_error. destruct raw as [|c r]; [done|].
  destruct (json_parse (c :: r)) as [[]|];
    try (split; [done|]; intros (_ & o & [=] & _)).
  destruct (text_or_empty _) eqn:E; cbn [truthy_str]; split; try done.
  - intros [= <-]. split; [done|]. eauto.
  - by intros [-> _].
  - intros (_ & o & [= <-] & H). congruence.
Qed.

Lemma check_pass_headers_exact raw p :
  raw <> [] ->
  check_pass_headers raw = Some p <-> p = InvalidHeaders /\ parsePassHeaderNames (parseLooseValue raw) = [].
Proof.
  intros Hne. unfold check_pass_headers. destruct raw as [|c r]; [done|].
  destruct (parsePassHeaderNames _); split; try done.
  - by intros [= <-].
  - by intros [-> _].
  - by intros [_ [=]].
Qed.

(** Before the value is looked into, it is not blank where it matters. *)
Lemma value_present m :
  ~ has_problem op MissingValue -> op_mode op = m ->
  m = lit "return_error" \/ m = lit "prune_objects" \/ m = lit "pass_headers" ->
  trim (op_value_text op) <> [].
Proof.
  intros H E Hc Hb. apply H. split; [done|]. rewrite E.
  destruct Hc as [-> | [-> | ->]]; apply (bool_decide_eq_true_1 _); vm_compute; reflexivity.
Qed.

(** The body of the loop reports the first problem of the rule. *)
Lemma check_operation_exact :
  match check_operation op with
  | None => forall q, ~ has_problem op q
  | Some p => has_problem op p /\ forall q, has_problem op q -> rank p <= rank q
  end.
Proof.
  unfold check_operation. cbv zeta. rewrite listed_mode_of.
  destruct (test_cases _ _ path_test) as [[-> E1]|[-> E1]].
  { split; [done|]. intros [] _; cbn [rank]; lia. }
  destruct (test_cases _ _ from_test) as [[-> E2]|[-> E2]].
  { split; [done|]. intros [] ?; cbn [rank]; solve [done|lia]. }
  destruct (test_cases _ _ to_test) as [[-> E3]|[-> E3]].
  { split; [done|]. intros [] ?; cbn [rank]; solve [done|lia]. }
  destruct (test_cases _ _ value_test) as [[-> E4]|[-> E4]].
  { split; [done|]. intros [] ?; cbn [rank]; solve [done|lia]. }
  destruct (decide (op_mode op = lit "return_error")) as [Em|Em].
  - assert (Hne := value_present _ E4 Em (or_introl eq_refl)).
    rewrite (bool_decide_true _ Em).
    destruct (check_return_error _) as [p|] eqn:Er.
    + apply check_return_error_exact in Er as [-> Ho]; [|done].
      split; [by split|]. intros [] ?; cbn [rank]; solve [done|lia].
    + rewrite Em. rewrite !bool_decide_false by key_ne. cbn [andb].
      intros [] Hq; cbn [has_problem] in Hq; try done.
      * destruct Hq as [_ Ho].
        assert (Hs := proj2 (check_return_error_exact _ NoErrorMessage Hne) (conj eq_refl Ho)).
        congruence.
      * destruct Hq as [Em' _]. rewrite Em in Em'. revert Em'. key_ne.
  - rewrite (bool_decide_false _ Em).
    destruct (decide (op_mode op = lit "pass_headers")) as [Eh|Eh].
    + assert (Hne := value_present _ E4 Eh (or_intror (or_intror eq_refl))).
      rewrite (bool_decide_false (trim _ = []) Hne), andb_false_r, (bool_decide_true _ Eh).
      destruct (check_pass_headers _) as [p|] eqn:Er.
      * apply check_pass_headers_exact in Er as [-> Ho]; [|done]. rewrite loose_trim in Ho.
        split; [by split|]. intros [] Hq; cbn [rank]; try solve [done|lia]. by destruct Hq.
      * intros [] Hq; cbn [has_problem] in Hq; try done; [by destruct Hq|].
        destruct Hq as (_ & _ & Ho). rewrite <- loose_trim in Ho.
        assert (Hs := proj2 (check_pass_headers_exact _ InvalidHeaders Hne) (conj eq_refl Ho)). congruence.
    + rewrite (bool_decide_false _ Eh).
      destruct (_ && _) eqn:Eo.
      * apply andb_true_iff in Eo as [Eo Hb]. apply bool_decide_eq_true in Eo, Hb.
        by destruct (value_present _ E4 Eo (or_intror (or_introl eq_refl))).
      * intros [] Hq; cbn [has_problem] in Hq; try done; by destruct Hq.
Qed.

End Listed.

Lemma validate_from_exact line ops :
  Forall (fun op => includes (op_mode op) OPERATION_MODE_VALUES = true) ops ->
  match validate_from line ops with
  | None => Forall (fun op => forall p, ~ has_problem op p) ops
  | Some (p, l) =>
      exists before op after, ops = before ++ op :: after /\ l = N.of_nat (length before) + line /\
        (has_problem op p /\ forall q, has_problem op q -> rank p <= rank q) /\
        Forall (fun o => forall q, ~ has_problem o q) before
  end.
Proof.
  intros Hm. revert line. induction Hm as [|op ops Hop _ IH]; intros line; cbn [validate_from]; [done|].
  assert (Hc := check_operation_exact op Hop). destruct (check_operation op) as [p|].
  - exists [], op, ops. split_and!; [done|cbn [length]; lia|apply Hc|apply Hc|constructor].
  - specialize (IH (line + 1)). destruct (validate_from (line + 1) ops) as [[p l]|]; [|by constructor].
    destruct IH as (before & o & after & -> & -> & Hp & Hb). exists (op :: before), o, after.
    split_and!; [done|cbn [length]; lia|apply Hp|apply Hp|by constructor].
Qed.

(** C38: validation of the rules before they are saved.  For rules whose modes are
    listed ones (which the editor guarantees), the list passes exactly when no rule
    has a problem; otherwise the line and the problem reported are those of the
    first rule that has one, and of its problems the first in the order of the
    checks.  The problems of a rule are: a blank target path where its mode works on
    a path; a blank source or target where its mode copies or moves, unless the
    mode is one of the two header modes and a path stands in for it; a blank value
    where its mode needs one; for return_error, a value that is a JSON object with
    no message text (a plain text is allowed); for pass_headers, a value that names
    no header.  A rule that passes is saved with the path, source and target that
    its mode needs, not blank, and with a value where its mode needs one. *)
Theorem validation_exact ops :
  Forall (fun op => includes (op_mode op) OPERATION_MODE_VALUES = true) ops ->
  match validateOperations ops with
  | None =>
      Forall (fun op => (forall p, ~ has_problem op p) /\ complete_payload (operation_payload op)) ops
  | Some (p, line) =>
      exists before op after, ops = before ++ op :: after /\ line = N.of_nat (length before) + 1 /\
        (has_problem op p /\ forall q, has_problem op q -> rank p <= rank q) /\
        Forall (fun o => forall q, ~ has_problem o q) before
  end.
Proof.
  intros Hm. assert (H := validate_from_exact 1 ops Hm). unfold validateOperations.
  destruct (validate_from 1 ops) as [[p line]|] eqn:E; [exact H|].
  apply (validate_none 1) in E. rewrite Forall_forall in *. intros op Hop.
  split; [by apply H|]. apply checked_payload; [by apply Hm|by apply E].
Qed.

Lemma validation_exact_witness :
  validateOperations sample_ops = Some (MissingPath, 3) /\
  exists before op after, sample_ops = before ++ op :: after /\ 3 = N.of_nat (length before) + 1 /\
    (has_problem op MissingPath /\ forall q, has_problem op q -> rank MissingPath <= rank q) /\
    Forall (fun o => forall q, ~ has_problem o q) before.
Proof.
  split; [by vm_compute|].
  assert (Hm : Forall (fun op => includes (op_mode op) OPERATION_MODE_VALUES = true) sample_ops)
    by (apply forallb_Forall; by vm_compute).
  pose proof (validation_exact sample_ops Hm) as H.
  destruct (validateOperations sample_ops) as [[p l]|] eqn:E; vm_compute in E; [|discriminate].
  injection E as <- <-. exact H.
Defined.

(** Two messages of [validateOperations] are never shown: a blank value of
    prune_objects or pass_headers is reported as a missing value. *)
Theorem blank_value_message op :
  op_mode op = lit "prune_objects" \/ op_mode op = lit "pass_headers" ->
  trim (op_value_text op) = [] -> check_operation op = Some MissingValue.
Proof.
  intros [Hm|Hm] Hb; unfold check_operation, mode_of; rewrite Hm, Hb; by vm_compute.
Qed.

(** ** Reordering *)

Lemma find_index_split {A} (f : A -> bool) l i :
  find_index f l = Some i ->
  exists a x b, l = a ++ x :: b /\ length a = i /\ f x = true.
Proof.
  revert i. induction l as [|x l IH]; intros i; cbn [find_index]; [done|]. destruct (f x) eqn:E.
  - intros [= <-]. by exists [], x, l.
  - intros H. destruct (find_index f l) as [j|]; [|done]. injection H as <-.
    destruct (IH j eq_refl) as (a & y & b & -> & <- & Hy). by exists (x :: a), y, b.
Qed.

Lemma find_index_None {A} (f : A -> bool) l : find_index f l = None <-> Forall (fun x => f x = false) l.
Proof.
  induction l as [|x l IH]; cbn [find_index]; [by split|]. rewrite Forall_cons, <- IH.
  destruct (f x); [by split; [|intros [? _]]|]. destruct (find_index f l); [by split; [|intros [_ ?]]|done].
Qed.

Lemma find_id_None ops i : find_index (fun o => op_id o =?= i) ops = None <-> i ∉ List.map op_id ops.
Proof.
  rewrite find_index_None, Forall_forall. split.
  - intros H Hi. rewrite list_elem_of_In, in_map_iff in Hi. destruct Hi as (o & <- & Ho).
    apply list_elem_of_In, H in Ho. by apply bool_decide_eq_false in Ho.
  - intros H o Ho. apply bool_decide_eq_false. intros <-. apply H.
    rewrite list_elem_of_In. apply in_map. by apply list_elem_of_In.
Qed.

Definition movable (ops : list Operation) (s t : jstr) : Prop :=
  s <> [] /\ t <> [] /\ s <> t /\ s ∈ List.map op_id ops /\ t ∈ List.map op_id ops.

Lemma drop_middle {A} (a : list A) x b : drop (S (length a)) (a ++ x :: b) = b.
Proof. rewrite drop_app_ge by lia. by replace (S (length a) - length a)%nat with 1%nat by lia. Qed.

Lemma take_middle {A} (a : list A) x b : take (S (length a)) (a ++ x :: b) = a ++ [x].
Proof. rewrite take_app_ge by lia. by replace (S (length a) - length a)%nat with 1%nat by lia. Qed.

Lemma reorder_cases ops s t pos :
  (reorderOperations ops s t pos = ops /\ ~ movable ops s t) \/
  movable ops s t /\
  exists a x b c y d, ops = a ++ x :: b /\ a ++ b = c ++ y :: d /\ op_id x = s /\ op_id y = t /\
    reorderOperations ops s t pos = c ++ match pos with Before => [x; y] | After => [y; x] end ++ d.
Proof.
  unfold reorderOperations, movable. destruct s as [|s0 s]; [by left; split; [|intros (? & _)]|].
  destruct t as [|t0 t]; [by left; split; [|intros (_ & ? & _)]|]. cbn [truthy_str negb orb].
  set (s1 := s0 :: s). set (t1 := t0 :: t).
  destruct (decide (s1 = t1)) as [E|Hn].
  { left. rewrite bool_decide_true by done. split; [done|]. by intros (_ & _ & ? & _). }
  rewrite bool_decide_false by done.
  destruct (find_index (fun o => op_id o =?= s1) ops) as [i|] eqn:Ei.
  2:{ left. split; [done|]. apply find_id_None in Ei. tauto. }
  destruct (find_index_split _ _ _ Ei) as (a & x & b & -> & <- & Hx). apply bool_decide_eq_true in Hx.
  rewrite take_app_length, list_lookup_middle, drop_middle by done.
  rewrite List.map_app. cbn [List.map]. rewrite !elem_of_app, !elem_of_cons.
  destruct (find_index (fun o => op_id o =?= t1) (a ++ b)) as [j|] eqn:Ej.
  - right. destruct (find_index_split _ _ _ Ej) as (c & y & d & E & <- & Hy). apply bool_decide_eq_true in Hy.
    assert (Hin : t1 ∈ List.map op_id (a ++ b)).
    { rewrite E, List.map_app, <- Hy. apply elem_of_app. right. left. }
    rewrite List.map_app, elem_of_app in Hin. split; [split_and!; [done|done|done|auto|tauto]|].
    exists a, x, b, c, y, d. split_and!; try done. rewrite E.
    destruct pos; [by rewrite take_app_length, drop_app_length|].
    rewrite take_middle, drop_middle. by rewrite <- app_assoc.
  - left. split; [done|]. apply find_id_None in Ej. rewrite List.map_app, elem_of_app in Ej.
    intros (_ & _ & _ & _ & [?|[Heq|?]]); [tauto| |tauto]. apply Hn. by rewrite Heq, Hx.
Qed.

(** Moving a rule by drag and drop.  The rules are the same, those other
    than the moved one keep their order, and the moved rule stands directly
    before or after the target; a drop on itself, or with an unknown rule,
    changes nothing. *)
Theorem reorder_exact ops s t pos :
  let r := reorderOperations ops s t pos in
  let others := List.filter (fun o => op_id o <?> s) in
  r ≡ₚ ops /\ others r = others ops /\ (r = ops \/ movable ops s t) /\
  (movable ops s t ->
   exists c x y d, op_id x = s /\ op_id y = t /\
     r = c ++ match pos with Before => [x; y] | After => [y; x] end ++ d).
Proof.
  cbv zeta. destruct (reorder_cases ops s t pos) as [[-> Hn]|[Hm (a & x & b & c & y & d & -> & E & Hx & Hy & ->)]].
  { split_and!; [done|done|by left|done]. }
  split_and!; [| |by right|intros _; by exists c, x, y, d].
  - rewrite <- Permutation_middle, E. destruct pos; cbn [app]; rewrite <- !Permutation_middle; [done|].
    apply Permutation_swap.
  - transitivity (List.filter (fun o => op_id o <?> s) (a ++ b)).
    + assert (Hs : (op_id x <?> s) = false) by (by rewrite bool_decide_true).
      rewrite E, !lfilter_app. f_equal. destruct pos; cbn [app List.filter]; rewrite Hs;
      by destruct (op_id y <?> s).
    + rewrite !lfilter_app. cbn [List.filter]. by rewrite bool_decide_true.
Qed.

(** ** Drafts *)

Lemma trim_prefixed (p k : jstr) :
  p <> [] -> Forall (fun c => is_ws c = false) p -> trimmed k -> k <> [] -> trim (p ++ k) = p ++ k.
Proof.
  intros Hp Hw [_ Hl] Hk. apply trim_id. split.
  - intros c Hc. destruct Hw; [done|]. cbn in Hc. by injection Hc as <-.
  - intros c Hc. destruct (last k) as [d|] eqn:E; [|by apply last_None in E].
    rewrite (last_app_r _ _ _ E) in Hc. injection Hc as <-. by apply Hl.
Qed.

(** A target of field synchronisation is read back as its kind and its
    trimmed key; a blank key reads as no target. *)
Theorem sync_target_roundtrip ty k :
  parseSyncTargetSpec (buildSyncTargetSpec ty k) =
  match trim k with [] => (SyncJson, []) | key => (ty, key) end.
Proof.
  unfold buildSyncTargetSpec. pose proof (trim_trimmed k) as Ht. pose proof (trim_idemp k) as Hi.
  destruct (trim k) as [|c key] eqn:E; [reflexivity|]. cbv zeta. unfold parseSyncTargetSpec. cbv zeta.
  set (p := match ty with SyncHeader => lit "header" | SyncJson => lit "json" end).
  rewrite app_assoc, trim_prefixed; [|by destruct ty|destruct ty; units|done|done].
  assert (Hcut : index_of (lit ":") ((p ++ lit ":") ++ c :: key) = Some (length p)) by (by destruct ty).
  rewrite Hcut, <- app_assoc, take_app_length.
  replace (drop (S (length p)) (p ++ lit ":" ++ c :: key)) with (c :: key) by (by destruct ty).
  rewrite Hi. unfold p. destruct ty; cbn [app]; vm_compute (to_lower _); by keys.
Qed.

(** An integer number is the image of an integer. *)
Lemma integer_num x lo hi :
  is_integer x = true -> num_geb x (num_of_Z lo) = true -> num_leb x (num_of_Z hi) = true ->
  (0 < lo)%Z -> (lo <= hi < 2 ^ 53)%Z ->
  exists z, x = num_of_Z z /\ (lo <= z <= hi)%Z.
Proof.
  intros Hi Hlo Hhi H1 H2. unfold num_geb, num_leb in *.
  rewrite (num_of_Z_exact lo), (num_of_Z_exact hi) in * by lia.
  destruct x as [|s|s m]; [done..|]. cbn [is_integer] in Hi. apply N.eqb_eq in Hi.
  assert (Em : m = (m / one_units) * one_units).
  { pose proof (N.div_mod m one_units ltac:(done)). lia. }
  set (q := m / one_units) in *. clearbody q. subst m. clear Hi.
  rewrite (proj2 (Z.ltb_ge lo 0)), (proj2 (Z.ltb_ge hi 0)) in * by lia. cbn [num_compare units] in *.
  assert (Hlo' : (Z.of_N (Z.abs_N lo * one_units) <= units s (q * one_units))%Z).
  { destruct (Z.compare_spec (Z.of_N (Z.abs_N lo * one_units)) (units s (q * one_units))); lia || done. }
  assert (Hhi' : (units s (q * one_units) <= Z.of_N (Z.abs_N hi * one_units))%Z).
  { destruct (Z.compare_spec (units s (q * one_units)) (Z.of_N (Z.abs_N hi * one_units))); lia || done. }
  assert (Hq : s = false /\ (lo <= Z.of_N q <= hi)%Z).
  { assert (Hu : 0 < one_units) by done. clear Hlo Hhi. revert Hlo' Hhi' Hu. generalize one_units.
    intros u Hlo Hhi Hu. destruct s; cbn [units] in *; split; nia || done. }
  destruct Hq as [-> Hq]. exists (Z.of_N q). split; [|done].
  rewrite num_of_Z_exact by lia. rewrite (proj2 (Z.ltb_ge (Z.of_N q) 0)) by lia.
  by replace (Z.abs_N (Z.of_N q)) with q by lia.
Qed.

Lemma status_range x : exists z, status_or_400 x = num_of_Z z /\ (100 <= z <= 599)%Z.
Proof.
  unfold status_or_400. case_test; [|exists 400%Z; split; [done|lia]]. prop_tests.
  by apply integer_num; [..|lia].
Qed.

(** C35: whatever text the rule holds, the status code shown for a custom error
    is an integer from 100 to 599. *)
Theorem return_error_status_bounds t :
  exists z, re_statusCode (parseReturnErrorDraft t) = num_of_Z z /\ (100 <= z <= 599)%Z.
Proof.
  assert (H400 : exists z, num_of_Z 400 = num_of_Z z /\ (100 <= z <= 599)%Z) by (exists 400%Z; split; [done|lia]).
  unfold parseReturnErrorDraft. cbv zeta. destruct (trim t) as [|c r]; [done|].
  destruct (json_parse (c :: r)) as [[]|]; try done. apply status_range.
Qed.

Lemma status_idemp x : status_or_400 (status_or_400 x) = status_or_400 x.
Proof. unfold status_or_400 at 2 3. case_test; [unfold status_or_400; by rewrite Heqb|by vm_compute]. Qed.

Lemma normal_int z : (0 < z < 2 ^ 53)%Z -> normal (VNum (num_of_Z z)).
Proof.
  intros Hz. split; [apply num_of_Z_double|]. rewrite num_of_Z_exact by lia. cbn [json_norm num_norm].
  rewrite (proj2 (N.eqb_neq _ 0)); [done|]. assert (one_units <> 0) by done. nia.
Qed.

Lemma text_or_empty_str s : trim s = s -> text_or_empty (VStr s) = s.
Proof. intros H. unfold text_or_empty, val_or. cbn [truthy]. by destruct s; cbn. Qed.

Lemma return_error_payload_normal d :
  Forall units_ok [re_message d; re_code d; re_type d] -> normal (VObj (return_error_payload d)).
Proof.
  rewrite !Forall_cons. intros (H1 & H2 & H3 & _). unfold return_error_payload. cbv zeta.
  destruct (status_range (re_statusCode d)) as (z & -> & Hz). apply normal_obj.
  - do 3 apply put_if_ordered. split; [apply (bool_decide_eq_true_1 (NoDup [lit "message"; lit "status_code"])); by vm_compute|].
    cbn. repeat constructor.
  - apply put_if_members; [units|intros _; apply normal_bool|].
    apply put_if_members; [units|intros _; by apply normal_str, units_ok_trim|].
    apply put_if_members; [units|intros _; by apply normal_str, units_ok_trim|].
    repeat (apply Forall_cons_2; [split; [units|]|]); [by apply normal_str, units_ok_trim|apply normal_int; lia|apply Forall_nil_2].
Qed.

(** The editor of custom errors.  The text built from a draft is read back
    as the draft, with its texts trimmed and its status code in range; a draft
    in the simple form keeps only its message, which must not be the text of a
    JSON object. *)
Theorem return_error_roundtrip d :
  Forall units_ok [re_message d; re_code d; re_type d] ->
  (re_simpleMode d = true -> forall o, json_parse (trim (re_message d)) <> Some (VObj o)) ->
  parseReturnErrorDraft (buildReturnErrorValueText d) =
  if re_simpleMode d then MkReturnError (trim (re_message d)) (num_of_Z 400) [] [] true true
  else MkReturnError (trim (re_message d)) (status_or_400 (re_statusCode d)) (trim (re_code d))
         (trim (re_type d)) (re_skipRetry d) false.
Proof.
  intros Hu Hs. unfold buildReturnErrorValueText. destruct (re_simpleMode d).
  - specialize (Hs eq_refl). unfold parseReturnErrorDraft. cbv zeta. rewrite trim_idemp.
    destruct (trim (re_message d)) as [|c r]; [done|].
    destruct (json_parse (c :: r)) as [[| | | | | |o]|]; try done. by destruct (Hs o).
  - destruct (normal_text _ (return_error_payload_normal d Hu) I) as (c & t & Et & Ht & Hp).
    cbn [toValueText] in Et. rewrite Et. unfold parseReturnErrorDraft. cbv zeta. rewrite (trim_id _ Ht), Hp.
    assert (Hg : forall k, get_prop k (VObj (return_error_payload d)) =
      if k =?= lit "skip_retry" then (if negb (re_skipRetry d) then VBool false else VUndef)
      else if k =?= lit "type" then (if truthy_str (trim (re_type d)) then VStr (trim (re_type d)) else VUndef)
      else if k =?= lit "code" then (if truthy_str (trim (re_code d)) then VStr (trim (re_code d)) else VUndef)
      else if k =?= lit "message" then VStr (trim (re_message d))
      else if k =?= lit "status_code" then VNum (status_or_400 (re_statusCode d)) else VUndef).
    { intros k. cbn [get_prop]. unfold return_error_payload. cbv zeta. rewrite !put_if_get. cbn [obj_get].
      repeat (match goal with |- context [bool_decide (k = ?b)] =>
        destruct (decide (k = b)) as [->|?]; [keys|rewrite !(bool_decide_false (k = b)) by done; cbn [andb]] end).
      all: try done.
      - by destruct (re_skipRetry d).
      - by destruct (truthy_str (trim (re_type d))).
      - by destruct (truthy_str (trim (re_code d))). }
    rewrite !Hg. keys. cbn [number_of_val].
    assert (Ho : forall s, text_or_empty (if truthy_str (trim s) then VStr (trim s) else VUndef) = trim s).
    { intros s. destruct (truthy_str (trim s)) eqn:E; [apply text_or_empty_str, trim_idemp|].
      rewrite (trim_if_empty _ E). by vm_compute. }
    rewrite !Ho, status_idemp. f_equal; [|by destruct (re_skipRetry d)].
    unfold val_or. cbn [truthy]. apply (Ho (re_message d)).
Qed.

Definition sample_error : ReturnErrorDraft :=
  MkReturnError (lit " no access ") (num_of_Z 403) (lit "denied") [] false false.

Lemma return_error_roundtrip_witness :
  length (buildReturnErrorValueText sample_error) = 76%nat /\
  parseReturnErrorDraft (buildReturnErrorValueText sample_error) =
  MkReturnError (lit "no access") (num_of_Z 403) (lit "denied") [] false false.
Proof.
  split; [by vm_compute|]. rewrite (return_error_roundtrip sample_error); [reflexivity| |done].
  repeat apply Forall_cons_2; try apply Forall_nil_2; units.
Defined.
