(* ===== verification/ParamOverrideEditor.v ===== *)
(** * The dialog that edits parameter overrides

    Models the state and the handlers of [ParamOverrideEditorDialog]
    ([features/channels/components/dialogs/param-override-editor-dialog.tsx]):
    opening, editing and dragging rules, the drafts of the special modes,
    switching between the visual editor and JSON text, the templates and saving.
    A handler is a function on the state; the state carries the number of the
    next local identifier.  Search, expanded conditions and the rendering are
    not modelled. *)

From S2P Require Import Prelude.
From S2P Require Import JsString.
From S2P Require Import JsNumber.
From S2P Require Import JsDecimal.
From S2P Require Import JsValue.
From S2P Require Import JsJson.
From S2P Require Import ParamOverride.

Local Open Scope N_scope.

(** ** Templates *)

Definition LEGACY_TEMPLATE : jsval :=
  VObj [(lit "temperature", VNum num_zero); (lit "max_tokens", VNum (num_of_Z 1000))].

Definition template_condition (path mode value : jstr) : jsval :=
  VObj [(lit "path", VStr path); (lit "mode", VStr mode); (lit "value", VStr value)].

Definition OPERATION_TEMPLATE : jsval :=
  with_rules
    [VObj [(lit "description", VStr (lit "Set default temperature for openai/* models."));
           (lit "path", VStr (lit "temperature")); (lit "mode", VStr (lit "set"));
           (lit "value", VNum (number_of_string (lit "0.7")));
           (lit "conditions", VArr [template_condition (lit "model") (lit "prefix") (lit "openai/")]);
           (lit "logic", VStr (lit "AND"))]].

Definition HEADER_PASSTHROUGH_TEMPLATE : jsval :=
  with_rules
    [VObj [(lit "description", VStr (lit "Pass through X-Request-Id header to upstream."));
           (lit "mode", VStr (lit "pass_headers")); (lit "value", VArr [VStr (lit "X-Request-Id")]);
           (lit "keep_origin", VBool true)]].

Definition GEMINI_IMAGE_4K_TEMPLATE : jsval :=
  with_rules
    [VObj [(lit "description",
            VStr (lit "Set imageSize to 4K when model contains gemini/image and ends with 4k."));
           (lit "mode", VStr (lit "set"));
           (lit "path", VStr (lit "generationConfig.imageConfig.imageSize"));
           (lit "value", VStr (lit "4K"));
           (lit "conditions",
            VArr [template_condition (lit "original_model") (lit "contains") (lit "gemini");
                  template_condition (lit "original_model") (lit "contains") (lit "image");
                  template_condition (lit "original_model") (lit "suffix") (lit "4k")]);
           (lit "logic", VStr (lit "AND"))]].

Definition CODEX_CLI_HEADER_PASSTHROUGH_HEADERS : list jstr :=
  [lit "Originator"; lit "Session_id"; lit "User-Agent"; lit "X-Codex-Beta-Features";
   lit "X-Codex-Turn-Metadata"].

Definition CLAUDE_CLI_HEADER_PASSTHROUGH_HEADERS : list jstr :=
  [lit "X-Stainless-Arch"; lit "X-Stainless-Lang"; lit "X-Stainless-Os";
   lit "X-Stainless-Package-Version"; lit "X-Stainless-Retry-Count"; lit "X-Stainless-Runtime";
   lit "X-Stainless-Runtime-Version"; lit "X-Stainless-Timeout"; lit "User-Agent"; lit "X-App";
   lit "Anthropic-Beta"; lit "Anthropic-Dangerous-Direct-Browser-Access"; lit "Anthropic-Version"].

Definition buildPassHeadersTemplate (headers : list jstr) : jsval :=
  with_rules
    [VObj [(lit "mode", VStr (lit "pass_headers")); (lit "value", VArr (List.map VStr headers));
           (lit "keep_origin", VBool true)]].

(** A token and what it is replaced with; an empty text stands for [null]. *)
Definition beta (k v : jstr) : jstr * jsval := (k, if truthy_str v then VStr v else VNull).

Definition AWS_BEDROCK_ANTHROPIC_COMPAT_TEMPLATE : jsval :=
  with_rules
    [VObj [(lit "description",
            VStr (lit "Normalize anthropic-beta header tokens for Bedrock compatibility."));
           (lit "mode", VStr (lit "set_header")); (lit "path", VStr (lit "anthropic-beta"));
           (lit "value",
            VObj [beta (lit "advanced-tool-use-2025-11-20") (lit "tool-search-tool-2025-10-19");
                  beta (lit "bash_20241022") []; beta (lit "bash_20250124") [];
                  beta (lit "code-execution-2025-08-25") [];
                  beta (lit "compact-2026-01-12") (lit "compact-2026-01-12");
                  beta (lit "computer-use-2025-01-24") (lit "computer-use-2025-01-24");
                  beta (lit "computer-use-2025-11-24") (lit "computer-use-2025-11-24");
                  beta (lit "context-1m-2025-08-07") (lit "context-1m-2025-08-07");
                  beta (lit "context-management-2025-06-27") (lit "context-management-2025-06-27");
                  beta (lit "effort-2025-11-24") []; beta (lit "fast-mode-2026-02-01") [];
                  beta (lit "files-api-2025-04-14") [];
                  beta (lit "fine-grained-tool-streaming-2025-05-14") [];
                  beta (lit "interleaved-thinking-2025-05-14") (lit "interleaved-thinking-2025-05-14");
                  beta (lit "mcp-client-2025-11-20") []; beta (lit "mcp-client-2025-04-04") [];
                  beta (lit "mcp-servers-2025-12-04") []; beta (lit "output-128k-2025-02-19") [];
                  beta (lit "structured-output-2024-03-01") [];
                  beta (lit "prompt-caching-scope-2026-01-05") []; beta (lit "skills-2025-10-02") [];
                  beta (lit "structured-outputs-2025-11-13") [];
                  beta (lit "text_editor_20241022") []; beta (lit "text_editor_20250124") [];
                  beta (lit "token-efficient-tools-2025-02-19") [];
                  beta (lit "tool-search-tool-2025-10-19") (lit "tool-search-tool-2025-10-19");
                  beta (lit "web-fetch-2025-09-10") []; beta (lit "web-search-2025-03-05") [];
                  beta (lit "oauth-2025-04-20") []])];
     VObj [(lit "description",
            VStr (lit "Remove all tools[*].custom.input_examples before upstream relay."));
           (lit "mode", VStr (lit "delete")); (lit "path", VStr (lit "tools.*.custom.input_examples"))]].

(** The presets: kind and payload. *)
Definition TEMPLATE_PRESET_CONFIG : list (jstr * (VisualMode * jsval)) :=
  [(lit "operations_default", (Operations, OPERATION_TEMPLATE));
   (lit "legacy_default", (Legacy, LEGACY_TEMPLATE));
   (lit "pass_headers_auth", (Operations, HEADER_PASSTHROUGH_TEMPLATE));
   (lit "gemini_image_4k", (Operations, GEMINI_IMAGE_4K_TEMPLATE));
   (lit "claude_cli_headers_passthrough",
    (Operations, buildPassHeadersTemplate CLAUDE_CLI_HEADER_PASSTHROUGH_HEADERS));
   (lit "codex_cli_headers_passthrough",
    (Operations, buildPassHeadersTemplate CODEX_CLI_HEADER_PASSTHROUGH_HEADERS));
   (lit "aws_bedrock_anthropic_beta_override", (Operations, AWS_BEDROCK_ANTHROPIC_COMPAT_TEMPLATE))].

(** ** State *)

Record Editor := MkEditor {
  ed_edit : EditMode;
  ed_visual : VisualMode;
  ed_legacy : jstr;
  ed_ops : list Operation;
  ed_json : jstr;
  ed_error : bool;
  ed_selected : jstr;
  ed_dragged : jstr;
  ed_over : jstr;
  ed_position : Position;
  ed_preset : jstr;
  ed_seed : N
}.

(** [operations[0]?.id || '']. *)
Definition first_id (ops : list Operation) : jstr :=
  match ops with [] => [] | o :: _ => op_id o end.

Definition set_ops (ops : list Operation) (seed : N) (s : Editor) : Editor :=
  MkEditor (ed_edit s) (ed_visual s) (ed_legacy s) ops (ed_json s) (ed_error s) (ed_selected s)
    (ed_dragged s) (ed_over s) (ed_position s) (ed_preset s) seed.

Definition set_selected (i : jstr) (s : Editor) : Editor :=
  MkEditor (ed_edit s) (ed_visual s) (ed_legacy s) (ed_ops s) (ed_json s) (ed_error s) i
    (ed_dragged s) (ed_over s) (ed_position s) (ed_preset s) (ed_seed s).

Definition set_json (text : jstr) (err : bool) (s : Editor) : Editor :=
  MkEditor (ed_edit s) (ed_visual s) (ed_legacy s) (ed_ops s) text err (ed_selected s)
    (ed_dragged s) (ed_over s) (ed_position s) (ed_preset s) (ed_seed s).

Definition set_modes (e : EditMode) (v : VisualMode) (legacy : jstr) (s : Editor) : Editor :=
  MkEditor e v legacy (ed_ops s) (ed_json s) (ed_error s) (ed_selected s)
    (ed_dragged s) (ed_over s) (ed_position s) (ed_preset s) (ed_seed s).

Definition set_drag (dragged over : jstr) (p : Position) (s : Editor) : Editor :=
  MkEditor (ed_edit s) (ed_visual s) (ed_legacy s) (ed_ops s) (ed_json s) (ed_error s) (ed_selected s)
    dragged over p (ed_preset s) (ed_seed s).

Definition set_preset (k : jstr) (s : Editor) : Editor :=
  MkEditor (ed_edit s) (ed_visual s) (ed_legacy s) (ed_ops s) (ed_json s) (ed_error s) (ed_selected s)
    (ed_dragged s) (ed_over s) (ed_position s) k (ed_seed s).

(** Runs a generator of rules at the state's seed. *)
Definition with_gen {A} (m : gen A) (s : Editor) (k : A -> N -> Editor) : outcome Editor :=
  '(a, n) ← m (ed_seed s); Ret (k a n).

(** Partial objects: the fields that are present. *)
Record OperationPatch := MkOperationPatch {
  p_description : option jstr;
  p_path : option jstr;
  p_mode : option jstr;
  p_from : option jstr;
  p_to : option jstr;
  p_value_text : option jstr;
  p_keep_origin : option bool;
  p_logic : option jstr
}.

Definition patch_operation (p : OperationPatch) (o : Operation) : Operation :=
  MkOperation (op_id o) (default (op_description o) (p_description p)) (default (op_path o) (p_path p))
    (default (op_mode o) (p_mode p)) (default (op_from o) (p_from p)) (default (op_to o) (p_to p))
    (default (op_value_text o) (p_value_text p)) (default (op_keep_origin o) (p_keep_origin p))
    (default (op_logic o) (p_logic p)) (op_conditions o).

Record ConditionPatch := MkConditionPatch {
  q_path : option jstr;
  q_mode : option jstr;
  q_value_text : option jstr;
  q_invert : option bool;
  q_pass_missing_key : option bool
}.

Definition patch_condition (p : ConditionPatch) (c : Condition) : Condition :=
  MkCondition (cond_id c) (default (cond_path c) (q_path p)) (default (cond_mode c) (q_mode p))
    (default (cond_value_text c) (q_value_text p)) (default (cond_invert c) (q_invert p))
    (default (cond_pass_missing_key c) (q_pass_missing_key p)).

Definition set_conditions (cs : list Condition) (o : Operation) : Operation :=
  MkOperation (op_id o) (op_description o) (op_path o) (op_mode o) (op_from o) (op_to o)
    (op_value_text o) (op_keep_origin o) (op_logic o) cs.

Definition set_value_text (t : jstr) (o : Operation) : Operation :=
  MkOperation (op_id o) (op_description o) (op_path o) (op_mode o) (op_from o) (op_to o) t
    (op_keep_origin o) (op_logic o) (op_conditions o).

(** [prev.map((o) => (o.id === id ? f(o) : o))]. *)
Definition update_at (i : jstr) (f : Operation -> Operation) (ops : list Operation) : list Operation :=
  List.map (fun o => if op_id o =?= i then f o else o) ops.

(** ** Handlers *)

Section Handlers.
Context (now : N -> N).

(** The effect that runs when the dialog opens. *)
Definition open_dialog (value : jstr) (s : Editor) : outcome Editor :=
  with_gen (parseInitialState now value) s (fun st n =>
    MkEditor (editMode st) (visualMode st) (legacyValue st) (operations st) (jsonText st) (jsonError st)
      (first_id (operations st)) [] [] Before
      (match visualMode st with Legacy => lit "legacy_default" | Operations => lit "operations_default" end)
      n).

(** The effect that keeps the selection valid. *)
Definition fix_selection (s : Editor) : Editor :=
  match ed_ops s with
  | [] => set_selected [] s
  | o :: _ =>
      if List.existsb (fun x => op_id x =?= ed_selected s) (ed_ops s) then s
      else set_selected (op_id o) s
  end.

Definition updateOperation (i : jstr) (patch : OperationPatch) (s : Editor) : Editor :=
  set_ops (update_at i (patch_operation patch) (ed_ops s)) (ed_seed s) s.

Definition addOperation (s : Editor) : outcome Editor :=
  with_gen (createDefaultOperation now) s (fun created n =>
    set_selected (op_id created) (set_ops (ed_ops s ++ [created]) n s)).

(** The object a rule is cloned through. *)
Definition clone_source (o : Operation) : jsval :=
  VObj [(lit "description", VStr (op_description o)); (lit "path", VStr (op_path o));
        (lit "mode", VStr (op_mode o)); (lit "value", parseLooseValue (op_value_text o));
        (lit "keep_origin", VBool (op_keep_origin o)); (lit "from", VStr (op_from o));
        (lit "to", VStr (op_to o)); (lit "logic", VStr (op_logic o));
        (lit "conditions",
         VArr (List.map (fun c =>
           VObj [(lit "path", VStr (cond_path c)); (lit "mode", VStr (cond_mode c));
                 (lit "value", parseLooseValue (cond_value_text c));
                 (lit "invert", VBool (cond_invert c));
                 (lit "pass_missing_key", VBool (cond_pass_missing_key c))]) (op_conditions o)))].

(** The identifier of the clone is known to the handler only when React
    computes the new state at once ([eager]). *)
Definition duplicateOperation (i : jstr) (eager : bool) (s : Editor) : outcome Editor :=
  match find_index (fun o => op_id o =?= i) (ed_ops s) with
  | None => Ret s
  | Some idx =>
      match ed_ops s !! idx with
      | None => Ret s
      | Some source =>
          with_gen (normalizeOperation now (clone_source source)) s (fun cloned n =>
            let s' := set_ops (take (S idx) (ed_ops s) ++ cloned :: drop (S idx) (ed_ops s)) n s in
            if eager then set_selected (op_id cloned) s' else s')
      end
  end.

Definition removeOperation (i : jstr) (s : Editor) : outcome Editor :=
  if (length (ed_ops s) <=? 1)%nat then
    with_gen (createDefaultOperation now) s (fun created n => set_ops [created] n s)
  else Ret (set_ops (List.filter (fun o => op_id o <?> i) (ed_ops s)) (ed_seed s) s).

Definition addCondition (i : jstr) (s : Editor) : outcome Editor :=
  with_gen (createDefaultCondition now) s (fun created n =>
    set_ops (update_at i (fun o => set_conditions (op_conditions o ++ [created]) o) (ed_ops s)) n s).

Definition updateCondition (i c : jstr) (patch : ConditionPatch) (s : Editor) : Editor :=
  set_ops (update_at i (fun o =>
    set_conditions (List.map (fun x => if cond_id x =?= c then patch_condition patch x else x)
                      (op_conditions o)) o) (ed_ops s)) (ed_seed s) s.

Definition removeCondition (i c : jstr) (s : Editor) : Editor :=
  set_ops (update_at i (fun o =>
    set_conditions (List.filter (fun x => cond_id x <?> c) (op_conditions o)) o) (ed_ops s)) (ed_seed s) s.

(** The patch of a draft is a function on it. *)
Definition updateReturnErrorDraft (i : jstr) (patch : ReturnErrorDraft -> ReturnErrorDraft) (s : Editor)
  : Editor :=
  set_ops (update_at i (fun o =>
    set_value_text (buildReturnErrorValueText (patch (parseReturnErrorDraft (op_value_text o)))) o)
    (ed_ops s)) (ed_seed s) s.

Definition updatePruneObjectsDraft (i : jstr) (updater : PruneObjectsDraft -> gen PruneObjectsDraft)
  (s : Editor) : outcome Editor :=
  with_gen (gen_map (fun o =>
      if op_id o =?= i then
        gen_bind (parsePruneObjectsDraft now (op_value_text o)) (fun draft =>
        gen_bind (updater draft) (fun next =>
        gen_ret (set_value_text (buildPruneObjectsValueText next) o)))
      else gen_ret o) (ed_ops s)) s (fun ops n => set_ops ops n s).

Definition set_rules (simple : bool) (rules : list Condition) (d : PruneObjectsDraft) : PruneObjectsDraft :=
  MkPrune simple (pr_typeText d) (pr_logic d) (pr_recursive d) rules.

Definition addPruneRule (i : jstr) (s : Editor) : outcome Editor :=
  updatePruneObjectsDraft i (fun d =>
    gen_bind (normalizePruneRule now (VObj [])) (fun r =>
    gen_ret (set_rules false (pr_rules d ++ [r]) d))) s.

Definition updatePruneRule (i r : jstr) (patch : ConditionPatch) (s : Editor) : outcome Editor :=
  updatePruneObjectsDraft i (fun d =>
    gen_ret (set_rules (pr_simpleMode d)
      (List.map (fun x => if cond_id x =?= r then patch_condition patch x else x) (pr_rules d)) d)) s.

Definition removePruneRule (i r : jstr) (s : Editor) : outcome Editor :=
  updatePruneObjectsDraft i (fun d =>
    gen_ret (set_rules (pr_simpleMode d) (List.filter (fun x => cond_id x <?> r) (pr_rules d)) d)) s.

Definition resetDragState (s : Editor) : Editor := set_drag [] [] Before s.

Definition handleDragStart (i : jstr) (s : Editor) : Editor :=
  set_selected i (set_drag i (ed_over s) (ed_position s) s).

(** [position] is where the pointer is over the rule. *)
Definition handleDragOver (i : jstr) (position : Position) (s : Editor) : Editor :=
  if negb (truthy_str (ed_dragged s)) || (ed_dragged s =?= i) then s
  else set_drag (ed_dragged s) i position s.

(** [data] is the text carried by the drag event. *)
Definition handleDrop (i data : jstr) (s : Editor) : Editor :=
  let sourceId := if truthy_str (ed_dragged s) then ed_dragged s else data in
  let position := if ed_over s =?= i then ed_position s else Before in
  resetDragState
    (if truthy_str sourceId && truthy_str i && (sourceId <?> i)
     then set_selected sourceId (set_ops (reorderOperations (ed_ops s) sourceId i position) (ed_seed s) s)
     else s).

(** The errors of [buildVisualJson]. *)
Inductive VisualError := RuleError (p : Problem * N) | LegacyInvalid | LegacyNotObject.

Definition buildVisualJson (s : Editor) : VisualError + jstr :=
  match ed_visual s with
  | Legacy =>
      match trim (ed_legacy s) with
      | [] => inr []
      | trimmed =>
          match json_parse trimmed with
          | None => inl LegacyInvalid
          | Some (VObj o) => inr (default [] (stringify_pretty (VObj o)))
          | Some _ => inl LegacyNotObject
          end
      end
  | Operations =>
      match buildOperationsJson (ed_ops s) true with
      | inl p => inl (RuleError p)
      | inr j => inr j
      end
  end.

Definition switchToJsonMode (s : Editor) : Editor :=
  match ed_edit s with
  | Json => s
  | Visual =>
      let s' :=
        match buildVisualJson s with
        | inr j => set_json j false s
        | inl _ =>
            set_json (match ed_visual s with
                      | Legacy => ed_legacy s
                      | Operations =>
                          match buildOperationsJson (ed_ops s) false with inr j => j | inl _ => [] end
                      end) true s
        end in
      set_modes Json (ed_visual s) (ed_legacy s) s'
  end.

Definition switchToVisualMode (s : Editor) : outcome Editor :=
  match ed_edit s with
  | Visual => Ret s
  | Json =>
      let show_rules ops n :=
        set_selected (first_id ops)
          (set_json (ed_json s) false (set_modes Visual Operations [] (set_ops ops n s))) in
      match trim (ed_json s) with
      | [] => with_gen (createDefaultOperation now) s (fun fallback n => show_rules [fallback] n)
      | trimmed =>
          match json_parse trimmed with
          | None => Ret s
          | Some (VObj o) =>
              match get_prop (lit "operations") (VObj o) with
              | VArr [] =>
                  with_gen (createDefaultOperation now) s (fun fallback n =>
                    set_preset (lit "operations_default") (show_rules [fallback] n))
              | VArr l =>
                  with_gen (gen_map (normalizeOperation now) l) s (fun ops n =>
                    set_preset (lit "operations_default") (show_rules ops n))
              | _ =>
                  with_gen (createDefaultOperation now) s (fun fallback n =>
                    set_preset (lit "legacy_default")
                      (set_selected (op_id fallback)
                         (set_json (ed_json s) false
                            (set_modes Visual Legacy (default [] (stringify_pretty (VObj o)))
                               (set_ops [fallback] n s)))))
              end
          | Some _ => Ret s
          end
      end
  end.

Inductive FillMode := Fill | Append.

Definition fill_legacy (text : jstr) (s : Editor) : outcome Editor :=
  with_gen (createDefaultOperation now) s (fun op n =>
    set_json text false (set_modes Visual Legacy text (set_ops [op] n s))).

Definition fillTemplate (mode : FillMode) (s : Editor) : outcome Editor :=
  let '(kind, payload) :=
    default (Operations, OPERATION_TEMPLATE) (obj_get (ed_preset s) TEMPLATE_PRESET_CONFIG) in
  match kind with
  | Legacy =>
      match mode, ed_visual s with
      | Append, Legacy =>
          let merged cur :=
            fill_legacy (default [] (stringify_pretty (VObj (obj_merge (spread payload) (spread cur))))) s in
          match trim (ed_legacy s) with
          | [] => merged (VObj [])
          | trimmed => match json_parse trimmed with None => Ret s | Some cur => merged cur end
          end
      | _, _ => fill_legacy (default [] (stringify_pretty payload)) s
      end
  | Operations =>
      let rules := match get_prop (lit "operations") payload with VArr l => l | _ => [] end in
      match mode with
      | Append =>
          with_gen (gen_map (normalizeOperation now) rules) s (fun appended n =>
            let existing := match ed_visual s with
                            | Operations => List.filter (fun o => negb (isOperationBlank o)) (ed_ops s)
                            | Legacy => []
                            end in
            let nextOps := existing ++ appended in
            set_selected (first_id nextOps)
              (set_json [] false (set_modes Visual Operations [] (set_ops nextOps n s))))
      | Fill =>
          with_gen (gen_bind (gen_map (normalizeOperation now) rules) (fun nextOps =>
              match nextOps with
              | [] => gen_bind (createDefaultOperation now) (fun op => gen_ret [op])
              | _ => gen_ret nextOps
              end)) s (fun finalOps n =>
            set_selected (first_id finalOps)
              (set_json (default [] (stringify_pretty (with_rules rules))) false
                 (set_modes Visual Operations (ed_legacy s) (set_ops finalOps n s))))
      end
  end.

Definition resetEditorState (s : Editor) : outcome Editor :=
  with_gen (createDefaultOperation now) s (fun fallback n =>
    set_preset (lit "operations_default")
      (set_selected (op_id fallback)
         (set_json [] false (set_modes Visual Operations [] (set_ops [fallback] n s))))).

Definition handleJsonChange (nextValue : jstr) (s : Editor) : Editor :=
  match trim nextValue with
  | [] => set_json nextValue false s
  | trimmed => set_json nextValue (negb (verifyJSON trimmed)) s
  end.

Definition formatJson (s : Editor) : Editor :=
  match trim (ed_json s) with
  | [] => s
  | trimmed =>
      match json_parse trimmed with
      | None => s
      | Some v => set_json (default [] (stringify_pretty v)) false s
      end
  end.

(** The text passed to [onSave]; [None] when an error is shown instead. *)
Definition handleSave (s : Editor) : option jstr :=
  match ed_edit s with
  | Json =>
      match trim (ed_json s) with
      | [] => Some []
      | trimmed => (fun v => default [] (stringify_pretty v)) <$> json_parse trimmed
      end
  | Visual => match buildVisualJson s with inr j => Some j | inl _ => None end
  end.
End Handlers.

(** ** The editor as a transition system *)

Inductive Event :=
| Open (value : jstr)
| FixSelection
| Select (i : jstr)
| ChoosePreset (k : jstr)
| EditLegacy (t : jstr)
| UpdateOperation (i : jstr) (p : OperationPatch)
| AddOperation
| DuplicateOperation (i : jstr) (eager : bool)
| RemoveOperation (i : jstr)
| AddCondition (i : jstr)
| UpdateCondition (i c : jstr) (p : ConditionPatch)
| RemoveCondition (i c : jstr)
| UpdateReturnError (i : jstr) (p : ReturnErrorDraft -> ReturnErrorDraft)
| UpdatePrune (i : jstr) (p : PruneObjectsDraft -> PruneObjectsDraft)
| AddPruneRule (i : jstr)
| UpdatePruneRule (i r : jstr) (p : ConditionPatch)
| RemovePruneRule (i r : jstr)
| DragStart (i : jstr)
| DragOver (i : jstr) (p : Position)
| Drop (i data : jstr)
| DragEnd
| SwitchToJson
| SwitchToVisual
| FillTemplate (m : FillMode)
| ResetEditor
| JsonChange (t : jstr)
| FormatJson.

Definition handle (now : N -> N) (e : Event) (s : Editor) : outcome Editor :=
  match e with
  | Open v => open_dialog now v s
  | FixSelection => Ret (fix_selection s)
  | Select i => Ret (set_selected i s)
  | ChoosePreset k => Ret (set_preset (if truthy_str k then k else lit "operations_default") s)
  | EditLegacy t => Ret (set_modes (ed_edit s) (ed_visual s) t s)
  | UpdateOperation i p => Ret (updateOperation i p s)
  | AddOperation => addOperation now s
  | DuplicateOperation i eager => duplicateOperation now i eager s
  | RemoveOperation i => removeOperation now i s
  | AddCondition i => addCondition now i s
  | UpdateCondition i c p => Ret (updateCondition i c p s)
  | RemoveCondition i c => Ret (removeCondition i c s)
  | UpdateReturnError i p => Ret (updateReturnErrorDraft i p s)
  | UpdatePrune i p => updatePruneObjectsDraft now i (fun d => gen_ret (p d)) s
  | AddPruneRule i => addPruneRule now i s
  | UpdatePruneRule i r p => updatePruneRule now i r p s
  | RemovePruneRule i r => removePruneRule now i r s
  | DragStart i => Ret (handleDragStart i s)
  | DragOver i p => Ret (handleDragOver i p s)
  | Drop i data => Ret (handleDrop i data s)
  | DragEnd => Ret (resetDragState s)
  | SwitchToJson => Ret (switchToJsonMode s)
  | SwitchToVisual => switchToVisualMode now s
  | FillTemplate m => fillTemplate now m s
  | ResetEditor => resetEditorState now s
  | JsonChange t => Ret (handleJsonChange t s)
  | FormatJson => Ret (formatJson s)
  end.

(** The mode fields offer only the listed modes. *)
Definition offered (e : Event) : Prop :=
  match e with
  | UpdateOperation _ p => forall m, p_mode p = Some m -> m ∈ OPERATION_MODE_VALUES
  | _ => True
  end.

(** The component starts with one default rule. *)
Definition initial (now : N -> N) (seed : N) : outcome Editor :=
  '(op, n) ← createDefaultOperation now seed;
  Ret (MkEditor Visual Operations [] [op] [] false [] [] [] Before (lit "operations_default") n).

Inductive reachable (now : N -> N) : Editor -> Prop :=
| Reach_init seed s : initial now seed = Ret s -> reachable now s
| Reach_step s e s' : reachable now s -> offered e -> handle now e s = Ret s' -> reachable now s'.

(** * Facts *)

Section Ids.
Context (now : N -> N).

(** ** Identifiers *)

Lemma local_id_inj a b : local_id now a = local_id now b -> a = b.
Proof.
  intros H. assert (Hs : forall n, split_on 95 (local_id now n) = [lit "po"; dec_of_N (now n); dec_of_N n]).
  { intros n. assert (Hd : forall k, 95 ∉ dec_of_N k).
    { intros k Hin. pose proof (dec_of_N_digits k) as H'. rewrite Forall_forall in H'. by apply H' in Hin. }
    unfold local_id. change (lit "po_" ++ ?x) with (lit "po" ++ 95 :: x).
    rewrite split_on_app by (apply (bool_decide_eq_true_1 _); by vm_compute).
    change (lit "_" ++ ?x) with (95 :: x). rewrite split_on_app by apply Hd. by rewrite split_on_word. }
  apply (f_equal (split_on 95)) in H. rewrite !Hs in H. injection H as _ H.
  apply (f_equal dec_value) in H. by rewrite !dec_value_of_N in H.
Qed.

(** Identifiers made with numbers from [a] to [b], all different. *)
Definition made (a b : N) (l : list jstr) : Prop :=
  NoDup l /\ Forall (fun i => exists k, i = local_id now k /\ a <= k < b) l.

Lemma made_nil a b : made a b [].
Proof. split; constructor. Qed.

Lemma made_weaken a b a' b' l : made a b l -> a' <= a -> b <= b' -> made a' b' l.
Proof.
  intros [Hn Hf] Ha Hb. split; [done|]. eapply Forall_impl; [exact Hf|].
  intros i (k & -> & Hk). exists k. split; [done|lia].
Qed.

Lemma made_app a b c l k : made a b l -> made b c k -> a <= b -> b <= c -> made a c (l ++ k).
Proof.
  intros [Hl Fl] [Hk Fk] Hab Hbc. split.
  - apply NoDup_app. split_and!; [done| |done]. rewrite Forall_forall in Fl, Fk.
    intros i Hi Hj. apply Fl in Hi as (m & -> & Hm). apply Fk in Hj as (n & E & Hn).
    apply local_id_inj in E. lia.
  - apply Forall_app. split; (eapply Forall_impl; [eassumption|]); intros i (m & -> & Hm); exists m; split; (done || lia).
Qed.

Lemma made_sub a b l k : l ⊆+ k -> made a b k -> made a b l.
Proof.
  intros Hs [Hn Hf]. split.
  - apply submseteq_Permutation in Hs as [r Hr]. rewrite Hr in Hn. by apply NoDup_app in Hn as (? & _).
  - rewrite Forall_forall in *. intros i Hi. apply Hf. by eapply elem_of_submseteq.
Qed.

(** The identifiers of a rule and of its conditions. *)
Definition ids (o : Operation) : list jstr := op_id o :: List.map cond_id (op_conditions o).
Definition all_ids (ops : list Operation) : list jstr := List.flat_map ids ops.

Definition mode_ok (o : Operation) : Prop := op_mode o ∈ OPERATION_MODE_VALUES.

Lemma mode_field_ok v : mode_field OPERATION_MODE_VALUES (lit "set") v ∈ OPERATION_MODE_VALUES.
Proof. destruct v; try by left. cbn. case_test; [by apply includes_true|by left]. Qed.

Lemma condition_made v n c n' :
  normalizeCondition now v n = Ret (c, n') -> made n n' [cond_id c] /\ n < n'.
Proof.
  unfold normalizeCondition, gen_bind, nextLocalId, gen_ret, gen_throw. cbn [mbind outcome_bind].
  intros H. assert (Hc : cond_id c = local_id now n /\ n' = n + 1) by (destruct v; try done; injection H as <- <-; done).
  destruct Hc as [-> ->]. split; [|lia]. split; [apply NoDup_singleton|].
  apply Forall_singleton. exists n. split; [done|lia].
Qed.

Lemma conditions_made l n cs n' :
  gen_map (normalizeCondition now) l n = Ret (cs, n') -> made n n' (List.map cond_id cs) /\ n <= n'.
Proof.
  revert n cs n'. induction l as [|v l IH]; intros n cs n'; cbn [gen_map].
  - intros [= <- <-]. split; [apply made_nil|lia].
  - unfold gen_bind, gen_ret. destruct (normalizeCondition now v n) as [[c n1]|] eqn:Ec; [|done].
    cbn [mbind outcome_bind]. destruct (gen_map (normalizeCondition now) l n1) as [[cs1 n2]|] eqn:Em; [|done].
    cbn [mbind outcome_bind]. intros [= <- <-]. apply condition_made in Ec as [H1 H2].
    apply IH in Em as [H3 H4]. split; [|lia]. cbn [List.map].
    apply (made_app n n1 n2 [cond_id c]); done || lia.
Qed.

Lemma operation_made v n o n' :
  normalizeOperation now v n = Ret (o, n') -> made n n' (ids o) /\ n < n' /\ mode_ok o.
Proof.
  unfold normalizeOperation, gen_bind at 1, nextLocalId. cbn [mbind outcome_bind]. intros H.
  assert (Hin : exists cs, made (n + 1) n' (List.map cond_id cs) /\ n + 1 <= n' /\
    op_conditions o = cs /\ op_id o = local_id now n /\ mode_ok o).
  { destruct v; try done; unfold gen_bind in H;
      (match type of H with context [mbind _ (?m (n + 1))] => destruct (m (n + 1)) as [[cs n1]|] eqn:Ec end;
         [|done]); cbn [mbind outcome_bind] in H; injection H as <- <-; exists cs;
      (assert (Hm : made (n + 1) n1 (List.map cond_id cs) /\ n + 1 <= n1);
        [clear -Ec; repeat case_match; try (injection Ec as <- <-; split; [apply made_nil|lia]);
         by apply conditions_made in Ec|]);
      destruct Hm; split_and!; try done; first [apply mode_field_ok|by left]. }
  destruct Hin as (cs & Hm & Hle & <- & Hid & Hmode). split_and!; [|lia|done].
  unfold ids. rewrite Hid. apply (made_app n (n + 1) n' [local_id now n]); [|done|lia|lia].
  split; [apply NoDup_singleton|]. apply Forall_singleton. exists n. split; [done|lia].
Qed.

Lemma operations_made l n ops n' :
  gen_map (normalizeOperation now) l n = Ret (ops, n') ->
  made n n' (all_ids ops) /\ n <= n' /\ Forall mode_ok ops /\ length ops = length l.
Proof.
  revert n ops n'. induction l as [|v l IH]; intros n ops n'; cbn [gen_map].
  - intros [= <- <-]. split_and!; [apply made_nil|lia|constructor|done].
  - unfold gen_bind, gen_ret. destruct (normalizeOperation now v n) as [[o n1]|] eqn:Eo; [|done].
    cbn [mbind outcome_bind]. destruct (gen_map (normalizeOperation now) l n1) as [[os n2]|] eqn:Em; [|done].
    cbn [mbind outcome_bind]. intros [= <- <-]. apply operation_made in Eo as (H1 & H2 & H3).
    apply IH in Em as (H4 & H5 & H6 & H7). split_and!; [|lia|by constructor|cbn; by rewrite H7].
    cbn [all_ids List.flat_map]. apply (made_app n n1 n2); done || lia.
Qed.

Lemma default_made n o n' :
  createDefaultOperation now n = Ret (o, n') -> made n n' (ids o) /\ n < n' /\ mode_ok o.
Proof. apply operation_made. Qed.
End Ids.

(** ** The rules of every reachable state *)

Section Invariant.
Context (now : N -> N).

(** There is a rule, identifiers are distinct and were made by the editor, and
    modes are the listed ones. *)
Definition rules_ok (ops : list Operation) (seed : N) : Prop :=
  ops <> [] /\ made now 0 seed (all_ids ops) /\ Forall mode_ok ops.

Definition inv (s : Editor) : Prop := rules_ok (ed_ops s) (ed_seed s).

Lemma all_ids_app a b : all_ids (a ++ b) = all_ids a ++ all_ids b.
Proof. apply List.flat_map_app. Qed.

Lemma all_ids_perm a b : a ≡ₚ b -> all_ids a ≡ₚ all_ids b.
Proof. intros H. unfold all_ids. by apply Permutation_flat_map. Qed.

Lemma all_ids_sub (a b : list Operation) : a `sublist_of` b -> all_ids a ⊆+ all_ids b.
Proof.
  induction 1 as [|o a b H IH|o a b H IH]; [done|..]; cbn [all_ids List.flat_map].
  - by apply submseteq_app.
  - by apply submseteq_inserts_l.
Qed.

Lemma op_ids_sub ops : List.map op_id ops ⊆+ all_ids ops.
Proof.
  induction ops as [|o ops IH]; [done|]. cbn [List.map all_ids List.flat_map ids app].
  apply submseteq_skip. by apply submseteq_inserts_l.
Qed.

Lemma rules_NoDup ops n : rules_ok ops n -> NoDup (List.map op_id ops).
Proof. intros (_ & Hm & _). eapply made_sub in Hm; [|apply op_ids_sub]. apply Hm. Qed.

(** New rules made at the seed. *)
Lemma rules_new seed ops n :
  ops <> [] -> made now seed n (all_ids ops) -> Forall mode_ok ops -> rules_ok ops n.
Proof. intros Hne Hm Hf. split_and!; [done| |done]. eapply made_weaken; [exact Hm|lia|lia]. Qed.

Lemma rules_default seed op n : createDefaultOperation now seed = Ret (op, n) -> rules_ok [op] n.
Proof.
  intros (Hm & _ & Ho)%default_made. apply (rules_new seed); [done| |by constructor].
  cbn [all_ids List.flat_map]. by rewrite app_nil_r.
Qed.

(** Old rules, some of them removed, with new rules among them. *)
Lemma rules_merge old seed new n l :
  made now 0 seed (all_ids old) -> Forall mode_ok old -> made now seed n (all_ids new) -> Forall mode_ok new ->
  seed <= n -> l <> [] -> l ≡ₚ old ++ new -> rules_ok l n.
Proof.
  intros H1 H2 H3 H4 Hle Hne Hp. split_and!; [done| |].
  - eapply made_sub; [|apply (made_app now 0 seed n); [exact H1|exact H3|lia|done]].
    rewrite <- all_ids_app. by rewrite (all_ids_perm _ _ Hp).
  - rewrite Hp. by apply Forall_app.
Qed.

(** A rule changed in place keeps its identifier. *)
Lemma rules_update i f ops seed extra n :
  rules_ok ops seed -> made now seed n extra -> seed <= n ->
  (forall o, op_id (f o) = op_id o /\ (mode_ok o -> mode_ok (f o)) /\ ids (f o) ⊆+ ids o ++ extra) ->
  rules_ok (update_at i f ops) n.
Proof.
  intros Hr Hx Hle Hf. pose proof (rules_NoDup _ _ Hr) as Hn. destruct Hr as (Hne & Hm & Hmode).
  split_and!.
  - unfold update_at. by destruct ops.
  - eapply made_sub; [|apply (made_app now 0 seed n); [exact Hm|exact Hx|lia|done]].
    clear -Hn Hf. assert (Hid : forall os, i ∉ List.map op_id os -> update_at i f os = os).
    { induction os as [|o os IH]; [done|]. cbn [List.map update_at]. intros [Ho Hos]%not_elem_of_cons.
      rewrite bool_decide_false by done. f_equal. by apply IH. }
    induction ops as [|o ops IH]; [by apply submseteq_nil_l|].
    cbn [List.map] in Hn. apply NoDup_cons in Hn as [Ho Hn].
    unfold update_at. cbn [List.map]. fold (update_at i f ops). case_bool_decide as E.
    + rewrite Hid by (by rewrite <- E). cbn [all_ids List.flat_map].
      destruct (Hf o) as (_ & _ & Hs). fold (all_ids ops).
      transitivity ((ids o ++ extra) ++ all_ids ops); [by apply submseteq_app|].
      rewrite <- !app_assoc. by rewrite (Permutation_app_comm extra).
    + cbn [all_ids List.flat_map]. fold (all_ids ops) (all_ids (update_at i f ops)).
      rewrite <- app_assoc. apply submseteq_app; [done|by apply IH].
  - unfold update_at. apply Forall_forall. intros x Hx'. rewrite list_elem_of_In in Hx'.
    apply in_map_iff in Hx' as (o & <- & Ho). rewrite Forall_forall in Hmode.
    apply list_elem_of_In, Hmode in Ho. case_test; [by apply Hf|done].
Qed.

Lemma rules_change i f ops seed :
  rules_ok ops seed ->
  (forall o, op_id (f o) = op_id o /\ (mode_ok o -> mode_ok (f o)) /\ ids (f o) ⊆+ ids o) ->
  rules_ok (update_at i f ops) seed.
Proof.
  intros Hr Hf. eapply rules_update; [exact Hr|apply made_nil|lia|].
  intros o. rewrite app_nil_r. apply Hf.
Qed.

Lemma rules_remove i ops seed :
  rules_ok ops seed -> (2 <= length ops)%nat -> rules_ok (List.filter (fun o => op_id o <?> i) ops) seed.
Proof.
  intros Hr Hl. pose proof (rules_NoDup _ _ Hr) as Hn. destruct Hr as (Hne & Hm & Hmode). split_and!.
  - destruct ops as [|a [|b ops]]; cbn in Hl; try lia. cbn [List.map] in Hn.
    apply NoDup_cons in Hn as [Ha _]. apply not_elem_of_cons in Ha as [Hab _]. cbn [List.filter].
    destruct (decide (op_id a = i)) as [Ea|Ea]; [|by rewrite (bool_decide_false (op_id a = i))].
    rewrite (bool_decide_false (op_id b = i)) by congruence. by destruct (negb _).
  - eapply made_sub; [|exact Hm]. apply all_ids_sub. clear.
    induction ops as [|o ops IH]; [constructor|]. cbn [List.filter]. case_test; by constructor.
  - by apply Forall_lfilter.
Qed.

(** Generators only move the seed forward. *)
Definition forward {A} (m : gen A) : Prop := forall n a n', m n = Ret (a, n') -> n <= n'.

Lemma forward_ret {A} (a : A) : forward (gen_ret a).
Proof. intros n b n' [= <- <-]. lia. Qed.

Lemma forward_bind {A B} (m : gen A) (f : A -> gen B) :
  forward m -> (forall a, forward (f a)) -> forward (gen_bind m f).
Proof.
  intros Hm Hf n b n'. unfold gen_bind. destruct (m n) as [[a n1]|] eqn:E; [|done]. cbn. intros H.
  apply Hm in E. apply Hf in H. lia.
Qed.

Lemma forward_prune t : forward (parsePruneObjectsDraft now t).
Proof.
  unfold parsePruneObjectsDraft. cbv zeta. destruct (trim t) as [|c r]; [apply forward_ret|].
  destruct (json_parse (c :: r)) as [[]|]; try apply forward_ret.
  apply forward_bind; [|intros; apply forward_ret]. intros n cs n' H. by apply conditions_made in H as [_ ?].
Qed.

Lemma prune_rules i updater ops n ops' n' :
  (forall d, forward (updater d)) ->
  gen_map (fun o =>
    if op_id o =?= i then
      gen_bind (parsePruneObjectsDraft now (op_value_text o)) (fun draft =>
      gen_bind (updater draft) (fun next => gen_ret (set_value_text (buildPruneObjectsValueText next) o)))
    else gen_ret o) ops n = Ret (ops', n') ->
  n <= n' /\ Forall2 (fun o o' => exists t, o' = set_value_text t o) ops ops'.
Proof.
  intros Hu. revert n ops' n'. induction ops as [|o ops IH]; intros n ops' n'; cbn [gen_map].
  - intros [= <- <-]. split; [lia|constructor].
  - unfold gen_bind at 1. match goal with |- context [mbind _ (?m n)] => destruct (m n) as [[o1 n1]|] eqn:Eo end; [|done].
    cbn [mbind outcome_bind]. unfold gen_bind at 1.
    match goal with |- context [mbind _ (gen_map ?g ops n1)] => destruct (gen_map g ops n1) as [[os n2]|] eqn:Em end; [|done].
    cbn [mbind outcome_bind]. intros [= <- <-]. apply IH in Em as [H1 H2].
    assert (Ho : n <= n1 /\ exists t, o1 = set_value_text t o).
    { destruct (op_id o =?= i).
      - split.
        + eapply (forward_bind (parsePruneObjectsDraft now (op_value_text o))); [apply forward_prune| |exact Eo].
          intros d. apply forward_bind; [apply Hu|intros; apply forward_ret].
        + unfold gen_bind in Eo. destruct (parsePruneObjectsDraft now (op_value_text o) n) as [[d n3]|]; [|done].
          cbn [mbind outcome_bind] in Eo. destruct (updater d n3) as [[d' n4]|]; [|done].
          cbn [mbind outcome_bind] in Eo. injection Eo as <- _. by eexists.
      - injection Eo as <- <-. split; [lia|]. exists (op_value_text o). by destruct o. }
    destruct Ho as [Hn Ho]. split; [lia|by constructor].
Qed.

Lemma rules_texts ops ops' n n' :
  rules_ok ops n -> n <= n' -> Forall2 (fun o o' => exists t, o' = set_value_text t o) ops ops' -> rules_ok ops' n'.
Proof.
  intros (Hne & Hm & Hmode) Hle Hf. split_and!.
  - intros ->. apply Hne. by inversion Hf.
  - assert (E : all_ids ops' = all_ids ops).
    { clear -Hf. induction Hf as [|o o' l l' [t ->] Hf IH]; [done|]. cbn [all_ids List.flat_map].
      fold (all_ids l') (all_ids l). by rewrite IH. }
    rewrite E. eapply made_weaken; [exact Hm|lia|lia].
  - clear -Hf Hmode. induction Hf as [|o o' l l' [t ->] Hf IH]; [constructor|].
    inversion_clear Hmode. constructor; [done|by apply IH].
Qed.

Lemma inv_prune i updater s s' :
  inv s -> (forall d, forward (updater d)) -> updatePruneObjectsDraft now i updater s = Ret s' -> inv s'.
Proof.
  intros Hi Hu. unfold updatePruneObjectsDraft, with_gen.
  match goal with |- context [mbind _ ?m] => destruct m as [[ops n]|] eqn:E end; [|done].
  cbn [mbind outcome_bind]. intros [= <-]. apply prune_rules in E as [Hle Hf]; [|done].
  by eapply rules_texts.
Qed.

Lemma forward_new_rule : forward (normalizePruneRule now (VObj [])).
Proof. intros n c n' H. apply condition_made in H as [_ H]. lia. Qed.

(** A default rule in place of the others. *)
Lemma inv_default s (k : Operation -> N -> Editor) s' :
  (forall op n, ed_ops (k op n) = [op] /\ ed_seed (k op n) = n) ->
  with_gen (createDefaultOperation now) s k = Ret s' -> inv s'.
Proof.
  intros Hk. unfold with_gen. destruct (createDefaultOperation now (ed_seed s)) as [[op n]|] eqn:E; [|done].
  cbn [mbind outcome_bind]. intros [= <-]. destruct (Hk op n) as [H1 H2]. unfold inv. rewrite H1, H2.
  by eapply rules_default.
Qed.

(** Rules read from JSON in place of the others. *)
Lemma inv_rules l s (k : list Operation -> N -> Editor) s' :
  l <> [] -> (forall ops n, ed_ops (k ops n) = ops /\ ed_seed (k ops n) = n) ->
  with_gen (gen_map (normalizeOperation now) l) s k = Ret s' -> inv s'.
Proof.
  intros Hl Hk. unfold with_gen. destruct (gen_map (normalizeOperation now) l (ed_seed s)) as [[ops n]|] eqn:E; [|done].
  cbn [mbind outcome_bind]. intros [= <-]. destruct (Hk ops n) as [H1 H2]. unfold inv. rewrite H1, H2.
  apply operations_made in E as (H3 & H4 & H5 & H6). apply (rules_new (ed_seed s)); [|done|done].
  intros ->. by destruct l.
Qed.

Lemma inv_open v s s' : open_dialog now v s = Ret s' -> inv s'.
Proof.
  unfold open_dialog, with_gen. destruct (parseInitialState now v (ed_seed s)) as [[st n]|] eqn:E; [|done].
  cbn [mbind outcome_bind]. intros [= <-]. unfold inv. cbn [ed_ops ed_seed].
  assert (Hd : forall mode vm lg tx er, gen_bind (createDefaultOperation now) (fun op =>
      gen_ret (MkEditorState mode vm lg [op] tx er)) (ed_seed s) = Ret (st, n) -> rules_ok (operations st) n).
  { intros mode vm lg tx er. unfold gen_bind. destruct (createDefaultOperation now (ed_seed s)) as [[op n1]|] eqn:Ed; [|done].
    cbn [mbind outcome_bind]. intros [= <- <-]. by eapply rules_default. }
  revert E. unfold parseInitialState. cbv zeta. destruct (trim v) as [|c r]; [apply Hd|].
  destruct (json_parse (c :: r)) as [[]|]; try apply Hd.
  destruct (get_prop _ _) as [| | | | |[|x l0]|] eqn:Eg; try apply Hd.
  unfold gen_bind at 1. destruct (gen_map (normalizeOperation now) (x :: l0) (ed_seed s)) as [[ops n1]|] eqn:Em; [|done].
  cbn [mbind outcome_bind]. intros [= <- <-]. apply operations_made in Em as (H3 & H4 & H5 & H6).
  apply (rules_new (ed_seed s)); [|done|done]. cbn [operations]. intros ->. done.
Qed.

Lemma submseteq_ids_conditions cs cs' o :
  List.map cond_id cs ⊆+ List.map cond_id (op_conditions o) ++ cs' ->
  ids (set_conditions cs o) ⊆+ ids o ++ cs'.
Proof. intros H. unfold ids. cbn [set_conditions op_id op_conditions app]. by apply submseteq_skip. Qed.

Lemma inv_update i p s : inv s -> (forall m, p_mode p = Some m -> m ∈ OPERATION_MODE_VALUES) ->
  inv (updateOperation i p s).
Proof.
  intros Hi Hp. apply rules_change; [done|]. intros o. split_and!; [done| |done].
  unfold mode_ok. cbn [patch_operation op_mode]. destruct (p_mode p) as [m|] eqn:E; [|done].
  intros _. by apply Hp.
Qed.

Lemma inv_add s s' : inv s -> addOperation now s = Ret s' -> inv s'.
Proof.
  intros (Hne & Hm & Hf). unfold addOperation, with_gen.
  destruct (createDefaultOperation now (ed_seed s)) as [[op n]|] eqn:E; [|done]. cbn [mbind outcome_bind].
  intros [= <-]. apply default_made in E as (H1 & H2 & H3). unfold inv. cbn [ed_ops ed_seed set_selected set_ops].
  apply (rules_merge (ed_ops s) (ed_seed s) [op]); try done; [|by constructor|lia|by destruct (ed_ops s)].
  cbn [all_ids List.flat_map]. by rewrite app_nil_r.
Qed.

Lemma inv_duplicate i eager s s' : inv s -> duplicateOperation now i eager s = Ret s' -> inv s'.
Proof.
  intros Hi. pose proof Hi as (Hne & Hm & Hf). unfold duplicateOperation.
  destruct (find_index _ (ed_ops s)) as [idx|]; [|by intros [= <-]].
  destruct (ed_ops s !! idx) as [src|]; [|by intros [= <-]]. unfold with_gen.
  destruct (normalizeOperation now (clone_source src) (ed_seed s)) as [[op n]|] eqn:E; [|done].
  cbn [mbind outcome_bind]. intros [= <-]. apply operation_made in E as (H1 & H2 & H3).
  assert (Hr : rules_ok (take (S idx) (ed_ops s) ++ op :: drop (S idx) (ed_ops s)) n).
  { apply (rules_merge (ed_ops s) (ed_seed s) [op]); try done; [|by constructor|lia|by destruct (take _ _)|].
    - cbn [all_ids List.flat_map]. by rewrite app_nil_r.
    - rewrite <- Permutation_middle, take_drop. by rewrite Permutation_app_comm. }
  by destruct eager.
Qed.

Lemma inv_remove i s s' : inv s -> removeOperation now i s = Ret s' -> inv s'.
Proof.
  intros Hi. unfold removeOperation. destruct (Nat.leb_spec (length (ed_ops s)) 1) as [Hl|Hl].
  - by apply inv_default.
  - intros [= <-]. unfold inv. cbn [ed_ops ed_seed set_ops]. apply rules_remove; [done|lia].
Qed.

Lemma inv_add_condition i s s' : inv s -> addCondition now i s = Ret s' -> inv s'.
Proof.
  intros Hi. unfold addCondition, with_gen, createDefaultCondition.
  destruct (normalizeCondition now (VObj []) (ed_seed s)) as [[c n]|] eqn:E; [|done]. cbn [mbind outcome_bind].
  intros [= <-]. apply condition_made in E as [H1 H2]. unfold inv. cbn [ed_ops ed_seed set_ops].
  eapply rules_update; [exact Hi|exact H1|lia|]. intros o. split_and!; [done|done|].
  apply submseteq_ids_conditions. by rewrite List.map_app.
Qed.

Lemma inv_update_condition i c p s : inv s -> inv (updateCondition i c p s).
Proof.
  intros Hi. apply rules_change; [done|]. intros o. split_and!; [done|done|].
  rewrite <- (app_nil_r (ids o)). apply submseteq_ids_conditions. rewrite app_nil_r.
  induction (op_conditions o) as [|x cs IH]; [done|]. cbn [List.map].
  assert (E : cond_id (if cond_id x =?= c then patch_condition p x else x) = cond_id x) by (by case_test).
  rewrite E. by apply submseteq_skip.
Qed.

Lemma inv_remove_condition i c s : inv s -> inv (removeCondition i c s).
Proof.
  intros Hi. apply rules_change; [done|]. intros o. split_and!; [done|done|].
  rewrite <- (app_nil_r (ids o)). apply submseteq_ids_conditions. rewrite app_nil_r.
  induction (op_conditions o) as [|x cs IH]; [done|]. cbn [List.filter List.map].
  case_test; cbn [List.map]; [by apply submseteq_skip|by apply submseteq_cons].
Qed.

Lemma inv_drop i data s : inv s -> inv (handleDrop i data s).
Proof.
  intros Hi. unfold handleDrop. cbv zeta. set (src := if truthy_str (ed_dragged s) then ed_dragged s else data).
  set (pos := if ed_over s =?= i then ed_position s else Before). case_test; [|done]. unfold inv.
  cbn [ed_ops ed_seed resetDragState set_drag set_selected set_ops].
  pose proof Hi as (Hne & Hm & Hf).
  assert (Hp : reorderOperations (ed_ops s) src i pos ≡ₚ ed_ops s).
  { destruct (reorder_cases (ed_ops s) src i pos) as [[-> _]|[_ (a & x & b & c & y & d & -> & E & _ & _ & ->)]]; [done|].
    rewrite <- Permutation_middle, E. destruct pos; cbn [app]; rewrite <- !Permutation_middle; [done|].
    apply Permutation_swap. }
  split_and!; [intros E; rewrite E in Hp; by apply Permutation_nil_l in Hp| |by rewrite Hp].
  eapply made_sub; [|exact Hm]. by rewrite (all_ids_perm _ _ Hp).
Qed.

Lemma inv_visual s s' : inv s -> switchToVisualMode now s = Ret s' -> inv s'.
Proof.
  intros Hi. unfold switchToVisualMode. destruct (ed_edit s); [by intros [= <-]|]. cbv zeta.
  destruct (trim (ed_json s)) as [|c r]; [by apply inv_default|].
  destruct (json_parse (c :: r)) as [[]|]; try (by intros [= <-]).
  destruct (get_prop _ _) as [| | | | |[|x l0]|] eqn:Eg; try (by apply inv_default).
  by apply inv_rules.
Qed.

Lemma preset_rules k kind payload :
  default (Operations, OPERATION_TEMPLATE) (obj_get k TEMPLATE_PRESET_CONFIG) = (kind, payload) ->
  kind = Operations -> exists x l, get_prop (lit "operations") payload = VArr (x :: l).
Proof.
  intros H Hk. destruct (obj_get k TEMPLATE_PRESET_CONFIG) as [kp|] eqn:E; cbn [from_option id] in H.
  - apply obj_get_value in E. subst kp.
    assert (Hall : Forall (fun kp : VisualMode * jsval => kp.1 = Operations ->
      exists x l, get_prop (lit "operations") kp.2 = VArr (x :: l)) (obj_values TEMPLATE_PRESET_CONFIG)).
    { repeat apply Forall_cons_2; try apply Forall_nil_2; cbn [fst snd]; intros ?; try done; by do 2 eexists. }
    rewrite Forall_forall in Hall. exact (Hall _ E Hk).
  - injection H as <- <-. by do 2 eexists.
Qed.

Lemma inv_template m s s' : inv s -> fillTemplate now m s = Ret s' -> inv s'.
Proof.
  intros Hi. pose proof Hi as (Hne & Hm & Hf). unfold fillTemplate.
  destruct (default _ _) as [kind payload] eqn:Ek. destruct kind.
  - destruct (preset_rules _ _ _ Ek eq_refl) as (x & l & ->). destruct m.
    + unfold with_gen. unfold gen_bind at 1.
      destruct (gen_map (normalizeOperation now) (x :: l) (ed_seed s)) as [[ops n]|] eqn:E; [|done].
      cbn [mbind outcome_bind]. apply operations_made in E as (H3 & H4 & H5 & H6).
      destruct ops as [|o os]; [done|]. unfold gen_ret. cbn [mbind outcome_bind]. intros [= <-].
      unfold inv. cbn [ed_ops ed_seed set_selected set_json set_modes set_ops]. by apply (rules_new (ed_seed s)).
    + unfold with_gen. destruct (gen_map (normalizeOperation now) (x :: l) (ed_seed s)) as [[ops n]|] eqn:E; [|done].
      cbn [mbind outcome_bind]. apply operations_made in E as (H3 & H4 & H5 & H6). intros [= <-].
      unfold inv. cbn [ed_ops ed_seed set_selected set_json set_modes set_ops]. cbv zeta.
      set (ex := match ed_visual s with Operations => _ | Legacy => _ end).
      assert (Hex : made now 0 (ed_seed s) (all_ids ex) /\ Forall mode_ok ex).
      { unfold ex. destruct (ed_visual s); [|split; [apply made_nil|constructor]].
        split; [|by apply Forall_lfilter]. eapply made_sub; [|exact Hm]. apply all_ids_sub. clear.
        induction (ed_ops s) as [|o os IH]; [constructor|]. cbn [List.filter]. case_test; by constructor. }
      apply (rules_merge ex (ed_seed s) ops); [apply Hex|apply Hex|done|done|done| |done].
      destruct ops; [done|]. by destruct ex.
  - assert (Hl : forall text, fill_legacy now text s = Ret s' -> inv s') by (intros text; by apply inv_default).
    destruct m; [apply Hl|]. destruct (ed_visual s); [apply Hl|].
    destruct (trim (ed_legacy s)) as [|c r]; [apply Hl|].
    destruct (json_parse (c :: r)); [apply Hl|by intros [= <-]].
Qed.

Lemma inv_handle e s s' : inv s -> offered e -> handle now e s = Ret s' -> inv s'.
Proof.
  intros Hi Ho. destruct e; cbn [handle]; try (by intros [= <-]).
  - apply inv_open.
  - intros [= <-]. unfold fix_selection. destruct (ed_ops s); [exact Hi|case_test; exact Hi].
  - intros [= <-]. by apply inv_update.
  - by apply inv_add.
  - by apply inv_duplicate.
  - by apply inv_remove.
  - by apply inv_add_condition.
  - intros [= <-]. by apply inv_update_condition.
  - intros [= <-]. by apply inv_remove_condition.
  - intros [= <-]. by apply rules_change.
  - apply inv_prune; [done|intros d; apply forward_ret].
  - apply inv_prune; [done|]. intros d. apply forward_bind; [apply forward_new_rule|intros; apply forward_ret].
  - apply inv_prune; [done|intros d; apply forward_ret].
  - apply inv_prune; [done|intros d; apply forward_ret].
  - intros [= <-]. unfold handleDragOver. by case_test.
  - intros [= <-]. by apply inv_drop.
  - intros [= <-]. unfold switchToJsonMode. destruct (ed_edit s); [|done]. by destruct (buildVisualJson s).
  - by apply inv_visual.
  - by apply inv_template.
  - by apply inv_default.
  - intros [= <-]. unfold handleJsonChange. by destruct (trim t).
  - intros [= <-]. unfold formatJson. destruct (trim (ed_json s)); [done|]. by destruct (json_parse _).
Qed.

(** C14: the rules of the editor.  In every reachable state the editor holds at
    least one rule, the identifiers of the rules and of their conditions are
    all different, so that an edit addresses one rule, and every rule has a
    listed mode. *)
Theorem editor_rules_ok s : reachable now s -> rules_ok (ed_ops s) (ed_seed s).
Proof.
  intros H. fold (inv s). induction H as [seed s H|s e s' _ IH Ho H].
  - unfold initial in H. destruct (createDefaultOperation now seed) as [[op n]|] eqn:E; [|done].
    cbn [mbind outcome_bind] in H. injection H as <-. unfold inv. cbn [ed_ops ed_seed]. by eapply rules_default.
  - by eapply inv_handle.
Qed.
End Invariant.

Definition run (now : N -> N) (es : list Event) (s : outcome Editor) : outcome Editor :=
  fold_left (fun o e => s ← o; handle now e s) es s.

Lemma run_reachable now es s0 s :
  reachable now s0 -> Forall offered es -> run now es (Ret s0) = Ret s -> reachable now s.
Proof.
  intros H0 Hes. revert s0 H0. induction Hes as [|e es He Hes IH]; intros s0 H0; cbn [run fold_left].
  - by intros [= <-].
  - cbn [mbind outcome_bind]. destruct (handle now e s0) as [s1|] eqn:E.
    + apply IH. by eapply Reach_step.
    + intros H. exfalso. clear -H. induction es as [|e' es IH]; [done|]. by apply IH.
Qed.

Definition sample_events : list Event :=
  [AddOperation; AddCondition (local_id id 0); DuplicateOperation (local_id id 0) true;
   FillTemplate Append; FixSelection].

Definition sample_editor : Editor :=
  match run id sample_events (initial id 0) with
  | Ret s => s
  | Throws => MkEditor Visual Operations [] [] [] false [] [] [] Before [] 0
  end.

Lemma editor_rules_ok_witness :
  length (ed_ops sample_editor) = 1%nat /\ rules_ok id (ed_ops sample_editor) (ed_seed sample_editor).
Proof.
  split; [by vm_compute|]. apply (editor_rules_ok id sample_editor).
  destruct (initial id 0) as [s0|] eqn:E0; [|exfalso; revert E0; vm_compute; discriminate].
  apply (run_reachable id sample_events s0); [by eapply Reach_init|by repeat constructor|].
  unfold sample_editor. rewrite E0. destruct (run id sample_events (Ret s0)) as [s|] eqn:E; [done|].
  exfalso. vm_compute in E0. injection E0 as <-. revert E. vm_compute. discriminate.
Defined.

(** ** Edits of prune rules *)

Section PruneEdits.
Context (now : N -> N).

Lemma gen_map_ext {A B} (f g : A -> gen B) (l : list A) n0 :
  (forall a n, a ∈ l -> n0 <= n -> f a n = g a n) -> (forall a, a ∈ l -> forward (f a)) ->
  forall n, n0 <= n -> gen_map f l n = gen_map g l n.
Proof.
  intros H Hf. induction l as [|a l IH]; intros n Hn; [done|]. cbn [gen_map]. unfold gen_bind.
  rewrite <- (H a n) by (by left || done). destruct (f a n) as [[b n1]|] eqn:E; [|done].
  cbn [mbind outcome_bind]. rewrite IH; [done| | |].
  - intros x m Hx. apply H. by right.
  - intros x Hx. apply Hf. by right.
  - apply Hf in E; [lia|by left].
Qed.

(** The rules of a draft are numbered from where it is parsed. *)
Lemma prune_rules_made t n d n' :
  parsePruneObjectsDraft now t n = Ret (d, n') -> made now n n' (List.map cond_id (pr_rules d)).
Proof.
  unfold parsePruneObjectsDraft. cbv zeta.
  assert (Hp : forall tx, gen_ret (MkPrune true tx (lit "AND") true []) n = Ret (d, n') ->
    made now n n' (List.map cond_id (pr_rules d))) by (intros tx [= <- <-]; apply made_nil).
  destruct (trim t) as [|c r]; [apply Hp|]. destruct (json_parse (c :: r)) as [[]|]; try apply Hp.
  unfold gen_bind. destruct (gen_map (normalizePruneRule now) _ n) as [[cs n1]|] eqn:E; [|done].
  cbn [mbind outcome_bind]. intros [= <- <-]. by apply conditions_made in E as [? _].
Qed.

Lemma prune_update_ext i f g s :
  (forall t n d n', ed_seed s <= n -> parsePruneObjectsDraft now t n = Ret (d, n') -> f d = g d) ->
  updatePruneObjectsDraft now i (fun d => gen_ret (f d)) s = updatePruneObjectsDraft now i (fun d => gen_ret (g d)) s.
Proof.
  intros H. unfold updatePruneObjectsDraft, with_gen. f_equal.
  apply (gen_map_ext _ _ _ (ed_seed s)); [| |lia].
  - intros o n _ Hn. case_test; [|done]. unfold gen_bind.
    destruct (parsePruneObjectsDraft now (op_value_text o) n) as [[d n']|] eqn:E; [|done].
    cbn [mbind outcome_bind]. by rewrite (H _ _ _ _ Hn E).
  - intros o _. case_test; [|apply forward_ret]. apply forward_bind; [apply forward_prune|].
    intros d. apply forward_bind; [apply forward_ret|intros; apply forward_ret].
Qed.

(** The editor shows the rules of a draft parsed earlier and each edit parses
    the text again, which numbers the rules anew: changing or removing a shown
    rule changes no rule. *)
Theorem prune_rule_edits_lost i k p s :
  k < ed_seed s ->
  updatePruneRule now i (local_id now k) p s = updatePruneObjectsDraft now i gen_ret s /\
  removePruneRule now i (local_id now k) s = updatePruneObjectsDraft now i gen_ret s.
Proof.
  intros Hk.
  assert (Hne : forall t n d n', ed_seed s <= n -> parsePruneObjectsDraft now t n = Ret (d, n') ->
    Forall (fun x => cond_id x <> local_id now k) (pr_rules d)).
  { intros t n d n' Hn E. apply prune_rules_made in E as [_ E]. apply Forall_forall. intros x Hx Hid.
    rewrite Forall_forall in E.
    destruct (E (cond_id x)) as (m & Em & Hm); [rewrite list_elem_of_In; apply in_map; by apply list_elem_of_In|].
    rewrite Hid in Em. apply local_id_inj in Em. lia. }
  split.
  - unfold updatePruneRule. rewrite (prune_update_ext i _ id); [done|]. intros t n d n' Hn E.
    assert (Hm : List.map (fun x => if cond_id x =?= local_id now k then patch_condition p x else x) (pr_rules d) = pr_rules d).
    { induction (Hne t n d n' Hn E) as [|x rs Hx _ IH]; [done|]. cbn [List.map].
      by rewrite bool_decide_false, IH. }
    rewrite Hm. by destruct d.
  - unfold removePruneRule. rewrite (prune_update_ext i _ id); [done|]. intros t n d n' Hn E.
    rewrite filter_all; [by destruct d|]. eapply Forall_impl; [exact (Hne t n d n' Hn E)|].
    intros x Hx. by rewrite bool_decide_false.
Qed.

(** A rule is added with a blank path, and rules with a blank path are not
    written: after adding a rule the text is that of the same rules. *)
Theorem prune_rule_add_lost d r :
  trim (cond_path r) = [] ->
  buildPruneObjectsValueText (set_rules false (pr_rules d ++ [r]) d) =
  buildPruneObjectsValueText (set_rules false (pr_rules d) d).
Proof.
  intros Hr. unfold buildPruneObjectsValueText, set_rules. cbn [pr_simpleMode pr_typeText pr_logic pr_recursive pr_rules].
  rewrite lfilter_app. cbn [List.filter]. rewrite Hr. cbn [truthy_str]. by rewrite app_nil_r.
Qed.
End PruneEdits.

(** ** What is saved *)

Definition good (v : jsval) : Prop := val_ok v /\ keys_ok v.

Lemma good_obj o : ordered o -> members good o -> good (VObj o).
Proof.
  intros Ho Hm. split.
  - apply val_ok_obj. eapply Forall_impl; [exact Hm|]. by intros kv [Hk [Hv _]].
  - apply keys_ok_obj. split; [done|]. eapply Forall_impl; [exact Hm|]. by intros kv [_ [_ Hk]].
Qed.

Lemma good_arr l : Forall good l -> good (VArr l).
Proof.
  intros Hl. split; [apply val_ok_arr|apply keys_ok_arr]; (eapply Forall_impl; [exact Hl|]); by intros v [].
Qed.

Lemma good_str s : units_ok s -> good (VStr s).
Proof. by split. Qed.

Lemma good_loose t : units_ok t -> good (parseLooseValue t).
Proof.
  intros Ht%units_ok_trim. unfold parseLooseValue. destruct (trim t) as [|c r] eqn:E; [by apply good_str|].
  destruct (json_parse (c :: r)) as [v|] eqn:Ep; [by eapply json_parse_ok|by apply good_str].
Qed.

(** The texts of the editor are strings of 16 bit units. *)
Definition condition_units (c : Condition) : Prop :=
  units_ok (cond_path c) /\ units_ok (cond_mode c) /\ units_ok (cond_value_text c).

Definition operation_units (o : Operation) : Prop :=
  Forall units_ok [op_mode o; op_description o; op_path o; op_from o; op_to o; op_value_text o] /\
  Forall condition_units (op_conditions o).

Definition editor_units (s : Editor) : Prop :=
  units_ok (ed_json s) /\ units_ok (ed_legacy s) /\ Forall operation_units (ed_ops s).

Lemma condition_payload_good c p : condition_units c -> buildConditionPayload c = Some p -> good (VObj p).
Proof.
  intros (H1 & H2 & H3). unfold buildConditionPayload. cbv zeta. case_test; [|done]. intros [= <-].
  apply good_obj.
  - do 2 apply put_if_ordered. split.
    + apply (bool_decide_eq_true_1 (NoDup [lit "path"; lit "mode"; lit "value"])). vm_compute. reflexivity.
    + cbn. repeat constructor.
  - repeat (apply put_if_members; [units|by split|]).
    repeat (apply Forall_cons_2; [split; [units|]|]); [..|apply Forall_nil_2].
    + by apply good_str, units_ok_trim.
    + apply good_str. case_test; [done|units].
    + by apply good_loose.
Qed.

Lemma payload_good o : operation_units o -> good (VObj (operation_payload o)).
Proof.
  intros [Hu Hcs]. rewrite !Forall_cons in Hu. destruct Hu as (Hm & Hd & Hp & Hf & Ht & Hv & _).
  assert (Hh : members good (payload_head o)).
  { apply payload_head_members; [|by split|by apply good_loose]. intros s Hs. apply good_str.
    rewrite !elem_of_cons in Hs. repeat destruct Hs as [->|Hs]; [..|by apply not_elem_of_nil in Hs];
      auto using units_ok_trim. unfold mode_of. case_test; [done|units]. }
  pose proof (payload_head_ordered o) as Ho. rewrite payload_split.
  destruct (omap buildConditionPayload (op_conditions o)) as [|c cs] eqn:E; [by apply good_obj|].
  apply good_obj; [by do 2 apply obj_set_ordered|].
  apply obj_set_members; [units|apply good_str; case_test; units|].
  apply obj_set_members; [units| |done]. apply good_arr. rewrite <- E. clear -Hcs.
  induction Hcs as [|c cs Hc Hcs IH]; [constructor|]. csimpl.
  destruct (buildConditionPayload c) eqn:Ec; [|done]. constructor; [by eapply condition_payload_good|done].
Qed.

(** A saved text: empty, or pretty JSON that reads back and prints as itself. *)
Definition saved_json (P : jsval -> Prop) (r : jstr) : Prop :=
  r = [] \/ exists v, json_parse r = Some v /\ stringify_pretty v = Some r /\ P v.

Lemma good_saved (P : jsval -> Prop) v :
  good v -> (forall w, json_norm v = Some w -> P w) -> saved_json P (default [] (stringify_pretty v)).
Proof.
  intros [Hv Hk] HP. destruct (stringify_pretty v) as [t|] eqn:E; [|by left]. right. cbn [from_option id].
  pose proof (pretty_roundtrip v t Hv E) as Hp.
  destruct (json_norm v) as [w|] eqn:Hn; [|apply (norm_none (Some [])) in Hn; unfold stringify_pretty in E; congruence].
  exists w. split_and!; [done| |by apply HP]. rewrite <- E. by apply render_norm.
Qed.

Definition is_object (v : jsval) : Prop := match v with VObj _ => True | _ => False end.

Lemma visual_saved s j :
  units_ok (ed_legacy s) -> Forall operation_units (ed_ops s) -> buildVisualJson s = inr j ->
  saved_json is_object j.
Proof.
  intros Hl Ho. unfold buildVisualJson. destruct (ed_visual s).
  - unfold buildOperationsJson. cbv zeta.
    assert (Hf : Forall operation_units (List.filter (fun o => negb (isOperationBlank o)) (ed_ops s)))
      by (by apply Forall_lfilter).
    destruct (List.filter _ (ed_ops s)) as [|o os]; [intros [= <-]; by left|].
    destruct (validateOperations (o :: os)); [done|]. intros E.
    assert (Ej : default [] (stringify_pretty (operations_value (o :: os))) = j) by congruence.
    rewrite <- Ej. apply good_saved; [|by intros w [= <-]]. apply good_obj; [split; repeat constructor; apply not_elem_of_nil|].
    apply Forall_cons_2; [|apply Forall_nil_2]. split; [units|]. apply good_arr.
    apply Forall_forall. intros x Hx. rewrite list_elem_of_In in Hx. apply in_map_iff in Hx as (y & <- & Hy).
    rewrite Forall_forall in Hf. apply payload_good, Hf. by apply list_elem_of_In.
  - apply units_ok_trim in Hl. destruct (trim (ed_legacy s)) as [|c r]; [intros [= <-]; by left|].
    destruct (json_parse (c :: r)) as [[]|] eqn:E; try done. intros Ev.
    assert (Ej : default [] (stringify_pretty (VObj l)) = j) by congruence. rewrite <- Ej.
    apply good_saved; [by eapply json_parse_ok|by intros w [= <-]].
Qed.

(** What the dialog saves.  The saved text is empty or is JSON in the
    format of [JSON.stringify(v, null, 2)], which reads back to a value that
    prints as the same text; from the visual editor the value is an object. *)
Theorem saved_text_wellformed s r :
  editor_units s -> handleSave s = Some r ->
  saved_json (match ed_edit s with Visual => is_object | Json => fun _ => True end) r.
Proof.
  intros (Hj & Hl & Ho) H. unfold handleSave in H. destruct (ed_edit s).
  - destruct (buildVisualJson s) eqn:E; [done|]. injection H as <-. by eapply visual_saved.
  - apply units_ok_trim in Hj. destruct (trim (ed_json s)) as [|c t]; [injection H as <-; by left|].
    destruct (json_parse (c :: t)) as [v|] eqn:E; [|done]. cbn [fmap option_fmap option_map] in H.
    assert (Er : default [] (stringify_pretty v) = r) by congruence. rewrite <- Er.
    apply good_saved; [exact (json_parse_ok _ _ Hj E)|done].
Qed.

Definition sample_state : Editor :=
  MkEditor Visual Operations [] sample_ops [] false [] [] [] Before (lit "operations_default") 9.

Lemma saved_text_wellformed_witness :
  handleSave sample_state = Some sample_json /\ saved_json is_object sample_json.
Proof.
  assert (Hs : handleSave sample_state = Some sample_json) by (by vm_compute).
  split; [exact Hs|]. apply (saved_text_wellformed sample_state sample_json); [|exact Hs].
  split_and!; [apply Forall_nil_2|apply Forall_nil_2|].
  repeat apply Forall_cons_2; try apply Forall_nil_2; (split; [units|]);
    repeat apply Forall_cons_2; try apply Forall_nil_2; split_and!; units.
Defined.

(** ** Switching between the editors *)

(** Switching to JSON text and back.  From a visual editor whose rules
    validate and have stable values, the JSON text shown is what would be
    saved, and switching back shows as many rules, which would be saved as the
    same text. *)
Theorem mode_switch_keeps_rules now s j :
  ed_edit s = Visual -> ed_visual s = Operations -> Forall valid_operation (ed_ops s) ->
  handleSave s = Some j -> j <> [] ->
  let s1 := switchToJsonMode s in
  ed_edit s1 = Json /\ ed_json s1 = j /\ handleSave s1 = Some j /\
  exists s2, switchToVisualMode now s1 = Ret s2 /\ ed_edit s2 = Visual /\ handleSave s2 = Some j /\
    length (ed_ops s2) = length (nonblank (ed_ops s)).
Proof.
  intros He Hvm Hv Hs Hj. cbv zeta.
  assert (Hb : buildOperationsJson (ed_ops s) true = inr j).
  { unfold handleSave, buildVisualJson in Hs. rewrite He, Hvm in Hs.
    destruct (buildOperationsJson (ed_ops s) true); [done|]. by injection Hs as <-. }
  assert (E1 : switchToJsonMode s = set_modes Json (ed_visual s) (ed_legacy s) (set_json j false s)).
  { unfold switchToJsonMode, buildVisualJson. by rewrite He, Hvm, Hb. }
  destruct (saved_rules _ j Hv Hb Hj) as (c & t & x & l & Ej & Htrim & Hp & Ht & Hre).
  rewrite E1. subst j. split_and!; [done|done| |].
  - unfold handleSave. cbn [ed_edit ed_json set_modes set_json]. rewrite Htrim, Hp.
    cbn [fmap option_fmap option_map]. by rewrite Ht.
  - destruct (Hre now (ed_seed s)) as (ops' & n' & Hg & Hl & Hb').
    eexists. split_and!.
    + unfold switchToVisualMode. cbn [ed_edit ed_json set_modes set_json]. rewrite Htrim, Hp.
      unfold with_rules. cbv iota beta zeta.
      change (get_prop (lit "operations") (VObj [(lit "operations", VArr (x :: l))])) with (VArr (x :: l)).
      cbv iota beta. unfold with_gen. cbn [ed_seed set_modes set_json]. by rewrite Hg.
    + done.
    + unfold handleSave, buildVisualJson. cbn [ed_edit ed_visual ed_ops set_preset set_selected set_json set_modes set_ops].
      by rewrite Hb'.
    + done.
Qed.

Lemma mode_switch_keeps_rules_witness :
  exists s2, switchToVisualMode id (switchToJsonMode sample_state) = Ret s2 /\
    handleSave s2 = Some sample_json /\ length (ed_ops s2) = 2%nat.
Proof.
  destruct (mode_switch_keeps_rules id sample_state sample_json) as (_ & _ & _ & s2 & H1 & _ & H2 & H3);
    [reflexivity|reflexivity|apply sample_ops_valid|by vm_compute|by vm_compute|].
  exists s2. split_and!; [exact H1|exact H2|rewrite H3; by vm_compute].
Defined.

(** Opening an override whose rules contain [null] throws while the dialog
    opens. *)
Theorem open_null_rule_throws now s :
  open_dialog now (default [] (stringify (with_rules [VNull]))) s = Throws.
Proof. by vm_compute. Qed.

(** JSON text that is not an object is saved, although the visual editor
    refuses it. *)
Theorem json_mode_saves_number s :
  ed_edit s = Json -> ed_json s = lit "5" -> handleSave s = Some (lit "5").
Proof. intros He Hj. unfold handleSave. rewrite He, Hj. by vm_compute. Qed.
