(* ===== verification/Navigation.v ===== *)
(** * Navigation: header modules and sidebar modules

    Two stored options decide which parts of the console a user can reach.
    - [Header]: [lib/nav-modules.ts], the reader of the header modules with its
      cached copy of the server's status, and the guard of the sidebar routes.
    - [Admin]: [features/system-settings/maintenance/config.ts], the reader and
      writer used by the administrator's pages, with the submit handlers of
      [header-navigation-section.tsx] and [sidebar-modules-section.tsx].
    - [Sidebar]: [hooks/use-sidebar-config.ts] and the role filter of
      [components/layout/components/app-sidebar.tsx].
    - [Card]: the user's own switches,
      [features/profile/components/sidebar-modules-card.tsx].

    The theorems relate the four: what the administrator saves is what the header,
    the sidebar and the route guard read; the user's switches hide exactly what
    they are shown to hide, and only among what the administrator allows. *)

From S2P Require Import Prelude.
From S2P Require Import JsString.
From S2P Require Import JsNumber.
From S2P Require Import JsDecimal.
From S2P Require Import JsValue.
From S2P Require Import JsJson.

Local Open Scope N_scope.

(** ** Header modules *)

Module Header.

Record ModuleAccess := MkAccess {
  enabled : bool;
  requireAuth : bool;
  requireAdmin : option bool
}.

(** A member of the modules object: a switch, or an access rule. *)
Inductive Module_ := Flag (b : bool) | Access (a : ModuleAccess).

Inductive HeaderNavModule := Rankings | Pricing.

Definition module_key (m : HeaderNavModule) : jstr :=
  match m with Rankings => lit "rankings" | Pricing => lit "pricing" end.

Definition DEFAULT_HEADER_NAV_MODULES : list (jstr * Module_) :=
  [(lit "home", Flag true); (lit "console", Flag true);
   (lit "pricing", Access (MkAccess true false (Some false)));
   (lit "rankings", Access (MkAccess false false (Some false)));
   (lit "docs", Flag true); (lit "about", Flag true)].

Definition DEFAULTS (m : HeaderNavModule) : ModuleAccess :=
  match m with
  | Pricing => MkAccess true false (Some false)
  | Rankings => MkAccess false false (Some false)
  end.

(** The text of a switch; no unit outside ASCII is converted to a letter of
    [true] or [false]. *)
Definition switch_text (s : jstr) (fallback : bool) : bool :=
  let normalized := to_lower (trim s) in
  if (normalized =?= lit "true") || (normalized =?= lit "1") then true
  else if (normalized =?= lit "false") || (normalized =?= lit "0") then false
  else fallback.

Definition parseHeaderNavBoolean (raw : jsval) (fallback : bool) : bool :=
  match raw with
  | VBool b => b
  | VNum x =>
      if num_eqb x (num_of_Z 1) then true
      else if num_eqb x num_zero then false else fallback
  | VStr s => switch_text s fallback
  | _ => fallback
  end.

Definition parseAccess (raw : jsval) (fallback : ModuleAccess) : ModuleAccess :=
  match raw with
  | VBool _ | VNum _ | VStr _ =>
      MkAccess (parseHeaderNavBoolean raw (enabled fallback)) (requireAuth fallback)
        (requireAdmin fallback)
  | VObj _ | VArr _ =>
      MkAccess (parseHeaderNavBoolean (get_prop (lit "enabled") raw) (enabled fallback))
        (parseHeaderNavBoolean (get_prop (lit "requireAuth") raw) (requireAuth fallback))
        (Some (parseHeaderNavBoolean (get_prop (lit "requireAdmin") raw) false))
  | _ => fallback
  end.

Definition parseHeaderNavRecord (raw : jsval) : jsval :=
  if negb (truthy raw) || (trim (string_of_val raw) =?= []) then VNull
  else
    match raw with
    | VObj _ | VArr _ => raw
    | _ => default VNull (json_parse (string_of_val raw))
    end.

Definition access_or (k : jstr) (d : ModuleAccess) (result : list (jstr * Module_)) : ModuleAccess :=
  match obj_get k result with Some (Access a) => a | _ => d end.

(** The body of the loop over the stored members. *)
Definition read_member (result : list (jstr * Module_)) (kv : jstr * jsval) : list (jstr * Module_) :=
  let '(key, value) := kv in
  if key =?= lit "pricing" then
    obj_set key (Access (parseAccess value (access_or key (DEFAULTS Pricing) result))) result
  else if key =?= lit "rankings" then
    obj_set key (Access (parseAccess value (access_or key (DEFAULTS Rankings) result))) result
  else
    match obj_get key result, value with
    | Some (Flag fallback), _ => obj_set key (Flag (parseHeaderNavBoolean value fallback)) result
    | _, (VBool _ | VNum _ | VStr _) => obj_set key (Flag (parseHeaderNavBoolean value true)) result
    | _, _ => result
    end.

Definition parseHeaderNavModules (raw : jsval) : list (jstr * Module_) :=
  let parsed := parseHeaderNavRecord raw in
  if negb (truthy parsed) then DEFAULT_HEADER_NAV_MODULES
  else fold_left read_member (spread parsed) DEFAULT_HEADER_NAV_MODULES.

Definition parseHeaderNavModulesFromStatus (status : jsval) : list (jstr * Module_) :=
  parseHeaderNavModules (get_prop (lit "HeaderNavModules") status).

Definition getModuleAccessFromStatus (status : jsval) (m : HeaderNavModule) : ModuleAccess :=
  access_or (module_key m) (DEFAULTS m) (parseHeaderNavModulesFromStatus status).

(** The entry [status] of the browser's storage. *)
Definition getCachedStatus (storage : option jstr) : jsval :=
  match storage with
  | Some (c :: t) => default VNull (json_parse (c :: t))
  | _ => VNull
  end.

(** [setItem] may be refused ([writable = false]); the error is ignored. *)
Definition cacheStatus (writable : bool) (status : jsval) (storage : option jstr) : option jstr :=
  if truthy status && writable then
    match stringify status with Some t => Some t | None => storage end
  else storage.

Definition getModuleAccess (storage : option jstr) (m : HeaderNavModule) : ModuleAccess :=
  getModuleAccessFromStatus (getCachedStatus storage) m.

(** The answer of [getStatus] is [None] when the request fails. *)
Definition getFreshModuleAccess (writable : bool) (answer : option jsval) (m : HeaderNavModule)
  (storage : option jstr) : ModuleAccess * option jstr :=
  match answer with
  | Some status => (getModuleAccessFromStatus status m, cacheStatus writable status storage)
  | None => (getModuleAccess storage m, storage)
  end.

(** The guard of the sidebar's routes. *)
Definition isSidebarModuleEnabled (storage : option jstr) (section module : jstr) : bool :=
  let status := getCachedStatus storage in
  if negb (truthy status) then true
  else
    let raw := get_prop (lit "SidebarModulesAdmin") status in
    if negb (truthy raw) || (trim (string_of_val raw) =?= []) then true
    else
      match json_parse (string_of_val raw) with
      | None => true
      | Some parsed =>
          let sectionConfig := get_prop section parsed in
          if negb (truthy sectionConfig) then true
          else if is_false (get_prop (lit "enabled") sectionConfig) then false
          else negb (is_false (get_prop module sectionConfig))
      end.

End Header.

(** ** The administrator's pages *)

Module Admin.
Import Header.

Abbreviation Section_ := (list (jstr * bool)).
Abbreviation SidebarModulesAdminConfig := (list (jstr * list (jstr * bool))).

Definition HEADER_NAV_DEFAULT : list (jstr * Module_) :=
  [(lit "home", Flag true); (lit "console", Flag true);
   (lit "pricing", Access (MkAccess true false (Some false)));
   (lit "rankings", Access (MkAccess false false (Some false)));
   (lit "docs", Flag true); (lit "about", Flag true)].

Definition switched_on (ks : list jstr) : Section_ := List.map (fun k => (k, true)) ks.

Definition SIDEBAR_MODULES_DEFAULT : SidebarModulesAdminConfig :=
  [(lit "chat", switched_on [lit "enabled"; lit "playground"; lit "chat"]);
   (lit "console",
    switched_on [lit "enabled"; lit "detail"; lit "token"; lit "log"; lit "midjourney"; lit "task"]);
   (lit "personal",
    switched_on [lit "enabled"; lit "topup"; lit "withdrawal"; lit "compute_partners";
                 lit "subordinates"; lit "personal"]);
   (lit "admin",
    switched_on [lit "enabled"; lit "channel"; lit "models"; lit "recharge_records";
                 lit "finance_withdrawals"; lit "redemption"; lit "contact_messages"; lit "user";
                 lit "setting"; lit "subscription"; lit "qiniu_keys"; lit "qiniu_child_accounts";
                 lit "finance"; lit "rankings"])].

Definition toBoolean (value : jsval) (fallback : bool) : bool :=
  match value with
  | VBool b => b
  | VNum x => num_eqb x (num_of_Z 1)
  | VStr s => switch_text s fallback
  | _ => fallback
  end.

Definition parseAccessModule (raw : jsval) (fallback : ModuleAccess) : ModuleAccess :=
  match raw with
  | VBool _ | VNum _ | VStr _ =>
      MkAccess (toBoolean raw (enabled fallback)) (requireAuth fallback) (requireAdmin fallback)
  | VObj _ | VArr _ =>
      MkAccess (toBoolean (get_prop (lit "enabled") raw) (enabled fallback))
        (toBoolean (get_prop (lit "requireAuth") raw) (requireAuth fallback))
        (Some (toBoolean (get_prop (lit "requireAdmin") raw) (default false (requireAdmin fallback))))
  | _ => fallback
  end.

(** [Boolean(base[key])]. *)
Definition base_switch (key : jstr) : bool :=
  match obj_get key HEADER_NAV_DEFAULT with
  | Some (Flag b) => b
  | Some (Access _) => true
  | None => false
  end.

Definition read_member (result : list (jstr * Module_)) (kv : jstr * jsval) : list (jstr * Module_) :=
  let '(key, raw) := kv in
  if key =?= lit "pricing" then
    obj_set key (Access (parseAccessModule raw (access_or key (DEFAULTS Pricing) HEADER_NAV_DEFAULT)))
      result
  else if key =?= lit "rankings" then
    obj_set key (Access (parseAccessModule raw (access_or key (DEFAULTS Rankings) HEADER_NAV_DEFAULT)))
      result
  else
    match raw with
    | VBool b => obj_set key (Flag b) result
    | VStr _ | VNum _ => obj_set key (Flag (toBoolean raw (base_switch key))) result
    | _ => result
    end.

(** [Object.entries(null)] throws, which gives the defaults. *)
Definition parseHeaderNavModules (value : option jstr) : list (jstr * Module_) :=
  match value with
  | Some (c :: t) =>
      match json_parse (c :: t) with
      | Some VNull | None => HEADER_NAV_DEFAULT
      | Some parsed => fold_left read_member (spread parsed) HEADER_NAV_DEFAULT
      end
  | _ => HEADER_NAV_DEFAULT
  end.

Definition access_value (a : ModuleAccess) : jsval :=
  VObj ([(lit "enabled", VBool (enabled a)); (lit "requireAuth", VBool (requireAuth a))] ++
        match requireAdmin a with Some b => [(lit "requireAdmin", VBool b)] | None => [] end).

Definition module_value (m : Module_) : jsval :=
  match m with Flag b => VBool b | Access a => access_value a end.

Definition header_value (config : list (jstr * Module_)) : jsval :=
  VObj (List.map (fun kv => (kv.1, module_value kv.2)) config).

Definition serializeHeaderNavModules (config : list (jstr * Module_)) : jstr :=
  default [] (stringify (header_value config)).

(** *** The header navigation page *)

Record HeaderNavFormValues := MkHeaderForm {
  home : bool;
  console : bool;
  pricingEnabled : bool;
  pricingRequireAuth : bool;
  rankingsEnabled : bool;
  rankingsRequireAuth : bool;
  rankingsRequireAdmin : bool;
  docs : bool;
  about : bool
}.

(** [config.k === undefined ? d : Boolean(config.k)]. *)
Definition switch_or (k : jstr) (d : bool) (config : list (jstr * Module_)) : bool :=
  match obj_get k config with
  | None => d
  | Some (Flag b) => b
  | Some (Access _) => true
  end.

Definition toFormValues (config : list (jstr * Module_)) : HeaderNavFormValues :=
  let pricing := access_or (lit "pricing") (DEFAULTS Pricing) config in
  let rankings := access_or (lit "rankings") (DEFAULTS Rankings) config in
  MkHeaderForm (switch_or (lit "home") true config) (switch_or (lit "console") true config)
    (enabled pricing) (requireAuth pricing)
    (enabled rankings) (requireAuth rankings) (default false (requireAdmin rankings))
    (switch_or (lit "docs") true config) (switch_or (lit "about") true config).

Definition header_payload (config : list (jstr * Module_)) (values : HeaderNavFormValues)
  : list (jstr * Module_) :=
  let pricing := access_or (lit "pricing") (DEFAULTS Pricing) config in
  obj_merge config
    [(lit "home", Flag (home values)); (lit "console", Flag (console values));
     (lit "docs", Flag (docs values)); (lit "about", Flag (about values));
     (lit "pricing",
      Access (MkAccess (pricingEnabled values) (pricingRequireAuth values) (requireAdmin pricing)));
     (lit "rankings",
      Access (MkAccess (rankingsEnabled values) (rankingsRequireAuth values)
                (Some (rankingsRequireAdmin values))))].

(** The value sent to the server; [None] when nothing changed. *)
Definition header_onSubmit (config : list (jstr * Module_)) (initialSerialized : jstr)
  (values : HeaderNavFormValues) : option jstr :=
  let serialized := serializeHeaderNavModules (header_payload config values) in
  if serialized =?= initialSerialized then None else Some serialized.

(** *** The sidebar modules page *)

(** [defaults[sectionKey] ?? { enabled: true }]. *)
Definition default_section (sectionKey : jstr) : Section_ :=
  default [(lit "enabled", true)] (obj_get sectionKey SIDEBAR_MODULES_DEFAULT).

Definition read_section (sectionKey : jstr) (raw : jsval) : Section_ :=
  let defaultSection := default_section sectionKey in
  fold_left (fun sectionConfig kv =>
      if kv.1 =?= lit "enabled" then sectionConfig
      else obj_set kv.1 (toBoolean kv.2 (default true (obj_get kv.1 defaultSection))) sectionConfig)
    (spread raw)
    [(lit "enabled",
      toBoolean (get_prop (lit "enabled") raw) (default true (obj_get (lit "enabled") defaultSection)))].

Definition read_sections (parsed : jsval) : SidebarModulesAdminConfig :=
  fold_left (fun result kv =>
      match kv.2 with
      | VObj _ | VArr _ => obj_set kv.1 (read_section kv.1 kv.2) result
      | _ => result
      end)
    (spread parsed) [].

(** The members of [config] the section does not have. *)
Definition fill_section (config section : Section_) : Section_ :=
  fold_left (fun section kv => if obj_has kv.1 section then section else obj_set kv.1 kv.2 section)
    config section.

Definition fill_sections (result : SidebarModulesAdminConfig) : SidebarModulesAdminConfig :=
  fold_left (fun result kv =>
      match obj_get kv.1 result with
      | None => obj_set kv.1 kv.2 result
      | Some section => obj_set kv.1 (fill_section kv.2 section) result
      end)
    SIDEBAR_MODULES_DEFAULT result.

Definition parseSidebarModulesAdmin (value : option jstr) : SidebarModulesAdminConfig :=
  match value with
  | None => SIDEBAR_MODULES_DEFAULT
  | Some t =>
      if trim t =?= [] then SIDEBAR_MODULES_DEFAULT
      else
        match json_parse t with
        | Some VNull | None => SIDEBAR_MODULES_DEFAULT
        | Some parsed => fill_sections (read_sections parsed)
        end
  end.

Definition section_value (section : Section_) : jsval :=
  VObj (List.map (fun kv => (kv.1, VBool kv.2)) section).

Definition sidebar_value (config : SidebarModulesAdminConfig) : jsval :=
  VObj (List.map (fun kv => (kv.1, section_value kv.2)) config).

Definition serializeSidebarModulesAdmin (config : SidebarModulesAdminConfig) : jstr :=
  default [] (stringify (sidebar_value config)).

Definition sidebar_onSubmit (initialSerialized : jstr) (values : SidebarModulesAdminConfig)
  : option jstr :=
  let serialized := serializeSidebarModulesAdmin values in
  if serialized =?= initialSerialized then None else Some serialized.

End Admin.

(** ** The sidebar *)

Module Sidebar.

Definition switches (ks : list jstr) : jsval := VObj (List.map (fun k => (k, VBool true)) ks).

Definition DEFAULT_SIDEBAR_MODULES : jsobj :=
  [(lit "chat", switches [lit "enabled"; lit "playground"; lit "chat"]);
   (lit "console",
    switches [lit "enabled"; lit "detail"; lit "token"; lit "log"; lit "midjourney"; lit "task"]);
   (lit "personal",
    switches [lit "enabled"; lit "topup"; lit "withdrawal"; lit "compute_partners";
              lit "subordinates"; lit "personal"]);
   (lit "admin",
    switches [lit "enabled"; lit "channel"; lit "models"; lit "recharge_records";
              lit "finance_withdrawals"; lit "contact_messages"; lit "redemption"; lit "user";
              lit "setting"; lit "subscription"; lit "qiniu_keys"; lit "qiniu_child_accounts";
              lit "finance"; lit "rankings"])].

(** One section: the stored members over the default ones, and the default again
    where the stored member is [undefined]. *)
Definition merge_section (defaultSection : jsobj) (existing : jsval) : jsobj :=
  fold_left (fun section kv =>
      match get_prop kv.1 (VObj section) with
      | VUndef => obj_set kv.1 kv.2 section
      | _ => section
      end)
    defaultSection (obj_merge defaultSection (spread existing)).

Definition mergeWithDefaultSidebarModules (config : jsval) : jsobj :=
  fold_left (fun merged kv =>
      let existingSection := get_prop kv.1 (VObj merged) in
      if truthy existingSection then obj_set kv.1 (VObj (merge_section (spread kv.2) existingSection)) merged
      else obj_set kv.1 kv.2 merged)
    DEFAULT_SIDEBAR_MODULES (spread config).

Definition URL_TO_CONFIG_MAP : list (jstr * (jstr * jstr)) :=
  [(lit "/playground", (lit "chat", lit "playground"));
   (lit "/dashboard", (lit "console", lit "detail"));
   (lit "/dashboard/overview", (lit "console", lit "detail"));
   (lit "/dashboard/models", (lit "console", lit "detail"));
   (lit "/dashboard/users", (lit "console", lit "detail"));
   (lit "/keys", (lit "console", lit "token"));
   (lit "/usage-logs", (lit "console", lit "log"));
   (lit "/usage-logs/common", (lit "console", lit "log"));
   (lit "/usage-logs/drawing", (lit "console", lit "midjourney"));
   (lit "/usage-logs/task", (lit "console", lit "task"));
   (lit "/wallet", (lit "personal", lit "topup"));
   (lit "/withdrawal", (lit "personal", lit "withdrawal"));
   (lit "/compute-partners", (lit "personal", lit "compute_partners"));
   (lit "/subordinates", (lit "personal", lit "subordinates"));
   (lit "/profile", (lit "personal", lit "personal"));
   (lit "/channels", (lit "admin", lit "channel"));
   (lit "/models", (lit "admin", lit "models"));
   (lit "/models/metadata", (lit "admin", lit "models"));
   (lit "/models/deployments", (lit "admin", lit "models"));
   (lit "/users", (lit "admin", lit "user"));
   (lit "/recharge-records", (lit "admin", lit "recharge_records"));
   (lit "/finance-withdrawals", (lit "admin", lit "finance_withdrawals"));
   (lit "/contact-messages", (lit "admin", lit "contact_messages"));
   (lit "/redemption-codes", (lit "admin", lit "redemption"));
   (lit "/subscriptions", (lit "admin", lit "subscription"));
   (lit "/qiniu-keys", (lit "admin", lit "qiniu_keys"));
   (lit "/qiniu-child-accounts", (lit "admin", lit "qiniu_child_accounts"));
   (lit "/finance", (lit "admin", lit "finance"));
   (lit "/system-settings", (lit "admin", lit "setting"));
   (lit "/system-settings/site", (lit "admin", lit "setting"));
   (lit "/dashboard/rankings", (lit "admin", lit "rankings"))].

Definition parseSidebarConfig (value : option jstr) : jsobj :=
  match value with
  | None => DEFAULT_SIDEBAR_MODULES
  | Some t =>
      if trim t =?= [] then DEFAULT_SIDEBAR_MODULES
      else
        match json_parse t with
        | None => DEFAULT_SIDEBAR_MODULES
        | Some parsed => mergeWithDefaultSidebarModules parsed
        end
  end.

(** The user's layer; [None] does not narrow. *)
Definition parseUserSidebarConfig (value : option jstr) : option jsval :=
  match value with
  | None => None
  | Some t =>
      if trim t =?= [] then None
      else
        match json_parse t with
        | Some ((VObj _ | VArr _) as parsed) => Some parsed
        | _ => None
        end
  end.

(** The two layers for one module of one section. *)
Definition admin_allows (section module : jstr) (adminConfig : jsobj) : bool :=
  let adminSection := get_prop section (VObj adminConfig) in
  truthy adminSection && truthy (get_prop (lit "enabled") adminSection) &&
  is_true (get_prop module adminSection).

Definition user_allows (section module : jstr) (userConfig : option jsval) : bool :=
  match userConfig with
  | None => true
  | Some config =>
      let userSection := get_prop section config in
      if negb (truthy userSection) then true
      else if is_false (get_prop (lit "enabled") userSection) then false
      else negb (is_false (get_prop module userSection))
  end.

Definition isModuleEnabled (url : jstr) (adminConfig : jsobj) (userConfig : option jsval) : bool :=
  match obj_get url URL_TO_CONFIG_MAP with
  | None => true
  | Some (section, module) =>
      if negb (admin_allows section module adminConfig) then false
      else user_allows section module userConfig
  end.

Record BaseNavItem := MkBase {
  title : jstr;
  configUrls : option (list jstr);
  requiresActiveVvip : bool
}.

Inductive NavItem :=
| NavLink (base : BaseNavItem) (url : jstr)
| NavCollapsible (base : BaseNavItem) (items : list (BaseNavItem * jstr))
| NavChatPresets (base : BaseNavItem).

Definition base_of (item : NavItem) : BaseNavItem :=
  match item with NavLink b _ | NavCollapsible b _ | NavChatPresets b => b end.

Record NavGroup := MkGroup {
  group_id : option jstr;
  group_title : jstr;
  items : list NavItem
}.

Section Layers.
Variables (adminConfig : jsobj) (userConfig : option jsval).

Definition isNavItemVisible (item : NavItem) : bool :=
  match item with
  | NavChatPresets _ =>
      if negb (admin_allows (lit "chat") (lit "chat") adminConfig) then false
      else user_allows (lit "chat") (lit "chat") userConfig
  | NavLink base url =>
      if truthy_str url then
        List.existsb (fun u => isModuleEnabled u adminConfig userConfig)
          (default [url] (configUrls base))
      else true
  | NavCollapsible _ subItems =>
      List.existsb (fun sub => isModuleEnabled sub.2 adminConfig userConfig) subItems
  end.

Definition filter_sub_items (item : NavItem) : NavItem :=
  match item with
  | NavCollapsible base subItems =>
      NavCollapsible base
        (List.filter (fun sub => isModuleEnabled sub.2 adminConfig userConfig) subItems)
  | _ => item
  end.

Definition filterNavItems (l : list NavItem) : list NavItem :=
  List.filter isNavItemVisible (List.map filter_sub_items l).

End Layers.

(** What the hook reads of the signed-in user. *)
Record User := MkUser {
  role : option num;
  is_vvip : bool;
  vvip_status : option jstr;
  sidebar_settings : option bool;
  sidebar_modules : option jstr
}.

Definition user_layer (user : option User) : option jsval :=
  match user with
  | None => None
  | Some u =>
      if sidebar_settings u =?= Some false then None
      else parseUserSidebarConfig (sidebar_modules u)
  end.

Definition activeVvip (user : option User) : bool :=
  match user with
  | None => false
  | Some u => is_vvip u || (vvip_status u =?= Some (lit "active"))
  end.

Definition useSidebarConfig (sidebarModulesAdmin : option jstr) (user : option User)
  (navGroups : list NavGroup) : list NavGroup :=
  let adminConfig := parseSidebarConfig sidebarModulesAdmin in
  let userConfig := user_layer user in
  List.filter (fun g => match items g with [] => false | _ => true end)
    (List.map (fun g =>
       MkGroup (group_id g) (group_title g)
         (List.filter (fun item => negb (requiresActiveVvip (base_of item)) || activeVvip user)
            (filterNavItems adminConfig userConfig (items g)))) navGroups).

(** [userRole && userRole >= ROLE.ADMIN]. *)
Definition is_admin (user : option User) : bool :=
  match user with
  | Some u => match role u with Some r => truthy_num r && num_geb r (num_of_Z 10) | None => false end
  | None => false
  end.

Definition currentNavGroups (user : option User) (groups : list NavGroup) : list NavGroup :=
  List.filter (fun g => if group_id g =?= Some (lit "admin") then is_admin user else true) groups.

Definition link (t url : jstr) : NavItem := NavLink (MkBase t None false) url.

Section Data.
Variable t : jstr -> jstr.

Definition buildSidebarData : list NavGroup :=
  [MkGroup (Some (lit "chat")) (t (lit "Chat"))
     [link (t (lit "Playground")) (lit "/playground"); NavChatPresets (MkBase (t (lit "Chat")) None false)];
   MkGroup (Some (lit "general")) (t (lit "General"))
     [link (t (lit "Overview")) (lit "/dashboard/overview");
      link (t (lit "Dashboard")) (lit "/dashboard/models");
      link (t (lit "API Keys")) (lit "/keys");
      link (t (lit "Usage Logs")) (lit "/usage-logs/common");
      NavLink (MkBase (t (lit "Task Logs")) (Some [lit "/usage-logs/drawing"; lit "/usage-logs/task"]) false)
        (lit "/usage-logs/task")];
   MkGroup (Some (lit "personal")) (t (lit "Personal"))
     [link (t (lit "Wallet")) (lit "/wallet");
      link (t (lit "Commission withdrawal")) (lit "/withdrawal");
      link (t (lit "Compute Partners")) (lit "/compute-partners");
      NavLink (MkBase (t (lit "Subordinate Management")) None true) (lit "/subordinates");
      link (t (lit "Profile")) (lit "/profile")];
   MkGroup (Some (lit "admin")) (t (lit "Admin"))
     [link (t (lit "Channels")) (lit "/channels");
      link (t (lit "Models")) (lit "/models/metadata");
      link (t (lit "Users")) (lit "/users");
      link (t (lit "Rankings")) (lit "/dashboard/rankings");
      link (t (lit "admin_recharge_records_title")) (lit "/recharge-records");
      link (t (lit "admin_withdrawals_title")) (lit "/finance-withdrawals");
      link (t (lit "Contact Messages")) (lit "/contact-messages");
      link (t (lit "Redemption Codes")) (lit "/redemption-codes");
      link (t (lit "Subscription Management")) (lit "/subscriptions");
      link (t (lit "admin_qiniu_keys_title")) (lit "/qiniu-keys");
      link (t (lit "admin_qiniu_child_accounts_title")) (lit "/qiniu-child-accounts");
      link (t (lit "Finance Operations")) (lit "/finance");
      link (t (lit "System Settings")) (lit "/system-settings/site")]].

End Data.

End Sidebar.

(** ** The user's switches *)

Module Card.

(** Section and module keys of the card. *)
Definition sectionDefs : list (jstr * list jstr) :=
  [(lit "chat", [lit "playground"; lit "chat"]);
   (lit "console", [lit "detail"; lit "token"; lit "log"; lit "midjourney"; lit "task"]);
   (lit "personal",
    [lit "topup"; lit "withdrawal"; lit "compute_partners"; lit "subordinates"; lit "personal"])].

Definition card_defaults : jsval :=
  VObj (List.map (fun sec =>
    (sec.1, VObj ((lit "enabled", VBool true) :: List.map (fun m => (m, VBool true)) sec.2))) sectionDefs).

(** [setConfig] after a successful request; [None] leaves the state (the text is
    not JSON and the error is ignored). *)
Definition loadConfig (answer : jsval) : option jsval :=
  let raw := get_prop (lit "sidebar_modules") (get_prop (lit "data") answer) in
  if truthy (get_prop (lit "success") answer) && truthy raw then
    match raw with VStr s => json_parse s | _ => Some raw end
  else Some card_defaults.

Definition toggleModule (sectionKey moduleKey : jstr) (val : bool) (prev : jsval) : jsval :=
  VObj (obj_set sectionKey
    (VObj (obj_set moduleKey (VBool val) (spread (get_prop sectionKey prev)))) (spread prev)).

Definition toggleSection (sectionKey : jstr) (val : bool) (prev : jsval) : jsval :=
  toggleModule sectionKey (lit "enabled") val prev.

(** The text [handleSave] sends and, when the server accepts it, stores in the
    signed-in user. *)
Definition save_text (config : jsval) : jstr := default [] (stringify config).

Definition handleSave (accepted : bool) (config : jsval) (user : option Sidebar.User)
  : option Sidebar.User :=
  match user with
  | Some u =>
      if accepted then
        Some (Sidebar.MkUser (Sidebar.role u) (Sidebar.is_vvip u) (Sidebar.vvip_status u)
                (Sidebar.sidebar_settings u) (Some (save_text config)))
      else Some u
  | None => None
  end.

Definition handleReset : jsval := card_defaults.

(** The switches as they are drawn. *)
Definition section_checked (config : jsval) (section : jstr) : bool :=
  negb (is_false (get_prop (lit "enabled") (get_prop section config))).

Definition module_checked (config : jsval) (section module : jstr) : bool :=
  negb (is_false (get_prop module (get_prop section config))).

End Card.
