(* ===== verification/NavigationFacts.v ===== *)
(** * Navigation: what is saved is what is shown

    The facts about [Navigation]: module [Saved] follows a configuration from the
    administrator's pages through its JSON text to each of its readers; then come
    the theorems on the header, the sidebar, the route guard, the cached status
    and the user's own switches. *)

From S2P Require Import Prelude.
From S2P Require Import JsString.
From S2P Require Import JsNumber.
From S2P Require Import JsDecimal.
From S2P Require Import JsValue.
From S2P Require Import JsJson.
From S2P Require Import Navigation.

Local Open Scope N_scope.

(** ** What the administrator's pages write *)

Module Saved.
Import Header Admin.

Lemma keys_map {V W} (f : V -> W) (o : list (jstr * V)) :
  obj_keys (List.map (fun kv => (kv.1, f kv.2)) o) = obj_keys o.
Proof. unfold obj_keys. rewrite List.map_map. by apply List.map_ext. Qed.

Lemma get_map {V W} (f : V -> W) k (o : list (jstr * V)) :
  obj_get k (List.map (fun kv => (kv.1, f kv.2)) o) = f <$> obj_get k o.
Proof.
  induction o as [|[k1 v1] o IH]; [done|]. cbn [List.map obj_get fst snd]. by case_bool_decide.
Qed.

Lemma ordered_map {V W} (f : V -> W) (o : list (jstr * V)) :
  ordered o -> ordered (List.map (fun kv => (kv.1, f kv.2)) o).
Proof. unfold ordered. by rewrite keys_map. Qed.

Lemma members_get {V} (P : V -> Prop) o k v : members P o -> obj_get k o = Some v -> P v.
Proof.
  intros Ho. induction Ho as [|[k1 v1] o [_ Hv] Ho IH]; [done|].
  cbn [obj_get]. case_bool_decide; [intros [= <-]; exact Hv|apply IH].
Qed.

(** An object whose members are written by a function of their values. *)
Lemma normal_map {V} (f : V -> jsval) (P : V -> Prop) (o : list (jstr * V)) :
  (forall v, P v -> normal (f v)) -> ordered o -> members P o ->
  normal (VObj (List.map (fun kv => (kv.1, f kv.2)) o)).
Proof.
  intros Hf Ho Hm. apply normal_obj; [by apply ordered_map|]. clear Ho.
  unfold members in *. induction Hm as [|kv o [Hk Hv] Hm IH]; [constructor|].
  constructor; [split; [done|by apply Hf]|done].
Qed.

(** A form of the sidebar page: distinct names in property order. *)
Definition section_ok (section : Section_) : Prop := ordered section /\ members (fun _ => True) section.

Definition config_ok (config : SidebarModulesAdminConfig) : Prop :=
  ordered config /\ members section_ok config.

Lemma section_normal section : section_ok section -> normal (section_value section).
Proof. intros [Ho Hm]. eapply normal_map; [|done..]. intros. apply normal_bool. Qed.

Lemma sidebar_normal config : config_ok config -> normal (sidebar_value config).
Proof. intros [Ho Hm]. eapply normal_map; [|done..]. apply section_normal. Qed.

(** A module is switched on; a switch that is not written is on. *)
Definition switch_on (config : SidebarModulesAdminConfig) (section module : jstr) : bool :=
  match obj_get section config with
  | None => true
  | Some s => default true (obj_get (lit "enabled") s) && default true (obj_get module s)
  end.

(** The saved text and what it reads as. *)
Lemma sidebar_text config : config_ok config -> exists c t,
  serializeSidebarModulesAdmin config = c :: t /\ is_ws c = false /\
  json_parse (c :: t) = Some (sidebar_value config).
Proof.
  intros H. destruct (normal_reads _ (sidebar_normal config H)) as (c & t & Ht & Hc & Hp).
  exists c, t. unfold serializeSidebarModulesAdmin. by rewrite Ht.
Qed.

Lemma section_prop k config :
  get_prop k (sidebar_value config) = default VUndef (section_value <$> obj_get k config).
Proof. cbn [get_prop sidebar_value]. by rewrite get_map. Qed.

Lemma module_prop k section :
  get_prop k (section_value section) = default VUndef (VBool <$> obj_get k section).
Proof. cbn [get_prop section_value]. by rewrite get_map. Qed.

(** *** The route guard *)

Lemma guard_reads config storage status section module :
  config_ok config ->
  getCachedStatus storage = status -> truthy status = true ->
  get_prop (lit "SidebarModulesAdmin") status = VStr (serializeSidebarModulesAdmin config) ->
  isSidebarModuleEnabled storage section module = switch_on config section module.
Proof.
  intros Hc Hs Ht Hraw. destruct (sidebar_text config Hc) as (c & t & Htext & Hws & Hp).
  unfold isSidebarModuleEnabled. rewrite Hs, Ht, Hraw, Htext. cbn [negb truthy truthy_str orb].
  change (string_of_val (VStr (c :: t))) with (c :: t).
  rewrite bool_decide_false by (by apply trim_head_ne). rewrite Hp, section_prop. unfold switch_on.
  destruct (obj_get section config) as [s|]; [|done]. cbn [fmap option_fmap option_map from_option id].
  change (truthy (section_value s)) with true. cbn [negb]. rewrite !module_prop.
  destruct (obj_get (lit "enabled") s) as [[]|], (obj_get module s) as [[]|]; reflexivity.
Qed.

(** *** The sidebar *)

Import Sidebar.

(** The members of a default section the stored section does not have. *)
Lemma merge_section_get ks section k :
  NoDup ks -> section_ok section ->
  obj_get k (merge_section (spread (switches ks)) (section_value section)) =
  match obj_get k section with
  | Some b => Some (VBool b)
  | None => obj_get k (spread (switches ks))
  end.
Proof.
  intros Hks [[Hn _] _]. cbn [spread switches section_value]. set (d := List.map _ ks).
  assert (Hd : NoDup (obj_keys d)).
  { unfold d, obj_keys. rewrite List.map_map. by rewrite List.map_id. }
  assert (Hdv : forall k v, obj_get k d = Some v -> v = VBool true).
  { clear. unfold d. induction ks as [|x ks IH]; [done|]. intros k v. cbn [List.map obj_get].
    case_bool_decide; [congruence|apply IH]. }
  unfold merge_section.
  rewrite (obj_fold_get _ (fun _ v cur => match default VUndef cur with VUndef => Some v | _ => cur end));
    [|intros o k1 v k'; cbn [fst snd get_prop]; destruct (obj_get k1 o) as [w|] eqn:E; cbn [from_option id];
      [destruct w|]; rewrite ?obj_get_set; case_bool_decide; subst; by rewrite ?E|done].
  unfold section_value. cbn [spread]. rewrite obj_get_merge by (by rewrite keys_map). rewrite get_map.
  destruct (obj_get k section) as [b|]; cbn [fmap option_fmap option_map].
  - by destruct (obj_get k d).
  - destruct (obj_get k d) as [v|] eqn:E; [|done]. by rewrite (Hdv k v E).
Qed.

Lemma merge_get config k :
  ordered config ->
  obj_get k (mergeWithDefaultSidebarModules (sidebar_value config)) =
  match obj_get k DEFAULT_SIDEBAR_MODULES, obj_get k config with
  | Some d, Some section => Some (VObj (merge_section (spread d) (section_value section)))
  | Some d, None => Some d
  | None, section => section_value <$> section
  end.
Proof.
  intros [Hn _]. unfold mergeWithDefaultSidebarModules.
  rewrite (obj_fold_get _ (fun _ d cur =>
    Some (if truthy (default VUndef cur) then VObj (merge_section (spread d) (default VUndef cur)) else d))).
  - cbn [spread sidebar_value]. rewrite get_map.
    by destruct (obj_get k DEFAULT_SIDEBAR_MODULES), (obj_get k config).
  - intros o k1 v k'. cbn [fst snd get_prop]. case_test; rewrite obj_get_set; by case_bool_decide.
  - apply (bool_decide_eq_true_1 _). vm_compute. reflexivity.
Qed.

(** Every link of the table names a default section and one of its modules. *)
Definition mapped_default (section module : jstr) (ks : list jstr) : Prop :=
  obj_get section DEFAULT_SIDEBAR_MODULES = Some (switches ks) /\
  NoDup ks /\ lit "enabled" ∈ ks /\ module ∈ ks.

Lemma mapped_sections url section module :
  obj_get url URL_TO_CONFIG_MAP = Some (section, module) -> exists ks, mapped_default section module ks.
Proof.
  set (known := [lit "chat"; lit "console"; lit "personal"; lit "admin"]).
  set (names := fun s => match obj_get s DEFAULT_SIDEBAR_MODULES with Some v => obj_keys (spread v) | None => [] end).
  assert (Hall : Forall (fun e : jstr * (jstr * jstr) =>
    obj_get e.2.1 DEFAULT_SIDEBAR_MODULES = Some (switches (names e.2.1)) /\
    bool_decide (NoDup (names e.2.1)) && bool_decide (lit "enabled" ∈ names e.2.1) &&
    bool_decide (e.2.2 ∈ names e.2.1) = true) URL_TO_CONFIG_MAP).
  { repeat (constructor; [split; vm_compute; reflexivity|]). constructor. }
  intros Hg. assert (Hin : (url, (section, module)) ∈ URL_TO_CONFIG_MAP).
  { revert Hg. clear. generalize URL_TO_CONFIG_MAP. intros l. induction l as [|[k v] l IH]; [done|].
    cbn [obj_get]. case_bool_decide; [intros [= ->]; subst; by left|]. intros H1. right. by apply IH. }
  rewrite Forall_forall in Hall. destruct (Hall _ Hin) as [H1 H2]. prop_tests. by exists (names section).
Qed.

(** *** The link of a module is shown exactly when its switches are on *)

Lemma default_on ks k : k ∈ ks -> obj_get k (spread (switches ks)) = Some (VBool true).
Proof.
  cbn [spread switches]. induction ks as [|x ks IH]; [by intros ?%not_elem_of_nil|].
  intros Hk. cbn [List.map obj_get]. case_bool_decide; [done|]. apply IH. by apply elem_of_cons in Hk as [->|Hk].
Qed.

Lemma admin_reads config section module ks :
  config_ok config -> mapped_default section module ks ->
  admin_allows section module (mergeWithDefaultSidebarModules (sidebar_value config)) =
  switch_on config section module.
Proof.
  intros [Ho Hm] (Hd & Hn & He & Hmod). unfold admin_allows, switch_on. cbn [get_prop].
  rewrite merge_get, Hd by done. destruct (obj_get section config) as [s|] eqn:Es; cbn [from_option id].
  - assert (Hs : section_ok s).
    { by eapply members_get. }
    cbn [truthy get_prop andb]. rewrite !merge_section_get, !default_on by done.
    by destruct (obj_get (lit "enabled") s) as [[]|], (obj_get module s) as [[]|].
  - cbn [truthy andb switches]. change (VObj (List.map _ ks)) with (switches ks).
    assert (Hon : forall k, k ∈ ks -> get_prop k (switches ks) = VBool true).
    { intros k Hk. pose proof (default_on ks k Hk) as Hon. unfold switches in *. cbn [get_prop spread] in *.
      by rewrite Hon. }
    by rewrite !Hon.
Qed.

(** *** The page opened again *)

Lemma on_get ks k b : obj_get k (switched_on ks) = Some b -> b = true.
Proof.
  induction ks as [|x ks IH]; [done|]. cbn [switched_on List.map obj_get].
  case_bool_decide; [congruence|apply IH].
Qed.

Lemma default_switches section d :
  obj_get section SIDEBAR_MODULES_DEFAULT = Some d -> exists ks, d = switched_on ks /\ NoDup ks.
Proof.
  cbn [SIDEBAR_MODULES_DEFAULT obj_get]. repeat case_bool_decide; intros [= <-];
    match goal with |- exists ks, ?d = _ /\ _ => exists (obj_keys d) end; (split; [reflexivity|units]).
Qed.

Lemma default_section_on section k : default true (obj_get k (default_section section)) = true.
Proof.
  unfold default_section. destruct (obj_get section SIDEBAR_MODULES_DEFAULT) as [d|] eqn:E; cbn [from_option id].
  - destruct (default_switches section d E) as (ks & -> & _).
    destruct (obj_get k (switched_on ks)) as [b|] eqn:Eb; [|done]. by apply on_get in Eb.
  - cbn [obj_get]. by case_bool_decide.
Qed.

Lemma read_section_get name section k :
  section_ok section ->
  obj_get k (read_section name (section_value section)) =
  if k =?= lit "enabled" then Some (default true (obj_get k section)) else obj_get k section.
Proof.
  intros [[Hn _] _]. unfold read_section. rewrite default_section_on, module_prop. unfold section_value. cbn [spread].
  rewrite (obj_fold_get _ (fun k v cur => if k =?= lit "enabled" then cur
    else Some (toBoolean v (default true (obj_get k (default_section name))))));
    [|intros o k1 v k'; cbn [fst snd]; case_bool_decide; subst;
      [|rewrite obj_get_set]; case_bool_decide; by subst|by rewrite keys_map].
  rewrite get_map. cbn [obj_get]. destruct (bool_decide (k = lit "enabled")) eqn:E.
  - apply bool_decide_eq_true_1 in E as ->.
    by destruct (obj_get (lit "enabled") section).
  - by destruct (obj_get k section).
Qed.

Lemma fill_section_get ks section k :
  NoDup ks ->
  obj_get k (fill_section (switched_on ks) section) =
  match obj_get k section with Some b => Some b | None => obj_get k (switched_on ks) end.
Proof.
  intros Hn. unfold fill_section.
  rewrite (obj_fold_get _ (fun _ v cur => match cur with Some b => Some b | None => Some v end)).
  - by destruct (obj_get k section), (obj_get k (switched_on ks)).
  - intros o k1 v k'. cbn [fst snd]. unfold obj_has. destruct (obj_get k1 o) eqn:E; rewrite ?obj_get_set;
      case_bool_decide; by subst.
  - unfold obj_keys, switched_on. rewrite List.map_map. by rewrite List.map_id.
Qed.

Lemma reopened_switch config section module :
  config_ok config ->
  switch_on (fill_sections (read_sections (sidebar_value config))) section module =
  switch_on config section module.
Proof.
  intros [[Hn Hs] Hm]. unfold switch_on, fill_sections.
  rewrite (obj_fold_get _ (fun _ d cur => Some match cur with None => d | Some s => fill_section d s end));
    [|intros o k1 v k'; cbn [fst snd]; destruct (obj_get k1 o); rewrite obj_get_set; by case_bool_decide
     |apply (bool_decide_eq_true_1 _); vm_compute; reflexivity].
  unfold read_sections. rewrite (obj_fold_get _ (fun k v cur =>
    match v with VObj _ | VArr _ => Some (read_section k v) | _ => cur end));
    [|intros o k1 v k'; cbn [fst snd]; destruct v; rewrite ?obj_get_set; case_bool_decide; by subst
     |unfold sidebar_value; cbn [spread]; by rewrite keys_map].
  unfold sidebar_value. cbn [spread]. rewrite get_map.
  destruct (obj_get section config) as [s|] eqn:Es; cbn [fmap option_fmap option_map obj_get].
  - pose proof (members_get _ _ _ _ Hm Es) as Hok. change (section_value s) with (VObj (List.map (fun kv => (kv.1, VBool kv.2)) s)).
    cbn iota. change (VObj (List.map _ s)) with (section_value s).
    destruct (obj_get section SIDEBAR_MODULES_DEFAULT) as [d|] eqn:Ed.
    + destruct (default_switches section d Ed) as (ks & -> & Hks).
      assert (Hget : forall k, default true (obj_get k (fill_section (switched_on ks) (read_section section (section_value s)))) =
        default true (obj_get k s)).
      { intros k. rewrite fill_section_get, read_section_get by done. case_bool_decide; [by subst|].
        destruct (obj_get k s); [done|]. destruct (obj_get k (switched_on ks)) as [b|] eqn:Eb; [|done].
        by apply on_get in Eb as ->. }
      by rewrite !Hget.
    + rewrite !read_section_get by done. rewrite bool_decide_true by done. cbn [from_option id].
      case_bool_decide; [by subst|done].
  - destruct (obj_get section SIDEBAR_MODULES_DEFAULT) as [d|] eqn:Ed; [|done].
    destruct (default_switches section d Ed) as (ks & -> & Hks).
    destruct (obj_get (lit "enabled") (switched_on ks)) as [b|] eqn:Eb, (obj_get module (switched_on ks)) as [b'|] eqn:Eb';
      rewrite ?(on_get _ _ _ Eb), ?(on_get _ _ _ Eb'); done.
Qed.

(** *** What the page reads is a configuration it can write *)

Lemma fold_ordered {V W} (step : list (jstr * V) -> jstr * W -> list (jstr * V)) (P : V -> Prop)
  (l : list (jstr * W)) o :
  (forall o kv, kv ∈ l -> ordered o -> members P o -> ordered (step o kv) /\ members P (step o kv)) ->
  ordered o -> members P o -> ordered (fold_left step l o) /\ members P (fold_left step l o).
Proof.
  revert o. induction l as [|kv l IH]; intros o Hs Ho Hm; [done|]. cbn [fold_left].
  destruct (Hs o kv) as [Ho' Hm']; [by left|done..|]. apply IH; [|done..].
  intros o' kv' Hin. apply Hs. by right.
Qed.

Lemma dec_units n : units_ok (dec_of_N n).
Proof.
  eapply Forall_impl; [apply dec_of_N_digits|]. intros c Hc%is_digit_spec. cbv beta. lia.
Qed.

(** The names [Object.entries] gives are printable. *)
Lemma spread_units v : val_ok v -> members (fun _ => True) (spread v).
Proof.
  destruct v as [| |b|x|t|l|o]; intros Hv; try constructor; cbn [spread].
  - unfold members. apply Forall_lookup. intros i kv Hi. rewrite list_lookup_imap in Hi.
    destruct (t !! i); [|done]. injection Hi as <-. split; [apply dec_units|done].
  - unfold members. apply Forall_lookup. intros i kv Hi. rewrite list_lookup_imap in Hi.
    destruct (l !! i); [|done]. injection Hi as <-. split; [apply dec_units|done].
  - apply val_ok_obj in Hv. eapply Forall_impl; [exact Hv|]. by intros kv [? _].
Qed.

Lemma spread_values v : val_ok v -> Forall (fun kv => val_ok kv.2) (spread v).
Proof.
  destruct v as [| |b|x|t|l|o]; intros Hv; try constructor; cbn [spread].
  - apply Forall_lookup. intros i kv Hi. rewrite list_lookup_imap in Hi.
    destruct (t !! i) as [c|] eqn:E; [|done]. injection Hi as <-. cbn [snd val_ok].
    constructor; [|constructor]. exact (Forall_lookup_1 _ _ _ _ Hv E).
  - apply val_ok_arr in Hv. apply Forall_lookup. intros i kv Hi. rewrite list_lookup_imap in Hi.
    destruct (l !! i) eqn:E; [|done]. injection Hi as <-. exact (Forall_lookup_1 _ _ _ _ Hv E).
  - apply val_ok_obj in Hv. eapply Forall_impl; [exact Hv|]. by intros kv [_ ?].
Qed.

Lemma read_section_ok name raw : val_ok raw -> section_ok (read_section name raw).
Proof.
  intros Hv. apply fold_ordered; [|apply ordered_names; units|repeat constructor; units].
  intros o kv Hin Ho Hm. cbn beta. case_test; [done|]. split; [by apply obj_set_ordered|].
  apply obj_set_members; [|done..]. pose proof (spread_units raw Hv) as Hu.
  unfold members in Hu. rewrite Forall_forall in Hu. by apply Hu.
Qed.

Lemma switched_on_ok ks : ordered (switched_on ks) -> Forall units_ok ks -> section_ok (switched_on ks).
Proof.
  intros Ho Hk. split; [done|]. unfold members, switched_on. induction Hk; constructor; [done|].
  apply IHHk. destruct Ho as [Hn Hs]. cbn [switched_on List.map obj_keys fst] in Hn, Hs.
  apply NoDup_cons in Hn as [_ Hn]. apply StronglySorted_cons in Hs as [_ Hs]. by split.
Qed.

Lemma default_ok : config_ok SIDEBAR_MODULES_DEFAULT.
Proof.
  split.
  - apply ordered_names; units.
  - unfold SIDEBAR_MODULES_DEFAULT.
    repeat (constructor; [split; [units|apply switched_on_ok; [apply ordered_names|]; units]|]).
    constructor.
Qed.

Lemma fill_section_ok d section : section_ok d -> section_ok section -> section_ok (fill_section d section).
Proof.
  intros [_ Hd] [Ho Hm]. apply fold_ordered; [|done..]. intros o kv Hin Ho' Hm'. cbn beta.
  case_test; [done|]. split; [by apply obj_set_ordered|]. apply obj_set_members; [|done..].
  unfold members in Hd. rewrite Forall_forall in Hd. by apply Hd.
Qed.

Lemma page_config_ok value :
  (forall t, value = Some t -> units_ok t) -> config_ok (parseSidebarModulesAdmin value).
Proof.
  intros Hu. unfold parseSidebarModulesAdmin. destruct value as [t|]; [|apply default_ok].
  case_test; [apply default_ok|]. destruct (json_parse t) as [v|] eqn:Ev; [|apply default_ok].
  assert (Hv : val_ok v) by (by eapply json_parse_ok; [|exact Ev]; apply Hu).
  assert (Hread : config_ok (read_sections v)).
  { apply fold_ordered; [|apply ordered_nil|constructor]. intros o kv Hin Ho Hm.
    assert (Hkv : units_ok kv.1 /\ val_ok kv.2).
    { pose proof (spread_units v Hv) as H1. pose proof (spread_values v Hv) as H2.
      unfold members in H1. rewrite Forall_forall in H1, H2. split; [by apply H1|by apply H2]. }
    destruct Hkv as [Hk Hval]. destruct kv as [k w]. cbn [fst snd] in *. destruct w; try done;
      (split; [by apply obj_set_ordered|apply obj_set_members; [done|by apply read_section_ok|done]]). }
  assert (Hfill : config_ok (fill_sections (read_sections v))); [|by destruct v; try apply default_ok].
  destruct default_ok as [_ Hd]. unfold members in Hd. rewrite Forall_forall in Hd.
  apply fold_ordered; [|apply Hread..]. intros o kv Hin Ho Hm. destruct (Hd kv Hin) as [Hk Hs].
  destruct (obj_get kv.1 o) as [sec|] eqn:E; (split; [by apply obj_set_ordered|]); apply obj_set_members; try done.
  apply fill_section_ok; [done|]. by eapply members_get.
Qed.

(** ** Header modules *)

(** Access rules under their two names, switches under every other. *)
Definition shape (k : jstr) (m : Module_) : Prop :=
  match m with
  | Access a => (k = lit "pricing" \/ k = lit "rankings") /\ is_Some (requireAdmin a)
  | Flag _ => k <> lit "pricing" /\ k <> lit "rankings"
  end.

Definition header_ok (config : list (jstr * Module_)) : Prop :=
  ordered config /\ members (fun _ => True) config /\
  (forall k m, obj_get k config = Some m -> shape k m) /\
  (forall k, k ∈ obj_keys HEADER_NAV_DEFAULT -> is_Some (obj_get k config)).

Lemma set_header_ok k m config :
  units_ok k -> shape k m -> header_ok config -> header_ok (obj_set k m config).
Proof.
  intros Hk Hm (Ho & Hu & Hs & Hd). split_and!.
  - by apply obj_set_ordered.
  - by apply obj_set_members.
  - intros k' m'. rewrite obj_get_set. case_bool_decide; [intros [= <-]; by subst|apply Hs].
  - intros k' Hk'. rewrite obj_get_set. case_bool_decide; [by eexists|by apply Hd].
Qed.

Lemma default_header_ok : header_ok HEADER_NAV_DEFAULT.
Proof.
  split_and!.
  - apply ordered_names; units.
  - repeat (constructor; [split; [units|done]|]). constructor.
  - intros k m. cbn [HEADER_NAV_DEFAULT obj_get].
    repeat case_bool_decide; intros [= <-]; subst; cbn [shape requireAdmin]; split; try key_ne; eauto.
  - intros k Hk. by apply obj_keys_get.
Qed.

Lemma access_shape k raw : k = lit "pricing" \/ k = lit "rankings" ->
  shape k (Access (parseAccessModule raw (access_or k (DEFAULTS Pricing) HEADER_NAV_DEFAULT))) /\
  shape k (Access (parseAccessModule raw (access_or k (DEFAULTS Rankings) HEADER_NAV_DEFAULT))).
Proof.
  intros [->| ->]; split; (split; [auto|]); destruct raw; eexists; reflexivity.
Qed.

Lemma read_header_ok config kv : units_ok kv.1 -> header_ok config -> header_ok (Admin.read_member config kv).
Proof.
  destruct kv as [k v]. cbn [fst]. intros Hk Hc. unfold Admin.read_member.
  case_bool_decide as E1; [apply set_header_ok; [done| |done]; apply access_shape; auto|].
  case_bool_decide as E2; [apply set_header_ok; [done| |done]; apply access_shape; auto|].
  by destruct v; try done; apply set_header_ok.
Qed.

(** The page reads a configuration of this shape from any text. *)
Lemma page_header_ok value :
  (forall t, value = Some t -> units_ok t) -> header_ok (Admin.parseHeaderNavModules value).
Proof.
  intros Hu. unfold Admin.parseHeaderNavModules. pose proof default_header_ok as Hd.
  destruct value as [[|c t]|]; try done. destruct (json_parse (c :: t)) as [v|] eqn:Ev; [|done].
  assert (Hv : val_ok v) by (eapply json_parse_ok; [by apply Hu|exact Ev]).
  assert (Hgo : header_ok (fold_left Admin.read_member (spread v) HEADER_NAV_DEFAULT)); [|by destruct v].
  pose proof (spread_units v Hv) as Hs. revert Hd. generalize HEADER_NAV_DEFAULT.
  induction Hs as [|kv l [Hk _] Hs IH]; intros o Ho; [done|]. cbn [fold_left]. apply IH. by apply read_header_ok.
Qed.

Lemma payload_ok config values : header_ok config -> header_ok (header_payload config values).
Proof.
  intros Hc. pose proof Hc as (_ & _ & Hs & Hd).
  assert (Hp : is_Some (requireAdmin (access_or (lit "pricing") (DEFAULTS Pricing) config))).
  { unfold access_or. destruct (Hd (lit "pricing")) as [m Hm]; [units|]. rewrite Hm.
    pose proof (Hs _ _ Hm) as Hshape. destruct m; [by destruct Hshape|apply Hshape]. }
  unfold header_payload, obj_merge. cbn [fold_left fst snd].
  repeat (apply set_header_ok; [units|cbn [shape requireAdmin]; split; solve [key_ne|auto|by eexists]|]). done.
Qed.

Lemma module_normal m : normal (module_value m).
Proof.
  destruct m as [b|[e a [d|]]]; [apply normal_bool|..]; cbn [module_value access_value app enabled requireAuth requireAdmin];
    (apply normal_obj; [apply ordered_names; units|]); repeat constructor; units.
Qed.

Lemma header_text config : header_ok config -> exists c t,
  serializeHeaderNavModules config = c :: t /\ is_ws c = false /\
  json_parse (c :: t) = Some (header_value config).
Proof.
  intros (Ho & Hm & _). assert (Hn : normal (header_value config)).
  { eapply normal_map; [|done..]. intros m _. apply module_normal. }
  destruct (normal_reads _ Hn) as (c & t & Ht & Hc & Hp).
  exists c, t. unfold serializeHeaderNavModules. by rewrite Ht.
Qed.

(** The two readers on a member that a page wrote. *)
Lemma member_read k m fallback : shape k m ->
  match m with
  | Flag b => parseHeaderNavBoolean (module_value m) fallback = b /\ toBoolean (module_value m) fallback = b
  | Access a => forall d, parseAccess (module_value m) d = a /\ parseAccessModule (module_value m) d = a
  end.
Proof. destruct m as [b|[e a [d|]]]; [done| |by intros [_ [? ?]]]. by split. Qed.

Lemma shape_dec k m : shape k m ->
  (k =?= lit "pricing") || (k =?= lit "rankings") = match m with Access _ => true | Flag _ => false end.
Proof.
  destruct m; cbn [shape].
  - intros [H1 H2]. by rewrite !bool_decide_false.
  - intros [[->| ->] _]; reflexivity.
Qed.

(** What one round of either loop leaves under its key. *)
Definition header_member (k : jstr) (v : jsval) (cur : option Module_) : option Module_ :=
  let old d := match cur with Some (Access a) => a | _ => d end in
  if k =?= lit "pricing" then Some (Access (parseAccess v (old (DEFAULTS Pricing))))
  else if k =?= lit "rankings" then Some (Access (parseAccess v (old (DEFAULTS Rankings))))
  else
    match cur, v with
    | Some (Flag f), _ => Some (Flag (parseHeaderNavBoolean v f))
    | _, (VBool _ | VNum _ | VStr _) => Some (Flag (parseHeaderNavBoolean v true))
    | _, _ => cur
    end.

Definition page_member (k : jstr) (v : jsval) (cur : option Module_) : option Module_ :=
  let old d := access_or k d HEADER_NAV_DEFAULT in
  if k =?= lit "pricing" then Some (Access (parseAccessModule v (old (DEFAULTS Pricing))))
  else if k =?= lit "rankings" then Some (Access (parseAccessModule v (old (DEFAULTS Rankings))))
  else
    match v with
    | VBool b => Some (Flag b)
    | VStr _ | VNum _ => Some (Flag (toBoolean v (base_switch k)))
    | _ => cur
    end.

Lemma header_round o k v k' :
  obj_get k' (Header.read_member o (k, v)) = if k' =?= k then header_member k v (obj_get k o) else obj_get k' o.
Proof.
  unfold Header.read_member, header_member, access_or.
  destruct (bool_decide (k = lit "pricing")); [apply obj_get_set|].
  destruct (bool_decide (k = lit "rankings")); [apply obj_get_set|].
  destruct (obj_get k o) as [[f|a]|] eqn:E; [apply obj_get_set|..];
    destruct v; rewrite ?obj_get_set; case_bool_decide; by subst.
Qed.

Lemma page_round o k v k' :
  obj_get k' (Admin.read_member o (k, v)) = if k' =?= k then page_member k v (obj_get k o) else obj_get k' o.
Proof.
  unfold Admin.read_member, page_member.
  destruct (bool_decide (k = lit "pricing")); [apply obj_get_set|].
  destruct (bool_decide (k = lit "rankings")); [apply obj_get_set|].
  destruct v; rewrite ?obj_get_set; case_bool_decide; by subst.
Qed.

(** Both give back a member that a page wrote, whatever was there before. *)
Lemma written_member k m cur :
  shape k m -> header_member k (module_value m) cur = Some m /\ page_member k (module_value m) cur = Some m.
Proof.
  intros Hs. pose proof (shape_dec k m Hs) as Hd. pose proof (fun f => member_read k m f Hs) as Hr.
  unfold header_member, page_member. destruct m as [b|a].
  - apply orb_false_iff in Hd as [-> ->]. split; [|done].
    destruct cur as [[f|a]|]; cbn [module_value]; done.
  - specialize (Hr true). cbn beta iota in Hr. destruct (bool_decide (k = lit "pricing")).
    + by rewrite (proj1 (Hr _)), (proj2 (Hr _)).
    + cbn [orb] in Hd. by rewrite Hd, (proj1 (Hr _)), (proj2 (Hr _)).
Qed.

Lemma header_loops config k :
  header_ok config ->
  obj_get k (fold_left Header.read_member (spread (header_value config)) DEFAULT_HEADER_NAV_MODULES) =
    obj_get k config /\
  obj_get k (fold_left Admin.read_member (spread (header_value config)) HEADER_NAV_DEFAULT) =
    obj_get k config.
Proof.
  intros ([Hn _] & _ & Hs & Hd). unfold header_value. cbn [spread].
  rewrite (obj_fold_get _ header_member), (obj_fold_get _ page_member), get_map
    by (try (by rewrite keys_map); auto using header_round, page_round).
  destruct (obj_get k config) as [m|] eqn:E; cbn [fmap option_fmap option_map].
  - split; by apply written_member, Hs.
  - enough (Hnone : obj_get k HEADER_NAV_DEFAULT = None) by (by split).
    destruct (obj_get k HEADER_NAV_DEFAULT) eqn:E1; [|done].
    destruct (Hd k) as [? ?]; [apply obj_keys_get; by eexists|congruence].
Qed.

(** A saved header configuration, read by the header and by the page. *)
Lemma header_reads config k :
  header_ok config ->
  obj_get k (Header.parseHeaderNavModules (VStr (serializeHeaderNavModules config))) = obj_get k config /\
  obj_get k (Admin.parseHeaderNavModules (Some (serializeHeaderNavModules config))) = obj_get k config.
Proof.
  intros Hc. destruct (header_text config Hc) as (c & t & -> & Hws & Hp).
  unfold Header.parseHeaderNavModules, parseHeaderNavRecord, Admin.parseHeaderNavModules.
  change (string_of_val (VStr (c :: t))) with (c :: t). cbn [truthy truthy_str negb orb].
  rewrite bool_decide_false by (by apply trim_head_ne). rewrite Hp. cbn [from_option id].
  by apply header_loops.
Qed.

Lemma form_ext c c' : (forall k, obj_get k c = obj_get k c') -> toFormValues c = toFormValues c'.
Proof. intros H. unfold toFormValues, switch_or, access_or. by rewrite !H. Qed.

Lemma form_payload config values : toFormValues (header_payload config values) = values.
Proof.
  unfold toFormValues, header_payload, switch_or, access_or, obj_merge. cbn [fold_left fst snd].
  rewrite !obj_get_set. destruct values. reflexivity.
Qed.

Lemma set_same {V} k (v : V) o : obj_get k o = Some v -> obj_set k v o = o.
Proof.
  intros Hk. unfold obj_set, obj_has. rewrite Hk. revert Hk. induction o as [|[k1 v1] o IH]; [done|].
  cbn [obj_get obj_update]. case_bool_decide; [congruence|]. intros H1. by rewrite IH.
Qed.

(** A form that shows the configuration writes it. *)
Lemma payload_same config : header_ok config -> header_payload config (toFormValues config) = config.
Proof.
  intros (_ & _ & Hs & Hd). unfold header_payload, toFormValues, switch_or, access_or, obj_merge.
  cbn [fold_left fst snd home console docs about pricingEnabled pricingRequireAuth rankingsEnabled
    rankingsRequireAuth rankingsRequireAdmin].
  assert (Hg : forall k, k ∈ obj_keys HEADER_NAV_DEFAULT ->
    exists m, obj_get k config = Some m /\ shape k m).
  { intros k Hk. destruct (Hd k Hk) as [m Hm]. eauto. }
  destruct (Hg (lit "home")) as ([b1|?] & E1 & S1); [units| |by destruct S1 as [[?|?] _]].
  destruct (Hg (lit "console")) as ([b2|?] & E2 & S2); [units| |by destruct S2 as [[?|?] _]].
  destruct (Hg (lit "docs")) as ([b3|?] & E3 & S3); [units| |by destruct S3 as [[?|?] _]].
  destruct (Hg (lit "about")) as ([b4|?] & E4 & S4); [units| |by destruct S4 as [[?|?] _]].
  destruct (Hg (lit "pricing")) as ([?|[e5 a5 d5]] & E5 & S5); [units|by destruct S5|].
  destruct (Hg (lit "rankings")) as ([?|[e6 a6 d6]] & E6 & S6); [units|by destruct S6|].
  destruct S6 as [_ [d Hd6]]. cbn [requireAdmin] in Hd6. subst d6. rewrite E1, E2, E3, E4, E5, E6. cbn [enabled requireAuth requireAdmin from_option id].
  by do 6 rewrite (set_same _ _ config) by done.
Qed.

End Saved.

(** ** Theorems *)

Import Header Admin Sidebar Saved.

(** The header page.  Whatever is stored, the text written for the form's
    values is read by the header as exactly the written configuration, key by key;
    the page opened on that text shows the values again; and nothing is sent
    exactly when the form shows what is stored. *)
Theorem header_saved_shown stored values :
  (forall t, stored = Some t -> units_ok t) ->
  let config := Admin.parseHeaderNavModules stored in
  let payload := header_payload config values in
  let text := serializeHeaderNavModules payload in
  (forall k, obj_get k (Header.parseHeaderNavModules (VStr text)) = obj_get k payload) /\
  toFormValues (Admin.parseHeaderNavModules (Some text)) = values /\
  (header_onSubmit config (serializeHeaderNavModules config) values = None <-> toFormValues config = values).
Proof.
  intros Hu config payload text.
  assert (Hc : header_ok config) by (by apply page_header_ok).
  assert (Hp : header_ok payload) by (by apply payload_ok).
  split_and!.
  - intros k. by apply header_reads.
  - rewrite (form_ext _ payload); [apply form_payload|]. intros k. by apply header_reads.
  - unfold header_onSubmit. fold payload. case_bool_decide as E; split; try done; intros H.
    + rewrite <- (form_payload config values). apply form_ext. intros k.
      destruct (header_reads config k Hc) as [<- _], (header_reads payload k Hp) as [H1 _].
      by rewrite <- E, H1.
    + exfalso. apply E. unfold payload. by rewrite <- H, payload_same.
Qed.

Lemma header_saved_shown_witness :
  let stored := Some (lit "{}") in
  let values := MkHeaderForm true false true true false false true true true in
  (forall t, stored = Some t -> units_ok t) /\
  toFormValues (Admin.parseHeaderNavModules
    (Some (serializeHeaderNavModules (header_payload (Admin.parseHeaderNavModules stored) values)))) = values.
Proof.
  split; [intros t [= <-]; units|]. apply (header_saved_shown (Some (lit "{}"))). intros t [= <-]. units.
Defined.

(** The user's own layer hides a module by switching off its section or itself; a
    layer without the section, and no layer at all, hides nothing. *)
Definition hidden_by_user (userConfig : option jsval) (section module : jstr) : Prop :=
  exists own, userConfig = Some own /\ truthy (get_prop section own) = true /\
    (get_prop (lit "enabled") (get_prop section own) = VBool false \/
     get_prop module (get_prop section own) = VBool false).

Lemma user_hides userConfig section module :
  user_allows section module userConfig = false <-> hidden_by_user userConfig section module.
Proof.
  unfold user_allows, hidden_by_user. destruct userConfig as [own|]; [|split; [done|by intros (? & [=] & _)]].
  assert (Hf : forall v, is_false v = true <-> v = VBool false) by (by intros [| |[]| | | |]).
  split.
  - destruct (truthy (get_prop section own)) eqn:Et; cbn [negb]; [|done].
    intros H. exists own. split_and!; [done|done|].
    destruct (is_false (get_prop (lit "enabled") _)) eqn:Ee; [left|right]; apply Hf; [done|].
    by apply negb_false_iff.
  - intros (own' & [= <-] & -> & H). cbn [negb]. rewrite <- !Hf in H.
    destruct H as [-> | ->]; [done|]. by case_test.
Qed.


(** The page after the dashboard was switched off. *)
Definition sample_config : SidebarModulesAdminConfig :=
  obj_set (lit "console") (obj_set (lit "detail") false (default [] (obj_get (lit "console") SIDEBAR_MODULES_DEFAULT)))
    SIDEBAR_MODULES_DEFAULT.

Lemma sample_config_ok : config_ok sample_config.
Proof.
  destruct default_ok as [Ho Hm]. split; [by apply obj_set_ordered|]. apply obj_set_members; [units| |done].
  split; [apply obj_set_ordered, ordered_names; units|]. apply obj_set_members; [units|done|].
  repeat constructor; units.
Qed.


(** The cached status.  After a status arrives and is cached, the access of a
    module read from the cache is the one returned, and a later failing request
    falls back to it; a failing request leaves the cache as it is. *)
Theorem cached_access_agrees status m storage :
  normal status -> truthy status = true ->
  let '(access, storage') := getFreshModuleAccess true (Some status) m storage in
  getModuleAccess storage' m = access /\
  (forall writable, getFreshModuleAccess writable None m storage' = (access, storage')).
Proof.
  intros Hn Ht. destruct (normal_reads status Hn) as (c & t & Hs & _ & Hp).
  cbn [getFreshModuleAccess]. unfold cacheStatus, getModuleAccess. rewrite Ht, Hs. cbn [andb getCachedStatus].
  rewrite Hp. done.
Qed.

Definition sample_status : jsval :=
  VObj [(lit "HeaderNavModules", VStr (jq "{'pricing':false}")); (lit "version", VStr (lit "v1"))].

Lemma sample_status_normal : normal sample_status.
Proof.
  apply normal_obj; [apply ordered_names; units|].
  repeat (constructor; [split; [units|apply normal_str; units]|]). constructor.
Qed.

Lemma cached_access_agrees_witness :
  normal sample_status /\ getModuleAccess (cacheStatus true sample_status None) Pricing =
  getModuleAccessFromStatus sample_status Pricing.
Proof.
  split; [apply sample_status_normal|].
  apply (cached_access_agrees sample_status Pricing None sample_status_normal). reflexivity.
Defined.

(** ** The sidebar a user sees *)

(** The items of the groups on display. *)
Definition displayed (stored : option jstr) (user : option User) (groups : list NavGroup) : list NavItem :=
  List.flat_map items (currentNavGroups user (useSidebarConfig stored user groups)).

(** Some page of the link is allowed by both layers; a page without an entry in
    the table always is. *)
Definition link_allowed (stored : option jstr) (user : option User) (base : BaseNavItem) (url : jstr) : Prop :=
  exists u, u ∈ default [url] (configUrls base) /\
    forall section module, obj_get u URL_TO_CONFIG_MAP = Some (section, module) ->
      admin_allows section module (parseSidebarConfig stored) = true /\
      user_allows section module (user_layer user) = true.

Lemma module_enabled u a l :
  isModuleEnabled u a l = true <->
  forall section module, obj_get u URL_TO_CONFIG_MAP = Some (section, module) ->
    admin_allows section module a = true /\ user_allows section module l = true.
Proof.
  unfold isModuleEnabled. destruct (obj_get u URL_TO_CONFIG_MAP) as [[s m]|]; [|done].
  destruct (admin_allows s m a) eqn:Ea; cbn [negb].
  - split; [intros Hu ? ? [= <- <-]; done|]. intros H. by apply (H s m).
  - split; [done|]. intros H. destruct (H s m eq_refl). congruence.
Qed.

Lemma displayed_elem stored user groups item :
  item ∈ displayed stored user groups <->
  exists g item0, g ∈ groups /\ item0 ∈ items g /\
    item = filter_sub_items (parseSidebarConfig stored) (user_layer user) item0 /\
    isNavItemVisible (parseSidebarConfig stored) (user_layer user) item = true /\
    (requiresActiveVvip (base_of item) = true -> activeVvip user = true) /\
    (group_id g = Some (lit "admin") -> is_admin user = true).
Proof.
  unfold displayed, currentNavGroups, useSidebarConfig. set (a := parseSidebarConfig stored). set (l := user_layer user).
  rewrite list_elem_of_In, in_flat_map. split.
  - intros (g' & Hg' & Hitem). apply filter_In in Hg' as [Hg' Hrole]. apply filter_In in Hg' as [Hg' _].
    apply in_map_iff in Hg' as (g & <- & Hg). cbn [items group_id] in *.
    apply filter_In in Hitem as [Hitem Hvip]. unfold filterNavItems in Hitem.
    apply filter_In in Hitem as [Hitem Hvis]. apply in_map_iff in Hitem as (item0 & <- & Hi).
    exists g, item0. rewrite !list_elem_of_In. split_and!; try done.
    + intros Hr. by rewrite Hr in Hvip.
    + intros Hid. by rewrite Hid, bool_decide_true in Hrole.
  - intros (g & item0 & Hg & Hi & -> & Hvis & Hvip & Hrole). apply list_elem_of_In in Hg, Hi.
    set (shown := List.filter (fun item => negb (requiresActiveVvip (base_of item)) || activeVvip user)
                    (filterNavItems a l (items g))).
    assert (Hin : In (filter_sub_items a l item0) shown).
    { apply filter_In. split.
      - apply filter_In. split; [by apply in_map|done].
      - destruct (requiresActiveVvip _); [by rewrite Hvip|done]. }
    exists (MkGroup (group_id g) (group_title g) shown). split; [|exact Hin].
    apply filter_In. cbn [group_id items]. split; [|case_bool_decide; auto]. apply filter_In. split.
    + apply in_map_iff. by exists g.
    + cbn [items]. by destruct shown.
Qed.

(** The links of the sidebar.  A link is displayed exactly when a group has
    it, its administrator group is only for administrators, a link for active
    partners is only for them, and one of its pages is allowed by the
    administrator's configuration and not hidden by the user's own. *)
Theorem sidebar_links_exact stored user groups base url :
  url <> [] ->
  NavLink base url ∈ displayed stored user groups <->
  exists g, g ∈ groups /\ NavLink base url ∈ items g /\
    (group_id g = Some (lit "admin") -> is_admin user = true) /\
    (requiresActiveVvip base = true -> activeVvip user = true) /\
    link_allowed stored user base url.
Proof.
  intros Hurl. rewrite displayed_elem.
  assert (Hvis : isNavItemVisible (parseSidebarConfig stored) (user_layer user) (NavLink base url) = true <->
    link_allowed stored user base url).
  { cbn [isNavItemVisible]. destruct url as [|c t]; [done|]. cbn [truthy_str].
    rewrite existsb_exists. unfold link_allowed. split.
    - intros (u & Hu & He). exists u. rewrite list_elem_of_In. by rewrite <- module_enabled.
    - intros (u & Hu & He). exists u. rewrite <- list_elem_of_In. by rewrite module_enabled. }
  split.
  - intros (g & item0 & Hg & Hi & Heq & Hv & Hvip & Hrole). exists g. destruct item0; simplify_eq/=.
    by rewrite <- Hvis.
  - intros (g & Hg & Hi & Hrole & Hvip & Hl). exists g, (NavLink base url). by rewrite Hvis.
Qed.

Lemma sidebar_links_exact_witness :
  let groups := buildSidebarData (fun t => t) in
  let user := Some (MkUser (Some (num_of_Z 1)) false None None None) in
  lit "/keys" <> [] /\
  NavLink (MkBase (lit "API Keys") None false) (lit "/keys") ∈ displayed None user groups.
Proof.
  split; [done|]. apply (sidebar_links_exact None (Some (MkUser (Some (num_of_Z 1)) false None None None))); [done|].
  eexists. split; [right; left|]. split; [right; right; left|].
  split; [intros H; discriminate H|]. split; [intros H; discriminate H|].
  exists (lit "/keys"). split; [left|]. intros s m [= <- <-]. by split; vm_compute.
Defined.

(** ** The user's switches and the sidebar *)

Import Card.

(** A page of the card: the initial state, a stored configuration that was
    loaded, the defaults, and switches flipped from there.  A stored text [null]
    is left out: drawing it throws. *)
Inductive card_state : jsval -> Prop :=
| card_initial : card_state (VObj [])
| card_load answer c : val_ok answer -> keys_ok answer -> loadConfig answer = Some c -> c <> VNull -> card_state c
| card_toggle section ms m b c : (section, ms) ∈ sectionDefs -> m ∈ lit "enabled" :: ms ->
    card_state c -> card_state (toggleModule section m b c)
| card_reset : card_state handleReset.

Lemma get_prop_ok k v : val_ok v -> keys_ok v -> val_ok (get_prop k v) /\ keys_ok (get_prop k v).
Proof.
  intros Hv Hk. destruct v as [| |b|x|t|l|o]; try done. cbn [get_prop].
  apply val_ok_obj in Hv. apply keys_ok_obj in Hk as [_ Hk].
  destruct (obj_get k o) as [v|] eqn:E; [|done]. cbn [from_option id].
  induction o as [|[k1 v1] o IH]; [done|]. cbn [obj_get] in E.
  inversion_clear Hv as [|? ? [H1 H2] H3]. inversion_clear Hk as [|? ? H4 H5].
  revert E. case_bool_decide; [by intros [= <-]|]. intros E. by apply IH.
Qed.

Lemma dec_of_N_inj a b : dec_of_N a = dec_of_N b -> a = b.
Proof. intros H. by rewrite <- (dec_value_of_N a), <- (dec_value_of_N b), H. Qed.

Lemma index_key_dec n : index_key (dec_of_N n) = if n <? 4294967295 then Some n else None.
Proof.
  unfold index_key. rewrite is_decimal_of_N, dec_value_of_N, bool_decide_true by done. done.
Qed.

(** The entries of an array or a string are in property order. *)
Lemma imap_ordered {A} (f : A -> jsval) (l : list A) :
  ordered (imap (fun i x => (dec_of_N (N.of_nat i), f x)) l).
Proof.
  assert (Hkeys : forall n, exists ks, obj_keys (imap (fun i x => (dec_of_N (N.of_nat (n + i)), f x)) l) =
    List.map (fun i => dec_of_N (N.of_nat i)) ks /\ StronglySorted lt ks /\ Forall (fun i => (n <= i)%nat) ks).
  { induction l as [|x l IH]; intros n; [exists []; repeat constructor|].
    destruct (IH (S n)) as (ks & Hk & Hs & Hf). exists (n :: ks). cbn [imap obj_keys List.map fst].
    rewrite Nat.add_0_r. split_and!.
    - f_equal. rewrite <- Hk. unfold obj_keys. f_equal. apply imap_ext. intros i y _. cbn.
      by rewrite Nat.add_succ_r.
    - apply StronglySorted_cons. split; [|done]. eapply Forall_impl; [exact Hf|]. intros i. cbn. lia.
    - constructor; [lia|]. eapply Forall_impl; [exact Hf|]. intros i. cbn. lia. }
  destruct (Hkeys 0%nat) as (ks & Hk & Hs & _). cbn [Nat.add] in Hk.
  unfold ordered. rewrite Hk. clear -Hs. split.
  - induction Hs as [|x l Hs IH Hf]; cbn [List.map]; constructor; [|done].
    intros Hin. apply list_elem_of_In, in_map_iff in Hin as (i & Hi%dec_of_N_inj & Hin).
    apply list_elem_of_In in Hin. rewrite Forall_forall in Hf. specialize (Hf i Hin). lia.
  - induction Hs as [|x l Hs IH Hf]; [constructor|]. cbn [List.map]. apply StronglySorted_cons. split; [|done].
    rewrite Forall_forall in Hf. apply Forall_forall. intros y Hy.
    apply list_elem_of_In, in_map_iff in Hy as (i & <- & Hi). apply list_elem_of_In in Hi. specialize (Hf i Hi).
    unfold follows. rewrite !index_key_dec. repeat case_test; try done; rewrite ?N.ltb_lt, ?N.ltb_ge in *; lia.
Qed.

Lemma spread_ok v : val_ok v -> keys_ok v -> val_ok (VObj (spread v)) /\ keys_ok (VObj (spread v)).
Proof.
  intros Hv Hk. split.
  - apply val_ok_obj. pose proof (spread_units v Hv) as H1. pose proof (spread_values v Hv) as H2.
    unfold members in H1. rewrite Forall_forall in *. intros kv Hin. split; [by apply H1|by apply H2].
  - destruct v as [| |b|x|t|l|o]; cbn [spread]; try (apply keys_ok_obj; split; [apply ordered_nil|constructor]); [..|done].
    + apply keys_ok_obj. split; [apply (imap_ordered (fun c => VStr [c]))|].
      apply Forall_lookup. intros i kv Hi. rewrite list_lookup_imap in Hi. destruct (t !! i); [|done].
      by injection Hi as <-.
    + apply keys_ok_obj. split; [apply (imap_ordered id)|]. apply keys_ok_arr in Hk.
      apply Forall_lookup. intros i kv Hi. rewrite list_lookup_imap in Hi. destruct (l !! i) as [x|] eqn:E; [|done].
      injection Hi as <-. cbn [snd]. exact (Forall_lookup_1 _ _ _ _ Hk E).
Qed.

Lemma set_ok k v o :
  units_ok k -> val_ok v -> keys_ok v -> val_ok (VObj o) /\ keys_ok (VObj o) ->
  val_ok (VObj (obj_set k v o)) /\ keys_ok (VObj (obj_set k v o)).
Proof.
  intros Hu Hv Hk [Ho1 Ho2]. split; [by apply obj_set_ok|]. apply keys_ok_obj in Ho2 as [H1 H2].
  apply keys_ok_obj. split; [by apply obj_set_ordered|by apply obj_set_values].
Qed.

Lemma card_defaults_ok : val_ok card_defaults /\ keys_ok card_defaults.
Proof.
  assert (H : normal card_defaults /\ keys_ok card_defaults); [|by destruct H as [[? _] ?]]. split.
  - apply normal_obj; [apply ordered_names; units|].
    repeat (constructor; [split; [units|apply normal_obj; [apply ordered_names; units|repeat constructor; units]]|]).
    constructor.
  - apply keys_ok_obj. split; [apply ordered_names; units|].
    repeat (constructor; [apply keys_ok_obj; split; [apply ordered_names; units|repeat constructor]|]). constructor.
Qed.

Lemma card_ok c : card_state c -> val_ok c /\ keys_ok c.
Proof.
  induction 1 as [|answer c Hv Hk Hload _|section ms m b c Hs Hm _ [IHv IHk]|]; [..|apply card_defaults_ok].
  - split; [done|]. apply keys_ok_obj. split; [apply ordered_nil|constructor].
  - unfold loadConfig in Hload. destruct (get_prop_ok (lit "data") answer Hv Hk) as [H1 H2].
    destruct (get_prop_ok (lit "sidebar_modules") _ H1 H2) as [H3 H4].
    case_test; [|injection Hload as <-; apply card_defaults_ok].
    destruct (get_prop (lit "sidebar_modules") _) eqn:E; try (injection Hload as <-; done).
    by eapply json_parse_ok; [|exact Hload].
  - assert (Hu : units_ok section /\ units_ok m).
    { revert Hs Hm. unfold sectionDefs. intros Hs Hm.
      assert (Hall : Forall (fun d : jstr * list jstr => Forall units_ok (d.1 :: lit "enabled" :: d.2)) sectionDefs) by units.
      rewrite Forall_forall in Hall. specialize (Hall _ Hs). cbn [fst snd] in Hall.
      inversion_clear Hall as [|? ? H1 H2]. split; [done|]. rewrite Forall_forall in H2. by apply H2. }
    destruct Hu as [Hu1 Hu2]. destruct (get_prop_ok section c IHv IHk) as [H1 H2].
    destruct (set_ok m (VBool b) (spread (get_prop section c)) Hu2 I I) as [H3 H4]; [by apply spread_ok|].
    unfold toggleModule. by apply set_ok; [..|apply spread_ok].
Qed.

(** Reading a property of what was saved. *)
Lemma norm_prop k v w :
  keys_ok v -> json_norm v = Some w -> get_prop k w = default VUndef (json_norm (get_prop k v)).
Proof.
  intros Hk Hw. destruct v as [| |b|x|t|l|o]; try (by injection Hw as <-); try done.
  - injection Hw as <-. by destruct x.
  - pose proof Hw as Hw'. cbn [json_norm] in Hw'. injection Hw' as <-.
    apply keys_ok_obj in Hk as [Ho _]. cbn [get_prop]. rewrite (norm_get o _ k Ho Hw).
    by destruct (obj_get k o).
Qed.

Lemma norm_false v : is_false (default VUndef (json_norm v)) = is_false v.
Proof. by destruct v as [| |b|[]|t|l|o]. Qed.

Lemma norm_nested_false k v :
  keys_ok v -> is_false (get_prop k (default VUndef (json_norm v))) = is_false (get_prop k v).
Proof.
  intros Hk. destruct (json_norm v) as [w|] eqn:E; cbn [from_option id].
  - by rewrite (norm_prop k v w), norm_false.
  - by destruct v.
Qed.

Lemma falsy_prop k v : truthy v = false -> get_prop k v = VUndef.
Proof. by destruct v. Qed.

(** The user's layer, read from what the card saved. *)
Lemma saved_layer c section module :
  val_ok c -> keys_ok c ->
  user_allows section module (parseUserSidebarConfig (Some (save_text c))) =
  section_checked c section && module_checked c section module.
Proof.
  intros Hv Hk. unfold save_text, section_checked, module_checked.
  destruct (get_prop_ok section c Hv Hk) as [_ Hks].
  destruct (stringify c) as [t|] eqn:Et; cbn [from_option id]; [|by destruct c].
  pose proof (json_roundtrip c t Hv Et) as Hp. rewrite stringify_render in Et.
  destruct (render_head None c t Hv Et) as (x & t' & -> & Hx%value_head_ws).
  assert (Hobj : user_allows section module (json_norm c) =
    negb (is_false (get_prop (lit "enabled") (get_prop section c))) &&
    negb (is_false (get_prop module (get_prop section c)))).
  { destruct (json_norm c) as [w|] eqn:Ew; [|apply (norm_none None) in Ew; congruence].
    cbn [user_allows]. rewrite (norm_prop section c w) by done.
    rewrite <- (norm_nested_false (lit "enabled") (get_prop section c)) by done.
    rewrite <- (norm_nested_false module (get_prop section c)) by done.
    destruct (truthy (default VUndef (json_norm (get_prop section c)))) eqn:Etr; cbn [negb].
    - by destruct (is_false _).
    - by rewrite !falsy_prop. }
  unfold parseUserSidebarConfig. rewrite bool_decide_false by (by apply trim_head_ne).
  rewrite Hp. rewrite <- Hobj. by destruct c as [| |b|[]|s|l|o].
Qed.

(** The user's own switches.  After the card is saved, a module the
    administrator allows is shown exactly when the card draws the switches of its
    section and of the module as on, and a module the administrator forbids stays
    hidden; a refused save changes nothing, and a user who may not configure the
    sidebar is not narrowed. *)
Theorem card_decides c u stored url section module :
  card_state c -> obj_get url URL_TO_CONFIG_MAP = Some (section, module) ->
  let shown user := isModuleEnabled url (parseSidebarConfig stored) (user_layer user) in
  let allowed := admin_allows section module (parseSidebarConfig stored) in
  shown (handleSave true c (Some u)) =
    allowed && (bool_decide (sidebar_settings u = Some false) ||
                (section_checked c section && module_checked c section module)) /\
  shown (handleSave false c (Some u)) = shown (Some u).
Proof.
  intros Hc Hurl shown allowed. split; [|done]. destruct (card_ok c Hc) as [Hv Hk].
  subst shown allowed. cbn beta. unfold isModuleEnabled. rewrite Hurl.
  destruct (admin_allows section module (parseSidebarConfig stored)); [|done]. cbn [negb andb].
  cbn [handleSave user_layer sidebar_settings sidebar_modules].
  destruct (bool_decide (sidebar_settings u = Some false)); [done|]. by apply saved_layer.
Qed.

Lemma card_decides_witness :
  let c := toggleModule (lit "console") (lit "token") false card_defaults in
  let u := MkUser (Some (num_of_Z 1)) false None None None in
  card_state c /\
  isModuleEnabled (lit "/keys") (parseSidebarConfig None) (user_layer (handleSave true c (Some u))) = false.
Proof.
  assert (Hc : card_state (toggleModule (lit "console") (lit "token") false card_defaults)).
  { eapply card_toggle; [right; left|right; right; left|apply card_reset]. }
  split; [exact Hc|].
  rewrite (proj1 (card_decides _ (MkUser (Some (num_of_Z 1)) false None None None) None
    (lit "/keys") (lit "console") (lit "token") Hc eq_refl)). vm_compute. reflexivity.
Defined.

(** The page reads [1] as a switch that is on, and so does the route guard; the
    sidebar asks for [true]: a configuration that was not written by the page can
    be shown as allowed and be hidden. *)
Theorem numeric_switch_disagrees :
  let text := jq "{'console':{'detail':1}}" in
  switch_on (parseSidebarModulesAdmin (Some text)) (lit "console") (lit "detail") = true /\
  isSidebarModuleEnabled (stringify (VObj [(lit "SidebarModulesAdmin", VStr text)]))
    (lit "console") (lit "detail") = true /\
  isModuleEnabled (lit "/dashboard/overview") (parseSidebarConfig (Some text)) None = false.
Proof. vm_compute. auto. Qed.
