(* ===== verification/TableUrl.v ===== *)
(** * Table state in the URL

    [src/web/default/src/hooks/use-table-url-state.ts]: page, page size, global
    filter and column filters of a table live in the search parameters of its
    route.  A handler computes the next parameters from the previous ones; the
    state shown is read from the parameters.  The router delivers the parameters a
    handler asked for; when nothing changed it may deliver the same object, and
    then the effect that reads the column filters does not run ([fresh = false]). *)

From S2P Require Import Prelude.
From S2P Require Import JsString.
From S2P Require Import JsNumber.
From S2P Require Import JsValue.

Local Open Scope N_scope.

(** ** Configuration and state *)

Record ColumnConfig := MkColumn {
  columnId : jstr;
  searchKey : jstr;
  is_string : bool;
  serialize : option (jsval -> jsval);
  deserialize : option (jsval -> jsval)
}.

Record Params := MkParams {
  pageKey : jstr;
  pageSizeKey : jstr;
  defaultPage : num;
  defaultPageSize : num;
  globalFilterKey : jstr;
  globalFilterEnabled : bool;
  trimGlobal : bool;
  columnFiltersCfg : list ColumnConfig
}.

(** The parameters of [params] that were left out. *)
Definition default_params (columns : list ColumnConfig) : Params :=
  MkParams (lit "page") (lit "pageSize") (num_of_Z 1) (num_of_Z 20) (lit "filter") true true columns.

Record PaginationState := MkPage {
  pageIndex : num;
  pageSize : num
}.

Record Table := MkTable {
  search : jsobj;
  columnFilters : list (jstr * jsval);
  globalFilter : option jstr
}.

(** [v ?? d]. *)
Definition nullish_or (v d : jsval) : jsval := if is_nullish v then d else v.

Section Hook.
Variable params : Params.

(** The filter one column reads from the parameters. *)
Definition read_column (s : jsobj) (cfg : ColumnConfig) : option (jstr * jsval) :=
  let raw := get_prop (searchKey cfg) (VObj s) in
  let value := default id (deserialize cfg) raw in
  if is_string cfg then
    match nullish_or value (VStr []) with
    | VStr t => if trim t =?= [] then None else Some (columnId cfg, VStr t)
    | _ => None
    end
  else
    match nullish_or value (VArr []) with
    | VArr (x :: l) => Some (columnId cfg, VArr (x :: l))
    | _ => None
    end.

Definition initialColumnFilters (s : jsobj) : list (jstr * jsval) :=
  omap (read_column s) (columnFiltersCfg params).

(** [typeof raw === 'number' ? raw : d]. *)
Definition number_or (raw : jsval) (d : num) : num := match raw with VNum x => x | _ => d end.

Definition pagination (s : jsobj) : PaginationState :=
  let pageNum := number_or (get_prop (pageKey params) (VObj s)) (defaultPage params) in
  MkPage (num_max num_zero (num_sub pageNum (num_of_Z 1)))
    (number_or (get_prop (pageSizeKey params) (VObj s)) (defaultPageSize params)).

Definition initialGlobalFilter (s : jsobj) : option jstr :=
  if globalFilterEnabled params then
    Some (match get_prop (globalFilterKey params) (VObj s) with VStr t => t | _ => [] end)
  else None.

(** ** Handlers: the next search parameters *)

Definition onPaginationChange (next : PaginationState) (prev : jsobj) : jsobj :=
  let nextPage := num_add (pageIndex next) (num_of_Z 1) in
  obj_merge prev
    [(pageKey params, if num_leb nextPage (defaultPage params) then VUndef else VNum nextPage);
     (pageSizeKey params,
      if num_eqb (pageSize next) (defaultPageSize params) then VUndef else VNum (pageSize next))].

Definition global_value (next : jstr) : jstr := if trimGlobal params then trim next else next.

Definition onGlobalFilterChange (next : jstr) (prev : jsobj) : jsobj :=
  let value := global_value next in
  obj_merge prev
    [(pageKey params, VUndef);
     (globalFilterKey params, if truthy_str value then VStr value else VUndef)].

(** What one column writes into the parameters. *)
Definition column_patch (next : list (jstr * jsval)) (cfg : ColumnConfig) : jsval :=
  let found := obj_get (columnId cfg) next in
  let write := default id (serialize cfg) in
  if is_string cfg then
    let value := match found with Some (VStr t) => t | _ => [] end in
    if trim value =?= [] then VUndef else write (VStr value)
  else
    match found with
    | Some (VArr (x :: l)) => write (VArr (x :: l))
    | _ => VUndef
    end.

Definition onColumnFiltersChange (next : list (jstr * jsval)) (prev : jsobj) : jsobj :=
  let patch := fold_left (fun p cfg => obj_set (searchKey cfg) (column_patch next cfg) p)
                 (columnFiltersCfg params) [] in
  obj_merge (obj_set (pageKey params) VUndef prev) patch.

Inductive ResetTo := First | Last.

(** [None]: the page is in range and nothing happens. *)
Definition ensurePageInRange (pageCount : num) (resetTo : ResetTo) (s : jsobj) : option jsobj :=
  let pageNum := number_or (get_prop (pageKey params) (VObj s)) (defaultPage params) in
  if num_gtb pageCount num_zero && num_gtb pageNum pageCount then
    Some (obj_set (pageKey params) (match resetTo with Last => VNum pageCount | First => VUndef end) s)
  else None.

(** ** The hook over time *)

Definition mount (s : jsobj) : Table := MkTable s (initialColumnFilters s) (initialGlobalFilter s).

(** The render after a navigation, and the effect when the object is a new one. *)
Definition arrive (fresh : bool) (s : jsobj) (t : Table) : Table :=
  MkTable s (if fresh then initialColumnFilters s else columnFilters t) (globalFilter t).

Inductive Event :=
| SetPagination (next : PaginationState)
| SetGlobalFilter (next : jstr)
| SetColumnFilters (next : list (jstr * jsval))
| EnsureRange (pageCount : num) (resetTo : ResetTo)
| Navigated (s : jsobj).

Definition handle (fresh : bool) (e : Event) (t : Table) : Table :=
  match e with
  | SetPagination next => arrive fresh (onPaginationChange next (search t)) t
  | SetGlobalFilter next =>
      if globalFilterEnabled params then
        arrive fresh (onGlobalFilterChange next (search t))
          (MkTable (search t) (columnFilters t) (Some (global_value next)))
      else t
  | SetColumnFilters next =>
      arrive fresh (onColumnFiltersChange next (search t))
        (MkTable (search t) next (globalFilter t))
  | EnsureRange pageCount resetTo =>
      match ensurePageInRange pageCount resetTo (search t) with
      | Some s => arrive fresh s t
      | None => t
      end
  | Navigated s => arrive fresh s t
  end.

(** The navigations made when the table checks its page after each of them. *)
Fixpoint corrections (fuel : nat) (pageCount : num) (resetTo : ResetTo) (s : jsobj) : nat :=
  match fuel with
  | O => O
  | S fuel =>
      match ensurePageInRange pageCount resetTo s with
      | Some s' => S (corrections fuel pageCount resetTo s')
      | None => O
      end
  end.

End Hook.

(** * Facts *)

Section Facts.
Variable params : Params.

Lemma prop_set k k' v o : get_prop k' (VObj (obj_set k v o)) = if k' =?= k then v else get_prop k' (VObj o).
Proof. cbn [get_prop]. rewrite obj_get_set. by case_bool_decide. Qed.

Lemma prop_merge k a b :
  NoDup (obj_keys b) ->
  get_prop k (VObj (obj_merge a b)) = match obj_get k b with Some v => v | None => get_prop k (VObj a) end.
Proof. intros Hn. cbn [get_prop]. rewrite obj_get_merge by done. by destruct (obj_get k b). Qed.

(** The two parameters of the page are different. *)
Definition page_keys_ok : Prop := pageKey params <> pageSizeKey params.

Lemma pagination_props next prev k :
  page_keys_ok ->
  get_prop k (VObj (onPaginationChange params next prev)) =
  let nextPage := num_add (pageIndex next) (num_of_Z 1) in
  if k =?= pageKey params then (if num_leb nextPage (defaultPage params) then VUndef else VNum nextPage)
  else if k =?= pageSizeKey params then
    (if num_eqb (pageSize next) (defaultPageSize params) then VUndef else VNum (pageSize next))
  else get_prop k (VObj prev).
Proof.
  intros Hk. unfold onPaginationChange. rewrite prop_merge.
  - cbn [obj_get]. by repeat case_bool_decide.
  - cbn [obj_keys List.map fst]. repeat constructor; [|by apply not_elem_of_nil].
    by intros [?|?%not_elem_of_nil]%elem_of_cons.
Qed.

Lemma column_patches next cfgs k p :
  NoDup (List.map searchKey cfgs) ->
  obj_get k (fold_left (fun p cfg => obj_set (searchKey cfg) (column_patch next cfg) p) cfgs p) =
  match List.find (fun cfg => k =?= searchKey cfg) cfgs with
  | Some cfg => Some (column_patch next cfg)
  | None => obj_get k p
  end.
Proof.
  revert p. induction cfgs as [|c cfgs IH]; intros p Hn; [done|]. cbn [List.map] in Hn.
  apply NoDup_cons in Hn as [Hc Hn]. cbn [fold_left List.find]. rewrite IH by done.
  destruct (List.find _ cfgs) as [c'|] eqn:E.
  - apply find_some in E as [Hin Hk%bool_decide_eq_true_1]. rewrite bool_decide_false; [done|].
    intros ->. apply Hc. rewrite Hk. by apply list_elem_of_In, in_map.
  - rewrite obj_get_set. by case_bool_decide.
Qed.

(** The parameters of the columns are distinct and not the page. *)
Definition columns_ok : Prop :=
  NoDup (List.map searchKey (columnFiltersCfg params)) /\
  NoDup (List.map columnId (columnFiltersCfg params)) /\
  pageKey params ∉ List.map searchKey (columnFiltersCfg params).

Lemma patch_NoDup next cfgs p :
  NoDup (obj_keys p) ->
  NoDup (obj_keys (fold_left (fun p cfg => obj_set (searchKey cfg) (column_patch next cfg) p) cfgs p)).
Proof. revert p. induction cfgs as [|c cfgs IH]; intros p Hp; [done|]. apply IH. by apply obj_set_NoDup. Qed.

Lemma filters_props next prev k :
  columns_ok ->
  get_prop k (VObj (onColumnFiltersChange params next prev)) =
  match List.find (fun cfg => k =?= searchKey cfg) (columnFiltersCfg params) with
  | Some cfg => column_patch next cfg
  | None => if k =?= pageKey params then VUndef else get_prop k (VObj prev)
  end.
Proof.
  intros (Hn & _ & _). unfold onColumnFiltersChange. rewrite prop_merge by (apply patch_NoDup; constructor).
  rewrite column_patches by done. destruct (List.find _ _); [done|]. cbn [obj_get]. apply prop_set.
Qed.

Lemma find_column cfg :
  NoDup (List.map searchKey (columnFiltersCfg params)) -> cfg ∈ columnFiltersCfg params ->
  List.find (fun c => searchKey cfg =?= searchKey c) (columnFiltersCfg params) = Some cfg.
Proof.
  generalize (columnFiltersCfg params). intros l Hn Hin. induction l as [|c l IH]; [by apply not_elem_of_nil in Hin|].
  cbn [List.map List.find] in *. apply NoDup_cons in Hn as [Hc Hn].
  apply elem_of_cons in Hin as [->|Hin]; [by rewrite bool_decide_true|].
  rewrite bool_decide_false; [by apply IH|]. intros E. apply Hc. rewrite <- E. by apply list_elem_of_In, in_map, list_elem_of_In.
Qed.

(** The filter of a column that the user set: a text that is not blank, or a
    list that is not empty. *)
Definition kept_filter (next : list (jstr * jsval)) (cfg : ColumnConfig) : option (jstr * jsval) :=
  match is_string cfg, obj_get (columnId cfg) next with
  | true, Some (VStr t) => if trim t =?= [] then None else Some (columnId cfg, VStr t)
  | false, Some (VArr (x :: l)) => Some (columnId cfg, VArr (x :: l))
  | _, _ => None
  end.

(** Reading undoes writing for the filters that are set, and reads nothing from
    an absent parameter. *)
Definition codec_ok (next : list (jstr * jsval)) (cfg : ColumnConfig) : Prop :=
  let write := default id (serialize cfg) in
  let read := default id (deserialize cfg) in
  (forall k v, kept_filter next cfg = Some (k, v) -> read (write v) = v) /\
  is_nullish (read VUndef) = true.

Lemma column_reads next prev cfg :
  columns_ok -> cfg ∈ columnFiltersCfg params -> codec_ok next cfg ->
  read_column (onColumnFiltersChange params next prev) cfg = kept_filter next cfg.
Proof.
  intros Hc Hin [Hrw Hun]. unfold read_column. rewrite filters_props by done.
  rewrite (find_column cfg (proj1 Hc) Hin).
  unfold kept_filter in *. unfold column_patch.
  set (write := default id (serialize cfg)) in *. set (read := default id (deserialize cfg)) in *.
  assert (Hnone : (if is_string cfg then
      match nullish_or (read VUndef) (VStr []) with
      | VStr t => if trim t =?= [] then None else Some (columnId cfg, VStr t) | _ => None end
    else match nullish_or (read VUndef) (VArr []) with
      | VArr (x :: l) => Some (columnId cfg, VArr (x :: l)) | _ => None end) = None).
  { unfold nullish_or. rewrite Hun. by destruct (is_string cfg). }
  destruct (is_string cfg).
  - destruct (obj_get (columnId cfg) next) as [[| |b|x|t|l|o]|]; try exact Hnone.
    destruct (bool_decide (trim t = [])) eqn:E; [exact Hnone|].
    rewrite (Hrw (columnId cfg) (VStr t)) by done. cbn [nullish_or is_nullish]. by rewrite E.
  - destruct (obj_get (columnId cfg) next) as [[| |b|x|t|[|x l]|o]|]; try exact Hnone.
    by rewrite (Hrw (columnId cfg) (VArr (x :: l))).
Qed.

End Facts.

(** ** Theorems *)

(** Paging.  The page asked for is the page shown, except that a page below
    the default one shows the default one; the page size asked for is the one
    shown, and every other parameter stays. *)
Theorem page_roundtrip params i size d prev :
  page_keys_ok params -> defaultPage params = num_of_Z d ->
  (0 <= i < 2 ^ 53 - 1)%Z -> (1 <= d < 2 ^ 53)%Z ->
  is_nan size = false -> (num_eqb size (defaultPageSize params) = true -> size = defaultPageSize params) ->
  let s := onPaginationChange params (MkPage (num_of_Z i) size) prev in
  pagination params s = MkPage (num_of_Z (Z.max i (d - 1))) size /\
  (forall k, k <> pageKey params -> k <> pageSizeKey params -> get_prop k (VObj s) = get_prop k (VObj prev)).
Proof.
  intros Hk Hd Hi Hd1 Hnan Hsz s. subst s. split.
  - unfold pagination. rewrite !pagination_props by done. cbv zeta. cbn [pageIndex pageSize].
    rewrite bool_decide_true, (bool_decide_false (pageSizeKey params = pageKey params)), bool_decide_true by done.
    rewrite Hd, num_add_Z by (unfold small; lia). unfold num_leb. rewrite num_compare_Z by (unfold small; lia).
    f_equal.
    + assert (Hpage : number_or match (i + 1 ?= d)%Z with Lt | Eq => VUndef | Gt => VNum (num_of_Z (i + 1)) end
        (num_of_Z d) = num_of_Z (Z.max (i + 1) d)).
      { destruct (Z.compare_spec (i + 1) d); cbn [number_or]; f_equal; lia. }
      replace (if match Some (i + 1 ?= d)%Z with Some Lt | Some Eq => true | _ => false end then VUndef
               else VNum (num_of_Z (i + 1)))
        with (match (i + 1 ?= d)%Z with Lt | Eq => VUndef | Gt => VNum (num_of_Z (i + 1)) end)
        by (by destruct (i + 1 ?= d)%Z).
      rewrite Hpage, num_sub_Z by (unfold small; lia). change num_zero with (num_of_Z 0).
      unfold num_max. rewrite num_compare_Z by (unfold small; lia).
      replace (Z.max (i + 1) d - 1)%Z with (Z.max i (d - 1)) by lia.
      destruct (Z.compare_spec 0 (Z.max i (d - 1))) as [<-|H|H]; [reflexivity|done|lia].
    + destruct (num_eqb size (defaultPageSize params)) eqn:E; cbn [number_or]; [symmetry; auto|done].
  - intros k H1 H2. rewrite pagination_props by done. cbv zeta. by rewrite !bool_decide_false.
Qed.

Lemma page_roundtrip_witness :
  page_keys_ok (default_params []) /\
  pagination (default_params [])
    (onPaginationChange (default_params []) (MkPage (num_of_Z 4) (num_of_Z 50)) []) =
  MkPage (num_of_Z 4) (num_of_Z 50).
Proof.
  assert (Hk : page_keys_ok (default_params [])) by (apply (bool_decide_eq_true_1 (_ <> _)); vm_compute; reflexivity).
  split; [exact Hk|].
  apply (page_roundtrip (default_params []) 4 (num_of_Z 50) 1 [] Hk); [done|lia..|reflexivity|].
  intros H. vm_compute in H. discriminate H.
Defined.

(** Column filters.  After the filters change, the filters read back from the
    URL are exactly those that are set, column by column; the page goes back to
    the first and the parameters that belong to no column stay. *)
Theorem filters_roundtrip params next prev :
  columns_ok params -> Forall (codec_ok next) (columnFiltersCfg params) ->
  let s := onColumnFiltersChange params next prev in
  initialColumnFilters params s = omap (kept_filter next) (columnFiltersCfg params) /\
  get_prop (pageKey params) (VObj s) = VUndef /\
  (forall k, k <> pageKey params -> k ∉ List.map searchKey (columnFiltersCfg params) ->
     get_prop k (VObj s) = get_prop k (VObj prev)).
Proof.
  intros Hc Hall s. subst s.
  assert (Hfind : forall k, k ∉ List.map searchKey (columnFiltersCfg params) ->
    List.find (fun cfg => k =?= searchKey cfg) (columnFiltersCfg params) = None).
  { intros k Hk. destruct (List.find _ _) as [c|] eqn:E; [|done]. exfalso.
    apply find_some in E as [Hin ->%bool_decide_eq_true_1]. by apply Hk, list_elem_of_In, in_map. }
  split_and!.
  - unfold initialColumnFilters. apply omap_ext_in. intros cfg Hin. rewrite Forall_forall in Hall.
    apply column_reads; [done..|]. by apply Hall.
  - rewrite filters_props, Hfind by (try apply Hc; done). by rewrite bool_decide_true.
  - intros k H1 H2. rewrite filters_props, Hfind by done. by rewrite bool_decide_false.
Qed.

Definition sample_columns : list ColumnConfig :=
  [MkColumn (lit "status") (lit "status") false None None; MkColumn (lit "name") (lit "q") true None None].

Definition sample_filters : list (jstr * jsval) :=
  [(lit "name", VStr (lit "gpt")); (lit "status", VArr [VStr (lit "enabled")])].

Lemma filters_roundtrip_witness :
  columns_ok (default_params sample_columns) /\
  initialColumnFilters (default_params sample_columns)
    (onColumnFiltersChange (default_params sample_columns) sample_filters [(lit "page", VNum (num_of_Z 3))]) =
  omap (kept_filter sample_filters) sample_columns.
Proof.
  assert (Hc : columns_ok (default_params sample_columns)).
  { split_and!; apply (bool_decide_eq_true_1 _); vm_compute; reflexivity. }
  split; [exact Hc|]. apply (filters_roundtrip (default_params sample_columns)); [exact Hc|].
  repeat (constructor; [split; [done|reflexivity]|]). constructor.
Defined.

(** The page the parameters ask for. *)
Definition asked_page (params : Params) (s : jsobj) : num :=
  number_or (get_prop (pageKey params) (VObj s)) (defaultPage params).

Lemma num_gtb_irrefl x : num_gtb x x = false.
Proof.
  unfold num_gtb, num_ltb, num_compare. destruct x as [|[]|sg m]; try done.
  by rewrite Z.compare_refl.
Qed.

(** What one correction does, when the default page is a page of the table. *)
Lemma corrected_in_range params pageCount resetTo s s' :
  (num_gtb pageCount num_zero = true -> num_gtb (defaultPage params) pageCount = false) ->
  ensurePageInRange params pageCount resetTo s = Some s' ->
  num_gtb (asked_page params s') pageCount = false /\
  (forall k, k <> pageKey params -> get_prop k (VObj s') = get_prop k (VObj s)).
Proof.
  intros Hd. unfold ensurePageInRange, asked_page.
  case_test; [|done]. intros [= <-]. prop_tests. split.
  - rewrite prop_set, bool_decide_true by done. destruct resetTo; cbn [number_or]; [by apply Hd|].
    apply num_gtb_irrefl.
  - intros k Hk. by rewrite prop_set, bool_decide_false.
Qed.

(** C39: the correction of a page beyond the last one.  For every table whose
    default page is one of its pages whenever it has a page at all (so for default
    page 1, which every table of the program uses, and any number of pages, none
    included): the correction navigates exactly when the table has at least one
    page and the page asked for lies beyond the last one; the parameters it
    navigates to ask for a page that is in range (the last page or the default
    page, as the caller wants) and keep every other parameter; and however often
    the table checks its page again after its own navigation, it navigates at most
    once. An empty table, which has no page in range, is never corrected. *)
Theorem page_correction_ends params pageCount resetTo s :
  (num_gtb pageCount num_zero = true -> num_gtb (defaultPage params) pageCount = false) ->
  (is_Some (ensurePageInRange params pageCount resetTo s) <->
     num_gtb pageCount num_zero = true /\ num_gtb (asked_page params s) pageCount = true) /\
  (forall s', ensurePageInRange params pageCount resetTo s = Some s' ->
     num_gtb (asked_page params s') pageCount = false /\
     asked_page params s' = match resetTo with Last => pageCount | First => defaultPage params end /\
     (forall k, k <> pageKey params -> get_prop k (VObj s') = get_prop k (VObj s))) /\
  (forall fuel, (corrections params fuel pageCount resetTo s <= 1)%nat) /\
  (num_gtb pageCount num_zero = false ->
     forall fuel, corrections params fuel pageCount resetTo s = 0%nat).
Proof.
  intros Hd. split_and!.
  - rewrite <- andb_true_iff. unfold ensurePageInRange, asked_page.
    by case_test; split; try done; intros [? [=]].
  - intros s' Hs. destruct (corrected_in_range _ _ _ _ _ Hd Hs) as [Hr Hk].
    split_and!; [exact Hr| |exact Hk]. revert Hs. unfold ensurePageInRange, asked_page.
    case_test; [|done]. intros [= <-]. rewrite prop_set, bool_decide_true by done. by destruct resetTo.
  - intros [|fuel]; cbn [corrections]; [lia|].
    destruct (ensurePageInRange params pageCount resetTo s) as [s'|] eqn:E; [|lia].
    destruct (corrected_in_range _ _ _ _ _ Hd E) as [Hr _]. destruct fuel as [|fuel]; cbn [corrections]; [lia|].
    unfold ensurePageInRange. unfold asked_page in Hr. rewrite Hr, andb_false_r. lia.
  - intros H0 [|fuel]; cbn [corrections]; [done|]. unfold ensurePageInRange. by rewrite H0.
Qed.

(** Three pages and page 9 asked for; and a table that lost its only entry. *)
Lemma page_correction_ends_witness :
  (corrections (default_params []) 10 (num_of_Z 3) Last [(lit "page", VNum (num_of_Z 9))] <= 1)%nat /\
  is_Some (ensurePageInRange (default_params []) (num_of_Z 3) Last [(lit "page", VNum (num_of_Z 9))]) /\
  corrections (default_params []) 10 (num_of_Z 0) First [] = 0%nat.
Proof.
  split_and!.
  - apply page_correction_ends. intros _. vm_compute. reflexivity.
  - apply page_correction_ends; [intros _; vm_compute; reflexivity|]. split; vm_compute; reflexivity.
  - apply page_correction_ends; [intros H; exfalso; revert H; vm_compute; discriminate|].
    vm_compute. reflexivity.
Defined.

(** ** The URL as the only source *)

(** States after a mount and any handlers and navigations that changed a
    parameter. *)
Inductive reachable (params : Params) : Table -> Prop :=
| reach_mount s : reachable params (mount params s)
| reach_step e t : reachable params t -> reachable params (handle params true e t).

(** The column filters on display are always those of the URL. *)
Lemma filters_from_url params t :
  reachable params t -> columnFilters t = initialColumnFilters params (search t).
Proof.
  induction 1 as [s|e t _ IH]; [done|]. destruct e; cbn [handle]; repeat case_match; done.
Qed.

(** The global filter is not: it is read from the URL when the table is mounted
    and not again, so after a navigation (back, or a link) the text on display can
    differ from the one in the URL. *)
Theorem global_filter_stale :
  let params := default_params [] in
  exists t, reachable params t /\
    globalFilter t = Some (lit "gpt") /\ initialGlobalFilter params (search t) = Some [].
Proof.
  exists (handle (default_params []) true (Navigated [])
            (mount (default_params []) [(lit "filter", VStr (lit "gpt"))])).
  split; [|by vm_compute]. apply reach_step, reach_mount.
Qed.
