(* ===== verification/Currency.v ===== *)
(** * Currency and quota display

    [src/web/default/src/lib/currency.ts] and the number, quota and colour
    functions of [src/web/default/src/lib/format.ts], with the currency part of
    [stores/system-config-store.ts].  The locale dependent formatters of the
    platform ([Intl.NumberFormat]) are arguments: [intl_currency] and
    [intl_decimal] take the greatest number of fraction digits and the amount.
    [Math.pow(10, -d)] is the binary64 number nearest to it. *)

From S2P Require Import Prelude.
From S2P Require Import JsString.
From S2P Require Import JsNumber.
From S2P Require Import JsDecimal.
From S2P Require Import JsRegex.

Local Open Scope N_scope.

(** ** Configuration *)

Inductive CurrencyDisplayType := USD | CNY | TOKENS | CUSTOM.

#[export] Instance CurrencyDisplayType_eq : EqDecision CurrencyDisplayType.
Proof. solve_decision. Defined.

Record CurrencyConfig := MkCurrency {
  displayInCurrency : bool;
  quotaDisplayType : CurrencyDisplayType;
  quotaPerUnit : num;
  usdExchangeRate : num;
  customCurrencySymbol : jstr;
  customCurrencyExchangeRate : num
}.

Definition DEFAULT_CURRENCY_CONFIG : CurrencyConfig :=
  MkCurrency true USD (num_of_Z 500000) (num_of_Z 1) (lit "¤") (num_of_Z 1).

Definition DISPLAY_TYPE_VALUES : list (jstr * CurrencyDisplayType) :=
  [(lit "USD", USD); (lit "CNY", CNY); (lit "TOKENS", TOKENS); (lit "CUSTOM", CUSTOM)].

(** The display type a stored text names. *)
Definition parseCurrencyDisplayType (value : jstr) (fallback : CurrencyDisplayType) : CurrencyDisplayType :=
  match List.find (fun e => e.1 =?= value) DISPLAY_TYPE_VALUES with
  | Some e => e.2
  | None => fallback
  end.

(** [x && x > 0 ? x : d]. *)
Definition positive_or (x d : num) : num := if truthy_num x && num_gtb x num_zero then x else d.

Definition getConfig (stored : option CurrencyConfig) : CurrencyConfig :=
  let currency := default DEFAULT_CURRENCY_CONFIG stored in
  let symbol := trim (customCurrencySymbol currency) in
  MkCurrency (displayInCurrency currency) (quotaDisplayType currency)
    (positive_or (quotaPerUnit currency) (quotaPerUnit DEFAULT_CURRENCY_CONFIG))
    (positive_or (usdExchangeRate currency) (usdExchangeRate DEFAULT_CURRENCY_CONFIG))
    (if truthy_str symbol then symbol else customCurrencySymbol DEFAULT_CURRENCY_CONFIG)
    (positive_or (customCurrencyExchangeRate currency) (customCurrencyExchangeRate DEFAULT_CURRENCY_CONFIG)).

Inductive DisplayMeta :=
| MetaCurrency (symbol currencyCode : jstr) (exchangeRate : num)
| MetaCustom (symbol : jstr) (exchangeRate : num)
| MetaTokens (perUnit : num).

Definition dollar_meta : DisplayMeta := MetaCurrency (lit "$") (lit "USD") (num_of_Z 1).

Definition getDisplayMeta (config : CurrencyConfig) : DisplayMeta :=
  match quotaDisplayType config with
  | CNY => MetaCurrency (lit "¥") (lit "CNY") (usdExchangeRate config)
  | CUSTOM => MetaCustom (customCurrencySymbol config) (customCurrencyExchangeRate config)
  | TOKENS => MetaTokens (quotaPerUnit config)
  | USD => dollar_meta
  end.

Definition getBillingDisplayMeta (config : CurrencyConfig) : DisplayMeta :=
  match getDisplayMeta config with
  | MetaTokens _ => dollar_meta
  | meta => meta
  end.

Record CurrencyFormatOptions := MkOptions {
  digitsLarge : option N;
  digitsSmall : option N;
  abbreviate : option bool;
  minimumNonZero : option num
}.

Record Merged := MkMerged {
  large : N;
  small_ : N;
  abbrev : bool;
  minimum : num
}.

Definition DEFAULT_FORMAT_OPTIONS : Merged := MkMerged 2 4 true num_zero.

Definition mergeOptions (options : option CurrencyFormatOptions) : Merged :=
  match options with
  | None => DEFAULT_FORMAT_OPTIONS
  | Some o =>
      MkMerged (default 2 (digitsLarge o)) (default 4 (digitsSmall o)) (default true (abbreviate o))
        (default num_zero (minimumNonZero o))
  end.

(** ** Number text *)

Definition trailing_zeros_regex : regex :=
  seq_of [RGroup 1 (RSeq (RLit (lit ".")) (RLazyStar digit_class)); RPlus (RLit (lit "0")); REnd].

Definition trailing_dot_regex : regex := RSeq (RLit (lit ".")) REnd.

Definition removeTrailingZeros (str : jstr) : jstr :=
  if negb (includes_sub (lit ".") str) then str
  else replace_first trailing_dot_regex (fun _ => [])
         (replace_first trailing_zeros_regex (fun e => default [] (cap 1 e)) str).

Definition formatNumberWithSuffix (value : num) (dLarge dSmall : N) (abbreviated : bool) : jstr :=
  let abs := num_abs value in
  if abbreviated && num_geb abs (num_of_Z 1000) then
    removeTrailingZeros (to_fixed (num_div value (num_of_Z 1000)) 1) ++ lit "k"
  else
    let digits := if num_geb abs (num_of_Z 1) then dLarge else dSmall in
    removeTrailingZeros (to_fixed value digits).

(** The smallest amount shown with [digits] fraction digits. *)
Definition threshold (digits : N) (minimumNonZero : num) : num :=
  if num_gtb minimumNonZero num_zero then minimumNonZero else num_of_dec false 1 (- Z.of_N digits).

Definition adjustForMinimum (value : num) (digits : N) (minimumNonZero : num) : num :=
  if num_eqb value num_zero then value
  else
    let limit := threshold digits minimumNonZero in
    let abs := num_abs value in
    if num_gtb abs num_zero && num_ltb abs limit then
      if num_gtb value num_zero then limit else num_neg limit
    else value.

Section Platform.
Variable intl_currency : jstr -> N -> num -> jstr.
Variable intl_decimal : N -> num -> jstr.

Definition formatCurrencyValue (value : num) (options : Merged) (meta : DisplayMeta) : jstr :=
  let digits := if num_geb (num_abs value) (num_of_Z 1) then large options else small_ options in
  let adjustedValue := adjustForMinimum value digits (minimum options) in
  match meta with
  | MetaTokens _ => formatNumberWithSuffix value (large options) (small_ options) (abbrev options)
  | MetaCurrency _ code _ => intl_currency code digits adjustedValue
  | MetaCustom symbol _ => symbol ++ intl_decimal digits adjustedValue
  end.

Section Stored.
Variable stored : option CurrencyConfig.

Definition getCurrencyDisplay : CurrencyConfig * DisplayMeta :=
  let config := getConfig stored in (config, getDisplayMeta config).

(** A missing amount, and one that is not a number. *)
Definition amount_of (x : option num) : option num :=
  match x with Some NaN | None => None | Some y => Some y end.

Definition formatCurrencyFromUSD (amountUSD : option num) (options : option CurrencyFormatOptions) : jstr :=
  match amount_of amountUSD with
  | None => lit "-"
  | Some amount =>
      let '(config, meta) := getCurrencyDisplay in
      let merged := mergeOptions options in
      match meta with
      | MetaTokens _ =>
          formatNumberWithSuffix (num_mul amount (quotaPerUnit config)) 0 (small_ merged) (abbrev merged)
      | MetaCurrency _ _ rate | MetaCustom _ rate =>
          formatCurrencyValue (num_mul amount rate) merged meta
      end
  end.

Definition formatBillingCurrencyFromUSD (amountUSD : option num) (options : option CurrencyFormatOptions) : jstr :=
  match amount_of amountUSD with
  | None => lit "-"
  | Some amount =>
      let meta := getBillingDisplayMeta (getConfig stored) in
      let value :=
        match meta with
        | MetaCurrency _ _ rate | MetaCustom _ rate => num_mul amount rate
        | MetaTokens _ => amount
        end in
      formatCurrencyValue value (mergeOptions options) meta
  end.

Definition formatQuotaWithCurrency (quota : option num) (options : option CurrencyFormatOptions) : jstr :=
  match amount_of quota with
  | None => lit "-"
  | Some q => formatCurrencyFromUSD (Some (num_div q (quotaPerUnit (getConfig stored)))) options
  end.

Definition formatLocalCurrencyAmount (amount : option num) (options : option CurrencyFormatOptions) : jstr :=
  match amount_of amount with
  | None => lit "-"
  | Some a => formatCurrencyValue a (mergeOptions options) (getBillingDisplayMeta (getConfig stored))
  end.

Definition getCurrencyLabel : jstr :=
  let '(config, meta) := getCurrencyDisplay in
  match meta with
  | MetaTokens _ => lit "Tokens"
  | _ =>
      match quotaDisplayType config with
      | CNY => lit "CNY"
      | CUSTOM => match meta with MetaCustom symbol _ => symbol | _ => lit "Custom" end
      | _ => lit "USD"
      end
  end.

Definition isCurrencyDisplayEnabled : bool :=
  match getCurrencyDisplay.2 with MetaTokens _ => false | _ => true end.

(** ** Quota units *)

Definition formatQuota (quota : num) : jstr :=
  formatQuotaWithCurrency (Some quota) (Some (MkOptions (Some 2) (Some 4) (Some true) None)).

Definition formatLogQuota (quota : num) : jstr :=
  formatQuotaWithCurrency (Some quota) (Some (MkOptions (Some 4) (Some 6) (Some false) None)).

Definition rate_of (meta : DisplayMeta) : num :=
  match meta with MetaCurrency _ _ rate | MetaCustom _ rate => rate | MetaTokens _ => num_of_Z 1 end.

Definition parseQuotaFromDollars (amount : num) : num :=
  if negb (is_finite amount) then num_zero
  else
    let '(config, meta) := getCurrencyDisplay in
    match meta with
    | MetaTokens _ => num_round amount
    | _ =>
        let exchangeRate := rate_of meta in
        let usdAmount := if num_gtb exchangeRate num_zero then num_div amount exchangeRate else amount in
        num_round (num_mul usdAmount (quotaPerUnit config))
    end.

Definition quotaUnitsToDollars (units : num) : num :=
  let '(config, meta) := getCurrencyDisplay in
  match meta with
  | MetaTokens _ => units
  | _ => num_mul (num_div units (quotaPerUnit config)) (rate_of meta)
  end.

End Stored.
End Platform.

(** ** Counters and durations *)

Definition formatTokens (tokens : num) : jstr :=
  if num_eqb tokens num_zero then lit "-"
  else if num_ltb tokens (num_of_Z 1000) then string_of_num tokens
  else if num_ltb tokens (num_of_Z 1000000) then
    to_fixed (num_div tokens (num_of_Z 1000)) 1 ++ lit "K"
  else to_fixed (num_div tokens (num_of_Z 1000000)) 2 ++ lit "M".

(** [x % y]: exact, with the sign of [x]. *)
Definition num_rem (x y : num) : num :=
  match x, y with
  | NaN, _ | _, NaN | Inf _, _ => NaN
  | Fin _ _, Inf _ => x
  | Fin s m, Fin _ n => if n =? 0 then NaN else Fin s (m mod n)
  end.

Definition formatUseTime (seconds : num) : jstr :=
  if num_ltb seconds (num_of_Z 60) then to_fixed seconds 1 ++ lit "s"
  else
    string_of_num (num_floor (num_div seconds (num_of_Z 60))) ++ lit "m " ++
    to_fixed (num_rem seconds (num_of_Z 60)) 0 ++ lit "s".

(** ** Colours *)

(** [ToInt32]. *)
Definition to_int32 (z : Z) : Z := ((z + 2 ^ 31) mod 2 ^ 32 - 2 ^ 31)%Z.

(** One round of the hash: [hash = c + ((hash << 5) - hash); hash = hash & hash]. *)
Definition hash_step (hash : Z) (c : N) : Z :=
  to_int32 (Z.of_N c + (to_int32 (Z.shiftl hash 5) - hash))%Z.

Definition color_hash (str : jstr) : Z := fold_left hash_step str 0%Z.

(** Hue, saturation and lightness. *)
Definition color_parts (hash : Z) : Z * Z * Z :=
  (Z.abs (Z.rem hash 360), 65 + Z.rem (Z.abs hash) 10, 55 + Z.rem (Z.abs (Z.shiftr hash 8)) 10)%Z.

Definition stringToColor (str : jstr) : jstr :=
  match str with
  | [] => lit "gray"
  | _ =>
      let '(hue, saturation, lightness) := color_parts (color_hash str) in
      lit "hsl(" ++ dec_of_Z hue ++ lit ", " ++ dec_of_Z saturation ++ lit "%, " ++
      dec_of_Z lightness ++ lit "%)"
  end.

(** * Facts *)

(** ** Quota units and display amounts *)

(** Between 2^-200 and 2^200: every price and rate that is not absurd. *)
Definition moderate (x : num) : bool :=
  match x with Fin false m => (2 ^ 874 <=? m) && (m <=? 2 ^ 1274) | _ => false end.

Lemma moderate_within x : moderate x = true -> exists m, x = Fin false m /\ within 874 1274 m.
Proof.
  destruct x as [| |[] m]; try done. intros [H1 H2]%andb_true_iff. exists m. split; [done|].
  split; [by apply N.leb_le in H1|by apply N.leb_le in H2].
Qed.

(** Dividing by [q], multiplying by [r] and back again: four roundings. *)
Lemma scaled_back neg n q r : 0 < n -> n < 2 ^ 49 -> within 874 1274 q -> within 874 1274 r ->
  exists m,
    num_mul (num_div (num_mul (num_div (Fin neg (n * one_units)) (Fin false q)) (Fin false r)) (Fin false r))
      (Fin false q) = Fin neg m /\ near 4 (n * one_units) 1 m.
Proof.
  intros H0 Hn Hq Hr. pose proof within_one as Hu. pose proof one_units_pos as Hp.
  assert (Hn' : within 0 49 n) by (unfold within; simpl; lia).
  assert (Hq0 : 0 < q) by (destruct Hq as [H _]; pose proof (pow2_pos 874); lia).
  assert (Hr0 : 0 < r) by (destruct Hr as [H _]; pose proof (pow2_pos 874); lia).
  assert (HN := within_mul _ _ _ _ _ _ Hn' Hu). set (a := n * one_units) in *. set (u := one_units) in *.
  destruct (mk_num_within neg _ _ _ _ _ _ (within_mul _ _ _ _ _ _ HN Hu) Hq) as (m1 & E1 & N1 & W1); [lia..|].
  destruct (mk_num_within neg _ _ _ _ _ _ (within_mul _ _ _ _ _ _ W1 Hr) Hu) as (m2 & E2 & N2 & W2); [lia..|].
  destruct (mk_num_within neg _ _ _ _ _ _ (within_mul _ _ _ _ _ _ W2 Hu) Hr) as (m3 & E3 & N3 & W3); [lia..|].
  destruct (mk_num_within neg _ _ _ _ _ _ (within_mul _ _ _ _ _ _ W3 Hq) Hu) as (m4 & E4 & N4 & _); [lia..|].
  exists m4. unfold num_mul, num_div. fold u. rewrite xorb_false_r.
  rewrite (proj2 (N.eqb_neq q 0)), E1 by lia. rewrite xorb_false_r, E2, (proj2 (N.eqb_neq r 0)) by lia.
  rewrite xorb_false_r, E3, xorb_false_r, E4. split; [done|].
  apply (near_cancel 4 a 1 (u * r * u * q)); [by repeat apply N.mul_pos_pos|].
  pose proof (near_step _ _ _ _ _ _ _ (near_step _ _ _ _ _ _ _ (near_step _ _ _ _ _ _ _
    (near_step _ _ _ _ _ _ _ (near_0 a) N1) N2) N3) N4) as H.
  replace (a * (u * r * u * q)) with (a * u * r * u * q) by lia.
  by replace (1 * (u * r * u * q)) with (1 * q * u * r * u) by lia.
Qed.

Lemma num_round_Z z : small z -> num_round (num_of_Z z) = num_of_Z z.
Proof.
  intros Hz. rewrite num_of_Z_exact by done. unfold num_round.
  pose proof one_units_pos. by rewrite N.Div0.mod_mul.
Qed.

Lemma num_of_Z_finite z : small z -> is_finite (num_of_Z z) = true.
Proof. intros Hz. by rewrite num_of_Z_exact. Qed.

Lemma mk_num_zero neg b : mk_num neg 0 b = Fin neg 0.
Proof.
  unfold mk_num. replace (round_units 0 b) with 0; [done|].
  unfold round_units. rewrite !N.Div0.div_0_l, N.Div0.mod_0_l, N.mul_0_r.
  case_test; [|by rewrite N.shiftl_0_l]. destruct (N.ltb_spec (N.shiftl b (N.log2 0 - 52)) 0); [lia|].
  by rewrite andb_false_r in *.
Qed.

Lemma scaled_back_zero neg q r : 0 < q -> 0 < r ->
  num_mul (num_div (num_mul (num_div (Fin neg 0) (Fin false q)) (Fin false r)) (Fin false r)) (Fin false q)
    = Fin neg 0.
Proof.
  intros Hq Hr. unfold num_mul, num_div. rewrite (proj2 (N.eqb_neq q 0)) by lia.
  rewrite N.mul_0_l, mk_num_zero, N.mul_0_l, mk_num_zero, (proj2 (N.eqb_neq r 0)) by lia.
  by rewrite N.mul_0_l, mk_num_zero, N.mul_0_l, mk_num_zero, !xorb_false_r.
Qed.

Lemma scaled_back_round z q r : (Z.abs z < 2 ^ 49)%Z -> within 874 1274 q -> within 874 1274 r ->
  num_round (num_mul (num_div (num_mul (num_div (num_of_Z z) (Fin false q)) (Fin false r)) (Fin false r))
    (Fin false q)) = num_of_Z z.
Proof.
  intros Hz Wq Wr. rewrite num_of_Z_exact by lia. destruct (Z.eq_dec z 0%Z) as [->|Hn].
  - rewrite scaled_back_zero by (destruct Wq as [H1 _], Wr as [H2 _]; pose proof (pow2_pos 874); lia).
    done.
  - destruct (scaled_back (z <? 0)%Z (Z.abs_N z) q r) as (m & -> & Hm); [lia|lia|done|done|].
    apply near_integer in Hm as [L U]; [|lia|apply one_units_pos]. apply num_round_near; lia || done.
Qed.

(** A finite result of a division and a product needs a finite amount. *)
Lemma scaled_finite x q r y :
  num_round (num_mul (num_div x (Fin false r)) (Fin false q)) = y -> is_finite y = true ->
  negb (is_finite x) = false.
Proof.
  intros <-. destruct x as [|s|s m]; [done| |done]. unfold num_div, num_mul.
  destruct (N.eqb_spec q 0); [done|]. done.
Qed.

Definition display_rate (stored : option CurrencyConfig) : num := rate_of (getCurrencyDisplay stored).2.

Lemma quota_back stored z :
  moderate (quotaPerUnit (getConfig stored)) = true -> moderate (display_rate stored) = true ->
  (Z.abs z < 2 ^ 49)%Z ->
  parseQuotaFromDollars stored (quotaUnitsToDollars stored (num_of_Z z)) = num_of_Z z.
Proof.
  intros Hq Hr Hz. assert (Hs : small z) by (unfold small; lia).
  unfold display_rate, getCurrencyDisplay in Hr. cbn [snd] in Hr.
  unfold parseQuotaFromDollars, quotaUnitsToDollars, getCurrencyDisplay.
  set (meta := getDisplayMeta (getConfig stored)) in *.
  apply moderate_within in Hq as (q & -> & Wq). apply moderate_within in Hr as (r & Er & Wr).
  assert (Hr0 : 0 < r) by (destruct Wr as [H _]; pose proof (pow2_pos 874); lia).
  assert (Hgt : num_gtb (Fin false r) num_zero = true).
  { unfold num_gtb, num_ltb, num_compare, num_zero, units. rewrite (proj2 (Z.compare_lt_iff _ _)); [done|lia]. }
  pose proof (scaled_back_round z q r Hz Wq Wr) as H.
  pose proof (num_of_Z_finite z Hs) as Hf.
  destruct meta as [? ? rate|? rate|]; [| |by rewrite Hf, num_round_Z].
  all: unfold rate_of in *; rewrite Er, Hgt, (scaled_finite _ _ _ _ H Hf); exact H.
Qed.

(** C17: the two conversions of the quota editor are inverse: whatever the
    display mode, an integer number of quota units below 2^49 (over five
    hundred trillion) shown as a display amount and read back gives the same
    number of units, although the four divisions and products round.  The quota per
    dollar and the rate of the display are between 2^-200 and 2^200. *)
Theorem quota_roundtrip stored z :
  moderate (quotaPerUnit (getConfig stored)) = true -> moderate (display_rate stored) = true ->
  (Z.abs z < 2 ^ 49)%Z ->
  parseQuotaFromDollars stored (quotaUnitsToDollars stored (num_of_Z z)) = num_of_Z z.
Proof. apply quota_back. Qed.

Lemma quota_roundtrip_witness :
  parseQuotaFromDollars None (quotaUnitsToDollars None (num_of_Z 123457)) = num_of_Z 123457.
Proof. apply quota_roundtrip; vm_compute; reflexivity. Defined.

(** ** Number text *)

Definition zeros_end : regex := RSeq (RPlus (RLit (lit "0"))) REnd.

Lemma zero_reads : reads_units (N.eqb 48) (RLit (lit "0")) [].
Proof. split; [|done]. intros b c a cs H. by apply N.eqb_eq in H as <-. Qed.

Lemma zeros_run b k cs : matches zeros_end (MState b (zeros (S k)) cs) = [MState (reverse (zeros (S k)) ++ b) [] cs].
Proof.
  unfold zeros_end, RPlus. rewrite seq_assoc. change (zeros (S k)) with (lit "0" ++ zeros k).
  rewrite seq_lit, <- (app_nil_r (zeros k)).
  rewrite (seq_run (N.eqb 48)); [|apply zero_reads|by apply Forall_replicate|apply refuses_end].
  simpl. by rewrite app_nil_r, reverse_cons, <- app_assoc.
Qed.

Lemma zeros_end_needs st : Exists (fun c => c <> 48) (after st) -> matches zeros_end st = [].
Proof.
  intros He. destruct (matches zeros_end st) as [|st' l] eqn:E; [done|].
  assert (Hin : In st' (matches zeros_end st)) by (rewrite E; by left).
  apply ends_input_after in Hin as Hnil; [|done].
  apply (matches_consumes (N.eqb 48)) in Hin as (w & Ew & Hw); [|by repeat constructor].
  rewrite Hnil, app_nil_r in Ew. rewrite Ew in He. exfalso.
  apply Exists_exists in He as (c & Hc & Hne). rewrite Forall_forall in Hw. by apply Hw, N.eqb_eq in Hc.
Qed.

(** The digits of a fraction without trailing zeros. *)
Definition stripped (f : jstr) : Prop := last f <> Some 48.

Lemma stripped_suffix v f z : stripped f -> v <> [] -> v `suffix_of` f -> Exists (fun c => c <> 48) (v ++ z).
Proof.
  intros Hf Hv [w ->]. apply Exists_app. left. destruct (exists_last Hv) as (v' & c & ->).
  apply Exists_app. right. constructor. intros ->. apply Hf. by rewrite app_assoc, last_snoc.
Qed.

Lemma zeros_match b f k : digits f -> stripped f ->
  head (matches trailing_zeros_regex (MState b (46 :: f ++ zeros k) [])) =
  match k with
  | O => None
  | S _ => Some (MState (reverse (zeros k) ++ reverse f ++ 46 :: b) [] [(1%nat, 46 :: f)])
  end.
Proof.
  intros Hf Hs. unfold trailing_zeros_regex. change (seq_of _) with (RSeq (RGroup 1 (RSeq (RLit (lit ".")) (RLazyStar digit_class))) zeros_end).
  set (st0 := MState b (46 :: f ++ zeros k) []).
  change (matches (RSeq ?a ?b) ?s) with (List.flat_map (matches b) (matches a s)).
  change (matches (RGroup ?n ?r) ?s) with (List.map (fun st' => capture n (consumed s st') st') (matches r s)).
  unfold st0 at 2. change (46 :: f ++ zeros k) with (lit "." ++ f ++ zeros k). rewrite seq_lit.
  change (matches (RLazyStar ?r) ?s) with (iterate true (matches r) (length (after s)) s).
  destruct (lazy_run is_digit f (zeros k) (reverse (lit ".") ++ b) [] (length (f ++ zeros k)) Hf)
    as (l & n & E & Hn & Hl); [done|].
  cbn [after]. unfold digit_class. rewrite E, flat_map_map, flat_map_app.
  assert (El : List.flat_map (fun x => matches zeros_end (capture 1 (consumed st0 x) x)) l = []).
  { clear E. induction Hl as [|st l (v & Hv & Hsuf & Ha) _ IH]; [done|]. cbn [List.flat_map]. rewrite IH, app_nil_r.
    apply zeros_end_needs. cbn [capture after]. rewrite Ha. by eapply stripped_suffix. }
  rewrite El. cbn [app]. destruct k as [|k].
  - destruct n; reflexivity.
  - destruct n as [|n]; [simpl in Hn; lia|]. cbn [iterate List.flat_map]. cbn [app].
    unfold capture at 1. cbn [before after caps]. rewrite zeros_run. cbn [app head].
    assert (Ec : forall b' cs, consumed st0 (MState b' (zeros (S k)) cs) = 46 :: f); [|by rewrite Ec].
    intros b' cs. unfold consumed, st0. cbn [after]. rewrite (app_comm_cons f _ 46), length_app.
    replace (length (46%N :: f) + length (zeros (S k)) - length (zeros (S k)))%nat with (length (46 :: f)) by lia.
    apply take_app_length.
Qed.

Definition no_dot (s : jstr) : Prop := Forall (fun c => N.eqb 46 c = false) s.

Lemma digits_no_dot f : digits f -> no_dot f.
Proof.
  intros H. eapply Forall_impl; [exact H|]. intros c Hc. destruct (N.eqb_spec 46 c) as [<-|]; [|done]. by vm_compute in Hc.
Qed.

Lemma zeros_regex_starts : starts_at (N.eqb 46) trailing_zeros_regex.
Proof. apply starts_at_group, starts_at_lit. Qed.

(** The replacement of the first pattern. *)
Lemma zeros_replaced i f k : no_dot i -> digits f -> stripped f ->
  replace_first trailing_zeros_regex (fun e => default [] (cap 1 e)) (i ++ 46 :: f ++ zeros k) = i ++ 46 :: f.
Proof.
  intros Hi Hf Hs. unfold replace_first. rewrite (exec_skip (N.eqb 46)) by (done || apply zeros_regex_starts).
  cbn [length search_from]. unfold match_here. rewrite zeros_match by done. destruct k as [|k].
  - cbn [after]. unfold advance. cbn [after caps take drop].
    rewrite (search_none (N.eqb 46)); [by rewrite app_nil_r|apply zeros_regex_starts|].
    rewrite drop_0, app_nil_r. by apply digits_no_dot.
  - unfold consumed, start_state, cap. cbn [after caps cap_lookup Nat.eqb from_option id]. rewrite app_nil_r.
    rewrite length_app, Nat.add_sub, take_app_length. done.
Qed.

Lemma dot_replaced i f : no_dot i -> digits f ->
  replace_first trailing_dot_regex (fun _ => []) (i ++ 46 :: f) = i ++ frac f.
Proof.
  intros Hi Hf. unfold replace_first. rewrite (exec_skip (N.eqb 46)) by (done || apply starts_at_lit).
  destruct f as [|c f].
  - cbn. unfold consumed. cbn. by rewrite length_app, Nat.add_sub, take_app_length, app_nil_r.
  - change (length (46 :: c :: f)) with (S (length (c :: f))). cbn [search_from]. unfold match_here.
    change (head (matches trailing_dot_regex (MState (reverse i) (46 :: c :: f) []))) with (@None mstate).
    cbn [after]. unfold advance. cbn [after caps take drop].
    rewrite (search_none (N.eqb 46)); [done|apply starts_at_lit|]. by apply digits_no_dot.
Qed.

Lemma trailing_zeros_removed i f k : no_dot i -> digits f -> stripped f ->
  removeTrailingZeros (i ++ 46 :: f ++ zeros k) = i ++ frac f.
Proof.
  intros Hi Hf Hs. unfold removeTrailingZeros. rewrite zeros_replaced, dot_replaced by done.
  by rewrite (includes_middle (lit ".") i (f ++ zeros k) : includes_sub (lit ".") (i ++ 46 :: f ++ zeros k) = true).
Qed.

Lemma strip_split d : digits d -> exists g j, d = g ++ zeros j /\ digits g /\ stripped g.
Proof.
  induction d as [|c d IH] using rev_ind; intros Hd.
  - exists [], 0%nat. by repeat constructor.
  - apply Forall_app in Hd as [Hd Hc]. destruct (decide (c = 48)) as [->|Hne].
    + destruct (IH Hd) as (g & j & -> & Hg & Hs). exists g, (S j).
      unfold zeros. by rewrite replicate_S_end, app_assoc.
    + exists (d ++ [c]), 0%nat. rewrite app_nil_r. split_and!; [done|by apply Forall_app|].
      unfold stripped. rewrite last_snoc. congruence.
Qed.

(** The integer part and the fraction of fixed point text. *)
Lemma to_fixed_text s m f : m < N.shiftl (10 ^ 21) 1074 -> f <> 0 ->
  exists i g j, to_fixed (Fin s m) f = (if s && negb (m =? 0) then [45] else []) ++ i ++ 46 :: g ++ zeros j /\
    digits i /\ digits g /\ stripped g /\ g ++ zeros j <> [] /\ i <> [] /\ (i = [48] \/ head i <> Some 48).
Proof.
  intros Hm Hf. unfold to_fixed. rewrite (proj2 (N.leb_gt _ _) Hm), (proj2 (N.eqb_neq _ _) Hf).
  set (n := _ / _). clearbody n. cbv zeta. set (ds := dec_of_N n).
  set (ds' := zeros _ ++ ds). set (k := (length ds' - N.to_nat f)%nat).
  assert (Hds : digits ds) by apply dec_of_N_digits.
  assert (Hds' : digits ds') by (apply Forall_app; split; [apply digits_zeros|done]).
  destruct (strip_split (drop k ds')) as (g & j & E & Hg & Hs); [by apply digits_drop|].
  exists (take k ds'), g, j. rewrite E. split_and!; [done|by apply digits_take|done|done| | |].
  - rewrite <- E. intros H. apply (f_equal length) in H. rewrite length_drop in H. revert H. unfold k, ds'.
    rewrite length_app. unfold zeros. rewrite length_replicate. cbn [length]. lia.
  - intros H. apply (f_equal length) in H. rewrite length_take in H. revert H. unfold k, ds'.
    rewrite length_app. unfold zeros. rewrite length_replicate. cbn [length]. lia.
  - unfold k, ds'. rewrite length_app. unfold zeros. rewrite length_replicate.
    destruct (Nat.le_gt_cases (length ds) (N.to_nat f)) as [H|H].
    + left. replace (N.to_nat f + 1 - length ds + length ds - N.to_nat f)%nat with 1%nat by lia.
      destruct (N.to_nat f + 1 - length ds)%nat eqn:E'; [lia|]. done.
    + right. replace (N.to_nat f + 1 - length ds)%nat with 0%nat by lia. cbn [replicate app Nat.add].
      destruct (length ds - N.to_nat f)%nat eqn:E'; [lia|].
      destruct (N.eq_0_gt_0_cases n) as [->|Hn]; [cbn in H; lia|].
      pose proof (fun c => dec_of_N_head n c Hn) as Hh. fold ds in Hh. destruct ds as [|c ds0]; [done|].
      intros [= ->]. by apply (Hh 48).
Qed.

Lemma dec_value_frac i g j neg : 
  num_of_dec neg (dec_value (i ++ g ++ zeros j)) (- Z.of_nat (length (g ++ zeros j))) =
  num_of_dec neg (dec_value (i ++ g)) (- Z.of_nat (length g)).
Proof.
  rewrite app_assoc, dec_value_zeros_r, length_app. unfold zeros. rewrite length_replicate.
  destruct (N.eq_0_gt_0_cases (dec_value (i ++ g))) as [->|Hp]; [done|].
  rewrite <- (num_of_dec_shift neg _ (N.of_nat j) (- Z.of_nat (length g))) by done. f_equal. lia.
Qed.

Lemma no_dot_includes s : no_dot s -> includes_sub (lit ".") s = false.
Proof.
  unfold includes_sub. intros H. replace (index_of (lit ".") s) with (@None nat); [done|].
  induction H as [|c s Hc _ IH]; [done|]. cbn [index_of starts_with]. change (lit ".") with [46] in *.
  cbn [starts_with]. by rewrite Hc, <- IH.
Qed.

(** Where [toFixed] does not fall back to [String]. *)
Definition fixed_range (x : num) : bool :=
  match x with Fin _ m => m <? N.shiftl (10 ^ 21) 1074 | _ => false end.

Lemma sign_no_dot (b : bool) : no_dot (if b then [45] else []).
Proof. by destruct b; repeat constructor. Qed.

(** Dropping the zeros at the end of fixed point text leaves text that
    reads as the same number, and no fraction of it ends in a zero. *)
Theorem suffix_text_value x f :
  fixed_range x = true ->
  number_of_string (removeTrailingZeros (to_fixed x f)) = number_of_string (to_fixed x f) /\
  exists i g, removeTrailingZeros (to_fixed x f) = i ++ frac g /\ no_dot i /\ stripped g.
Proof.
  intros Hx. destruct x as [|s|s m]; [discriminate..|]. apply N.ltb_lt in Hx.
  set (b := s && negb (m =? 0)). pose proof (sign_no_dot b) as Hb.
  destruct (N.eq_dec f 0) as [->|Hf].
  - assert (Hn : no_dot (to_fixed (Fin s m) 0)).
    { unfold to_fixed. rewrite (proj2 (N.leb_gt _ _) Hx). apply Forall_app. split; [done|].
      rewrite app_nil_r. apply digits_no_dot, digits_take, Forall_app. split; [apply digits_zeros|apply dec_of_N_digits]. }
    unfold removeTrailingZeros. rewrite no_dot_includes by done. split; [done|].
    exists (to_fixed (Fin s m) 0), []. by rewrite app_nil_r.
  - destruct (to_fixed_text s m f Hx Hf) as (i & g & j & E & Hi & Hg & Hs & Hj & Hne & Hh).
    fold b in E. rewrite E, app_assoc. apply digits_no_dot in Hi as Hi'.
    rewrite trailing_zeros_removed by (done || by apply Forall_app).
    split; [|exists ((if b then [45] else []) ++ i), g; split_and!; [done|by apply Forall_app|done]].
    rewrite <- !app_assoc. transitivity (num_of_dec b (dec_value (i ++ g)) (- Z.of_nat (length g))).
    + apply number_of_text. exists i, g, None. rewrite app_nil_r. by split_and!.
    + symmetry. rewrite <- (dec_value_frac i g j).
      assert (Hd : digits (g ++ zeros j)) by (apply Forall_app; split; [done|apply digits_zeros]).
      revert Hj Hd. generalize (g ++ zeros j). intros [|c r] Hj Hd; [done|].
      apply number_of_text. exists i, (c :: r), None. cbn [frac exponent_text]. rewrite app_nil_r.
      by split_and!.
Qed.

Lemma suffix_text_value_witness :
  number_of_string (removeTrailingZeros (to_fixed (num_of_dec false 125 (-1)) 4)) =
  number_of_string (to_fixed (num_of_dec false 125 (-1)) 4).
Proof. apply suffix_text_value. vm_compute. reflexivity. Defined.

(** ** Small amounts *)

Lemma threshold_positive d lim : (d <= 323) -> num_gtb (threshold d lim) num_zero = true.
Proof.
  intros Hd. unfold threshold. destruct (num_gtb lim num_zero) eqn:E; [done|]. clear E.
  rewrite num_of_dec_mk by lia. unfold mk_num.
  assert (Hr : 2 ^ 0 <= round_units (dec_num 1 (- Z.of_N d)) (dec_den (- Z.of_N d))).
  { apply round_units_lower; [apply dec_den_pos|]. unfold dec_num, dec_den.
    replace (Z.to_N (- Z.of_N d)) with 0 by lia. replace (Z.to_N (- - Z.of_N d)) with d by lia.
    rewrite N.pow_0_r, N.mul_1_l, N.shiftl_mul_pow2, N.mul_1_l.
    apply N.div_le_lower_bound; [pose proof (pow10_pos d); lia|]. rewrite N.mul_1_r.
    transitivity (10 ^ 323); [by apply N.pow_le_mono_r|]. by vm_compute. }
  rewrite N.pow_0_r in Hr. case_test; [|done].
  unfold num_gtb, num_ltb, num_compare, num_zero, units. rewrite (proj2 (Z.compare_lt_iff _ _)); [done|lia].
Qed.

Ltac case_compare :=
  match goal with
  | |- context [(?a ?= ?b)%Z] => destruct (Z.compare_spec a b)
  | H : context [(?a ?= ?b)%Z] |- _ => destruct (Z.compare_spec a b)
  end; cbn [andb num_compare num_abs num_neg num_zero units negb] in *.

(** A nonzero amount is never shown as zero: the amount handed to the
    formatter has the sign of the amount and is at least the smallest one the
    chosen number of digits can show. *)
Theorem small_amount_visible value d lim :
  d <= 323 -> is_nan value = false -> num_eqb value num_zero = false ->
  let shown := adjustForMinimum value d lim in
  num_leb (threshold d lim) (num_abs shown) = true /\ num_ltb shown num_zero = num_ltb value num_zero /\
  num_gtb shown num_zero = num_gtb value num_zero.
Proof.
  intros Hd Hn Hz. pose proof (threshold_positive d lim Hd) as Ht. unfold adjustForMinimum. rewrite Hz.
  revert Ht. generalize (threshold d lim). intros t Ht. clear Hd lim d.
  unfold num_gtb, num_eqb, num_ltb, num_leb in *.
  destruct t as [|[]|[] t]; destruct value as [|[]|[] m]; cbn [num_compare num_abs num_neg num_zero units] in *;
    try discriminate; repeat case_compare; try discriminate; try done; lia.
Qed.

Lemma small_amount_visible_witness :
  num_leb (threshold 4 num_zero) (num_abs (adjustForMinimum (num_of_dec true 3 (-7)) 4 num_zero)) = true.
Proof.
  refine (proj1 (small_amount_visible (num_of_dec true 3 (-7)) 4 num_zero _ _ _)).
  - vm_compute. discriminate.
  - vm_compute. reflexivity.
  - vm_compute. reflexivity.
Defined.

(** ** Billing amounts *)

(** A billing amount is always shown as money: with the display type
    TOKENS the amounts of the billing pages are formatted exactly as with the
    display type USD, and no billing amount is ever formatted as tokens. *)
Theorem billing_ignores_tokens cur dec config amount options :
  let as_type t := Some (MkCurrency (displayInCurrency config) t (quotaPerUnit config) (usdExchangeRate config)
    (customCurrencySymbol config) (customCurrencyExchangeRate config)) in
  formatBillingCurrencyFromUSD cur dec (as_type TOKENS) amount options =
    formatBillingCurrencyFromUSD cur dec (as_type USD) amount options /\
  formatLocalCurrencyAmount cur dec (as_type TOKENS) amount options =
    formatLocalCurrencyAmount cur dec (as_type USD) amount options /\
  forall stored p, getBillingDisplayMeta (getConfig stored) <> MetaTokens p.
Proof.
  split; [done|]. split; [done|]. intros stored p. unfold getBillingDisplayMeta, dollar_meta.
  by destruct (getDisplayMeta (getConfig stored)).
Qed.

(** ** Durations and documentation *)

(** The seconds left over are rounded on their own, so just under two minutes
    are shown as one minute and sixty seconds. *)
Example use_time_sixty_seconds : formatUseTime (num_of_dec false 1197 (-1)) = lit "1m 60s".
Proof. vm_compute. reflexivity. Qed.

(** Ten dollars in token mode, with the default five hundred thousand tokens
    a dollar, are abbreviated. *)
Example token_amount_abbreviated cur dec :
  formatCurrencyFromUSD cur dec
    (Some (MkCurrency true TOKENS (num_of_Z 500000) (num_of_Z 1) (lit "") (num_of_Z 1)))
    (Some (num_of_Z 10)) None = lit "5000k".
Proof. vm_compute. reflexivity. Qed.

(** ** Colours *)

Lemma to_int32_range z : (- 2 ^ 31 <= to_int32 z < 2 ^ 31)%Z.
Proof. unfold to_int32. pose proof (Z.mod_pos_bound (z + 2 ^ 31) (2 ^ 32) ltac:(lia)). lia. Qed.

Lemma color_hash_range str : (- 2 ^ 31 <= color_hash str < 2 ^ 31)%Z.
Proof.
  unfold color_hash. destruct str as [|c str] using rev_ind; [by vm_compute|].
  rewrite fold_left_app. apply to_int32_range.
Qed.

(** The colour of a text is valid: the hash stays a 32-bit integer
    through the loop (with its code units no sum leaves the exact range of
    the numbers), the hue is below 360, the saturation between 65 and 74 and
    the lightness between 55 and 64. *)
Theorem color_bounds str :
  str <> [] ->
  exists hue saturation lightness,
    stringToColor str = lit "hsl(" ++ dec_of_Z hue ++ lit ", " ++ dec_of_Z saturation ++ lit "%, " ++
      dec_of_Z lightness ++ lit "%)" /\
    (0 <= hue < 360)%Z /\ (65 <= saturation <= 74)%Z /\ (55 <= lightness <= 64)%Z /\
    forall pre post c, str = pre ++ c :: post -> c < 2 ^ 16 ->
      (Z.abs (Z.of_N c + (to_int32 (Z.shiftl (color_hash pre) 5) - color_hash pre)) < 2 ^ 53)%Z.
Proof.
  intros Hs. destruct str as [|c0 str]; [done|].
  exists (color_parts (color_hash (c0 :: str))).1.1, (color_parts (color_hash (c0 :: str))).1.2,
    (color_parts (color_hash (c0 :: str))).2.
  split; [reflexivity|]. cbn [color_parts fst snd]. set (h := color_hash (c0 :: str)).
  pose proof (Z.rem_bound_abs h 360 ltac:(lia)). pose proof (Z.rem_bound_pos (Z.abs h) 10 ltac:(lia) ltac:(lia)).
  pose proof (Z.rem_bound_pos (Z.abs (Z.shiftr h 8)) 10 ltac:(lia) ltac:(lia)).
  repeat (split; [lia|]). intros pre post c _ Hc. pose proof (color_hash_range pre).
  pose proof (to_int32_range (Z.shiftl (color_hash pre) 5)). lia.
Qed.

Lemma color_bounds_witness : exists hue saturation lightness,
  stringToColor (lit "gpt-4o") = lit "hsl(" ++ dec_of_Z hue ++ lit ", " ++ dec_of_Z saturation ++ lit "%, " ++
      dec_of_Z lightness ++ lit "%)" /\ (0 <= hue < 360)%Z.
Proof.
  destruct (color_bounds (lit "gpt-4o")) as (h & s & l & E & Hh & _); [discriminate|].
  exists h, s, l. split; [exact E|exact Hh].
Defined.
