(* ===== verification/Pricing.v ===== *)
(** * Model pricing

    [src/web/default/src/features/pricing]: the market prices of
    [lib/qiniu-market.ts], the price text of [lib/price.ts], the dynamic prices
    of [lib/dynamic-price.ts], [lib/model-helpers.ts], the filters of
    [lib/filters.ts] and the hooks [use-filters.ts] and [use-pricing-data.ts].
    The full case mapping [toLowerCase] and the collation [localeCompare] of the
    platform are arguments ([lower], [collate]); a comparator result is modelled
    by its sign.  Absent, [undefined] and [null] members, which the code treats
    alike, are [None]. *)

From S2P Require Import Prelude.
From S2P Require Import JsString.
From S2P Require Import JsNumber.
From S2P Require Import JsRegex.
From S2P Require Import JsValue.
From S2P Require Import BillingExpr.
From S2P Require Import Currency.

Local Open Scope N_scope.

(** ** Types and constants *)

Inductive TokenUnit := UnitM | UnitK.

#[export] Instance TokenUnit_eq : EqDecision TokenUnit.
Proof. solve_decision. Defined.

Definition DEFAULT_TOKEN_UNIT : TokenUnit := UnitM.

Definition TOKEN_UNIT_DIVISORS (u : TokenUnit) : num :=
  match u with UnitM => num_of_Z 1 | UnitK => num_of_Z 1000 end.

Definition TOKEN_UNIT_SIZE (u : TokenUnit) : num :=
  match u with UnitM => num_of_Z 1000000 | UnitK => num_of_Z 1000 end.

Record MarketDetail := MkDetail {
  unit_name : option jstr;
  unit_size : option num;
  unit_price : option num;
  detail_name : option jstr
}.

(** A pricing rule: its [details_v2], an object in property order. *)
Record MarketRule := MkRule { details_v2 : option (list (jstr * MarketDetail)) }.

(** The members of [market_pricing] and [qiniu_market] that are read. *)
Record MarketPricing := MkMarket {
  market_name : option jstr;
  market_description : option jstr;
  hot_tags : option (list jstr);
  features : option (list jstr);
  pricing_rules_v2 : option (list MarketRule)
}.

Record PricingModel := MkModel {
  model_name : option jstr;
  description : option jstr;
  icon : option jstr;
  vendor_id : option num;
  vendor_name : option jstr;
  vendor_icon : option jstr;
  vendor_description : option jstr;
  quota_type : num;
  model_ratio : num;
  completion_ratio : num;
  model_price : option num;
  cache_ratio : option num;
  create_cache_ratio : option num;
  image_ratio : option num;
  audio_ratio : option num;
  audio_completion_ratio : option num;
  enable_groups : option (list jstr);
  tags : option jstr;
  supported_endpoint_types : option (list jstr);
  group_ratio : option (list (jstr * num));
  billing_mode : option jstr;
  billing_expr : option jstr;
  price_source : option jstr;
  market_pricing : option MarketPricing;
  qiniu_market : option MarketPricing
}.

(** [s || ''] and [Boolean(s)] on an optional text. *)
Definition text (o : option jstr) : jstr := default [] o.

(** [Number(x)] of an optional number; a missing one only reaches comparisons
    that [NaN] and [0] fail alike. *)
Definition number (o : option num) : num := default NaN o.

(** ** Supplier names *)

(** One unit of a pattern with the flag [i]: for ASCII letters the other case
    matches too, and no other unit does. *)
Definition ci (c : N) (x : N) : bool := lower_unit x =? c.

Definition ci_word (w : jstr) : regex := word_regex (List.map ci w).
Definition exact_word (w : jstr) : regex := word_regex (List.map N.eqb w).

Definition qiniu_market_regex : regex := ci_word (lit "qiniu_market").
Definition qiniu_regex : regex := ci_word (lit "qiniu").
Definition qiniu_cn_regex : regex := exact_word (lit "七牛").
Definition double_cn_regex : regex := exact_word (lit "官方官方").
Definition double_official_regex : regex :=
  RSeq (ci_word (lit "official")) (RSeq (RPlus ws_class) (ci_word (lit "official"))).
Definition spaces_regex : regex := RPlus ws_class.

Definition sanitizeSupplierBrandText (value : option jstr) : jstr :=
  let raw := trim (text value) in
  if negb (truthy_str raw) then []
  else
    trim (replace_all spaces_regex (lit " ")
      (replace_all double_official_regex (lit "official")
        (replace_all double_cn_regex (lit "官方")
          (replace_all qiniu_cn_regex (lit "官方")
            (replace_all qiniu_regex (lit "official")
              (replace_all qiniu_market_regex (lit "market") raw)))))).

Definition sanitizeSupplierBrandUrl (value : option jstr) : jstr := trim (text value).

(** ** Market prices *)

Record PriceItem := MkItem {
  item_key : jstr;
  detailKey : jstr;
  item_label : jstr;
  formatted : jstr;
  unitLabel : jstr
}.

Definition DETAIL_ORDER : list jstr :=
  [lit "input"; lit "output"; lit "cache"; lit "image"; lit "audio"].

Definition isMarketPricingModel (m : PricingModel) : bool :=
  bool_decide (is_Some (market_pricing m)) || bool_decide (is_Some (qiniu_market m)) ||
  bool_decide (price_source m = Some (lit "qiniu_market")).

Definition getMarketPricing (m : PricingModel) : option MarketPricing :=
  match market_pricing m with Some p => Some p | None => qiniu_market m end.

Definition market_rules (m : PricingModel) : list MarketRule :=
  default [] (p ← getMarketPricing m; pricing_rules_v2 p).

Fixpoint index_in (k : jstr) (l : list jstr) : nat :=
  match l with
  | [] => 0
  | x :: l' => if x =?= k then 0%nat else S (index_in k l')
  end.

(** [indexOf], or the length of the list for a key that is not in it. *)
Definition detailSortIndex (key : jstr) : nat := index_in key DETAIL_ORDER.

Definition normalizeTokenUnit (u : option TokenUnit) : TokenUnit :=
  match u with Some UnitK => UnitK | _ => DEFAULT_TOKEN_UNIT end.

(** The comparison with [token] and [tokens] only depends on ASCII letters,
    except for the Kelvin sign, whose lower case is [k]. *)
Definition kelvin (c : N) : N := if c =? 8490 then 107 else lower_unit c.

Definition isTokenUnitName (unitName : option jstr) : bool :=
  let normalized := List.map kelvin (trim (text unitName)) in
  (normalized =?= lit "token") || (normalized =?= lit "tokens").

Definition getQiniuUnitScale (detail : MarketDetail) (tokenUnit : option TokenUnit) : num :=
  if negb (isTokenUnitName (unit_name detail)) then num_of_Z 1
  else
    let sourceUnitSize := number (unit_size detail) in
    let normalized :=
      if is_finite sourceUnitSize && num_gtb sourceUnitSize num_zero then sourceUnitSize else num_of_Z 1 in
    num_div (TOKEN_UNIT_SIZE (normalizeTokenUnit tokenUnit)) normalized.

Definition trailing_fraction_regex : regex :=
  RSeq (ROpt (RLit (lit "."))) (RSeq (RPlus (RLit (lit "0"))) REnd).

Definition stripQiniuTrailingZeros (value : num) : jstr :=
  if num_eqb value num_zero then lit "0"
  else replace_first trailing_fraction_regex (fun _ => []) (to_fixed value 8).

(** The official price in yuan is shown as it is. *)
Definition applyQiniuRechargeRate (price : num) : num := price.

(** The price of a detail for a token unit; [None] when it has none. *)
Definition scaled_price (detail : MarketDetail) (tokenUnit : option TokenUnit) : option num :=
  value ← unit_price detail;
  if is_finite value then Some (num_mul value (getQiniuUnitScale detail tokenUnit)) else None.

Definition formatQiniuCNYPrice (detail : MarketDetail) (tokenUnit : option TokenUnit) : jstr :=
  match scaled_price detail tokenUnit with
  | None => []
  | Some scaledValue => lit "¥" ++ stripQiniuTrailingZeros (applyQiniuRechargeRate scaledValue)
  end.

Definition formatQiniuUnitSize (value : num) : jstr :=
  if num_eqb value (num_of_Z 1000) then lit "1K"
  else if num_eqb value (num_of_Z 1000000) then lit "1M"
  else string_of_num value.

Definition formatQiniuUnitLabel (detail : MarketDetail) (tokenUnit : option TokenUnit) : jstr :=
  let unitName := sanitizeSupplierBrandText (unit_name detail) in
  if isTokenUnitName (Some unitName) then
    lit "/ " ++ formatQiniuUnitSize (TOKEN_UNIT_SIZE (normalizeTokenUnit tokenUnit)) ++ lit " " ++ unitName
  else
    let unitSize := number (unit_size detail) in
    if truthy_str unitName && is_finite unitSize && num_gtb unitSize (num_of_Z 1) then
      lit "/ " ++ formatQiniuUnitSize unitSize ++ lit " " ++ unitName
    else if truthy_str unitName then lit "/ " ++ unitName
    else [].

(** The sorted details of a rule. *)
Definition sorted_details (details : list (jstr * MarketDetail)) : list (jstr * MarketDetail) :=
  sort_by (fun a b => (detailSortIndex a.1 <=? detailSortIndex b.1)%nat) details.

Definition price_item (ruleIndex : nat) (tokenUnit : option TokenUnit) (e : jstr * MarketDetail) : option PriceItem :=
  let '(key, detail) := e in
  let formatted := formatQiniuCNYPrice detail tokenUnit in
  if negb (truthy_str formatted) then None
  else
    let name := sanitizeSupplierBrandText (detail_name detail) in
    Some (MkItem (dec_of_N (N.of_nat ruleIndex) ++ lit "-" ++ key) key
      (if truthy_str name then name else key) formatted (formatQiniuUnitLabel detail tokenUnit)).

Definition rule_items (tokenUnit : option TokenUnit) (ruleIndex : nat) (rule : MarketRule) : list PriceItem :=
  match details_v2 rule with
  | None => []
  | Some details => omap (price_item ruleIndex tokenUnit) (sorted_details details)
  end.

Definition formatQiniuMarketPriceItems (m : PricingModel) (tokenUnit : option TokenUnit) : list PriceItem :=
  if negb (isMarketPricingModel m) then []
  else concat (imap (rule_items tokenUnit) (market_rules m)).

Definition hasQiniuMarketPricing (m : PricingModel) : bool :=
  (0 <? length (formatQiniuMarketPriceItems m None))%nat.

(** [if (lowest === null || v < lowest) lowest = v]. *)
Definition keep_lowest (lowest : option num) (v : num) : option num :=
  match lowest with
  | None => Some v
  | Some w => if num_ltb v w then Some v else lowest
  end.

(** The scaled prices of a model, in the order the loops visit them. *)
Definition visited_prices (m : PricingModel) (tokenUnit : TokenUnit) : list num :=
  List.flat_map (fun rule => omap (fun d => scaled_price d (Some tokenUnit)) (obj_values (default [] (details_v2 rule))))
    (market_rules m).

Definition getQiniuMarketSortPrice (m : PricingModel) (tokenUnit : TokenUnit) : option num :=
  if negb (isMarketPricingModel m) then None
  else fold_left keep_lowest (visited_prices m tokenUnit) None.

Definition qiniuMarketVisibleText (m : PricingModel) : jstr :=
  let market := getMarketPricing m in
  let parts : list (option jstr) :=
    [model_name m; p ← market; market_name p; p ← market; market_description p] ++
    List.map Some (default [] (p ← market; hot_tags p)) ++
    List.map Some (default [] (p ← market; features p)) ++
    List.flat_map (fun item => [Some (item_label item); Some (formatted item); Some (unitLabel item)])
      (formatQiniuMarketPriceItems m None) in
  join (lit " ") (List.filter truthy_str (List.map sanitizeSupplierBrandText parts)).

(** ** Price text *)

(** [parseFloat] of the text matched below: an optional sign and digits with an
    optional fraction; what follows the number is ignored. *)
Definition parse_float (s : jstr) : num :=
  let unsigned (neg : bool) (r : jstr) : num :=
    match parse_unsigned neg r with Some (x, _) => x | None => NaN end in
  match s with
  | 45 :: r => unsigned true r
  | _ => unsigned false s
  end.

(** A symbol without digits or hyphens, a number with separators and an
    optional fraction, and an optional [k]. *)
Definition price_text_regex : regex :=
  seq_of
    [RBegin;
     RGroup 1 (RStar (RClass (fun c => negb (is_digit c || (c =? 45)))));
     RGroup 2 (RSeq (RPlus (RClass (fun c => (c =? 45) || is_digit c || (c =? 44))))
                 (RSeq (ROpt (RLit (lit "."))) (RStar digit_class)));
     RGroup 3 (ROpt (RLit (lit "k")));
     REnd].

Definition stripTrailingZeros (formatted : jstr) : jstr :=
  match re_match price_text_regex formatted with
  | None => formatted
  | Some m =>
      let group n := default [] (cap n m) in
      let cleanNumber := replace_unit 44 [] (group 2%nat) in
      let parsed := parse_float cleanNumber in
      if is_nan parsed then formatted
      else
        let result := string_of_num parsed in
        let result :=
          if includes_sub (lit "e") result
          then replace_first trailing_fraction_regex (fun _ => []) (to_fixed parsed 20)
          else result in
        group 1%nat ++ result ++ group 3%nat
  end.

(** One round of the loop over the groups. *)
Definition min_step (ratios : list (jstr * num)) (minRatio : num) (group : jstr) : num :=
  match obj_get group ratios with
  | Some ratio => if num_ltb ratio minRatio then ratio else minRatio
  | None => minRatio
  end.

Definition getMinGroupRatio (enableGroups : list jstr) (groupRatio : list (jstr * num)) : num :=
  match enableGroups with
  | [] => num_of_Z 1
  | _ =>
      let minRatio := fold_left (min_step groupRatio) enableGroups (Inf false) in
      if num_eqb minRatio (Inf false) then num_of_Z 1 else minRatio
  end.

Inductive PriceType := PInput | POutput | PCache | PCreateCache | PImage | PAudioInput | PAudioOutput.

Definition hasRatio (value : option num) : bool :=
  match value with Some x => is_finite x | None => false end.

Definition calculateTokenPrice (m : PricingModel) (type : PriceType) (ratio : num) : num :=
  let base := num_mul (num_mul (model_ratio m) (num_of_Z 2)) ratio in
  let times value := if hasRatio value then num_mul base (number value) else NaN in
  match type with
  | PInput => base
  | POutput => num_mul base (completion_ratio m)
  | PCache => times (cache_ratio m)
  | PCreateCache => times (create_cache_ratio m)
  | PImage => times (image_ratio m)
  | PAudioInput => times (audio_ratio m)
  | PAudioOutput =>
      if hasRatio (audio_ratio m) && hasRatio (audio_completion_ratio m)
      then num_mul (num_mul base (number (audio_ratio m))) (number (audio_completion_ratio m)) else NaN
  end.

Definition applyRechargeRate (price : num) (showWithRecharge : bool) (priceRate usdExchangeRate : num) : num :=
  if negb showWithRecharge then price else num_div (num_mul price priceRate) usdExchangeRate.

Definition is_request (m : PricingModel) : bool := num_eqb (quota_type m) (num_of_Z 1).

Definition token_options : option CurrencyFormatOptions := Some (MkOptions (Some 4) (Some 6) (Some false) None).
Definition request_options : option CurrencyFormatOptions := Some (MkOptions (Some 4) (Some 4) (Some false) None).

(** [groupRatio[group] || 1]. *)
Definition ratio_or_one (groupRatio : list (jstr * num)) (group : jstr) : num :=
  num_or (default num_zero (obj_get group groupRatio)) (num_of_Z 1).

Definition min_ratio_of (m : PricingModel) : num :=
  getMinGroupRatio (default [] (enable_groups m)) (default [] (group_ratio m)).

Section PriceText.
Variable intl_currency : jstr -> N -> num -> jstr.
Variable intl_decimal : N -> num -> jstr.
Variable stored : option CurrencyConfig.

Definition usd (price : num) (options : option CurrencyFormatOptions) : jstr :=
  formatCurrencyFromUSD intl_currency intl_decimal stored (Some price) options.

Section Recharge.
Variable showWithRecharge : bool.
Variables priceRate usdExchangeRate : num.

(** The price a token price is shown with. *)
Definition token_display_price (m : PricingModel) (type : PriceType) (unit : TokenUnit) (ratio : num) : num :=
  num_div (applyRechargeRate (calculateTokenPrice m type ratio) showWithRecharge priceRate usdExchangeRate)
    (TOKEN_UNIT_DIVISORS unit).

Definition request_display_price (m : PricingModel) (ratio : num) : num :=
  applyRechargeRate (num_mul (num_or (number (model_price m)) num_zero) ratio) showWithRecharge priceRate
    usdExchangeRate.

Definition formatPrice (m : PricingModel) (type : PriceType) (tokenUnit : TokenUnit) : jstr :=
  if is_request m then lit "-"
  else usd (token_display_price m type tokenUnit (min_ratio_of m)) token_options.

Definition formatGroupPrice (m : PricingModel) (group : jstr) (type : PriceType) (tokenUnit : TokenUnit)
    (groupRatio : list (jstr * num)) : jstr :=
  if is_request m then lit "-"
  else usd (token_display_price m type tokenUnit (ratio_or_one groupRatio group)) token_options.

Definition formatFixedPrice (m : PricingModel) (group : jstr) (groupRatio : list (jstr * num)) : jstr :=
  if negb (is_request m) then lit "-"
  else usd (request_display_price m (ratio_or_one groupRatio group)) request_options.

Definition formatRequestPrice (m : PricingModel) : jstr :=
  if negb (is_request m) then lit "-"
  else usd (request_display_price m (min_ratio_of m)) request_options.

End Recharge.

(** ** Dynamic prices *)

Record DynamicPriceOptions := MkDynamic {
  tokenUnit : TokenUnit;
  showRechargePrice : option bool;
  priceRate : option num;
  usdExchangeRate : option num;
  groupRatioMultiplier : option num
}.

Record DynamicPriceEntry := MkEntry {
  entry_key : jstr;
  entry_field : jstr;
  entry_label : jstr;
  entry_shortLabel : jstr;
  value : num;
  entry_formatted : jstr;
  variable : BillingVar
}.

Record DynamicPricingSummary := MkSummary {
  tiers : list ParsedTier;
  tier : option ParsedTier;
  tierCount : nat;
  hasRequestRules : bool;
  isSpecialExpression : bool;
  rawExpression : jstr;
  entries : list DynamicPriceEntry;
  primaryEntries : list DynamicPriceEntry;
  secondaryEntries : list DynamicPriceEntry
}.

Definition PRIMARY_DYNAMIC_FIELDS : list jstr := [lit "inputPrice"; lit "outputPrice"].

Definition is_primary (field : jstr) : bool := bool_decide (field ∈ PRIMARY_DYNAMIC_FIELDS).

Definition isDynamicPricingModel (m : PricingModel) : bool :=
  bool_decide (billing_mode m = Some (lit "tiered_expr")) && truthy_str (text (billing_expr m)).

Definition getDynamicDisplayGroupRatio (m : PricingModel) : num :=
  let groups := default [] (enable_groups m) in
  let ratios := default [] (group_ratio m) in
  if (length groups =? 0)%nat then num_of_Z 1
  else
    let minRatio :=
      fold_left (fun least group =>
        match obj_get group ratios with
        | Some ratio => if num_ltb ratio least then ratio else least
        | None => least
        end) groups (Inf false) in
    if num_eqb minRatio (Inf false) then num_of_Z 1 else minRatio.

Definition formatDynamicUnitPrice (valuePerMillionTokens : num) (options : DynamicPriceOptions) : jstr :=
  let groupRatio := default (num_of_Z 1) (groupRatioMultiplier options) in
  let rate := default (num_of_Z 1) (priceRate options) in
  let exchange := default (num_of_Z 1) (usdExchangeRate options) in
  let priceUSD := num_div (num_mul valuePerMillionTokens groupRatio) (TOKEN_UNIT_DIVISORS (tokenUnit options)) in
  let displayPrice := applyRechargeRate priceUSD (default false (showRechargePrice options)) rate exchange in
  formatBillingCurrencyFromUSD intl_currency intl_decimal stored (Some displayPrice) token_options.

Definition getDynamicPricingTiers (m : PricingModel) : outcome (list ParsedTier) :=
  if negb (isDynamicPricingModel m) then Ret []
  else
    split ← splitBillingExprAndRequestRules (text (billing_expr m));
    Ret (parseTiersFromExpr (billingExpr split)).

Definition hasDynamicRequestRules (m : PricingModel) : outcome bool :=
  if negb (isDynamicPricingModel m) then Ret false
  else
    split ← splitBillingExprAndRequestRules (text (billing_expr m));
    parsed ← tryParseRequestRuleExpr (requestRuleExpr split);
    Ret (match parsed with Some (_ :: _) => true | _ => false end).

(** The entry of a variable: its price must be finite and positive. *)
Definition variable_entry (t : ParsedTier) (options : DynamicPriceOptions) (v : BillingVar) : option DynamicPriceEntry :=
  f ← field v;
  let x := default NaN (obj_get f (tier_prices t)) in
  if negb (truthy_str f) || negb (is_finite x) || num_leb x num_zero then None
  else Some (MkEntry (key v) f (label v) (shortLabel v) x (formatDynamicUnitPrice x options) v).

(** [compare(a, b) <= 0] of the comparator. *)
Definition primary_first (a b : DynamicPriceEntry) : bool :=
  is_primary (entry_field a) || negb (is_primary (entry_field b)).

Definition getDynamicPriceEntries (t : option ParsedTier) (options : DynamicPriceOptions) : list DynamicPriceEntry :=
  match t with
  | None => []
  | Some t => sort_by primary_first (omap (variable_entry t options) BILLING_PRICING_VARS)
  end.

Definition getDynamicPricingSummary (m : PricingModel) (options : DynamicPriceOptions)
    : outcome (option DynamicPricingSummary) :=
  if negb (isDynamicPricingModel m) then Ret None
  else
    tiers ← getDynamicPricingTiers m;
    hasRules ← hasDynamicRequestRules m;
    let entries := getDynamicPriceEntries (head tiers) options in
    let raw := text (billing_expr m) in
    Ret (Some (MkSummary tiers (head tiers) (length tiers) hasRules
      (truthy_str (trim raw) && (length tiers =? 0)%nat) raw entries
      (List.filter (fun e => is_primary (entry_field e)) entries)
      (List.filter (fun e => negb (is_primary (entry_field e))) entries))).

End PriceText.

(** ** Model helpers *)

Definition EXCLUDED_GROUPS : list jstr := [[]; lit "auto"].

(** [usableGroup] is an object; only its keys are read. *)
Definition getAvailableGroups {V} (m : PricingModel) (usableGroup : list (jstr * V)) : list jstr :=
  let modelEnableGroups := default [] (enable_groups m) in
  List.filter (fun g => bool_decide (g ∈ modelEnableGroups))
    (List.filter (fun g => negb (bool_decide (g ∈ EXCLUDED_GROUPS))) (obj_keys usableGroup)).

(** The replacement text of a match from [b] to [e]: [$$], [$&], [$`] and [$'];
    the patterns that use it have no groups. *)
Fixpoint expand (b e : mstate) (w : jstr) : jstr :=
  match w with
  | [] => []
  | 36 :: ((c :: r) as r') =>
      if c =? 36 then 36 :: expand b e r
      else if c =? 38 then consumed b e ++ expand b e r
      else if c =? 96 then reverse (before b) ++ expand b e r
      else if c =? 39 then after e ++ expand b e r
      else 36 :: expand b e r'
  | c :: r => c :: expand b e r
  end.

(** [s.replace(r, w)] for a global pattern, with the special sequences of [w]. *)
Fixpoint replace_template_from (fuel : nat) (r : regex) (w : jstr) (st : mstate) : jstr :=
  match fuel with
  | O => after st
  | S f =>
      match search_from (length (after st)) r st with
      | Some (b, e) =>
          consumed st b ++ expand b e w ++ replace_template_from f r w (MState (before e) (after e) [])
      | None => after st
      end
  end.

Definition replaceModelInPath (path modelName : jstr) : jstr :=
  replace_template_from (S (length path)) (RLit (lit "{model}")) modelName (start_state path).

Definition isTokenBasedModel (m : PricingModel) : bool := num_eqb (quota_type m) (num_of_Z 0).

(** ** Filters *)

Section Filters.
Variable lower : jstr -> jstr.
Variable collate : jstr -> jstr -> comparison.

Definition found_in (query field : jstr) : bool := includes_sub query (lower field).

Definition matches_search (query : jstr) (m : PricingModel) : bool :=
  let lowerQuery := lower query in
  match model_name m with Some n => found_in lowerQuery n | None => false end ||
  found_in lowerQuery (sanitizeSupplierBrandText (description m)) ||
  found_in lowerQuery (sanitizeSupplierBrandText (tags m)) ||
  found_in lowerQuery (sanitizeSupplierBrandText (vendor_name m)).

Definition filterBySearch (models : list PricingModel) (query : jstr) : list PricingModel :=
  if negb (truthy_str query) then models else List.filter (matches_search query) models.

Definition FILTER_ALL : jstr := lit "all".

Definition filterByVendor (models : list PricingModel) (vendor : jstr) : list PricingModel :=
  if vendor =?= FILTER_ALL then models
  else List.filter (fun m => bool_decide (vendor_name m = Some vendor)) models.

(** [xs?.includes(x)]. *)
Definition lists (xs : option (list jstr)) (x : jstr) : bool :=
  match xs with Some l => bool_decide (x ∈ l) | None => false end.

Definition filterByGroup (models : list PricingModel) (group : jstr) : list PricingModel :=
  if group =?= FILTER_ALL then models
  else List.filter (fun m => lists (enable_groups m) group) models.

Definition target_type (quotaType : jstr) : num :=
  if quotaType =?= lit "token" then num_of_Z 0 else num_of_Z 1.

Definition filterByQuotaType (models : list PricingModel) (quotaType : jstr) : list PricingModel :=
  if quotaType =?= FILTER_ALL then models
  else List.filter (fun m => num_eqb (quota_type m) (target_type quotaType)) models.

Definition filterByEndpointType (models : list PricingModel) (endpointType : jstr) : list PricingModel :=
  if endpointType =?= FILTER_ALL then models
  else List.filter (fun m => lists (supported_endpoint_types m) endpointType) models.

(** [/[,;|\s]+/]. *)
Definition tag_separator : regex := RPlus (RClass (fun c => one_of (lit ",;|") c || is_ws c)).

Definition parseTags (tagsString : option jstr) : list jstr :=
  let s := text tagsString in
  if negb (truthy_str s) then []
  else List.filter truthy_str (List.map trim (split_re tag_separator s)).

Definition extractAllTags (models : list PricingModel) : list jstr :=
  sort_by (fun a b => match collate a b with Gt => false | _ => true end)
    (uniq (List.flat_map (fun m => List.map lower (parseTags (tags m))) models)).

Definition has_tag (tag : jstr) (m : PricingModel) : bool :=
  truthy_str (text (tags m)) && bool_decide (lower tag ∈ List.map lower (parseTags (tags m))).

Definition filterByTag (models : list PricingModel) (tag : jstr) : list PricingModel :=
  if tag =?= FILTER_ALL then models else List.filter (has_tag tag) models.

Definition getModelPrice (m : PricingModel) : option num :=
  if isMarketPricingModel m then getQiniuMarketSortPrice m DEFAULT_TOKEN_UNIT
  else Some (if num_eqb (quota_type m) (num_of_Z 0) then model_ratio m
             else num_or (number (model_price m)) num_zero).

Definition compareModelName (a b : PricingModel) : comparison :=
  collate (text (model_name a)) (text (model_name b)).

Inductive Direction := Asc | Desc.

(** The sign of [x || y], [y] being given by its sign. *)
Definition sign_or (x : num) (y : comparison) : comparison :=
  if negb (truthy_num x) then y else if num_ltb x num_zero then Lt else Gt.

Definition compareModelPrice (direction : Direction) (a b : PricingModel) : comparison :=
  match getModelPrice a, getModelPrice b with
  | None, None => compareModelName a b
  | None, Some _ => Gt
  | Some _, None => Lt
  | Some l, Some r =>
      let priceDiff := match direction with Asc => num_sub l r | Desc => num_sub r l end in
      sign_or priceDiff (compareModelName a b)
  end.

(** [sorted.sort(compare)]. *)
Definition sort_with (compare : PricingModel -> PricingModel -> comparison) : list PricingModel -> list PricingModel :=
  sort_by (fun a b => match compare a b with Gt => false | _ => true end).

Definition sortModels (models : list PricingModel) (sortBy : jstr) : list PricingModel :=
  if sortBy =?= lit "name" then sort_with compareModelName models
  else if sortBy =?= lit "price-low" then sort_with (compareModelPrice Asc) models
  else if sortBy =?= lit "price-high" then sort_with (compareModelPrice Desc) models
  else models.

Record Filters := MkFilters {
  search : jstr;
  vendor : jstr;
  group : jstr;
  quotaType : jstr;
  endpointType : jstr;
  tag : jstr;
  sortBy : jstr
}.

Definition filterAndSortModels (models : list PricingModel) (filters : Filters) : list PricingModel :=
  let result := filterBySearch models (search filters) in
  let result := filterByVendor result (vendor filters) in
  let result := filterByGroup result (group filters) in
  let result := filterByQuotaType result (quotaType filters) in
  let result := filterByEndpointType result (endpointType filters) in
  let result := filterByTag result (tag filters) in
  sortModels result (sortBy filters).

(** ** The filter state of the page *)

(** [FilterState]: an object whose members are texts. *)
Definition FilterState := list (jstr * jsval).

Definition FILTER_KEYS : list jstr :=
  [lit "search"; lit "sort"; lit "vendor"; lit "group"; lit "quotaType"; lit "endpointType"; lit "tag";
   lit "tokenUnit"; lit "view"].

(** The first state, read from the search parameters of the page; a parameter
    that is absent gives a member that is [undefined]. *)
Definition initial_state (params : list (jstr * jsval)) : FilterState :=
  List.map (fun k => (k, default VUndef (obj_get k params))) FILTER_KEYS.

(** [{ ...prev, ...updates }] without the members that became nullish. *)
Definition updateFilters (updates : list (jstr * jsval)) (prev : FilterState) : FilterState :=
  List.filter (fun kv => negb (is_nullish kv.2)) (obj_merge prev updates).

(** [filterState[k] || d]. *)
Definition state_text (k d : jstr) (s : FilterState) : jstr :=
  match obj_get k s with Some (VStr v) => if truthy_str v then v else d | _ => d end.

(** [v === d ? undefined : v]. *)
Definition unless (d v : jstr) : jsval := if v =?= d then VUndef else VStr v.

Definition setSearchInput (v : jstr) : FilterState -> FilterState :=
  updateFilters [(lit "search", if truthy_str v then VStr v else VUndef)].
Definition setSortBy (v : jstr) : FilterState -> FilterState := updateFilters [(lit "sort", unless (lit "name") v)].
Definition setVendorFilter (v : jstr) : FilterState -> FilterState := updateFilters [(lit "vendor", unless FILTER_ALL v)].
Definition setGroupFilter (v : jstr) : FilterState -> FilterState := updateFilters [(lit "group", unless FILTER_ALL v)].
Definition setQuotaTypeFilter (v : jstr) : FilterState -> FilterState :=
  updateFilters [(lit "quotaType", unless FILTER_ALL v)].
Definition setEndpointTypeFilter (v : jstr) : FilterState -> FilterState :=
  updateFilters [(lit "endpointType", unless FILTER_ALL v)].
Definition setTagFilter (v : jstr) : FilterState -> FilterState := updateFilters [(lit "tag", unless FILTER_ALL v)].
Definition setTokenUnit (v : jstr) : FilterState -> FilterState := updateFilters [(lit "tokenUnit", unless (lit "M") v)].
Definition setViewMode (v : jstr) : FilterState -> FilterState := updateFilters [(lit "view", unless (lit "card") v)].

Definition clearFilters : FilterState -> FilterState :=
  updateFilters [(lit "vendor", VUndef); (lit "group", VUndef); (lit "quotaType", VUndef);
                 (lit "endpointType", VUndef); (lit "tag", VUndef)].
Definition clearSearch : FilterState -> FilterState := updateFilters [(lit "search", VUndef)].

(** What the hook derives from its state. *)
Definition filters_of (s : FilterState) : Filters :=
  MkFilters (state_text (lit "search") [] s) (state_text (lit "vendor") FILTER_ALL s)
    (state_text (lit "group") FILTER_ALL s) (state_text (lit "quotaType") FILTER_ALL s)
    (state_text (lit "endpointType") FILTER_ALL s) (state_text (lit "tag") FILTER_ALL s)
    (state_text (lit "sort") (lit "name") s).

Definition token_unit_of (s : FilterState) : TokenUnit :=
  match obj_get (lit "tokenUnit") s with
  | Some (VStr v) => if v =?= lit "K" then UnitK else DEFAULT_TOKEN_UNIT
  | _ => DEFAULT_TOKEN_UNIT
  end.

Inductive ViewMode := Card | Table.

Definition normalizeViewMode (v : option jsval) : ViewMode :=
  match v with Some (VStr s) => if s =?= lit "table" then Table else Card | _ => Card end.

Definition view_of (s : FilterState) : ViewMode := normalizeViewMode (obj_get (lit "view") s).

Definition availableTags (models : list PricingModel) : list jstr :=
  match models with [] => [] | _ => extractAllTags models end.

Definition filteredModels (models : list PricingModel) (s : FilterState) : list PricingModel :=
  match models with [] => [] | _ => filterAndSortModels models (filters_of s) end.

Definition active (f : Filters) : list bool :=
  [vendor f <?> FILTER_ALL; group f <?> FILTER_ALL; quotaType f <?> FILTER_ALL; endpointType f <?> FILTER_ALL;
   tag f <?> FILTER_ALL].

Definition hasActiveFilters (s : FilterState) : bool := List.existsb id (active (filters_of s)).

Definition activeFilterCount (s : FilterState) : nat := length (List.filter id (active (filters_of s))).

End Filters.

(** ** Loaded data *)

Record PricingVendor := MkVendor {
  vid : num;
  vname : option jstr;
  vicon : option jstr;
  vdescription : option jstr
}.

Definition one_thousandth : num := num_of_dec false 1 (-3).

(** [Math.max(status?.price ?? 1, 0.001)], and the exchange rate. *)
Definition price_rate (price : option num) : num := num_max (default (num_of_Z 1) price) one_thousandth.
Definition exchange_rate (price rate : option num) : num := num_max (default (price_rate price) rate) one_thousandth.

Definition sanitize_vendor (v : PricingVendor) : PricingVendor :=
  MkVendor (vid v) (Some (sanitizeSupplierBrandText (vname v))) (Some (sanitizeSupplierBrandUrl (vicon v)))
    (Some (sanitizeSupplierBrandText (vdescription v))).

(** [Map.get] of the map built from the vendors: the last one with the id. *)
Definition find_vendor (vendors : list PricingVendor) (i : num) : option PricingVendor :=
  List.find (fun v => num_eqb (vid v) i) (reverse vendors).

Definition load_model (vendors : list PricingVendor) (ratios : list (jstr * num)) (m : PricingModel) : PricingModel :=
  let v :=
    i ← vendor_id m;
    if truthy_num i then sanitize_vendor <$> find_vendor vendors i else None in
  MkModel (model_name m) (Some (sanitizeSupplierBrandText (description m))) (Some (sanitizeSupplierBrandUrl (icon m)))
    (vendor_id m) (v ← v; vname v) (v ← v; vicon v) (v ← v; vdescription v) (quota_type m) (model_ratio m)
    (completion_ratio m) (model_price m) (cache_ratio m) (create_cache_ratio m) (image_ratio m) (audio_ratio m)
    (audio_completion_ratio m) (enable_groups m) (Some (sanitizeSupplierBrandText (tags m)))
    (supported_endpoint_types m) (Some ratios) (billing_mode m) (billing_expr m) (price_source m)
    (market_pricing m) (qiniu_market m).

(** The models of the response, when it has both lists. *)
Definition load_models (data : option (list PricingModel)) (vendors : option (list PricingVendor))
    (ratios : list (jstr * num)) : list PricingModel :=
  match data, vendors with
  | Some d, Some vs => List.map (load_model vs ratios) d
  | _, _ => []
  end.
