(* ===== verification/PricingFacts.v ===== *)
(** * Facts about model pricing

    Where the supplier's name is hidden, the filters and their tags,
    the order of the list, the group ratios, the dynamic prices and the filter
    state of [Pricing]. *)

From S2P Require Import Prelude.
From S2P Require Import JsString.
From S2P Require Import JsNumber.
From S2P Require Import JsDecimal.
From S2P Require Import JsRegex.
From S2P Require Import JsValue.
From S2P Require Import BillingExpr.
From S2P Require Import BillingSplit.
From S2P Require Import Currency.
From S2P Require Import Pricing.

Local Open Scope N_scope.

(** ** Supplier names *)

(** The supplier's Latin name in any case, and its Chinese name. *)
Definition latin_name : list (N -> bool) := List.map ci (lit "qiniu").
Definition chinese_name : list (N -> bool) := List.map N.eqb (lit "七牛").

Definition names_supplier (s : jstr) : bool := occurs latin_name s || occurs chinese_name s.

Lemma occurs_drop_while p f s : occurs p (drop_while f s) = true -> occurs p s = true.
Proof.
  induction s as [|c s IH]; [done|]. cbn [drop_while]. destruct (f c); [|done].
  intros H. cbn [occurs]. by rewrite (IH H), orb_true_r.
Qed.

Lemma occurs_trim p s : occurs p s = false -> occurs p (trim s) = false.
Proof.
  rewrite <- !not_true_iff_false. intros Hs H. apply Hs. unfold trim, trim_end in H.
  apply (occurs_drop_while p is_ws). change (drop_while is_ws s) with (trim_start s). revert H.
  generalize (trim_start s). clear. intros s.
  assert (Hp : exists t, s = reverse (drop_while is_ws (reverse s)) ++ t).
  { assert (Hr : forall r, exists u, r = u ++ drop_while is_ws r).
    { intros r. induction r as [|c r [u Hu]]; [by exists []|]. cbn [drop_while].
      destruct (is_ws c); [exists (c :: u); by rewrite <- app_comm_cons, <- Hu|by exists []]. }
    destruct (Hr (reverse s)) as [u Hu]. exists (reverse u).
    rewrite <- reverse_app, <- Hu. by rewrite reverse_involutive. }
  destruct Hp as [t Ht]. intros H. rewrite Ht. by apply occurs_app_l.
Qed.

Lemma spaces_forward : forward spaces_regex.
Proof. by repeat split. Qed.
Lemma double_official_forward : forward double_official_regex.
Proof. repeat split; try apply word_forward; done. Qed.

(** Every later replacement is inert for a name that is gone. *)
Lemma later_steps p s :
  inert p (lit " ") = true -> inert p (lit "official") = true -> inert p (lit "官方") = true -> occurs p s = false ->
  occurs p (trim (replace_all spaces_regex (lit " ")
    (replace_all double_official_regex (lit "official") (replace_all double_cn_regex (lit "官方") s)))) = false.
Proof.
  intros H1 H2 H3 Hs. apply occurs_trim, replace_all_inert; [done|apply spaces_forward|].
  apply replace_all_inert; [done|apply double_official_forward|].
  apply replace_all_inert; [done|apply word_forward|done].
Qed.

Lemma sanitized_text value : names_supplier (sanitizeSupplierBrandText value) = false.
Proof.
  unfold sanitizeSupplierBrandText. case_test; [done|]. apply orb_false_iff. split.
  - apply later_steps; [by vm_compute..|].
    apply replace_all_inert; [by vm_compute|apply word_forward|].
    apply (replace_words latin_name). by vm_compute.
  - apply later_steps; [by vm_compute..|]. apply (replace_words chinese_name). by vm_compute.
Qed.

Lemma names_join l : Forall (fun s => names_supplier s = false) l -> names_supplier (join (lit " ") l) = false.
Proof.
  assert (Hj : forall p, inert p (lit " ") = true -> occurs p [] = false ->
    Forall (fun s => occurs p s = false) l -> occurs p (join (lit " ") l) = false).
  { intros p Hi H0. induction 1 as [|s l Hs Hl IH]; [done|]. destruct l as [|t l]; [done|].
    change (join (lit " ") (s :: t :: l)) with (s ++ lit " " ++ join (lit " ") (t :: l)).
    apply not_true_iff_false. intros [H|H]%occurs_inert; [congruence|congruence|done]. }
  intros Hl. apply orb_false_iff. split; apply Hj; try by vm_compute.
  all: eapply Forall_impl; [exact Hl|]; by intros s []%orb_false_iff.
Qed.

(** A pattern that begins with a word changes nothing where the word is not. *)
Lemma replace_all_without p r w s :
  p <> [] -> (forall st, matches (word_regex p) st = [] -> matches r st = []) ->
  occurs p s = false -> replace_all r w s = s.
Proof.
  intros Hp Hr Hs. unfold replace_all. cbn [replace_from].
  destruct (search_from _ r (start_state s)) as [[b e]|] eqn:E; [|done]. exfalso.
  destruct (search_found _ _ _ _ _ E) as (k & Hk & -> & Hin & _).
  rewrite Hr in Hin; [done|]. rewrite word_matches by done. case_test; [|done]. exfalso.
  apply not_true_iff_false in Hs. apply Hs, occurs_spec. exists k. rewrite advance_after in Heqb. done.
Qed.

Lemma occurs_longer p q s : occurs (p ++ q) s = true -> occurs p s = true.
Proof.
  rewrite !occurs_spec. intros (i & Hi & H). exists i. split; [done|]. revert H. generalize (drop i s). clear.
  induction p as [|f p IH]; intros [|c s]; cbn; try done. intros [-> H]%andb_true_iff. by apply IH.
Qed.

Definition official_word : list (N -> bool) := List.map ci (lit "official").
Definition official_cn_word : list (N -> bool) := List.map N.eqb (lit "官方").

(** Only the two names and repeated substitutes are touched, white space apart. *)
Lemma sanitized_plain value :
  let raw := trim (text value) in
  names_supplier raw = false -> occurs official_word raw = false -> occurs official_cn_word raw = false ->
  sanitizeSupplierBrandText value = trim (replace_all spaces_regex (lit " ") raw).
Proof.
  intros raw [Hl Hc]%orb_false_iff Ho Hoc. unfold sanitizeSupplierBrandText. fold raw.
  destruct raw as [|x r] eqn:E; [by vm_compute|]. cbn [truthy_str negb]. rewrite <- E in *.
  rewrite (replace_all_without (List.map ci (lit "qiniu_market")) qiniu_market_regex); [|done|done|].
  2: { apply not_true_iff_false. intros H. apply not_true_iff_false in Hl. apply Hl.
       exact (occurs_longer latin_name (List.map ci (lit "_market")) _ H). }
  rewrite (replace_all_without latin_name qiniu_regex) by done.
  rewrite (replace_all_without chinese_name qiniu_cn_regex) by done.
  rewrite (replace_all_without (List.map N.eqb (lit "官方官方")) double_cn_regex); [|done|done|].
  2: { apply not_true_iff_false. intros H. apply not_true_iff_false in Hoc. apply Hoc.
       exact (occurs_longer official_cn_word official_cn_word _ H). }
  rewrite (replace_all_without official_word double_official_regex); [done|done| |done].
  intros st H. unfold double_official_regex. cbn [matches]. unfold ci_word, official_word in *. by rewrite H.
Qed.

Lemma item_label_cases m u item :
  item ∈ formatQiniuMarketPriceItems m u ->
  item_label item = detailKey item \/ names_supplier (item_label item) = false.
Proof.
  unfold formatQiniuMarketPriceItems. case_test; [by intros ?%elem_of_nil|]. intros Hin.
  rewrite list_elem_of_In in Hin. apply in_concat in Hin as (l & Hl & Hin).
  apply list_elem_of_In in Hl, Hin. apply elem_of_lookup_imap in Hl as (i & rule & -> & _).
  unfold rule_items in Hin. destruct (details_v2 rule) as [ds|]; [|by apply elem_of_nil in Hin].
  apply list_elem_of_omap in Hin as ([k d] & _ & Hin). unfold price_item in Hin. case_test; [done|].
  injection Hin as <-. cbn [item_label detailKey]. case_test; [right; apply sanitized_text|by left].
Qed.


(** A price without a name whose key names the supplier: its label does, too. *)
Example price_label_names_supplier :
  let detail := MkDetail None None (Some (num_of_Z 2)) None in
  option_map item_label (price_item 0 None (lit "qiniu_tokens", detail)) = Some (lit "qiniu_tokens") /\
  names_supplier (lit "qiniu_tokens") = true.
Proof. split; vm_compute; reflexivity. Qed.

(** ** Comparison of prices *)

(** The sign of a difference is the comparison of its terms. *)
Lemma sub_sign x y c :
  is_nan x = false -> is_nan y = false ->
  sign_or (num_sub x y) c = if num_ltb x y then Lt else if num_ltb y x then Gt else c.
Proof.
  unfold num_ltb, sign_or. destruct x as [|[]|s m]; destruct y as [|[]|t n]; try done; intros _ _.
  unfold num_sub, num_neg, num_add. cbn [num_compare].
  assert (Ek : (units s m + units (negb t) n)%Z = (units s m - units t n)%Z) by (unfold units; destruct t; cbn; lia).
  rewrite Ek. set (k := (units s m - units t n)%Z). destruct (Z.eqb_spec k 0) as [E|E].
  - replace (units t n) with (units s m) by lia. rewrite Z.compare_refl. done.
  - assert (Hr : 0 < round_units (Z.abs_N k) 1).
    { pose proof (round_1_lower (Z.abs_N k) ltac:(lia)). pose proof (pow2_pos (N.log2 (Z.abs_N k))). lia. }
    unfold mk_num. revert Hr. generalize (round_units (Z.abs_N k) 1). intros r Hr.
    assert (Ht : forall b : bool, (if negb (truthy_num (if r <? overflow_units then Fin b r else Inf b)) then c
       else if match num_compare (if r <? overflow_units then Fin b r else Inf b) num_zero with Some Lt => true | _ => false end
            then Lt else Gt) = if b then Lt else Gt).
    { intros b. destruct (r <? overflow_units); [|by destruct b]. destruct r as [|r]; [lia|].
      destruct b; done. }
    rewrite Ht. destruct (Z.ltb_spec k 0).
    + by rewrite (proj2 (Z.compare_lt_iff _ _)) by lia.
    + rewrite (proj2 (Z.compare_gt_iff (units s m) (units t n))) by lia.
      by rewrite (proj2 (Z.compare_lt_iff _ _)) by lia.
Qed.

Lemma num_eqb_of_neither x y :
  is_nan x = false -> is_nan y = false -> num_ltb x y = false -> num_ltb y x = false -> num_eqb x y = true.
Proof.
  unfold num_ltb, num_eqb. intros Hx Hy. rewrite (num_compare_antisym x y).
  assert (E : exists c, num_compare x y = Some c) by (destruct x as [|[]|], y as [|[]|]; try done; by eexists).
  destruct E as [[] ->]; done.
Qed.

(** Numbers other than NaN in lexicographic form. *)
Definition band (x : num) : Z := match x with Inf true => -1 | Inf false => 1 | _ => 0 end%Z.
Definition body (x : num) : Z := match x with Fin s m => units s m | _ => 0%Z end.

Definition below (x y : num) : Prop := (band x < band y \/ band x = band y /\ body x < body y)%Z.

Lemma num_ltb_below x y : is_nan x = false -> is_nan y = false -> num_ltb x y = true <-> below x y.
Proof.
  unfold num_ltb, below. destruct x as [|[]|s m], y as [|[]|t n]; try done; intros _ _; cbn;
    try (split; [done|lia]); try (split; [lia|done]).
  destruct (Z.compare_spec (units s m) (units t n)); (split; [done || lia|lia || done]).
Qed.

Lemma num_ltb_not_below x y : is_nan x = false -> is_nan y = false -> num_ltb x y = false <-> ~ below x y.
Proof. intros. rewrite <- not_true_iff_false. by rewrite num_ltb_below. Qed.

(** ** The order of the list *)

(** What is assumed of the platform's collation: a total preorder. *)
Class Collation (collate : jstr -> jstr -> comparison) : Prop := {
  collate_total : forall a b, collate a b = Gt -> collate b a <> Gt;
  collate_trans : forall a b c, collate a b <> Gt -> collate b c <> Gt -> collate a c <> Gt
}.

Section Order.
Context (lower : jstr -> jstr) (collate : jstr -> jstr -> comparison) {Hcol : Collation collate}.

Definition name_le (a b : PricingModel) : Prop := compareModelName collate a b <> Gt.

(** [a] may stand before [b]: priced models come first, by price in the given
    direction; equal prices and missing ones are ordered by name. *)
Definition price_before (direction : Direction) (a b : PricingModel) : Prop :=
  match getModelPrice a, getModelPrice b with
  | Some x, Some y =>
      let '(p, q) := match direction with Asc => (x, y) | Desc => (y, x) end in
      num_ltb p q = true \/ num_eqb x y = true /\ name_le a b
  | Some _, None => True
  | None, Some _ => False
  | None, None => name_le a b
  end.

(** The price of the model, if it has one, is a number. *)
Definition priced_ok (m : PricingModel) : Prop :=
  match getModelPrice m with Some x => is_nan x = false | None => True end.

Definition before_or_at (compare : PricingModel -> PricingModel -> comparison) (a b : PricingModel) : bool :=
  match compare a b with Gt => false | _ => true end.

Lemma not_gt (c : comparison) : match c with Gt => false | _ => true end = true <-> c <> Gt.
Proof. by destruct c. Qed.

(** The comparator, one price being [p] in the order of the direction. *)
Lemma compare_prices direction a b : priced_ok a -> priced_ok b ->
  before_or_at (compareModelPrice collate direction) a b = true <->
  match getModelPrice a, getModelPrice b with
  | Some x, Some y =>
      let '(p, q) := match direction with Asc => (x, y) | Desc => (y, x) end in
      below p q \/ ~ below q p /\ name_le a b
  | Some _, None => True
  | None, Some _ => False
  | None, None => name_le a b
  end.
Proof.
  unfold before_or_at, compareModelPrice, priced_ok, name_le. rewrite not_gt.
  destruct (getModelPrice a) as [x|], (getModelPrice b) as [y|]; intros Hx Hy; [|done..].
  set (p := match direction with Asc => x | Desc => y end).
  set (q := match direction with Asc => y | Desc => x end).
  assert (Hp : is_nan p = false) by (by destruct direction).
  assert (Hq : is_nan q = false) by (by destruct direction).
  replace (match direction with Asc => num_sub x y | Desc => num_sub y x end) with (num_sub p q) by (by destruct direction).
  replace (match direction with Asc => (x, y) | Desc => (y, x) end) with (p, q) by (by destruct direction).
  rewrite sub_sign by done.
  destruct (num_ltb p q) eqn:E1; [apply num_ltb_below in E1; [|done..]; split; [by left|done]|].
  apply num_ltb_not_below in E1; [|done..].
  destruct (num_ltb q p) eqn:E2.
  - apply num_ltb_below in E2; [|done..]. split; [done|]. by intros [?|[? _]].
  - apply num_ltb_not_below in E2; [|done..]. split; [by right|]. by intros [?|[_ ?]].
Qed.

Lemma name_total a b : before_or_at (compareModelName collate) a b = false ->
  before_or_at (compareModelName collate) b a = true.
Proof.
  unfold before_or_at, compareModelName. rewrite not_gt. intros H. apply collate_total. by destruct (collate _ _).
Qed.

Lemma name_trans a b c : before_or_at (compareModelName collate) a b = true ->
  before_or_at (compareModelName collate) b c = true -> before_or_at (compareModelName collate) a c = true.
Proof. unfold before_or_at, compareModelName. rewrite !not_gt. apply collate_trans. Qed.

Lemma name_le_total a b : ~ name_le a b -> name_le b a.
Proof.
  intros H. apply not_gt, name_total. destruct (before_or_at _ a b) eqn:E; [|done]. by apply not_gt in E.
Qed.

Lemma name_le_trans a b c : name_le a b -> name_le b c -> name_le a c.
Proof. unfold name_le. rewrite <- !not_gt. apply name_trans. Qed.

Lemma price_total direction a b : priced_ok a -> priced_ok b ->
  before_or_at (compareModelPrice collate direction) a b = false ->
  before_or_at (compareModelPrice collate direction) b a = true.
Proof.
  intros Ha Hb. rewrite <- not_true_iff_false, !compare_prices by done.
  destruct (getModelPrice a) as [x|], (getModelPrice b) as [y|]; [|done..|apply name_le_total].
  assert (Hd : forall p q, ~ (below p q \/ ~ below q p /\ name_le a b) -> below q p \/ ~ below p q /\ name_le b a).
  { intros p q H. destruct (decide (num_ltb q p = true)) as [?|?].
    all: unfold below in *; destruct (Z.lt_trichotomy (band p) (band q)) as [?|[?|?]];
      destruct (Z.lt_trichotomy (body p) (body q)) as [?|[?|?]]; try (left; lia);
      try (exfalso; apply H; left; lia).
    all: right; split; [lia|]; apply name_le_total; intros Hn; apply H; right; split; [lia|done]. }
  destruct direction; apply Hd.
Qed.

Lemma price_trans direction a b c : priced_ok a -> priced_ok b -> priced_ok c ->
  before_or_at (compareModelPrice collate direction) a b = true ->
  before_or_at (compareModelPrice collate direction) b c = true ->
  before_or_at (compareModelPrice collate direction) a c = true.
Proof.
  intros Ha Hb Hc. rewrite !compare_prices by done.
  destruct (getModelPrice a) as [x|], (getModelPrice b) as [y|], (getModelPrice c) as [z|]; try done;
    [|apply name_le_trans].
  destruct direction; unfold below; intros [H1|[H1 N1]] [H2|[H2 N2]]; try (left; lia);
    destruct (Z.lt_trichotomy (band x) (band z)) as [?|[?|?]]; try lia; try (left; lia);
    destruct (Z.lt_trichotomy (body x) (body z)) as [?|[?|?]]; try lia; try (left; lia);
    right; (split; [lia|]); by apply (name_le_trans a b c).
Qed.

(** The filters as one test. *)
Definition selected (f : Filters) (m : PricingModel) : bool :=
  (negb (truthy_str (search f)) || matches_search lower (search f) m) &&
  (((vendor f =?= FILTER_ALL) || bool_decide (vendor_name m = Some (vendor f))) &&
  (((group f =?= FILTER_ALL) || lists (enable_groups m) (group f)) &&
  (((quotaType f =?= FILTER_ALL) || num_eqb (quota_type m) (target_type (quotaType f))) &&
  (((endpointType f =?= FILTER_ALL) || lists (supported_endpoint_types m) (endpointType f)) &&
  ((tag f =?= FILTER_ALL) || has_tag lower (tag f) m))))).

Lemma filter_unless (b : bool) (g : PricingModel -> bool) l :
  (if b then l else List.filter g l) = List.filter (fun m => b || g m) l.
Proof.
  destruct b; cbn [orb]; [|done]. symmetry. apply filter_all. by apply Forall_true.
Qed.

Lemma filter_and (f g : PricingModel -> bool) l : List.filter g (List.filter f l) = List.filter (fun m => f m && g m) l.
Proof. induction l as [|x l IH]; [done|]. simpl. destruct (f x); simpl; [destruct (g x)|]; by rewrite ?IH. Qed.

Lemma filters_as_one models f :
  filterAndSortModels lower collate models f = sortModels collate (List.filter (selected f) models) (sortBy f).
Proof.
  unfold filterAndSortModels, filterBySearch, filterByVendor, filterByGroup, filterByQuotaType,
    filterByEndpointType, filterByTag. rewrite !filter_unless, !filter_and. reflexivity.
Qed.

(** The order the list is shown in. *)
Definition shown_before (sortBy : jstr) : PricingModel -> PricingModel -> Prop :=
  if sortBy =?= lit "name" then name_le
  else if sortBy =?= lit "price-low" then price_before Asc
  else if sortBy =?= lit "price-high" then price_before Desc
  else fun _ _ => True.

Lemma price_before_of direction a b : priced_ok a -> priced_ok b ->
  before_or_at (compareModelPrice collate direction) a b = true -> price_before direction a b.
Proof.
  intros Ha Hb. rewrite compare_prices by done. unfold price_before, priced_ok in *.
  destruct (getModelPrice a) as [x|], (getModelPrice b) as [y|]; try done.
  destruct direction; (intros [H|[H Hn]]; [left; by apply num_ltb_below|]).
  all: destruct (num_ltb _ _) eqn:E in |- *; [by left|right; split; [|done]].
  all: apply num_eqb_of_neither; try done; by apply num_ltb_not_below.
Qed.

Lemma sorted_on {A} (P : A -> Prop) (R S : A -> A -> Prop) l :
  Forall P l -> (forall a b, P a -> P b -> R a b -> S a b) -> StronglySorted R l -> StronglySorted S l.
Proof.
  intros Hl H. induction 1 as [|x l Hs IH Hx]; constructor; apply Forall_cons in Hl as [Px Hl]; [by apply IH|].
  rewrite Forall_forall in *. eauto.
Qed.

Lemma sort_models_sorted models sortBy : Forall priced_ok models ->
  StronglySorted (shown_before sortBy) (sortModels collate models sortBy) /\ sortModels collate models sortBy ≡ₚ models.
Proof.
  intros Hm. unfold sortModels, shown_before, sort_with. repeat case_test.
  - split; [|apply sort_by_perm]. eapply StronglySorted_weaken; [|apply sort_by_sorted; [apply name_total|apply name_trans]].
    intros a b. apply not_gt.
  - split; [|apply sort_by_perm]. 
    eapply (sorted_on priced_ok); [by rewrite sort_by_perm|apply (price_before_of Asc)|].
    apply (sort_by_sorted_on _ priced_ok); [apply (price_total Asc)|apply (price_trans Asc)|done].
  - split; [|apply sort_by_perm]. 
    eapply (sorted_on priced_ok); [by rewrite sort_by_perm|apply (price_before_of Desc)|].
    apply (sort_by_sorted_on _ priced_ok); [apply (price_total Desc)|apply (price_trans Desc)|done].
  - split; [|done]. clear. induction models; constructor; [done|by apply Forall_true].
Qed.

(** C19: the list of the page is exact: it holds the models that pass every
    filter, each as often as it was loaded, and it is ordered as the chosen
    option says; in the price orders the models without a price come last and
    equal prices are ordered by name.  The prices of the models are not NaN, and
    the collation of the browser is a total preorder. *)
Theorem filtered_list_exact models f :
  Forall priced_ok models ->
  filterAndSortModels lower collate models f ≡ₚ List.filter (selected f) models /\
  StronglySorted (shown_before (sortBy f)) (filterAndSortModels lower collate models f).
Proof.
  intros Hm. rewrite filters_as_one.
  destruct (sort_models_sorted (List.filter (selected f) models) (sortBy f)) as [H1 H2]; [|done].
  apply Forall_forall. intros m [Hin _]%elem_of_lfilter. rewrite Forall_forall in Hm. by apply Hm.
Qed.

End Order.

(** A collation of the model, by code units. *)
Definition by_units (a b : jstr) : comparison :=
  if str_leb a b then (if str_leb b a then Eq else Lt) else Gt.

#[export] Instance by_units_collation : Collation by_units.
Proof.
  assert (E : forall a b, by_units a b <> Gt <-> str_leb a b = true).
  { intros a b. unfold by_units. destruct (str_leb a b); [|done]. by destruct (str_leb b a). }
  split.
  - intros a b H. apply E, str_leb_total. unfold by_units in H. by repeat case_test.
  - intros a b c. rewrite !E. apply str_leb_trans.
Qed.

(** A model with the members that the witnesses set. *)
Definition sample (name : jstr) (kind : num) (ratio : num) (price : option num) (tagged : option jstr) : PricingModel :=
  MkModel (Some name) None None None None None None kind ratio (num_of_Z 1) price None None None None None
    (Some [lit "default"]) tagged None None None None None None None.

Lemma filtered_list_exact_witness :
  let models := [sample (lit "b") (num_of_Z 0) (num_of_Z 3) None None; sample (lit "a") (num_of_Z 0) (num_of_Z 1) None None] in
  let f := MkFilters [] FILTER_ALL FILTER_ALL FILTER_ALL FILTER_ALL FILTER_ALL (lit "price-low") in
  StronglySorted (shown_before by_units (lit "price-low")) (filterAndSortModels to_lower by_units models f).
Proof.
  intros models f. apply (filtered_list_exact to_lower by_units models f).
  repeat (apply Forall_cons; split); [vm_compute; reflexivity..|constructor].
Defined.

(** ** Tags *)

(** The tags the page offers are exactly the lower case tags of the models,
    each once and in collation order; choosing one shows exactly the models
    that carry it in any case, and there is always at least one. *)
Theorem offered_tags_exact lower collate {Hcol : Collation collate} models :
  (forall s, lower (lower s) = lower s) ->
  NoDup (extractAllTags lower collate models) /\
  StronglySorted (fun a b => collate a b <> Gt) (extractAllTags lower collate models) /\
  (forall t, t ∈ extractAllTags lower collate models <-> exists m, m ∈ models /\ t ∈ List.map lower (parseTags (tags m))) /\
  (forall t m, t ∈ extractAllTags lower collate models -> t <> FILTER_ALL ->
     m ∈ filterByTag lower models t <-> m ∈ models /\ t ∈ List.map lower (parseTags (tags m))) /\
  (forall t, t ∈ extractAllTags lower collate models -> filterByTag lower models t <> []).
Proof.
  intros Hidem.
  assert (Hmem : forall t, t ∈ extractAllTags lower collate models <->
      exists m, m ∈ models /\ t ∈ List.map lower (parseTags (tags m))).
  { intros t. unfold extractAllTags. rewrite elem_of_sort_by, elem_of_uniq, list_elem_of_In, in_flat_map.
    split; intros (m & H1 & H2); exists m; by rewrite list_elem_of_In, ?list_elem_of_In in *. }
  assert (Hlow : forall t m, t ∈ List.map lower (parseTags (tags m)) -> lower t = t).
  { intros t m Ht. rewrite list_elem_of_In in Ht. apply in_map_iff in Ht as (x & <- & _). apply Hidem. }
  assert (Htag : forall t m, lower t = t -> has_tag lower t m = true <-> t ∈ List.map lower (parseTags (tags m))).
  { intros t m Ht. unfold has_tag. rewrite Ht, andb_true_iff, bool_decide_eq_true. split; [by intros [_ ?]|].
    intros H. split; [|done]. unfold parseTags in H. destruct (truthy_str (text (tags m))); [done|]. by apply elem_of_nil in H. }
  assert (Hfil : forall t m, t ∈ extractAllTags lower collate models -> t <> FILTER_ALL ->
     m ∈ filterByTag lower models t <-> m ∈ models /\ t ∈ List.map lower (parseTags (tags m))).
  { intros t m (m0 & _ & Ht)%Hmem Hall. apply Hlow in Ht. unfold filterByTag.
    rewrite bool_decide_eq_false_2 by done. rewrite elem_of_lfilter. by rewrite Htag. }
  split_and!; [|eapply StronglySorted_weaken; [|apply sort_by_sorted]|apply Hmem|apply Hfil|].
  - unfold extractAllTags. rewrite sort_by_perm. apply NoDup_uniq.
  - intros a b. apply not_gt.
  - intros a b H. apply not_gt, collate_total. by destruct (collate a b).
  - intros a b c. rewrite !not_gt. apply collate_trans.
  - intros t Ht. destruct (Hmem t) as [Hm _]. destruct (Hm Ht) as (m & Hin & Hm').
    destruct (decide (t = FILTER_ALL)) as [->|Hne].
    + unfold filterByTag. rewrite bool_decide_eq_true_2 by done. intros ->. by apply elem_of_nil in Hin.
    + intros E. assert (H : m ∈ filterByTag lower models t) by (by apply Hfil). rewrite E in H. by apply elem_of_nil in H.
Qed.

Lemma offered_tags_exact_witness :
  let models := [sample (lit "a") (num_of_Z 0) (num_of_Z 1) None (Some (lit "Vision, chat"))] in
  extractAllTags to_lower by_units models = [lit "chat"; lit "vision"] /\
  filterByTag to_lower models (lit "vision") <> [].
Proof.
  intros models. split; [vm_compute; reflexivity|].
  apply (offered_tags_exact to_lower by_units models).
  - intros s. unfold to_lower. rewrite map_map. apply map_ext. intros c. unfold lower_unit.
    destruct ((65 <=? c) && (c <=? 90)) eqn:E; [|by rewrite E].
    apply andb_true_iff in E as [E1 E2]. apply N.leb_le in E1, E2.
    rewrite (proj2 (N.leb_gt (c + 32) 90)), andb_false_r by lia. reflexivity.
  - apply (bool_decide_eq_true_1 _). vm_compute. reflexivity.
Defined.

(** ** Group ratios *)

Lemma below_trans_not x y z : ~ below y x -> ~ below z y -> ~ below z x.
Proof. unfold below. lia. Qed.

(** The ratio of a group that takes part in the minimum. *)
Definition group_has (ratios : list (jstr * num)) (groups : list jstr) (x : num) : Prop :=
  exists g, g ∈ groups /\ obj_get g ratios = Some x /\ is_nan x = false.

Lemma num_ltb_nan x y : num_ltb x y = true -> is_nan x = false /\ is_nan y = false.
Proof. unfold num_ltb. by destruct x, y. Qed.

Lemma fold_min ratios groups acc :
  is_nan acc = false ->
  let r := fold_left (min_step ratios) groups acc in
  is_nan r = false /\ (r = acc \/ group_has ratios groups r) /\ ~ below acc r /\
  forall x, group_has ratios groups x -> ~ below x r.
Proof.
  revert acc. induction groups as [|g groups IH]; intros acc Hacc; cbn [fold_left].
  - split_and!; [done|by left|unfold below; lia|]. intros x (g & Hg & _). by apply elem_of_nil in Hg.
  - set (acc' := min_step ratios acc g).
    assert (Ha : is_nan acc' = false /\ (acc' = acc \/ obj_get g ratios = Some acc') /\ ~ below acc acc' /\
      forall x, obj_get g ratios = Some x -> is_nan x = false -> ~ below x acc').
    { unfold acc', min_step. destruct (obj_get g ratios) as [x|]; [|split_and!; [done|by left|unfold below; lia|done]].
      destruct (num_ltb x acc) eqn:E.
      - apply num_ltb_nan in E as Hn. apply num_ltb_below in E; [|tauto..].
        split_and!; [tauto|by right|unfold below in *; lia|]. intros y [= ->] _. unfold below. lia.
      - split_and!; [done|by left|unfold below; lia|]. intros y [= ->] Hy.
        by apply num_ltb_not_below. }
    destruct Ha as (Hn & Hor & Hle & Hg). destruct (IH acc' Hn) as (Rn & Ror & Rle & Rg). split_and!.
    + done.
    + destruct Ror as [Er|(g' & Hg' & E & N)]; [|right; exists g'; split_and!; [by right|done|done]].
      rewrite Er. destruct Hor as [->|E]; [by left|]. right. exists g. split_and!; [by left|done|done].
    + by eapply below_trans_not.
    + intros x (g' & [->|Hg']%elem_of_cons & E & N); [eapply below_trans_not; [exact Rle|by apply Hg]|].
      apply Rg. by exists g'.
Qed.

(** The ratio a price is shown with is the least ratio of the groups that
    offer the model, and one when no such group has a ratio; the tables of the
    dynamic prices compute the same ratio. *)
Theorem min_group_ratio_exact m :
  let groups := default [] (enable_groups m) in
  let ratios := default [] (group_ratio m) in
  let r := min_ratio_of m in
  (group_has ratios groups r /\ (forall x, group_has ratios groups x -> num_ltb x r = false) \/
   r = num_of_Z 1 /\ forall x, group_has ratios groups x -> x = Inf false) /\
  getDynamicDisplayGroupRatio m = r.
Proof.
  cbv zeta. unfold min_ratio_of. set (groups := default [] (enable_groups m)). set (ratios := default [] (group_ratio m)).
  split.
  2:{ unfold getDynamicDisplayGroupRatio. fold groups ratios. by destruct groups. }
  clearbody groups ratios. unfold getMinGroupRatio. destruct groups as [|g0 gs]; cbv zeta.
  { right. split; [done|]. intros x (g & Hg & _). by apply elem_of_nil in Hg. }
  set (groups := g0 :: gs). destruct (fold_min ratios groups (Inf false) eq_refl) as (Hn & Hor & Hle & Hmin).
  revert Hn Hor Hle Hmin. generalize (fold_left (min_step ratios) groups (Inf false)). intros r Hn Hor Hle Hmin.
  destruct (num_eqb r (Inf false)) eqn:E.
  - right. split; [done|]. intros x Hx. pose proof (Hmin x Hx) as Hb. destruct Hx as (g' & _ & _ & Nx).
    assert (Er : r = Inf false) by (destruct r as [|[]|]; done). subst r.
    unfold below in Hb. by destruct x as [|[]|s k]; cbn in *; try done; lia.
  - left. destruct Hor as [->|Hr]; [done|]. split; [done|]. intros x Hx. pose proof (Hmin x Hx) as Hb.
    destruct Hx as (g' & _ & _ & Nx). by apply num_ltb_not_below.
Qed.

(** ** Dynamic prices *)

Lemma sort_partition {A} (p : A -> bool) l :
  sort_by (fun a b => p a || negb (p b)) l = List.filter p l ++ List.filter (fun x => negb (p x)) l.
Proof.
  induction l as [|x l IH]; [done|]. cbn [sort_by List.filter]. rewrite IH. clear IH.
  assert (Hp : Forall (fun y => p y = true) (List.filter p l)).
  { apply Forall_forall. by intros y [_ ?]%elem_of_lfilter. }
  destruct (p x) eqn:E; cbn [negb app].
  - destruct (List.filter p l ++ _); [done|]. cbn [insert_by]. by rewrite E.
  - induction Hp as [|y ys Hy Hys IH].
    + destruct (List.filter _ l) as [|z zs] eqn:Ez; [done|]. cbn [app insert_by]. rewrite E.
      assert (Hz : z ∈ List.filter (fun x => negb (p x)) l) by (rewrite Ez; by left).
      apply elem_of_lfilter in Hz as [_ ->]. done.
    + cbn [app insert_by]. rewrite E, Hy. cbn [orb negb]. by rewrite IH.
Qed.

Lemma filter_partition {A} (p : A -> bool) l :
  let parts := List.filter p l ++ List.filter (fun x => negb (p x)) l in
  List.filter p parts = List.filter p l /\
  List.filter (fun x => negb (p x)) parts = List.filter (fun x => negb (p x)) l.
Proof.
  assert (H1 : Forall (fun y => p y = true) (List.filter p l)).
  { apply Forall_forall. by intros y [_ ?]%elem_of_lfilter. }
  assert (H2 : Forall (fun y => negb (p y) = true) (List.filter (fun x => negb (p x)) l)).
  { apply Forall_forall. by intros y [_ ?]%elem_of_lfilter. }
  cbv zeta. rewrite !List.filter_app. split.
  - rewrite (filter_all p _ H1), (filter_none p (List.filter (fun x => negb (p x)) l)), app_nil_r; [done|].
    eapply Forall_impl; [exact H2|]. intros y. apply negb_true_iff.
  - rewrite (filter_all _ _ H2), (filter_none (fun x => negb (p x)) (List.filter p l)); [done|].
    eapply Forall_impl; [exact H1|]. by intros y ->.
Qed.

Section Dynamic.
Context (cur : jstr -> N -> num -> jstr) (dec : N -> num -> jstr) (stored : option CurrencyConfig).

(** The prices of a tier that are shown, in the order of the registry. *)
Definition shown_prices (t : ParsedTier) (o : DynamicPriceOptions) : list DynamicPriceEntry :=
  omap (variable_entry cur dec stored t o) BILLING_PRICING_VARS.

Lemma entries_partition t o :
  getDynamicPriceEntries cur dec stored (Some t) o =
  List.filter (fun e => is_primary (entry_field e)) (shown_prices t o) ++
  List.filter (fun e => negb (is_primary (entry_field e))) (shown_prices t o).
Proof. apply (sort_partition (fun e => is_primary (entry_field e))). Qed.

Lemma entry_spec t o v e : variable_entry cur dec stored t o v = Some e ->
  field v = Some (entry_field e) /\ obj_get (entry_field e) (tier_prices t) = Some (value e) /\
  is_finite (value e) = true /\ num_gtb (value e) num_zero = true /\
  entry_formatted e = formatDynamicUnitPrice cur dec stored (value e) o.
Proof.
  unfold variable_entry. destruct (field v) as [f|]; [|done]. cbn [mbind option_bind].
  destruct (obj_get f (tier_prices t)) as [x|] eqn:Eg; cbn [from_option id].
  2:{ by destruct (truthy_str f). }
  destruct (truthy_str f); [|done]. cbn [negb orb]. destruct (is_finite x) eqn:Ef; [|done]. cbn [negb orb].
  destruct (num_leb x num_zero) eqn:El; [done|]. intros [= <-]. cbn. split_and!; try done.
  unfold num_gtb, num_ltb, num_leb in *. rewrite (num_compare_antisym x num_zero).
  destruct x as [| |s m]; try done. cbn [num_compare num_zero] in *. by destruct (Z.compare _ _).
Qed.

(** The summary of a dynamically priced model whose expression was joined
    from a price and request rules: its tiers are those of the price alone, it
    reports the rules, and its entries are the finite positive prices of the
    first tier, the input and output prices first and otherwise in the order of
    the registry, split without loss into primary and secondary ones. *)
Theorem dynamic_summary_exact m base parts o :
  billing_mode m = Some (lit "tiered_expr") ->
  billing_expr m = Some (combineBillingExpr base (join (js " * ") parts)) ->
  trim base <> [] -> hasFullOuterParens (js "(" ++ trim base ++ js ")") = true ->
  tryParseRuleGroupFactor (js "(" ++ trim base ++ js ")") = Ret None ->
  parts <> [] -> Forall rule_part parts ->
  exists s, getDynamicPricingSummary cur dec stored m o = Ret (Some s) /\
    tiers s = parseTiersFromExpr (unwrapOuterParens base) /\ hasRequestRules s = true /\
    tierCount s = length (tiers s) /\
    (forall t, head (tiers s) = Some t -> entries s ≡ₚ shown_prices t o) /\
    entries s = primaryEntries s ++ secondaryEntries s /\
    Forall (fun e => is_finite (value e) = true /\ num_gtb (value e) num_zero = true) (entries s) /\
    (isSpecialExpression s = true <-> tiers s = []).
Proof.
  intros Hmode Hexpr Hb Hfull Hno Hne Hparts.
  pose proof (combine_split base parts Hb Hfull Hno Hne Hparts) as Hsplit.
  destruct (parse_rule_parts parts Hne Hparts) as (gs & Hgs & Hlen).
  set (raw := combineBillingExpr base (join (js " * ") parts)) in *.
  assert (Htrim : truthy_str (trim raw) = true).
  { destruct (truthy_str (trim raw)) eqn:E; [done|]. unfold splitBillingExprAndRequestRules in Hsplit.
    rewrite E in Hsplit. cbn [negb] in Hsplit. injection Hsplit as _ Ej. rewrite <- Ej in Hgs.
    injection Hgs as <-. by destruct parts. }
  assert (Hraw : truthy_str raw = true) by (by destruct raw).
  assert (Hdyn : isDynamicPricingModel m = true).
  { unfold isDynamicPricingModel. rewrite Hmode, Hexpr, bool_decide_eq_true_2 by done. exact Hraw. }
  unfold getDynamicPricingSummary, getDynamicPricingTiers, hasDynamicRequestRules. rewrite Hdyn, Hexpr.
  cbn [negb text from_option id]. rewrite Hsplit. cbn [mbind outcome_bind billingExpr requestRuleExpr]. rewrite Hgs.
  cbn [mbind outcome_bind]. rewrite Htrim. eexists. split; [reflexivity|].
  cbn [tiers hasRequestRules tierCount entries primaryEntries secondaryEntries isSpecialExpression].
  generalize (parseTiersFromExpr (unwrapOuterParens base)). intros ts. split_and!.
  - done.
  - destruct gs; [by destruct parts|done].
  - done.
  - intros t ->. apply sort_by_perm.
  - destruct (head ts) as [t|]; [|done]. rewrite entries_partition.
    destruct (filter_partition (fun e => is_primary (entry_field e)) (shown_prices t o)) as [-> ->]. done.
  - destruct (head ts) as [t|]; [|constructor]. apply Forall_forall. intros e He.
    unfold getDynamicPriceEntries in He. rewrite sort_by_perm in He. apply list_elem_of_omap in He as (v & _ & Hv).
    apply entry_spec in Hv. tauto.
  - cbn [andb]. destruct ts; [done|]. by split.
Qed.
End Dynamic.

Lemma dynamic_summary_exact_witness :
  let base := jq "tier('base', p * 2.5 + c * 15)" in
  let parts := [jq "(header('x-fast') != '' ? 2 : 1)"] in
  let m := MkModel (Some (lit "m")) None None None None None None (num_of_Z 0) (num_of_Z 1) (num_of_Z 1) None None
    None None None None None None None None (Some (lit "tiered_expr"))
    (Some (combineBillingExpr base (join (js " * ") parts))) None None None in
  let o := MkDynamic UnitM None None None None in
  exists s, getDynamicPricingSummary (fun c _ _ => c) (fun _ _ => []) None m o = Ret (Some s) /\
    tiers s = parseTiersFromExpr (unwrapOuterParens base) /\ hasRequestRules s = true.
Proof.
  intros base parts m o.
  destruct (dynamic_summary_exact (fun c _ _ => c) (fun _ _ => []) None m base parts o) as (s & E & Ht & Hr & _).
  - reflexivity.
  - reflexivity.
  - vm_compute. discriminate.
  - vm_compute. reflexivity.
  - vm_compute. reflexivity.
  - discriminate.
  - apply Forall_cons. split; [|constructor]. split; [vm_compute; reflexivity|].
    eexists. vm_compute. reflexivity.
  - exists s. split; [exact E|]. split; [exact Ht|exact Hr].
Defined.

(** ** Market prices *)

Lemma fold_lowest l acc :
  is_nan acc = false -> Forall (fun x => is_nan x = false) l ->
  exists r, fold_left keep_lowest l (Some acc) = Some r /\ (r = acc \/ r ∈ l) /\ is_nan r = false /\
    ~ below acc r /\ Forall (fun x => ~ below x r) l.
Proof.
  intros Ha Hl. revert acc Ha. induction Hl as [|x l Hx Hl IH]; intros acc Ha; cbn [fold_left].
  - exists acc. split_and!; [done|by left|done|unfold below; lia|constructor].
  - cbn [keep_lowest]. destruct (num_ltb x acc) eqn:E.
    + apply num_ltb_below in E; [|done..]. destruct (IH x Hx) as (r & Er & Ho & Hn & Hb & Hf). exists r.
      split_and!; [done|destruct Ho as [->|?]; right; [by left|by right]|done| |by constructor].
      unfold below in *. lia.
    + apply num_ltb_not_below in E; [|done..]. destruct (IH acc Ha) as (r & Er & Ho & Hn & Hb & Hf). exists r.
      split_and!; [done|destruct Ho as [->|?]; [by left|right; by right]|done|done|].
      constructor; [by eapply below_trans_not|done].
Qed.

Lemma formatted_price d u : truthy_str (formatQiniuCNYPrice d u) = bool_decide (is_Some (scaled_price d u)).
Proof.
  unfold formatQiniuCNYPrice. destruct (scaled_price d u) as [x|].
  - by rewrite bool_decide_eq_true_2 by eauto.
  - by rewrite bool_decide_eq_false_2 by (by intros [? ?]).
Qed.

Lemma price_item_some i u k d : is_Some (price_item i u (k, d)) <-> is_Some (scaled_price d u).
Proof.
  unfold price_item. rewrite formatted_price. case_bool_decide as E; cbn [negb]; [by split; eauto|].
  split; [by intros [? ?]|done].
Qed.

Lemma elem_of_concat {A} (x : A) ls : x ∈ concat ls <-> exists l, x ∈ l /\ l ∈ ls.
Proof.
  rewrite list_elem_of_In, in_concat. split; intros (l & H1 & H2); exists l; rewrite ?list_elem_of_In in *; tauto.
Qed.

(** An item is displayed exactly for a detail with a price. *)
Lemma items_some m u :
  formatQiniuMarketPriceItems m (Some u) <> [] <-> isMarketPricingModel m = true /\ visited_prices m u <> [].
Proof.
  unfold formatQiniuMarketPriceItems. destruct (isMarketPricingModel m); cbn [negb]; [|by split; [|intros []]].
  assert (Hne : forall {A} (l : list A), l <> [] <-> exists x, x ∈ l).
  { intros A l. split; [destruct l as [|x l]; [done|]; exists x; by left|]. intros (x & Hx) ->. by apply elem_of_nil in Hx. }
  rewrite !Hne. split.
  - intros (it & Hit). split; [done|]. rewrite elem_of_concat in Hit. destruct Hit as (its & Hit & Hits).
    apply elem_of_lookup_imap in Hits as (i & rule & -> & Hrule). unfold rule_items in Hit.
    destruct (details_v2 rule) as [ds|] eqn:Ed; [|by apply elem_of_nil in Hit].
    apply list_elem_of_omap in Hit as ([k d] & Hd & Hi). unfold sorted_details in Hd. rewrite sort_by_perm in Hd.
    assert (Hs : is_Some (scaled_price d (Some u))) by (apply (price_item_some i (Some u) k d); eauto).
    destruct Hs as [x Hx]. exists x. unfold visited_prices. rewrite list_elem_of_In, in_flat_map. exists rule.
    split; [apply list_elem_of_In; by eapply list_elem_of_lookup_2|]. rewrite <- list_elem_of_In, list_elem_of_omap.
    exists d. split; [|done]. rewrite Ed. cbn [from_option id]. unfold obj_values. rewrite list_elem_of_In.
    apply in_map_iff. exists (k, d). split; [done|]. by apply list_elem_of_In.
  - intros (_ & x & Hx). unfold visited_prices in Hx. rewrite list_elem_of_In, in_flat_map in Hx.
    destruct Hx as (rule & Hrule & Hx). rewrite <- list_elem_of_In, list_elem_of_omap in Hx. destruct Hx as (d & Hd & Hs).
    destruct (details_v2 rule) as [ds|] eqn:Ed; [|by apply elem_of_nil in Hd]. cbn [from_option id] in Hd.
    rewrite list_elem_of_In in Hd. apply in_map_iff in Hd as ([k d'] & Ek & Hin). cbn in Ek. subst d'.
    apply list_elem_of_In, list_elem_of_lookup in Hrule as (i & Hi).
    destruct (proj2 (price_item_some i (Some u) k d)) as [it Hit]; [by eexists|].
    exists it. apply elem_of_concat. exists (rule_items (Some u) i rule). split.
    + unfold rule_items. rewrite Ed. apply list_elem_of_omap. exists (k, d). split; [|done].
      unfold sorted_details. rewrite sort_by_perm. by apply list_elem_of_In.
    + apply elem_of_lookup_imap. by exists i, rule.
Qed.

(** The price a market model is sorted by is the least of the prices its
    details show, and it exists exactly when the page displays a price for the
    model. *)
Theorem sort_price_lowest m u :
  Forall (fun x => is_nan x = false) (visited_prices m u) ->
  (getQiniuMarketSortPrice m u = None <-> formatQiniuMarketPriceItems m (Some u) = []) /\
  forall p, getQiniuMarketSortPrice m u = Some p ->
    p ∈ visited_prices m u /\ Forall (fun x => num_ltb x p = false) (visited_prices m u).
Proof.
  intros Hn. pose proof (items_some m u) as Hi. unfold getQiniuMarketSortPrice.
  destruct (isMarketPricingModel m) eqn:Em; cbn [negb].
  2:{ unfold formatQiniuMarketPriceItems. by rewrite Em. }
  destruct (visited_prices m u) as [|x l] eqn:Ev; cbn [fold_left].
  - split; [|done]. split; [intros _|done]. destruct (formatQiniuMarketPriceItems m (Some u)); [done|].
    destruct Hi as [Hi _]. by destruct Hi.
  - apply Forall_cons in Hn as [Hx Hl].
    change (keep_lowest None x) with (Some x). destruct (fold_lowest l x Hx Hl) as (r & -> & Ho & Hr & Hb & Hf).
    split; [split; [done|]|].
    + intros E. destruct Hi as [_ Hi]. exfalso. apply Hi; [split; done|done].
    + intros p [= <-]. split; [destruct Ho as [->|?]; [by left|by right]|].
      constructor; [by apply num_ltb_not_below|]. rewrite Forall_forall in *. intros y Hy.
      apply num_ltb_not_below; auto.
Qed.

Definition market_sample (price : num) : PricingModel :=
  MkModel (Some (lit "m")) None None None None None None (num_of_Z 0) (num_of_Z 1) (num_of_Z 1) None None None None None
    None None None None None None None None
    (Some (MkMarket None None None None
      (Some [MkRule (Some [(lit "input", MkDetail (Some (lit "Token")) (Some (num_of_Z 1000)) (Some price) None)])]))) None.

Lemma sort_price_lowest_witness :
  getQiniuMarketSortPrice (market_sample (num_of_Z 2)) UnitM = None <->
  formatQiniuMarketPriceItems (market_sample (num_of_Z 2)) (Some UnitM) = [].
Proof.
  apply sort_price_lowest.
  assert (E : visited_prices (market_sample (num_of_Z 2)) UnitM = [num_of_Z 2000]) by (vm_compute; reflexivity).
  rewrite E. apply Forall_cons. split; [vm_compute; reflexivity|constructor].
Defined.

(** ** The filter state of the page *)

(** The states of the hook: objects, so their keys are distinct. *)
Definition state_ok (s : FilterState) : Prop := NoDup (obj_keys s).

Lemma initial_state_ok params : state_ok (initial_state params).
Proof.
  unfold state_ok, initial_state, obj_keys. rewrite map_map, map_id. apply (bool_decide_eq_true_1 _).
  vm_compute. reflexivity.
Qed.

Lemma merge_ok a u : state_ok a -> state_ok (obj_merge a u).
Proof.
  unfold obj_merge. revert a. induction u as [|[k v] u IH]; intros a Ha; [done|]. cbn [fold_left].
  apply IH. by apply obj_set_NoDup.
Qed.

Lemma update_ok u s : state_ok s -> state_ok (updateFilters u s).
Proof. intros Hs. by apply obj_filter_NoDup, merge_ok. Qed.

(** What a reader of the state sees of a member after an update. *)
Lemma update_read u s k : state_ok s -> NoDup (obj_keys u) ->
  obj_get k (updateFilters u s) =
  match (match obj_get k u with Some v => Some v | None => obj_get k s end) with
  | Some v => if is_nullish v then None else Some v
  | None => None
  end.
Proof.
  intros Hs Hu. unfold updateFilters. rewrite obj_get_filter by (by apply merge_ok). cbn [snd].
  rewrite obj_get_merge by done. destruct (obj_get k u); [by destruct (is_nullish _)|].
  destruct (obj_get k s) as [v|]; [by destruct (is_nullish v)|done].
Qed.

Lemma update_other u s k d : state_ok s -> NoDup (obj_keys u) -> obj_get k u = None ->
  state_text k d (updateFilters u s) = state_text k d s.
Proof.
  intros Hs Hu Hk. unfold state_text. rewrite update_read, Hk by done.
  destruct (obj_get k s) as [v|]; [|done]. by destruct v.
Qed.

(** The text read after a setter stored [v] under a default [d]. *)
Definition chosen (d v : jstr) : jstr := if truthy_str v then v else d.

Lemma update_same k d v s : state_ok s -> state_text k d (updateFilters [(k, unless d v)] s) = chosen d v.
Proof.
  intros Hs. unfold state_text. rewrite update_read by (done || apply NoDup_singleton).
  cbn [obj_get]. rewrite bool_decide_eq_true_2 by done. unfold unless, chosen. case_bool_decide as E; [|done].
  subst. cbn [is_nullish]. by destruct (truthy_str d).
Qed.

Lemma update_search v s : state_ok s -> state_text (lit "search") [] (setSearchInput v s) = v.
Proof.
  intros Hs. unfold state_text, setSearchInput. rewrite update_read by (done || apply NoDup_singleton).
  cbn [obj_get]. rewrite bool_decide_eq_true_2 by done. by destruct v.
Qed.

Ltac other_key := rewrite update_other; [|assumption|apply NoDup_singleton|reflexivity].

Lemma clear_read s k d : state_ok s ->
  state_text k d (clearFilters s) =
  if bool_decide (k ∈ [lit "vendor"; lit "group"; lit "quotaType"; lit "endpointType"; lit "tag"]) then d
  else state_text k d s.
Proof.
  intros Hs. set (u := [(lit "vendor", VUndef); (lit "group", VUndef); (lit "quotaType", VUndef);
                 (lit "endpointType", VUndef); (lit "tag", VUndef)]).
  assert (Hu : NoDup (obj_keys u)) by (apply (bool_decide_eq_true_1 _); vm_compute; reflexivity).
  change (clearFilters s) with (updateFilters u s).
  change [lit "vendor"; lit "group"; lit "quotaType"; lit "endpointType"; lit "tag"] with (obj_keys u).
  case_bool_decide as E.
  - apply obj_keys_get in E as [w Hw]. unfold state_text. rewrite update_read, Hw by done.
    replace w with VUndef; [done|]. revert Hw. unfold u. cbn [obj_get]. intros Hw. repeat case_test; congruence.
  - apply update_other; [done|done|]. destruct (obj_get k u) eqn:Eg; [|done]. exfalso. apply E, obj_keys_get. by eexists.
Qed.

Lemma sort_models_perm collate models sortBy : sortModels collate models sortBy ≡ₚ models.
Proof. unfold sortModels, sort_with. repeat case_test; rewrite ?sort_by_perm; done. Qed.

(** The filter state: each setter changes its own filter and no other, an
    empty or default choice means no filter, clearing resets the five filters and
    keeps the search and the order, the badge counts zero exactly when no filter
    is active, and with filters and search cleared every loaded model is listed. *)
Theorem filter_state_exact lower collate s v :
  state_ok s ->
  let f := filters_of s in
  filters_of (setSearchInput v s) =
    MkFilters v (vendor f) (group f) (quotaType f) (endpointType f) (tag f) (sortBy f) /\
  filters_of (setVendorFilter v s) =
    MkFilters (search f) (chosen FILTER_ALL v) (group f) (quotaType f) (endpointType f) (tag f) (sortBy f) /\
  filters_of (setGroupFilter v s) =
    MkFilters (search f) (vendor f) (chosen FILTER_ALL v) (quotaType f) (endpointType f) (tag f) (sortBy f) /\
  filters_of (setQuotaTypeFilter v s) =
    MkFilters (search f) (vendor f) (group f) (chosen FILTER_ALL v) (endpointType f) (tag f) (sortBy f) /\
  filters_of (setEndpointTypeFilter v s) =
    MkFilters (search f) (vendor f) (group f) (quotaType f) (chosen FILTER_ALL v) (tag f) (sortBy f) /\
  filters_of (setTagFilter v s) =
    MkFilters (search f) (vendor f) (group f) (quotaType f) (endpointType f) (chosen FILTER_ALL v) (sortBy f) /\
  filters_of (setSortBy v s) =
    MkFilters (search f) (vendor f) (group f) (quotaType f) (endpointType f) (tag f) (chosen (lit "name") v) /\
  filters_of (clearFilters s) =
    MkFilters (search f) FILTER_ALL FILTER_ALL FILTER_ALL FILTER_ALL FILTER_ALL (sortBy f) /\
  (activeFilterCount s = 0%nat <-> hasActiveFilters s = false) /\
  forall models, filteredModels lower collate models (clearFilters (clearSearch s)) ≡ₚ models.
Proof.
  intros Hs f. unfold f, filters_of. cbn [search vendor group quotaType endpointType tag sortBy].
  split; [rewrite update_search by done; unfold setSearchInput; repeat other_key; reflexivity|].
  repeat (split; [unfold setVendorFilter, setGroupFilter, setQuotaTypeFilter, setEndpointTypeFilter, setTagFilter, setSortBy;
    rewrite ?update_same by done; repeat other_key; reflexivity|]).
  split; [by rewrite !clear_read by done|]. split.
  - unfold activeFilterCount, hasActiveFilters. generalize (active (filters_of s)). clear. intros l.
    induction l as [|[] l IH]; [done|done|]. exact IH.
  - intros models. unfold filteredModels. destruct models as [|m ms] eqn:Em; [done|]. rewrite <- Em.
    assert (Hc : state_ok (clearSearch s)) by (by apply update_ok).
    rewrite filters_as_one, sort_models_perm. unfold filters_of. rewrite !clear_read by done.
    assert (Es : state_text (lit "search") [] (clearSearch s) = []).
    { unfold state_text, clearSearch. by rewrite update_read by (done || apply NoDup_singleton). }
    rewrite Es. rewrite filter_all; [done|]. apply Forall_forall. intros m0 _. reflexivity.
Qed.

Lemma filter_state_exact_witness :
  filters_of (setTagFilter (lit "vision") (initial_state [])) =
  MkFilters [] FILTER_ALL FILTER_ALL FILTER_ALL FILTER_ALL (lit "vision") (lit "name").
Proof.
  refine (proj1 (proj2 (proj2 (proj2 (proj2 (proj2 (filter_state_exact to_lower by_units (initial_state []) (lit "vision") _))))))).
  apply initial_state_ok.
Defined.

(** ** Rates *)

(** A group whose ratio is zero: the least ratio is zero, but the price of the
    group alone is shown with ratio one. *)
Example zero_ratio_disagrees :
  getMinGroupRatio [lit "free"] [(lit "free", num_zero)] = num_zero /\
  ratio_or_one [(lit "free", num_zero)] (lit "free") = num_of_Z 1.
Proof. split; vm_compute; reflexivity. Qed.

(** In token mode the price of a model is a number of tokens. *)
Example model_price_in_tokens cur dec :
  formatPrice cur dec
    (Some (MkCurrency true TOKENS (num_of_Z 500000) (num_of_Z 1) (lit "") (num_of_Z 1)))
    false (num_of_Z 1) (num_of_Z 1) (sample (lit "m") (num_of_Z 0) (num_of_Z 1) None None) PInput UnitM = lit "1000000".
Proof. vm_compute. reflexivity. Qed.
