(* ===== verification/SettingsHook.v ===== *)
(** * The settings form hook

    [src/web/default/src/features/system-settings/hooks/use-settings-form.ts],
    the hook behind the forms of the system settings.  Option names with dots
    are expanded into nested form values, flattened again for the comparison
    with the saved values, and a submission sends the dirty fields that differ
    from them.  The form library is outside: its dirty fields and the values it
    submits are arguments, and the calls of [form.reset] are recorded.  Form
    values are trees; [setDeepValue] writes through a value of the caller only
    when one dotted name extends another, which the facts exclude. *)

From S2P Require Import Prelude.
From S2P Require Import JsString.
From S2P Require Import JsNumber.
From S2P Require Import JsValue.
From S2P Require Import JsJson.

Local Open Scope N_scope.

Definition isPlainObject (v : jsval) : bool := match v with VObj _ => true | _ => false end.

(** [parentKey ? `${parentKey}.${key}` : key]. *)
Definition nextKey (parentKey : option jstr) (key : jstr) : jstr :=
  match parentKey with
  | Some p => if truthy_str p then p ++ [46] ++ key else key
  | None => key
  end.

Fixpoint flattenValues (parentKey : option jstr) (values : jsval) (result : jsobj) : jsobj :=
  match values with
  | VObj o =>
      (fix go es result :=
         match es with
         | [] => result
         | (key, value) :: es' =>
             let k := nextKey parentKey key in
             go es' (match value with
                     | VObj _ => flattenValues (Some k) value result
                     | _ => obj_set k value result
                     end)
         end) o result
  | _ => match parentKey with Some k => obj_set k values result | None => result end
  end.

(** [values[key]] on an object or an array. *)
Definition member (key : jstr) (values : jsval) : jsval :=
  match values with
  | VObj o => default VUndef (obj_get key o)
  | VArr l => match index_key key with Some i => default VUndef (l !! N.to_nat i) | None => VUndef end
  | _ => VUndef
  end.

(** A mark [true] takes the value at its path; marks that are objects or
    arrays are followed. *)
Fixpoint collectDirtyValues (dirtyFields values : jsval) (parentKey : option jstr) (result : jsobj) : jsobj :=
  match dirtyFields with
  | VBool true => match parentKey with Some k => obj_set k values result | None => result end
  | VObj es =>
      (fix go es result :=
         match es with
         | [] => result
         | (key, mark) :: es' =>
             go es' (collectDirtyValues mark (member key values) (Some (nextKey parentKey key)) result)
         end) es result
  | VArr l =>
      (fix go i l result :=
         match l with
         | [] => result
         | mark :: l' =>
             let key := dec_of_N i in
             go (i + 1) l' (collectDirtyValues mark (member key values) (Some (nextKey parentKey key)) result)
         end) 0 l result
  | _ => result
  end.

(** The walk of [setDeepValue] over the segments of a path. *)
Fixpoint set_segments (segments : list jstr) (value : jsval) (target : jsobj) : jsobj :=
  match segments with
  | [] => target
  | [segment] => obj_set segment value target
  | segment :: rest =>
      let next := match obj_get segment target with Some (VObj o) => o | _ => [] end in
      obj_set segment (VObj (set_segments rest value next)) target
  end.

Definition setDeepValue (target : jsobj) (path : jstr) (value : jsval) : jsobj :=
  set_segments (split_on 46 path) value target.

Fixpoint expandDotPaths (values : jsval) : jsval :=
  match values with
  | VObj o =>
      VObj ((fix go es result :=
         match es with
         | [] => result
         | (key, value) :: es' =>
             go es' (if includes_sub [46] key then setDeepValue result key value
                     else match value with
                          | VObj _ => obj_set key (expandDotPaths value) result
                          | _ => obj_set key value result
                          end)
         end) o [])
  | _ => values
  end.

(** ** The hook *)

(** [typeof v]. *)
Definition type_of (v : jsval) : jstr :=
  match v with
  | VUndef => lit "undefined"
  | VNull | VArr _ | VObj _ => lit "object"
  | VBool _ => lit "boolean"
  | VNum _ => lit "number"
  | VStr _ => lit "string"
  end.

(** [a === b] on values without identity. *)
Definition same_primitive (a b : jsval) : bool :=
  match a, b with
  | VUndef, VUndef | VNull, VNull => true
  | VBool x, VBool y => Bool.eqb x y
  | VNum x, VNum y => num_eqb x y
  | VStr x, VStr y => x =?= y
  | _, _ => false
  end.

(** The comparison of two values; identical arrays and objects have the same
    text. *)
Definition defaultCompare (a b : jsval) : bool :=
  if same_primitive a b then true
  else
    match a, b with
    | VArr _, VArr _ => stringify a =?= stringify b
    | _, _ =>
        if type_of a <?> type_of b then false
        else if truthy a && truthy b && (type_of a =?= lit "object") && (type_of b =?= lit "object")
        then stringify a =?= stringify b
        else false
    end.

(** The refs of the hook and the calls of [form.reset]. *)
Record Hook := MkHook {
  baselineRef : jsobj;
  defaultValuesRef : jsval;
  serializedDefaultsRef : option jstr;
  resets : list jsval
}.

(** [expandedDefaults ?? {}]. *)
Definition or_empty (v : jsval) : jsval := if is_nullish v then VObj [] else v.

(** The first render. *)
Definition mount (defaultValues : jsval) : Hook :=
  let expandedDefaults := expandDotPaths defaultValues in
  let baseline := flattenValues None (or_empty expandedDefaults) [] in
  MkHook baseline (or_empty expandedDefaults) (stringify (VObj baseline)) [].

(** The effect that follows new default values. *)
Definition sync_defaults (defaultValues : jsval) (h : Hook) : Hook :=
  let expandedDefaults := expandDotPaths defaultValues in
  if negb (truthy expandedDefaults) then h
  else
    let flattened := flattenValues None expandedDefaults [] in
    let serialized := stringify (VObj flattened) in
    if serialized =?= serializedDefaultsRef h then h
    else MkHook flattened expandedDefaults serialized (resets h ++ [expandedDefaults]).

Section Submit.
Variable compare : jsval -> jsval -> bool.

Definition changedEntries (h : Hook) (dirtyFields data : jsval) : jsobj :=
  List.filter (fun kv => negb (compare kv.2 (default VUndef (obj_get kv.1 (baselineRef h)))))
    (collectDirtyValues dirtyFields data None []).

(** Up to the awaited call: [None] when there is nothing to save, otherwise
    the fields handed to [onSubmit]. *)
Definition handleSubmit (h : Hook) (dirtyFields data : jsval) : option jsobj :=
  match changedEntries h dirtyFields data with
  | [] => None
  | entries => Some (obj_of entries)
  end.

End Submit.

(** After [onSubmit] returned; when it throws the refs stay as they are. *)
Definition after_submit (data : jsval) (h : Hook) : Hook :=
  let flattenedValues := flattenValues None data [] in
  MkHook flattenedValues data (stringify (VObj flattenedValues)) (resets h ++ [data]).

Definition handleReset (h : Hook) : Hook :=
  MkHook (baselineRef h) (defaultValuesRef h) (serializedDefaultsRef h) (resets h ++ [defaultValuesRef h]).

(** * Facts *)

(** ** Paths *)

(** The value at a path that is not an object. *)
Fixpoint leaf_at (segs : list jstr) (o : jsobj) : option jsval :=
  match segs with
  | [] => None
  | s :: rest =>
      match rest, obj_get s o with
      | [], Some (VObj _) => None
      | [], r => r
      | _, Some (VObj o') => leaf_at rest o'
      | _, _ => None
      end
  end.

(** What is left of [q] after the path [p]. *)
Fixpoint strip (p q : list jstr) : option (list jstr) :=
  match p, q with
  | [], _ => Some q
  | a :: p', b :: q' => if a =?= b then strip p' q' else None
  | _ :: _, [] => None
  end.

Lemma strip_spec p q r : strip p q = Some r <-> q = p ++ r.
Proof.
  revert q. induction p as [|a p IH]; intros [|b q]; simpl; try (split; [by intros [= ->]|by intros ->]); try done.
  case_bool_decide as E; [subst; rewrite IH; split; [by intros ->|by intros [= ->]]|].
  split; [done|]. intros [= -> _]. done.
Qed.

Lemma strip_snoc p k q :
  strip (p ++ [k]) q = match strip p q with Some (s :: r) => if k =?= s then Some r else None | _ => None end.
Proof.
  revert q. induction p as [|a p IH]; intros [|b q]; simpl; [done|done|done|].
  case_bool_decide; [apply IH|done].
Qed.

Definition dot_free (s : jstr) : Prop := 46 ∉ s.

Definition path_text (p : list jstr) : jstr := join [46] p.

Lemma path_text_inj p q : p <> [] -> q <> [] -> Forall dot_free p -> Forall dot_free q ->
  path_text p = path_text q -> p = q.
Proof.
  intros Hp Hq Fp Fq E. rewrite <- (split_join 46 p), <- (split_join 46 q) by done.
  unfold path_text in E. by rewrite E.
Qed.

Lemma path_text_snoc p k : p <> [] -> path_text (p ++ [k]) = path_text p ++ [46] ++ k.
Proof.
  unfold path_text. induction p as [|a p IH]; [done|]. intros _. destruct p as [|b p]; [done|].
  change (join [46] ((a :: b :: p) ++ [k])) with (a ++ [46] ++ join [46] ((b :: p) ++ [k])).
  rewrite IH by done. change (join [46] (a :: b :: p)) with (a ++ [46] ++ join [46] (b :: p)).
  by rewrite <- !app_assoc.
Qed.

(** ** Trees of names without dots *)

Definition name_ok (s : jstr) : Prop := dot_free s /\ s <> [].

Fixpoint tree_ok (v : jsval) : Prop :=
  match v with
  | VObj o =>
      NoDup (obj_keys o) /\
      (fix all o := match o with [] => True | kv :: o' => (name_ok kv.1 /\ tree_ok kv.2) /\ all o' end) o
  | _ => True
  end.

Lemma tree_ok_obj o : tree_ok (VObj o) <-> NoDup (obj_keys o) /\ Forall (fun kv => name_ok kv.1 /\ tree_ok kv.2) o.
Proof.
  cbn [tree_ok]. apply and_iff_compat_l. induction o as [|kv o IH]; [by split; [constructor|]|].
  rewrite Forall_cons, IH. tauto.
Qed.

(** The parent key that stands for the path [p]. *)
Definition parent_of (p : list jstr) : option jstr := match p with [] => None | _ => Some (path_text p) end.

Lemma next_key_path p k : Forall name_ok p -> nextKey (parent_of p) k = path_text (p ++ [k]).
Proof.
  destruct p as [|a p]; [done|]. intros [[_ Ha] _]%Forall_cons.
  rewrite path_text_snoc by done. unfold nextKey, parent_of.
  replace (truthy_str (path_text (a :: p))) with true; [done|]. destruct a; [done|]. by destruct p.
Qed.

Lemma parent_snoc p k : parent_of (p ++ [k]) = Some (path_text (p ++ [k])).
Proof. by destruct p. Qed.

Definition after_strip (p q : list jstr) (o : jsobj) (d : option jsval) : option jsval :=
  match strip p q with
  | Some r => match leaf_at r o with Some x => Some x | None => d end
  | None => d
  end.

(** The entries of a flattened object. *)
Definition flatten_entries (p : list jstr) : jsobj -> jsobj -> jsobj :=
  fix go es result :=
    match es with
    | [] => result
    | (key, value) :: es' =>
        let k := nextKey (parent_of p) key in
        go es' (match value with
                | VObj _ => flattenValues (Some k) value result
                | _ => obj_set k value result
                end)
    end.

Lemma leaf_at_cons_ne s r k x es : s <> k -> leaf_at (s :: r) ((k, x) :: es) = leaf_at (s :: r) es.
Proof. intros H. destruct r; cbn [leaf_at obj_get]; by rewrite bool_decide_eq_false_2 by done. Qed.

Lemma leaf_at_absent s r es : s ∉ obj_keys es -> leaf_at (s :: r) es = None.
Proof.
  intros H. assert (E : obj_get s es = None).
  { destruct (obj_get s es) eqn:Eg; [|done]. exfalso. apply H, obj_keys_get. by eexists. }
  destruct r; cbn [leaf_at]; by rewrite E.
Qed.

Lemma after_strip_nil p q d : after_strip p q [] d = d.
Proof.
  unfold after_strip. destruct (strip p q) as [[|s [|t r]]|]; done.
Qed.

(** One entry, [x] being what its value contributes. *)
Lemma after_strip_cons p q k x es d :
  k ∉ obj_keys es ->
  after_strip p q ((k, x) :: es) d =
  after_strip p q es (match x with
                      | VObj o => after_strip (p ++ [k]) q o d
                      | _ => if decide (q = p ++ [k]) then Some x else d
                      end).
Proof.
  intros Hk. unfold after_strip. rewrite strip_snoc. destruct (strip p q) as [r|] eqn:E.
  - apply strip_spec in E as ->. destruct r as [|s r].
    + cbn [leaf_at]. destruct x; try (rewrite decide_False by (intros [=]%app_inv_head); done). done.
    + destruct (decide (s = k)) as [->|Hs].
      * rewrite (leaf_at_absent k r es) by done. rewrite bool_decide_eq_true_2 by done.
        destruct r as [|t r]; cbn [leaf_at obj_get]; rewrite bool_decide_eq_true_2 by done.
        -- destruct x; try (by rewrite decide_True). done.
        -- destruct x; try (rewrite decide_False by (by intros [=]%app_inv_head); done). done.
      * rewrite leaf_at_cons_ne by done. rewrite (bool_decide_eq_false_2 (k = s)) by congruence.
        destruct x; try (rewrite decide_False by (by intros [= ?]%app_inv_head); done). done.
  - assert (Hn : q <> p ++ [k]) by (intros ->; rewrite (proj2 (strip_spec p _ [k])) in E; done).
    destruct x; try (rewrite decide_False by done; done). done.
Qed.

Lemma flatten_read v :
  tree_ok v ->
  forall p q result, Forall name_ok p -> q <> [] -> Forall dot_free q ->
  match v with
  | VObj o => obj_get (path_text q) (flattenValues (parent_of p) v result) = after_strip p q o (obj_get (path_text q) result)
  | _ => True
  end.
Proof.
  induction v as [| | | | | |o IH] using jsval_nested; try done.
  rewrite tree_ok_obj. intros [Hnd Hall] p q result Hp Hq Fq.
  change (flattenValues (parent_of p) (VObj o) result) with (flatten_entries p o result).
  revert result. induction o as [|[k x] es IHes]; intros result; [by rewrite after_strip_nil|].
  apply Forall_cons in IH as [IHx IH]. apply Forall_cons in Hall as [[Hk Hx] Hall].
  apply NoDup_cons in Hnd as [Hnk Hnd]. cbn [fst snd] in *.
  rewrite after_strip_cons by done. cbn [flatten_entries]. rewrite next_key_path by done.
  rewrite IHes by done. f_equal.
  assert (Hpk : Forall name_ok (p ++ [k])) by (apply Forall_app; split; [done|by constructor]).
  assert (Hfk : Forall dot_free (p ++ [k])) by (eapply Forall_impl; [exact Hpk|by intros ? []]).
  assert (Hne : p ++ [k] <> []) by (by destruct p).
  assert (Hset : obj_get (path_text q) (obj_set (path_text (p ++ [k])) x result) =
    if decide (q = p ++ [k]) then Some x else obj_get (path_text q) result).
  { rewrite obj_get_set. case_decide as E; [subst; by rewrite bool_decide_eq_true_2|].
    rewrite bool_decide_eq_false_2; [done|]. intros Ep. apply E. by apply path_text_inj. }
  destruct x; try exact Hset. specialize (IHx Hx (p ++ [k]) q result Hpk Hq Fq). cbn beta iota in IHx.
  by rewrite parent_snoc in IHx.
Qed.

(** ** Writing at a path *)

Definition is_leaf (v : jsval) : bool := negb (isPlainObject v).

(** One of two paths extends the other. *)
Definition comparable (p q : list jstr) : Prop := is_Some (strip p q) \/ is_Some (strip q p).

Lemma comparable_cons a p q : comparable (a :: p) (a :: q) <-> comparable p q.
Proof. unfold comparable. cbn [strip]. by rewrite !bool_decide_eq_true_2 by done. Qed.

Lemma leaf_at_set_ne s k x r o : s <> k -> leaf_at (s :: r) (obj_set k x o) = leaf_at (s :: r) o.
Proof. intros H. destruct r; cbn [leaf_at]; by rewrite obj_get_set_ne by done. Qed.

Lemma leaf_at_deep s t q o :
  leaf_at (s :: t :: q) o = match obj_get s o with Some (VObj o') => leaf_at (t :: q) o' | _ => None end.
Proof. done. Qed.

(** Reading a path after a write: the written value at its own path, nothing
    above or below it, and what was there elsewhere. *)
Lemma set_segments_read segs v o q :
  segs <> [] -> is_leaf v = true -> q <> [] ->
  leaf_at q (set_segments segs v o) =
    if decide (q = segs) then Some v else if decide (is_Some (strip segs q) \/ is_Some (strip q segs)) then None
    else leaf_at q o.
Proof.
  intros Hs Hv. revert o q. induction segs as [|s segs IH]; [done|]. intros o [|a q] Hq; [done|].
  destruct (decide (a = s)) as [->|Ha].
  - destruct segs as [|s' segs].
    + cbn [set_segments]. destruct q as [|b q]; cbn [leaf_at]; rewrite obj_get_set_eq.
      * rewrite decide_True by done. by destruct v.
      * rewrite decide_False by done.
        rewrite decide_True by (left; cbn [strip]; rewrite bool_decide_eq_true_2 by done; by eexists).
        by destruct v.
    + change (set_segments (s :: s' :: segs) v o) with
        (obj_set s (VObj (set_segments (s' :: segs) v match obj_get s o with Some (VObj o') => o' | _ => [] end)) o).
      destruct q as [|b q].
      * cbn [leaf_at]. rewrite obj_get_set_eq. rewrite decide_False by done.
        rewrite decide_True by (right; cbn [strip]; rewrite bool_decide_eq_true_2 by done; by eexists). done.
      * rewrite !leaf_at_deep, obj_get_set_eq, IH by done.
        destruct (decide (b :: q = s' :: segs)) as [E|E].
        { rewrite decide_True by congruence. done. }
        rewrite (decide_False (P := s :: b :: q = _)) by congruence.
        change (is_Some (strip (s :: s' :: segs) (s :: b :: q)) \/ is_Some (strip (s :: b :: q) (s :: s' :: segs)))
          with (comparable (s :: s' :: segs) (s :: b :: q)).
        change (is_Some (strip (s' :: segs) (b :: q)) \/ is_Some (strip (b :: q) (s' :: segs)))
          with (comparable (s' :: segs) (b :: q)).
        destruct (decide (comparable (s' :: segs) (b :: q))) as [C|C].
        { rewrite decide_True by (by apply comparable_cons). done. }
        rewrite decide_False by (by rewrite comparable_cons).
        by destruct (obj_get s o) as [[]|]; try (by destruct q).
  - rewrite decide_False by congruence.
    assert (Hn : ~ comparable (s :: segs) (a :: q)).
    { unfold comparable. cbn [strip]. rewrite !bool_decide_eq_false_2 by congruence. by intros [[? ?]|[? ?]]. }
    rewrite decide_False by exact Hn. destruct segs; cbn [set_segments]; by apply leaf_at_set_ne.
Qed.

Lemma obj_set_entries (P : jstr * jsval -> Prop) k v (o : jsobj) :
  P (k, v) -> Forall P o -> Forall P (obj_set k v o).
Proof.
  intros Hv Ho. unfold obj_set. destruct (obj_has k o).
  - induction Ho as [|[k1 v1] o H1 Ho IH]; [done|]. cbn [obj_update].
    case_bool_decide; [subst|]; by constructor.
  - induction Ho as [|[k1 v1] o H1 Ho IH]; cbn [obj_add]; [by repeat constructor|].
    repeat case_match; repeat (constructor; try done).
Qed.

Lemma tree_ok_set k v o : name_ok k -> tree_ok v -> tree_ok (VObj o) -> tree_ok (VObj (obj_set k v o)).
Proof.
  rewrite !tree_ok_obj. intros Hk Hv [Hnd Ho]. split; [by apply obj_set_NoDup|by apply obj_set_entries].
Qed.

Lemma tree_ok_get k o v : tree_ok (VObj o) -> obj_get k o = Some v -> tree_ok v.
Proof.
  rewrite tree_ok_obj. intros [_ Ho]. induction Ho as [|[k1 v1] o [_ H1] Ho IH]; [done|]. cbn [obj_get].
  case_bool_decide; [by intros [= <-]|done].
Qed.

Lemma set_segments_ok segs v o :
  Forall name_ok segs -> tree_ok v -> tree_ok (VObj o) -> tree_ok (VObj (set_segments segs v o)).
Proof.
  intros Hs Hv. revert o. induction Hs as [|s segs Hs1 Hs IH]; intros o Ho; [done|].
  destruct segs as [|t segs]; [by apply tree_ok_set|].
  change (set_segments (s :: t :: segs) v o) with
    (obj_set s (VObj (set_segments (t :: segs) v match obj_get s o with Some (VObj o') => o' | _ => [] end)) o).
  apply tree_ok_set; [done| |done]. apply IH.
  destruct (obj_get s o) as [[]|] eqn:E; try (by apply tree_ok_obj; split; constructor). by apply (tree_ok_get s o).
Qed.

(** ** Option names *)

(** The options of a form: texts of proper names joined by dots, with values
    that are not objects, and no name extending another one. *)
Definition segments (k : jstr) : list jstr := split_on 46 k.

Record options_ok (d : jsobj) : Prop := {
  options_NoDup : NoDup (obj_keys d);
  options_names : Forall (fun kv => Forall name_ok (segments kv.1) /\ is_leaf kv.2 = true) d;
  options_apart : forall k k', k ∈ obj_keys d -> k' ∈ obj_keys d -> comparable (segments k) (segments k') -> k = k'
}.

Lemma leaf_tree v : is_leaf v = true -> tree_ok v.
Proof. by destruct v. Qed.

(** The expansion writes each option at its path. *)
Lemma expand_options d result :
  Forall (fun kv => is_leaf kv.2 = true) d ->
  (fix go es result :=
     match es with
     | [] => result
     | (key, value) :: es' =>
         go es' (if includes_sub [46] key then setDeepValue result key value
                 else match value with
                      | VObj _ => obj_set key (expandDotPaths value) result
                      | _ => obj_set key value result
                      end)
     end) d result =
  fold_left (fun r kv => set_segments (segments kv.1) kv.2 r) d result.
Proof.
  intros Hd. revert result. induction Hd as [|[k v] d Hv Hd IH]; intros result; [done|]. cbn [fold_left fst snd] in *.
  rewrite IH. f_equal. destruct (includes_sub [46] k) eqn:E; [done|].
  assert (Hk : dot_free k).
  { intros Hin. apply list_elem_of_split in Hin as (a & b & ->).
    change (a ++ 46 :: b) with (a ++ [46] ++ b) in E. by rewrite includes_middle in E. }
  unfold segments. rewrite split_on_word by done. by destruct v.
Qed.

Lemma options_tree d :
  Forall (fun kv => Forall name_ok (segments kv.1) /\ is_leaf kv.2 = true) d ->
  tree_ok (VObj (fold_left (fun r kv => set_segments (segments kv.1) kv.2 r) d [])).
Proof.
  intros Hd. assert (H0 : tree_ok (VObj [])) by (apply tree_ok_obj; split; constructor). revert H0.
  generalize (@nil (jstr * jsval)). induction Hd as [|[k v] d [Hk Hv] Hd IH]; intros o Ho; [done|].
  cbn [fold_left fst snd] in *. apply IH, set_segments_ok; [done|by apply leaf_tree|done].
Qed.

Lemma segments_ne k : segments k <> [].
Proof. apply split_on_ne. Qed.

Lemma segments_inj k k' : segments k = segments k' -> k = k'.
Proof. intros E. rewrite <- (join_split 46 k), <- (join_split 46 k'). unfold segments in E. by rewrite E. Qed.

Lemma obj_get_app k (a b : jsobj) : obj_get k (a ++ b) = match obj_get k a with Some v => Some v | None => obj_get k b end.
Proof. induction a as [|[k1 v1] a IH]; [done|]. cbn [app obj_get]. by case_bool_decide. Qed.

(** Every path of the expanded options is one of their names. *)
Lemma options_read d k :
  options_ok d -> leaf_at (segments k) (fold_left (fun r kv => set_segments (segments kv.1) kv.2 r) d []) = obj_get k d.
Proof.
  intros [Hnd Hn Ha]. induction d as [|[k1 v1] d IH] using rev_ind.
  - cbn [fold_left obj_get]. destruct (segments k) as [|s [|t r]]; done.
  - rewrite fold_left_app. cbn [fold_left fst snd].
    unfold obj_keys in Hnd, Ha. rewrite map_app in Hnd, Ha. cbn [List.map fst] in Hnd, Ha.
    apply Forall_app in Hn as [Hn [[Hk1 Hv1] _]%Forall_cons]. cbn [fst snd] in *.
    apply NoDup_app in Hnd as (Hnd & Hdis & _).
    assert (Hk1d : k1 ∉ List.map fst d) by (intros H; apply (Hdis k1 H); by left).
    assert (Hnk : obj_get k1 d = None).
    { destruct (obj_get k1 d) eqn:E; [|done]. exfalso. apply Hk1d, obj_keys_get. by eexists. }
    rewrite obj_get_app. rewrite set_segments_read by (done || apply segments_ne).
    assert (IH' : leaf_at (segments k) (fold_left (fun r kv => set_segments (segments kv.1) kv.2 r) d []) = obj_get k d).
    { apply IH; [done|done|]. intros a b Hin Hin'. apply Ha; apply elem_of_app; by left. }
    case_decide as E1.
    { apply segments_inj in E1 as ->. rewrite Hnk. cbn [obj_get]. by rewrite bool_decide_eq_true_2. }
    assert (Hkk : k <> k1) by (intros ->; done).
    assert (Hlast : obj_get k [(k1, v1)] = None) by (cbn [obj_get]; by rewrite bool_decide_eq_false_2).
    rewrite Hlast. case_decide as E2; [|rewrite IH'; by destruct (obj_get k d)].
    destruct (obj_get k d) eqn:Eg; [|done]. exfalso. apply Hkk, Ha.
    + apply elem_of_app. left. apply obj_keys_get. by eexists.
    + apply elem_of_app. right. by left.
    + destruct E2 as [?|?]; [by right|by left].
Qed.

(** Option names with dots survive the form: expanding the saved options
    into nested form values and flattening these again gives every option its
    saved value and no other name, for names without empty segments none of
    which extends another. *)
Theorem expand_flatten_roundtrip d k :
  options_ok d -> obj_get k (flattenValues None (expandDotPaths (VObj d)) []) = obj_get k d.
Proof.
  intros Hd. cbn [expandDotPaths]. rewrite expand_options.
  2:{ eapply Forall_impl; [apply (options_names d Hd)|]. by intros ? []. }
  set (tree := fold_left _ d []).
  assert (Ht : tree_ok (VObj tree)) by apply options_tree, (options_names d Hd).
  pose proof (flatten_read (VObj tree) Ht [] (segments k) [] ltac:(constructor) (segments_ne k)) as Hr.
  cbn beta iota in Hr. unfold path_text, segments in Hr. rewrite join_split in Hr.
  change (parent_of []) with (@None jstr) in Hr. rewrite Hr by apply split_on_free. unfold after_strip. cbn [strip obj_get].
  rewrite <- (options_read d k Hd). unfold segments. by destruct (leaf_at _ _).
Qed.

(** ** Dirty fields *)

(** The path [q] is marked. *)
Fixpoint marked (q : list jstr) (d : jsval) : bool :=
  match q, d with
  | [], VBool b => b
  | s :: q', VObj es => match obj_get s es with Some m => marked q' m | None => false end
  | _, _ => false
  end.

Fixpoint value_at (q : list jstr) (v : jsval) : jsval :=
  match q with [] => v | s :: q' => value_at q' (member s v) end.

(** The marks of a form without field arrays. *)
Fixpoint no_arrays (d : jsval) : Prop :=
  match d with
  | VArr _ => False
  | VObj es => (fix all es := match es with [] => True | e :: es' => no_arrays e.2 /\ all es' end) es
  | _ => True
  end.

Lemma no_arrays_obj es : no_arrays (VObj es) <-> Forall (fun e => no_arrays e.2) es.
Proof.
  cbn [no_arrays]. induction es as [|e es IH]; [by split; [constructor|]|]. rewrite Forall_cons, <- IH. done.
Qed.

Lemma collect_read d :
  tree_ok d -> no_arrays d ->
  forall data p q result, Forall name_ok p -> q <> [] -> Forall dot_free q ->
  obj_get (path_text q) (collectDirtyValues d data (parent_of p) result) =
  match strip p q with
  | Some r => if marked r d then Some (value_at r data) else obj_get (path_text q) result
  | None => obj_get (path_text q) result
  end.
Proof.
  induction d as [| |b| | | |es IH] using jsval_nested; try done.
  all: try (intros _ _ data p q result _ _ _; destruct (strip p q) as [[|? ?]|]; reflexivity).
  - intros _ _ data p q result Hp Hq Fq. destruct b; [|by destruct (strip p q) as [[|? ?]|]].
    destruct p as [|a p]; [by destruct q|]. cbn [collectDirtyValues parent_of].
    rewrite obj_get_set. destruct (strip (a :: p) q) as [[|s r]|] eqn:E.
    + apply strip_spec in E. rewrite app_nil_r in E. subst. by rewrite bool_decide_eq_true_2.
    + rewrite bool_decide_eq_false_2; [done|]. apply strip_spec in E. intros Et.
      apply path_text_inj in Et; [|done|done|done|].
      * rewrite Et in E. apply (f_equal length) in E. rewrite length_app in E. simpl in E. lia.
      * eapply Forall_impl; [exact Hp|]. by intros ? [].
    + rewrite bool_decide_eq_false_2; [done|]. intros Et. apply path_text_inj in Et; [|done|done|done|].
      * subst q. rewrite (proj2 (strip_spec (a :: p) _ [])) in E; [done|by rewrite app_nil_r].
      * eapply Forall_impl; [exact Hp|]. by intros ? [].
  - rewrite tree_ok_obj, no_arrays_obj. intros [Hnd Hall] Hna data p q result Hp Hq Fq.
    cbn [collectDirtyValues]. revert result.
    induction es as [|[k m] es IHes]; intros result; [by destruct (strip p q) as [[|? ?]|]|].
    apply Forall_cons in IH as [IHm IH]. apply Forall_cons in Hall as [[Hk Hm] Hall].
    apply Forall_cons in Hna as [Hnm Hna]. apply NoDup_cons in Hnd as [Hnk Hnd]. cbn [fst snd] in *.
    rewrite IHes by done. rewrite next_key_path, <- parent_snoc by done.
    assert (Hpk : Forall name_ok (p ++ [k])) by (apply Forall_app; split; [done|by constructor]).
    rewrite (IHm Hm Hnm (member k data) (p ++ [k]) q result Hpk Hq Fq), strip_snoc.
    destruct (strip p q) as [[|s r]|]; [done| |done]. cbn [marked obj_get value_at].
    destruct (decide (s = k)) as [->|Hs].
    + rewrite !bool_decide_eq_true_2 by done.
      assert (E : obj_get k es = None); [|by rewrite E].
      destruct (obj_get k es) eqn:Eg; [|done]. exfalso. apply Hnk, obj_keys_get. by eexists.
    + rewrite (bool_decide_eq_false_2 (s = k)), (bool_decide_eq_false_2 (k = s)) by congruence. done.
Qed.

Lemma collect_NoDup d : forall data parent result,
  NoDup (obj_keys result) -> NoDup (obj_keys (collectDirtyValues d data parent result)).
Proof.
  induction d as [| |b| | |l IH|es IH] using jsval_nested; intros data parent result Hr; try done.
  - cbn [collectDirtyValues]. destruct b, parent; try done. by apply obj_set_NoDup.
  - cbn [collectDirtyValues]. revert result Hr. generalize 0%N.
    induction IH as [|m l Hm Hl IHl]; intros i result Hr; [done|]. apply IHl, Hm, Hr.
  - cbn [collectDirtyValues]. revert result Hr. induction IH as [|[k m] es Hm Hl IHl]; intros result Hr; [done|].
    apply IHl, Hm, Hr.
Qed.

(** The form library's marks, as the hook relies on them: an object of names
    without field arrays. *)
Definition marks_ok (d : jsval) : Prop := tree_ok d /\ no_arrays d.

Lemma dirty_read d data k : marks_ok d ->
  obj_get k (collectDirtyValues d data None []) = if marked (segments k) d then Some (value_at (segments k) data) else None.
Proof.
  intros [Ht Hn]. pose proof (collect_read d Ht Hn data [] (segments k) [] ltac:(constructor) (segments_ne k)) as H.
  unfold path_text, segments in H. rewrite join_split in H. apply H. apply split_on_free.
Qed.

Lemma sent_read compare h d data k :
  obj_get k (default [] (handleSubmit compare h d data)) =
  match obj_get k (collectDirtyValues d data None []) with
  | Some v => if compare v (default VUndef (obj_get k (baselineRef h))) then None else Some v
  | None => None
  end.
Proof.
  set (all := collectDirtyValues d data None []).
  assert (Hnd : NoDup (obj_keys all)) by (apply collect_NoDup; constructor).
  set (f := fun kv : jstr * jsval => negb (compare kv.2 (default VUndef (obj_get kv.1 (baselineRef h))))).
  assert (E : obj_get k (default [] (handleSubmit compare h d data)) = obj_get k (List.filter f all)).
  { unfold handleSubmit, changedEntries. fold all f.
    assert (Hf : NoDup (obj_keys (List.filter f all))) by (by apply obj_filter_NoDup).
    revert Hf. destruct (List.filter f all) as [|e es]; intros Hf; [done|]. cbn [from_option id].
    unfold obj_of. rewrite obj_get_merge by done. by destruct (obj_get k (e :: es)). }
  rewrite E, obj_get_filter by done. destruct (obj_get k all) as [v|]; [|done]. unfold f. cbn [fst snd].
  by destruct (compare v _).
Qed.

(** A value that equals itself. *)
Definition comparable_value (v : jsval) : Prop := is_leaf v = true /\ v <> VNum NaN.

Lemma compare_self v : comparable_value v -> defaultCompare v v = true.
Proof.
  intros [Hl Hn]. unfold defaultCompare. destruct v as [| |b|x|s|l|o]; try done; cbn [same_primitive].
  - by rewrite eqb_reflx.
  - rewrite num_eqb_refl; [done|]. by destruct x.
  - by rewrite bool_decide_eq_true_2.
  - by rewrite bool_decide_eq_true_2.
Qed.

(** The paths of the form's values are not inside arrays. *)
Fixpoint reaches (q : list jstr) (v : jsval) : Prop :=
  match q with
  | [] => True
  | s :: q' => (forall l, v <> VArr l) /\ reaches q' (member s v)
  end.

Lemma value_leaf q o : q <> [] -> reaches q (VObj o) -> is_leaf (value_at q (VObj o)) = true ->
  default VUndef (leaf_at q o) = value_at q (VObj o).
Proof.
  revert o. induction q as [|s q IH]; [done|]. intros o _ [_ Hr] Hl. cbn [value_at member] in *.
  destruct q as [|t q]; [cbn [leaf_at value_at] in *; by destruct (obj_get s o) as [[]|]|].
  rewrite leaf_at_deep. destruct (obj_get s o) as [v|]; cbn [from_option id] in *.
  - assert (Hu : forall q, value_at q VUndef = VUndef) by (intros q'; induction q'; [done|]; done).
    destruct v; try (cbn [value_at member]; by rewrite Hu); [by destruct Hr as [Hr _]; destruct (Hr l)|]. by apply IH.
  - assert (Hu : forall q, value_at q VUndef = VUndef) by (intros q'; induction q'; [done|]; done).
    cbn [value_at member]. by rewrite Hu.
Qed.

(** C21: a submission sends exactly the changes.  For a form whose marks of dirty
    fields are a tree of names without arrays (the marks of a field that holds a
    list are an array and are followed into its items, so such fields are excluded),
    and whose values are a tree of names: a name is handed to [onSubmit] if and only
    if its path is marked dirty and its value differs from the saved one.  Once the
    call has succeeded, submitting the same values again finds nothing to save, for
    any marks of that kind that lead to values which are not inside an array, are no
    objects and are not NaN. *)
Theorem submit_exact h d o :
  marks_ok d -> tree_ok (VObj o) ->
  (forall k v, obj_get k (default [] (handleSubmit defaultCompare h d (VObj o))) = Some v <->
     marked (segments k) d = true /\ v = value_at (segments k) (VObj o) /\
     defaultCompare v (default VUndef (obj_get k (baselineRef h))) = false) /\
  (forall d', marks_ok d' ->
   (forall q, marked q d' = true -> reaches q (VObj o) /\ comparable_value (value_at q (VObj o))) ->
   handleSubmit defaultCompare (after_submit (VObj o) h) d' (VObj o) = None).
Proof.
  intros Hd Ho. split.
  - intros k v. rewrite sent_read, dirty_read by done. destruct (marked (segments k) d) eqn:E.
    + destruct (defaultCompare _ _) eqn:Ec.
      * split; [done|]. intros (_ & -> & H). congruence.
      * split; [intros [= <-]; done|by intros (_ & -> & _)].
    + split; [done|]. by intros [? _].
  - clear d Hd. intros d Hd Hm.
    assert (Hn : forall k, obj_get k (default [] (handleSubmit defaultCompare (after_submit (VObj o) h) d (VObj o))) = None).
    { intros k. rewrite sent_read, dirty_read by done. destruct (marked (segments k) d) eqn:E; [|done].
      destruct (Hm _ E) as [Hr Hc]. cbn [after_submit baselineRef].
      assert (Eb : obj_get k (flattenValues None (VObj o) []) = leaf_at (segments k) o).
      { pose proof (flatten_read (VObj o) Ho [] (segments k) [] ltac:(constructor) (segments_ne k)) as H.
        cbn beta iota in H. unfold path_text, segments in H. rewrite join_split in H.
        change (parent_of []) with (@None jstr) in H. rewrite H by apply split_on_free.
        unfold after_strip. cbn [strip obj_get]. unfold segments. by destruct (leaf_at _ _). }
      rewrite Eb, value_leaf by (done || apply segments_ne || apply Hc). by rewrite compare_self. }
    unfold handleSubmit in *. destruct (changedEntries _ _ d (VObj o)) as [|[k v] es] eqn:E; [done|].
    exfalso. specialize (Hn k). cbn [from_option id] in Hn. unfold obj_of in Hn.
    rewrite obj_get_merge in Hn.
    + cbn [obj_get] in Hn. by rewrite bool_decide_eq_true_2 in Hn.
    + rewrite <- E. apply obj_filter_NoDup, collect_NoDup. constructor.
Qed.

(** The saved values coming back from the server as options do not reset the
    form that has just submitted them. *)
Lemma saved_echo_keeps_form d h :
  sync_defaults (VObj d) (after_submit (expandDotPaths (VObj d)) h) = after_submit (expandDotPaths (VObj d)) h.
Proof.
  unfold sync_defaults, after_submit. cbn [serializedDefaultsRef].
  change (truthy (expandDotPaths (VObj d))) with true. cbn [negb]. by rewrite bool_decide_eq_true_2.
Qed.

Definition sample_options : jsobj :=
  [(lit "cache.enabled", VBool true); (lit "cache.path", VStr (lit "/tmp")); (lit "Theme", VStr (lit "dark"))].

Lemma sample_options_ok : options_ok sample_options.
Proof.
  split.
  - apply (bool_decide_eq_true_1 _). vm_compute. reflexivity.
  - apply (bool_decide_eq_true_1 _). vm_compute. reflexivity.
  - intros k k' Hk Hk' Hc. change (obj_keys sample_options) with [lit "cache.enabled"; lit "cache.path"; lit "Theme"] in *.
    rewrite !elem_of_cons in Hk, Hk'. destruct Hc as [[r Hc]|[r Hc]].
    all: destruct Hk as [->|[->|[->|Hk]]]; try (by apply elem_of_nil in Hk).
    all: destruct Hk' as [->|[->|[->|Hk']]]; try (by apply elem_of_nil in Hk').
    all: try reflexivity; vm_compute in Hc; discriminate.
Qed.

Lemma expand_flatten_roundtrip_witness :
  obj_get (lit "cache.path") (flattenValues None (expandDotPaths (VObj sample_options)) []) = Some (VStr (lit "/tmp")).
Proof. exact (expand_flatten_roundtrip sample_options (lit "cache.path") sample_options_ok). Defined.

Lemma submit_exact_witness :
  let d := VObj [(lit "cache", VObj [(lit "enabled", VBool true)])] in
  let o := [(lit "cache", VObj [(lit "enabled", VBool false); (lit "path", VStr (lit "/tmp"))])] in
  handleSubmit defaultCompare (mount (VObj sample_options)) d (VObj o) = Some [(lit "cache.enabled", VBool false)] /\
  handleSubmit defaultCompare (after_submit (VObj o) (mount (VObj sample_options))) d (VObj o) = None.
Proof.
  intros d o. split; [vm_compute; reflexivity|].
  assert (Hd : marks_ok d).
  { split; [split; [apply (bool_decide_eq_true_1 _); vm_compute; reflexivity|]|repeat split].
    repeat split; try (apply (bool_decide_eq_true_1 _); vm_compute; reflexivity); discriminate. }
  apply (submit_exact (mount (VObj sample_options)) d o); [exact Hd| |exact Hd|].
  - split; [apply (bool_decide_eq_true_1 _); vm_compute; reflexivity|].
    repeat split; try (apply (bool_decide_eq_true_1 _); vm_compute; reflexivity); discriminate.
  - intros [|s q]; [discriminate|]. unfold d. cbn [marked obj_get].
    destruct (decide (s = lit "cache")) as [->|Hs]; [|rewrite bool_decide_eq_false_2 by exact Hs; discriminate].
    rewrite bool_decide_eq_true_2 by reflexivity. destruct q as [|t q]; [discriminate|]. cbn [marked obj_get].
    destruct (decide (t = lit "enabled")) as [->|Ht]; [|rewrite bool_decide_eq_false_2 by exact Ht; discriminate].
    rewrite bool_decide_eq_true_2 by reflexivity. destruct q as [|u q]; [|discriminate]. intros _.
    split; [repeat split; discriminate|]. split; [vm_compute; reflexivity|discriminate].
Defined.

(** A field that holds a list is saved whole, but the marks of the form library
    for it are a list too, and they are followed into its items: the item is
    sent under a name that no option has. *)
Example list_field_sent_by_item :
  handleSubmit defaultCompare (mount (VObj [(lit "models", VArr [VStr (lit "a")])]))
    (VObj [(lit "models", VArr [VBool true])]) (VObj [(lit "models", VArr [VStr (lit "b")])]) =
  Some [(lit "models.0", VStr (lit "b"))].
Proof. vm_compute. reflexivity. Qed.
