(* ===== verification/SecureVerification.v ===== *)
(** * Secure verification

    [src/web/default/src/features/auth/secure-verification/hooks/use-secure-verification.ts]
    with the method switch of its [api.ts] and [lib/secure-verification.ts]:
    a dialog that asks for a second factor before a protected call.  Every
    asynchronous handler is cut at its awaits into tasks; a step of the machine
    is one handler invocation or the settlement of one awaited promise, so the
    steps interleave freely.  Protected calls are identified by numbers; the
    outcomes of requests are given by the events.  A handler sees the state of
    the render before it, which is the current state of the machine. *)

From S2P Require Import Prelude.
From S2P Require Import JsString.

Local Open Scope N_scope.

Inductive VerificationMethod := TwoFA | Passkey.

#[export] Instance VerificationMethod_eq : EqDecision VerificationMethod.
Proof. solve_decision. Defined.

Record VerificationMethods := MkMethods {
  has2FA : bool;
  hasPasskey : bool;
  passkeySupported : bool
}.

Definition defaultMethods : VerificationMethods := MkMethods false false false.

Record InternalState := MkState {
  method : option VerificationMethod;
  loading : bool;
  code : jstr;
  title : option jstr;
  description : option jstr;
  apiCall : option N
}.

Definition initialState : InternalState := MkState None false [] None None None.

Record StartVerificationOptions := MkStart {
  preferredMethod : option VerificationMethod;
  start_title : option jstr;
  start_description : option jstr
}.

Record UseSecureVerificationOptions := MkUse { autoReset : option bool }.

(** ** Errors of a call *)

(** The answer of the server in an error: its status and the code of its data. *)
Record Failure := MkFailure { status : option N; error_code : option jstr }.

Definition isVerificationRequiredError (error : Failure) : bool :=
  match status error, error_code error with
  | Some s, Some c =>
      (s =? 403) && truthy_str c &&
      bool_decide (c ∈ [lit "VERIFICATION_REQUIRED"; lit "VERIFICATION_EXPIRED"; lit "VERIFICATION_INVALID"])
  | _, _ => false
  end.

(** Whether [verify] gets as far as a request: a code that is blank is refused. *)
Definition verify_sends (m : VerificationMethod) (c : jstr) : bool :=
  match m with TwoFA => truthy_str (trim c) | Passkey => true end.

(** ** State *)

(** What an asynchronous handler is waiting for. *)
Inductive Task :=
| AwaitMethods (call : N) (config : StartVerificationOptions)
| AwaitVerify (call : N) (m : VerificationMethod) (c : jstr)
| AwaitCall (call : N) (m : VerificationMethod)
| AwaitFirstCall (call : N) (config : StartVerificationOptions).

(** What has happened, latest first. *)
Inductive Entry :=
| Executed (id call : N) (m : VerificationMethod) (c : jstr)
| Verified (id : N)
| Called (id call : N)
| Succeeded (id : N)
| Failed (id : N)
| Refused
| Misconfigured.

Record Hook := MkHook {
  methods : VerificationMethods;
  state : InternalState;
  open : bool;
  tasks : list (N * Task);
  fresh : N;
  log : list Entry
}.

Definition mount : Hook := MkHook defaultMethods initialState false [] 0 [].

Definition with_state (f : InternalState -> InternalState) (h : Hook) : Hook :=
  MkHook (methods h) (f (state h)) (open h) (tasks h) (fresh h) (log h).

Definition record_ (e : Entry) (h : Hook) : Hook :=
  MkHook (methods h) (state h) (open h) (tasks h) (fresh h) (e :: log h).

Definition set_open (b : bool) (h : Hook) : Hook :=
  MkHook (methods h) (state h) b (tasks h) (fresh h) (log h).

Definition set_loading (b : bool) (s : InternalState) : InternalState :=
  MkState (method s) b (code s) (title s) (description s) (apiCall s).

(** Starts a task, drops one, or replaces it by the next one of the handler. *)
Definition spawn (t : Task) (h : Hook) : Hook :=
  MkHook (methods h) (state h) (open h) ((fresh h, t) :: tasks h) (fresh h + 1) (log h).

Definition drop_task (id : N) (h : Hook) : Hook :=
  MkHook (methods h) (state h) (open h) (List.filter (fun t => negb (t.1 =? id)) (tasks h)) (fresh h) (log h).

Definition next_task (id : N) (t : Task) (h : Hook) : Hook :=
  MkHook (methods h) (state h) (open h)
    (List.map (fun u => if u.1 =? id then (id, t) else u) (tasks h)) (fresh h) (log h).

Fixpoint task_of (id : N) (ts : list (N * Task)) : option Task :=
  match ts with
  | [] => None
  | (i, t) :: ts' => if i =? id then Some t else task_of id ts'
  end.

(** ** Handlers *)

Section Handlers.
Variable options : UseSecureVerificationOptions.

Definition reset (h : Hook) : Hook := set_open false (with_state (fun _ => initialState) h).

Definition startVerification (call : N) (config : StartVerificationOptions) (h : Hook) : Hook :=
  spawn (AwaitMethods call config) h.

Definition default_method (config : StartVerificationOptions) (ms : VerificationMethods) : option VerificationMethod :=
  match preferredMethod config with
  | Some m => Some m
  | None =>
      if hasPasskey ms && passkeySupported ms then Some Passkey
      else if has2FA ms then Some TwoFA
      else None
  end.

(** [startVerification] after the methods have been fetched. *)
Definition start_resume (call : N) (config : StartVerificationOptions) (ms : VerificationMethods) (h : Hook) : Hook :=
  let h := MkHook ms (state h) (open h) (tasks h) (fresh h) (log h) in
  if negb (has2FA ms) && negb (hasPasskey ms) then record_ Refused h
  else
    set_open true
      (with_state (fun s => MkState (default_method config ms) (loading s) (code s) (start_title config)
                              (start_description config) (Some call)) h).

Definition executeVerification (m : option VerificationMethod) (c : option jstr) (h : Hook) : Hook :=
  match apiCall (state h) with
  | None => record_ Misconfigured h
  | Some call =>
      match (match m with Some x => Some x | None => method (state h) end) with
      | None => record_ Misconfigured h
      | Some actualMethod =>
          let actualCode := default (code (state h)) c in
          let h' := record_ (Executed (fresh h) call actualMethod actualCode) (with_state (set_loading true) h) in
          spawn (AwaitVerify call actualMethod actualCode) h'
      end
  end.

(** The [finally] block. *)
Definition settle (h : Hook) : Hook := with_state (set_loading false) h.

(** After [verify] settled. *)
Definition verify_resume (id call : N) (m : VerificationMethod) (c : jstr) (ok : bool) (h : Hook) : Hook :=
  if ok && verify_sends m c then
    record_ (Called id call) (next_task id (AwaitCall call m) h)
  else settle (record_ (Failed id) (drop_task id h)).

(** After the protected call settled. *)
Definition call_resume (id : N) (ok : bool) (h : Hook) : Hook :=
  let h := drop_task id h in
  if ok then
    let h := record_ (Succeeded id) h in
    settle (if default true (autoReset options) then reset h else h)
  else settle (record_ (Failed id) h).

Definition setCode (c : jstr) (h : Hook) : Hook :=
  with_state (fun s => MkState (method s) (loading s) c (title s) (description s) (apiCall s)) h.

Definition switchMethod (m : VerificationMethod) (h : Hook) : Hook :=
  with_state (fun s => MkState (Some m) (loading s) [] (title s) (description s) (apiCall s)) h.

Definition cancel (h : Hook) : Hook := reset h.

Definition withVerification (call : N) (config : StartVerificationOptions) (h : Hook) : Hook :=
  spawn (AwaitFirstCall call config) h.

(** After the first attempt: [None] for success. *)
Definition with_resume (id call : N) (config : StartVerificationOptions) (error : option Failure) (h : Hook) : Hook :=
  match error with
  | Some e => if isVerificationRequiredError e then next_task id (AwaitMethods call config) h else drop_task id h
  | None => drop_task id h
  end.

Definition canUseMethod (m : VerificationMethod) (ms : VerificationMethods) : bool :=
  match m with TwoFA => has2FA ms | Passkey => hasPasskey ms && passkeySupported ms end.

Definition recommendedMethod (ms : VerificationMethods) : option VerificationMethod :=
  if hasPasskey ms && passkeySupported ms then Some Passkey
  else if has2FA ms then Some TwoFA
  else None.

(** ** Steps *)

Inductive Event :=
| Start (call : N) (config : StartVerificationOptions)
| With (call : N) (config : StartVerificationOptions)
| Execute (m : option VerificationMethod) (c : option jstr)
| SetCode (c : jstr)
| SwitchMethod (m : VerificationMethod)
| SetOpen (b : bool)
| Cancel
| FetchedMethods (ms : VerificationMethods)
| MethodsSettled (id : N) (ms : VerificationMethods)
| VerifySettled (id : N) (ok : bool)
| CallSettled (id : N) (ok : bool)
| FirstCallSettled (id : N) (error : option Failure).

(** The verification the server has confirmed, before the handler sees it. *)
Definition answered (id : N) (m : VerificationMethod) (c : jstr) (ok : bool) (h : Hook) : Hook :=
  if ok && verify_sends m c then record_ (Verified id) h else h.

Definition step (e : Event) (h : Hook) : Hook :=
  match e with
  | Start call config => startVerification call config h
  | With call config => withVerification call config h
  | Execute m c => executeVerification m c h
  | SetCode c => setCode c h
  | SwitchMethod m => switchMethod m h
  | SetOpen b => set_open b h
  | Cancel => cancel h
  | FetchedMethods ms => MkHook ms (state h) (open h) (tasks h) (fresh h) (log h)
  | MethodsSettled id ms =>
      match task_of id (tasks h) with
      | Some (AwaitMethods call config) => start_resume call config ms (drop_task id h)
      | _ => h
      end
  | VerifySettled id ok =>
      match task_of id (tasks h) with
      | Some (AwaitVerify call m c) => verify_resume id call m c ok (answered id m c ok h)
      | _ => h
      end
  | CallSettled id ok =>
      match task_of id (tasks h) with
      | Some (AwaitCall _ _) => call_resume id ok h
      | _ => h
      end
  | FirstCallSettled id error =>
      match task_of id (tasks h) with
      | Some (AwaitFirstCall call config) => with_resume id call config error h
      | _ => h
      end
  end.

Inductive reachable : Hook -> Prop :=
| reach_mount : reachable mount
| reach_step h e : reachable h -> reachable (step e h).

End Handlers.

(** * Facts *)

(** ** No protected call without verification *)

(** Every call in the log follows its execution and the verification of that
    execution, whose method could be sent, and is the only one of it. *)
Inductive log_ok : list Entry -> Prop :=
| log_nil : log_ok []
| log_other e l : (forall id call, e <> Called id call) -> log_ok l -> log_ok (e :: l)
| log_called id call m c l :
    Verified id ∈ l -> Executed id call m c ∈ l -> verify_sends m c = true ->
    (forall call', Called id call' ∉ l) -> log_ok l -> log_ok (Called id call :: l).

Record inv (h : Hook) : Prop := {
  inv_ids : forall i t, (i, t) ∈ tasks h -> i < fresh h;
  inv_verify : forall i call m c, (i, AwaitVerify call m c) ∈ tasks h ->
    Executed i call m c ∈ log h /\ forall call', Called i call' ∉ log h;
  inv_called : forall i call, Called i call ∈ log h -> i < fresh h;
  inv_log : log_ok (log h)
}.

Lemma task_of_elem id ts t : task_of id ts = Some t -> (id, t) ∈ ts.
Proof.
  induction ts as [|[i u] ts IH]; [done|]. cbn [task_of]. destruct (N.eqb_spec i id) as [->|Hn].
  - intros [= ->]. by left.
  - intros H. right. by apply IH.
Qed.

Lemma inv_mount : inv mount.
Proof.
  split; cbn [mount tasks fresh log]; [| | |constructor]; intros *; intros H; by apply elem_of_nil in H.
Qed.

(** Steps that keep the tasks and add nothing but other entries. *)
Lemma sv_inv_same h h' :
  inv h -> tasks h' = tasks h -> fresh h' = fresh h -> log h' = log h -> inv h'.
Proof. intros [] E1 E2 E3. split; rewrite ?E1, ?E2, ?E3; eauto. Qed.

Lemma inv_record e h : (forall id call, e <> Called id call) -> inv h -> inv (record_ e h).
Proof.
  intros He [I1 I2 I3 I4]. split; cbn [record_ tasks fresh log]; [done| | |by constructor].
  - intros i call m c Hin. destruct (I2 i call m c Hin) as [H1 H2]. split; [by right|].
    intros call' [E|H]%elem_of_cons; [by destruct (He i call')|by apply (H2 call')].
  - intros i call [E|H]%elem_of_cons; [by destruct (He i call)|by apply (I3 i call)].
Qed.

Lemma sv_inv_drop id h : inv h -> inv (drop_task id h).
Proof.
  intros [I1 I2 I3 I4]. split; cbn [drop_task tasks fresh log]; [| |done|done].
  - intros i t [H _]%elem_of_lfilter. by apply (I1 i t).
  - intros i call m c [H _]%elem_of_lfilter. by apply (I2 i call m c).
Qed.

Lemma next_task_elem id t h i u : (i, u) ∈ tasks (next_task id t h) -> (i = id /\ u = t) \/ (i <> id /\ (i, u) ∈ tasks h).
Proof.
  cbn [next_task tasks]. rewrite list_elem_of_In. intros ([j v] & E & Hin)%in_map_iff. cbn [fst] in E.
  destruct (N.eqb_spec j id) as [->|Hn]; simplify_eq; [by left|]. right. split; [done|by apply list_elem_of_In].
Qed.

(** A task that does not await a verification. *)
Definition not_verify (t : Task) : Prop := match t with AwaitVerify _ _ _ => False | _ => True end.

Lemma inv_next id t u h : not_verify t -> task_of id (tasks h) = Some u -> inv h -> inv (next_task id t h).
Proof.
  intros Ht Hid%task_of_elem [I1 I2 I3 I4]. split; [| |done|done].
  - intros i v [[-> ->]|[_ H]]%next_task_elem; [by apply (I1 _ u)|by apply (I1 i v)].
  - intros i call m c [[-> <-]|[_ H]]%next_task_elem; [done|by apply (I2 i call m c)].
Qed.

Lemma inv_spawn t h : not_verify t -> inv h -> inv (spawn t h).
Proof.
  intros Ht [I1 I2 I3 I4]. split; cbn [spawn tasks fresh log]; [| | |done].
  - intros i u [[= -> ->]|H]%elem_of_cons; [lia|]. specialize (I1 i u H). lia.
  - intros i call m c [[= _ <-]|H]%elem_of_cons; [done|by apply (I2 i call m c)].
  - intros i call H. specialize (I3 i call H). lia.
Qed.

Lemma inv_execute m c h : inv h -> inv (executeVerification m c h).
Proof.
  intros Hi. unfold executeVerification. destruct (apiCall (state h)) as [call|]; [|by apply inv_record].
  destruct (match m with Some x => Some x | None => method (state h) end) as [am|]; [|by apply inv_record].
  destruct Hi as [I1 I2 I3 I4]. split; cbn [spawn record_ with_state tasks fresh log].
  - intros i u [[= -> ->]|H]%elem_of_cons; [lia|]. specialize (I1 i u H). lia.
  - intros i call' m' c' [[= -> -> -> ->]|H]%elem_of_cons.
    + split; [by left|]. intros call'' [?|H]%elem_of_cons; [done|]. specialize (I3 _ _ H). lia.
    + destruct (I2 i call' m' c' H) as [H1 H2]. split; [by right|].
      intros call'' [?|H3]%elem_of_cons; [done|by apply (H2 call'')].
  - intros i call' [?|H]%elem_of_cons; [done|]. specialize (I3 i call' H). lia.
  - by apply log_other.
Qed.

Lemma inv_verified id call m c h :
  task_of id (tasks h) = Some (AwaitVerify call m c) -> verify_sends m c = true -> inv h ->
  inv (record_ (Called id call) (record_ (Verified id) (next_task id (AwaitCall call m) h))).
Proof.
  intros Ht Hs [I1 I2 I3 I4]. apply task_of_elem in Ht as Hin. destruct (I2 id call m c Hin) as [Hex Hno].
  split; cbn [record_ log fresh].
  - intros i u [[-> ->]|[_ H]]%next_task_elem; [by apply (I1 _ _ Hin)|by apply (I1 i u)].
  - intros i call' m' c' [[-> ?]|[Hne H]]%next_task_elem; [done|]. destruct (I2 i call' m' c' H) as [H1 H2].
    split; [by do 2 right|]. intros call'' [[= -> _]|[?|H3]%elem_of_cons]%elem_of_cons; [done|done|by apply (H2 call'')].
  - intros i call' [[= -> _]|[?|H]%elem_of_cons]%elem_of_cons; [by apply (I1 _ _ Hin)|done|by apply (I3 i call')].
  - apply (log_called id call m c); [by left|by right|done| |by apply log_other].
    intros call' [?|H]%elem_of_cons; [done|by apply (Hno call')].
Qed.

Lemma sv_inv_step options e h : inv h -> inv (step options e h).
Proof.
  intros Hi. destruct e as [call config|call config|m c|c|m|b| |ms|id ms|id ok|id ok|id error]; cbn [step].
  - by apply inv_spawn.
  - by apply inv_spawn.
  - by apply inv_execute.
  - by apply (sv_inv_same h).
  - by apply (sv_inv_same h).
  - by apply (sv_inv_same h).
  - by apply (sv_inv_same h).
  - by apply (sv_inv_same h).
  - destruct (task_of id (tasks h)) as [[call config| | |]|]; try done. unfold start_resume.
    pose proof (sv_inv_drop id h Hi) as Hd. case_test; [apply inv_record; [done|]|]; by apply (sv_inv_same (drop_task id h)).
  - destruct (task_of id (tasks h)) as [[|call m c| |]|] eqn:E; try done. unfold verify_resume, answered.
    destruct (ok && verify_sends m c) eqn:Ev.
    + apply andb_true_iff in Ev as [_ Ev]. by apply (inv_verified id call m c).
    + apply (sv_inv_same (record_ (Failed id) (drop_task id h))); [|done..]. by apply inv_record, sv_inv_drop.
  - destruct (task_of id (tasks h)) as [[| |call m|]|]; try done. unfold call_resume.
    pose proof (sv_inv_drop id h Hi) as Hd. destruct ok.
    + apply (sv_inv_same (record_ (Succeeded id) (drop_task id h))); [by apply inv_record|by destruct (default true _)..].
    + apply (sv_inv_same (record_ (Failed id) (drop_task id h))); [by apply inv_record|done..].
  - destruct (task_of id (tasks h)) as [[| | |call config]|] eqn:E; try done. unfold with_resume.
    destruct error as [er|]; [|by apply sv_inv_drop].
    destruct (isVerificationRequiredError er); [by eapply inv_next|by apply sv_inv_drop].
Qed.

Lemma sv_reachable_inv options h : reachable options h -> inv h.
Proof. induction 1; [apply inv_mount|by apply sv_inv_step]. Qed.

Lemma log_ok_split l1 id call l2 : log_ok (l1 ++ Called id call :: l2) ->
  Verified id ∈ l2 /\ (exists m c, Executed id call m c ∈ l2 /\ verify_sends m c = true) /\
  forall call', Called id call' ∉ l1 ++ l2.
Proof.
  induction l1 as [|e l1 IH]; cbn [app].
  - inversion 1 as [|e l He Hl|id' call' m c l H1 H2 H3 H4 H5]; subst; [by destruct (He id call)|]. by eauto 10.
  - inversion 1 as [|e' l He Hl|id' call' m c l H1 H2 H3 H4 H5]; subst.
    + destruct (IH Hl) as (H1 & H2 & H3). split_and!; [done|done|]. intros call' [E|Hin]%elem_of_cons; [|by apply (H3 call')].
      by apply (He id call').
    + destruct (IH H5) as (G1 & G2 & G3). split_and!; [done|done|].
      intros call'' [[= <- <-]|Hin]%elem_of_cons; [|by apply (G3 call'')].
      apply (H4 call). apply elem_of_app. right. by left.
Qed.

(** C22: however clicks, cancellations and answers interleave, the dialog makes
    a protected call only in an execution whose verification has succeeded with
    a method that was really checked (a blank code never is), it makes the call
    that execution was started for, and at most once. *)
Theorem call_needs_verification options h l1 id call l2 :
  reachable options h -> log h = l1 ++ Called id call :: l2 ->
  Verified id ∈ l2 /\ (exists m c, Executed id call m c ∈ l2 /\ verify_sends m c = true) /\
  forall call', Called id call' ∉ l1 ++ l2.
Proof.
  intros Hr El. apply log_ok_split. rewrite <- El. apply inv_log, (sv_reachable_inv options), Hr.
Qed.

(** A whole run: the call is refused first, the user enters a code. *)
Definition sample_run : list Event :=
  [With 7 (MkStart None None None); FirstCallSettled 0 (Some (MkFailure (Some 403) (Some (lit "VERIFICATION_REQUIRED"))));
   MethodsSettled 0 (MkMethods true false false); SetCode (lit "123456"); Execute None None; VerifySettled 1 true].

Definition run (options : UseSecureVerificationOptions) (es : list Event) (h : Hook) : Hook :=
  fold_left (fun h e => step options e h) es h.

Lemma sv_run_reachable options es h : reachable options h -> reachable options (run options es h).
Proof. revert h. induction es as [|e es IH]; intros h Hr; [done|]. apply IH. by constructor. Qed.

Lemma call_needs_verification_witness : Verified 1 ∈ [Verified 1; Executed 1 7 TwoFA (lit "123456")].
Proof.
  apply (call_needs_verification (MkUse None) (run (MkUse None) sample_run mount) [] 1 7 _).
  - apply sv_run_reachable. constructor.
  - vm_compute. reflexivity.
Defined.

(** ** Which method the dialog offers *)

(** Starting a verification: without any method the dialog stays as it is
    and the caller is told; otherwise it opens for the given call, and unless the
    caller prefers a method the one it offers is usable and is the recommended
    one; it offers none exactly when the account has only a passkey that the
    browser does not support. *)
Theorem start_offers_usable call config ms h :
  let h' := start_resume call config ms h in
  (has2FA ms = false -> hasPasskey ms = false ->
     state h' = state h /\ open h' = open h /\ log h' = Refused :: log h) /\
  (has2FA ms || hasPasskey ms = true ->
     open h' = true /\ apiCall (state h') = Some call /\
     (preferredMethod config = None ->
        method (state h') = recommendedMethod ms /\
        (forall m, method (state h') = Some m -> canUseMethod m ms = true) /\
        (method (state h') = None <-> has2FA ms = false /\ hasPasskey ms = true /\ passkeySupported ms = false))).
Proof.
  unfold start_resume, default_method, recommendedMethod. destruct ms as [a b c].
  cbn [has2FA hasPasskey passkeySupported]. split; [by intros -> ->|]. intros Hab.
  assert (E : negb a && negb b = false) by (by destruct a, b). rewrite E. cbn. split_and!; [done|done|].
  intros ->. destruct a, b, c; cbn in *; try discriminate;
    (split; [reflexivity|]; split; [intros m H; try injection H as <-; (reflexivity || discriminate)|]);
    (split; [intros H; repeat split; (reflexivity || discriminate)|intros (? & ? & ?); (reflexivity || discriminate)]).
Qed.

Lemma start_offers_usable_witness :
  method (state (start_resume 7 (MkStart None None None) (MkMethods true true true) mount)) = Some Passkey.
Proof.
  refine (proj1 (proj2 (proj2 (proj2 (start_offers_usable 7 (MkStart None None None) (MkMethods true true true) mount) _)) _)).
  - reflexivity.
  - reflexivity.
Defined.

(** ** Executions that outlive their dialog *)

(** The user cancels while the code is being checked; the protected call is
    made all the same. *)
Example cancelled_call_still_made :
  head (log (run (MkUse None)
    [Start 7 (MkStart None None None); MethodsSettled 0 (MkMethods true false false); SetCode (lit "123456");
     Execute None None; Cancel; VerifySettled 1 true] mount)) = Some (Called 1 7).
Proof. vm_compute. reflexivity. Qed.

(** The end of the cancelled execution also closes the dialog of the next one
    and forgets its call. *)
Example late_success_closes_next :
  let before_ := run (MkUse None)
    [Start 7 (MkStart None None None); MethodsSettled 0 (MkMethods true false false); SetCode (lit "123456");
     Execute None None; Cancel; VerifySettled 1 true;
     Start 8 (MkStart None None None); MethodsSettled 2 (MkMethods true false false)] mount in
  open before_ = true /\ apiCall (state before_) = Some 8 /\
  open (step (MkUse None) (CallSettled 1 true) before_) = false /\
  apiCall (state (step (MkUse None) (CallSettled 1 true) before_)) = None.
Proof. vm_compute. done. Qed.
