(* ===== verification/EntityForms.v ===== *)
(** * Forms of keys, codes, users, plans and models

    [api-key-form.ts], [redemption-form.ts], [user-form.ts], [plan-form.ts] and
    [model-form.ts]: the schema of each form, its defaults, and the
    transformations between the stored entity, the form and the request.  A
    [Date] is its time value in milliseconds.  The wording of the schema's
    messages is not modelled. *)

From S2P Require Import Prelude.
From S2P Require Import JsString.
From S2P Require Import JsNumber.
From S2P Require Import JsDecimal.
From S2P Require Import JsRegex.
From S2P Require Import JsValue.
From S2P Require Import Currency.

Local Open Scope N_scope.

(** [s || ''] and [!!b] on optional members. *)
Definition text_or_empty (o : option jstr) : jstr := default [] o.

(** [s || d]. *)
Definition text_or (o : option jstr) (d : jstr) : jstr :=
  if truthy_str (text_or_empty o) then text_or_empty o else d.

Definition DEFAULT_GROUP : jstr := lit "default".

(** ** Dates *)

(** [new Date(x).getTime()]: the time value, [NaN] beyond 8.64e15. *)
Definition num_trunc (x : num) : num :=
  if num_ltb x num_zero then num_neg (num_floor (num_neg x)) else num_floor x.

Definition new_date (x : num) : num :=
  if is_finite x && num_leb (num_abs x) (num_of_dec false 864 13) then num_trunc x else NaN.

(** [Math.floor(date.getTime() / 1000)]. *)
Definition date_seconds (t : num) : num := num_floor (num_div t (num_of_Z 1000)).

(** The date of a time stamp in seconds, when it is positive. *)
Definition date_of_seconds (t : num) : option num :=
  if num_gtb t num_zero then Some (new_date (num_mul t (num_of_Z 1000))) else None.

(** [z.number()] accepts the finite numbers, [z.date()] the valid dates. *)
Definition z_number : num -> bool := is_finite.
Definition z_date (t : num) : bool := negb (is_nan t).

(** [.optional()]. *)
Definition z_optional {A} (p : A -> bool) (o : option A) : bool :=
  match o with Some x => p x | None => true end.

(** [z.number().min(m)]. *)
Definition at_least (m : Z) (x : num) : bool := z_number x && num_geb x (num_of_Z m).

(** ** API keys *)

Module Keys.

Record ApiKeyFormValues := MkForm {
  name : jstr;
  remain_quota_dollars : option num;
  expired_time : option num;
  unlimited_quota : bool;
  model_limits : list jstr;
  allow_ips : option jstr;
  group : option jstr;
  cross_group_retry : option bool;
  tokenCount : option num
}.

Record ApiKey := MkKey {
  key_name : jstr;
  key_remain_quota : num;
  key_unlimited_quota : bool;
  key_expired_time : num;
  key_group : option jstr;
  key_cross_group_retry : bool;
  key_model_limits_enabled : bool;
  key_model_limits : option jstr;
  key_allow_ips : option jstr
}.

Record ApiKeyFormData := MkData {
  data_name : jstr;
  data_remain_quota : num;
  data_expired_time : num;
  data_unlimited_quota : bool;
  data_model_limits_enabled : bool;
  data_model_limits : jstr;
  data_allow_ips : jstr;
  data_group : jstr;
  data_cross_group_retry : bool
}.

(** The schema and its refinement. *)
Definition getApiKeyFormSchema (v : ApiKeyFormValues) : bool :=
  truthy_str (name v) && z_optional z_number (remain_quota_dollars v) && z_optional z_date (expired_time v) &&
  z_optional (at_least 1) (tokenCount v) &&
  (unlimited_quota v ||
   match remain_quota_dollars v with Some q => negb (num_ltb q num_zero) | None => false end).

Definition API_KEY_FORM_DEFAULT_VALUES : ApiKeyFormValues :=
  MkForm [] (Some (num_of_Z 10)) None true [] (Some []) (Some DEFAULT_GROUP) (Some true) (Some (num_of_Z 1)).

Definition with_group (v : ApiKeyFormValues) (g : jstr) (retry : bool) (count : option num) : ApiKeyFormValues :=
  MkForm (name v) (remain_quota_dollars v) (expired_time v) (unlimited_quota v) (model_limits v) (allow_ips v)
    (Some g) (Some retry) count.

Definition getApiKeyFormDefaultValues (defaultUseAutoGroup : bool) : ApiKeyFormValues :=
  with_group API_KEY_FORM_DEFAULT_VALUES (if defaultUseAutoGroup then lit "auto" else DEFAULT_GROUP)
    defaultUseAutoGroup (tokenCount API_KEY_FORM_DEFAULT_VALUES).

Definition getApiKeyCreateFormDefaultValues : ApiKeyFormValues :=
  with_group API_KEY_FORM_DEFAULT_VALUES DEFAULT_GROUP false (Some (num_of_Z 1)).

Definition normalizeApiKeyCreateFormValues (data : ApiKeyFormValues) : ApiKeyFormValues :=
  with_group data DEFAULT_GROUP false (Some (num_of_Z 1)).

Definition transformFormDataToPayload (stored : option CurrencyConfig) (data : ApiKeyFormValues) : ApiKeyFormData :=
  MkData (name data)
    (if unlimited_quota data then num_zero
     else parseQuotaFromDollars stored (num_or (default num_zero (remain_quota_dollars data)) num_zero))
    (match expired_time data with Some t => date_seconds t | None => num_of_Z (-1) end)
    (unlimited_quota data)
    (0 <? length (model_limits data))%nat
    (join (lit ",") (model_limits data))
    (text_or_empty (allow_ips data))
    (text_or_empty (group data))
    (if bool_decide (group data = Some (lit "auto")) then default false (cross_group_retry data) else false).

Definition transformApiKeyToFormDefaults (stored : option CurrencyConfig) (apiKey : ApiKey) : ApiKeyFormValues :=
  MkForm (key_name apiKey)
    (Some (if key_unlimited_quota apiKey then num_zero else quotaUnitsToDollars stored (key_remain_quota apiKey)))
    (date_of_seconds (key_expired_time apiKey))
    (key_unlimited_quota apiKey)
    (let limits := text_or_empty (key_model_limits apiKey) in
     if truthy_str limits then List.filter truthy_str (split_on 44 limits) else [])
    (Some (text_or_empty (key_allow_ips apiKey)))
    (Some (text_or (key_group apiKey) DEFAULT_GROUP))
    (Some (key_cross_group_retry apiKey))
    (Some (num_of_Z 1)).

End Keys.

(** ** Redemption codes *)

Module Redemptions.

Record RedemptionFormValues := MkForm {
  name : jstr;
  quota_dollars : num;
  expired_time : option num;
  count : option num
}.

Record Redemption := MkCode { code_name : jstr; code_quota : num; code_expired_time : num }.

Record RedemptionFormData := MkData {
  data_name : jstr;
  data_quota : num;
  data_expired_time : num;
  data_count : num
}.

(** A text of at most [n] and at least [m] units. *)
Definition length_between (m n : nat) (s : jstr) : bool := (m <=? length s)%nat && (length s <=? n)%nat.

Definition getRedemptionFormSchema (v : RedemptionFormValues) : bool :=
  length_between 1 20 (name v) && at_least 0 (quota_dollars v) && z_optional z_date (expired_time v) &&
  z_optional (fun c => at_least 1 c && num_leb c (num_of_Z 100)) (count v).

Definition REDEMPTION_FORM_DEFAULT_VALUES : RedemptionFormValues :=
  MkForm [] (num_of_Z 10) None (Some (num_of_Z 1)).

Definition transformFormDataToPayload (stored : option CurrencyConfig) (data : RedemptionFormValues) : RedemptionFormData :=
  MkData (name data) (parseQuotaFromDollars stored (quota_dollars data))
    (match expired_time data with Some t => date_seconds t | None => num_zero end)
    (num_or (default num_zero (count data)) (num_of_Z 1)).

Definition transformRedemptionToFormDefaults (stored : option CurrencyConfig) (r : Redemption) : RedemptionFormValues :=
  MkForm (code_name r) (quotaUnitsToDollars stored (code_quota r)) (date_of_seconds (code_expired_time r))
    (Some (num_of_Z 1)).

End Redemptions.

(** ** Users *)

Module Users.

Record UserFormValues := MkForm {
  username : jstr;
  display_name : option jstr;
  password : option jstr;
  role : option num;
  quota_dollars : option num;
  group : option jstr;
  remark : option jstr
}.

Record User := MkUser {
  user_username : jstr;
  user_display_name : jstr;
  user_role : num;
  user_quota : num;
  user_group : jstr;
  user_remark : option jstr
}.

(** The request; a member that is [undefined] is [None] and is not sent. *)
Record UserFormData := MkData {
  data_username : jstr;
  data_display_name : jstr;
  data_password : option jstr;
  data_role : option num;
  data_group : option jstr;
  data_remark : option jstr;
  data_id : option num
}.

Definition is_letter (c : N) : bool := ((65 <=? c) && (c <=? 90)) || ((97 <=? c) && (c <=? 122)).

(** [/[A-Za-z]/.test(p) && /\d/.test(p)]. *)
Definition hasLetterAndNumber (p : jstr) : bool :=
  re_test (RClass is_letter) p && re_test digit_class p.

Definition userFormSchema (v : UserFormValues) : bool :=
  truthy_str (username v) &&
  z_optional (fun p => (p =?= []) || (Redemptions.length_between 8 20 p && hasLetterAndNumber p)) (password v) &&
  z_optional z_number (role v) && z_optional (at_least 0) (quota_dollars v).

Definition USER_FORM_DEFAULT_VALUES : UserFormValues :=
  MkForm [] (Some []) (Some []) (Some (num_of_Z 1)) (Some num_zero) (Some DEFAULT_GROUP) (Some []).

(** [s || undefined]. *)
Definition text_or_undefined (o : option jstr) : option jstr :=
  if truthy_str (text_or_empty o) then o else None.

Definition transformFormDataToPayload (data : UserFormValues) (userId : option num) : UserFormData :=
  let displayName := text_or (display_name data) (take 20 (username data)) in
  match userId with
  | None =>
      MkData (username data) displayName (text_or_undefined (password data))
        (Some (num_or (default num_zero (role data)) (num_of_Z 1))) None None None
  | Some i =>
      MkData (username data) displayName (text_or_undefined (password data)) None (group data)
        (text_or_undefined (remark data)) (Some i)
  end.

Definition transformUserToFormDefaults (stored : option CurrencyConfig) (user : User) : UserFormValues :=
  MkForm (user_username user) (Some (user_display_name user)) (Some []) (Some (user_role user))
    (Some (quotaUnitsToDollars stored (user_quota user))) (Some (text_or (Some (user_group user)) DEFAULT_GROUP))
    (Some (text_or_empty (user_remark user))).

End Users.

(** ** Subscription plans *)

Module Plans.

Inductive DurationUnit := UYear | UMonth | UDay | UHour | UCustom.
Inductive ResetPeriod := PNever | PDaily | PWeekly | PMonthly | PCustom.

#[global] Instance ResetPeriod_eq : EqDecision ResetPeriod.
Proof. solve_decision. Defined.

Record PlanFormValues := MkForm {
  title : jstr;
  subtitle : option jstr;
  price_amount : num;
  duration_unit : DurationUnit;
  duration_value : num;
  custom_seconds : option num;
  quota_reset_period : ResetPeriod;
  quota_reset_custom_seconds : option num;
  enabled : bool;
  sort_order : num;
  max_purchase_per_user : num;
  total_amount : num;
  upgrade_group : option jstr;
  stripe_price_id : option jstr;
  creem_product_id : option jstr
}.

(** The plan of the server and of the request, with its currency. *)
Record SubscriptionPlan := MkPlan { values_of : PlanFormValues; currency : jstr }.

(** [z.coerce.number()] of a number is [z.number()]. *)
Definition getPlanFormSchema (v : PlanFormValues) : bool :=
  truthy_str (title v) && at_least 0 (price_amount v) && at_least 1 (duration_value v) &&
  z_optional (at_least 0) (custom_seconds v) && z_optional (at_least 0) (quota_reset_custom_seconds v) &&
  z_number (sort_order v) && at_least 0 (max_purchase_per_user v) && at_least 0 (total_amount v).

Definition PLAN_FORM_DEFAULTS : PlanFormValues :=
  MkForm [] (Some []) num_zero UMonth (num_of_Z 1) (Some num_zero) PNever (Some num_zero) true num_zero num_zero
    num_zero (Some []) (Some []) (Some []).

(** [Number(x || d)] of a member that may be absent. *)
Definition number_or (x : option num) (d : Z) : num := num_or (default num_zero x) (num_of_Z d).

Definition planToFormValues (plan : SubscriptionPlan) : PlanFormValues :=
  let p := values_of plan in
  MkForm (title p) (Some (text_or_empty (subtitle p))) (number_or (Some (price_amount p)) 0) (duration_unit p)
    (number_or (Some (duration_value p)) 1) (Some (number_or (custom_seconds p) 0)) (quota_reset_period p)
    (Some (number_or (quota_reset_custom_seconds p) 0)) (enabled p) (number_or (Some (sort_order p)) 0)
    (number_or (Some (max_purchase_per_user p)) 0) (number_or (Some (total_amount p)) 0)
    (Some (text_or_empty (upgrade_group p))) (Some (text_or_empty (stripe_price_id p)))
    (Some (text_or_empty (creem_product_id p))).

Definition formValuesToPlanPayload (v : PlanFormValues) : SubscriptionPlan :=
  MkPlan
    (MkForm (title v) (subtitle v) (number_or (Some (price_amount v)) 0) (duration_unit v)
       (number_or (Some (duration_value v)) 0) (Some (number_or (custom_seconds v) 0)) (quota_reset_period v)
       (Some (if bool_decide (quota_reset_period v = PCustom) then number_or (quota_reset_custom_seconds v) 0 else num_zero))
       (enabled v) (number_or (Some (sort_order v)) 0) (number_or (Some (max_purchase_per_user v)) 0)
       (number_or (Some (total_amount v)) 0) (Some (text_or_empty (upgrade_group v))) (stripe_price_id v)
       (creem_product_id v))
    (lit "USD").

End Plans.

(** ** Models *)

Module Models.

Record ModelFormValues := MkForm {
  form_id : option num;
  model_name : jstr;
  description : jstr;
  icon : jstr;
  tags : list jstr;
  vendor_id : option num;
  endpoints : jstr;
  name_rule : num;
  status : bool;
  sync_official : bool;
  enable_groups : list jstr;
  quota_types : list num
}.

Record Model := MkModel {
  model_id : option num;
  m_model_name : jstr;
  m_description : option jstr;
  m_icon : option jstr;
  m_tags : option jstr;
  m_vendor_id : option num;
  m_endpoints : option jstr;
  m_name_rule : num;
  m_status : num;
  m_sync_official : num;
  m_enable_groups : option (list jstr);
  m_quota_types : option (list num)
}.

Definition modelFormSchema (v : ModelFormValues) : bool :=
  z_optional z_number (form_id v) && truthy_str (model_name v) && z_optional z_number (vendor_id v) &&
  at_least 0 (name_rule v) && num_leb (name_rule v) (num_of_Z 3) && forallb z_number (quota_types v).

Definition parseModelTags (tags : option jstr) : list jstr :=
  let s := text_or_empty tags in
  if negb (truthy_str s) then [] else List.filter truthy_str (List.map trim (split_on 44 s)).

Definition formatTagsArray (tags : list jstr) : jstr := join (lit ",") (List.filter truthy_str tags).

Definition transformModelToFormDefaults (m : Model) : ModelFormValues :=
  MkForm (model_id m) (m_model_name m) (text_or_empty (m_description m)) (text_or_empty (m_icon m))
    (parseModelTags (m_tags m)) (m_vendor_id m) (text_or_empty (m_endpoints m))
    (num_or (m_name_rule m) num_zero) (num_eqb (m_status m) (num_of_Z 1)) (num_eqb (m_sync_official m) (num_of_Z 1))
    (default [] (m_enable_groups m)) (default [] (m_quota_types m)).

(** [b ? 1 : 0]. *)
Definition flag (b : bool) : num := if b then num_of_Z 1 else num_of_Z 0.

Definition transformFormDataToModelPayload (v : ModelFormValues) : Model :=
  MkModel (form_id v) (model_name v) (Some (description v)) (Some (icon v)) (Some (formatTagsArray (tags v)))
    (vendor_id v) (Some (endpoints v)) (name_rule v) (flag (status v)) (flag (sync_official v))
    (Some (enable_groups v)) (Some (quota_types v)).

Definition validateJSON (value : jstr) : bool :=
  if negb (truthy_str value) || (trim value =?= []) then true
  else match json_parse value with Some _ => true | None => false end.

Definition validateEndpoints (endpoints : jstr) : bool := validateJSON endpoints.

(** [model-utils.ts]: endpoints as JSON, and what is listed of them. *)
Definition parseEndpoints (endpoints : option jstr) : option jsval :=
  let s := text_or_empty endpoints in
  if negb (truthy_str s) || (trim s =?= []) then None else json_parse s.

Definition formatEndpointsDisplay (endpoints : option jstr) : list jstr :=
  match parseEndpoints endpoints with
  | Some (VObj o) => obj_keys o
  | Some (VArr l) => List.map string_of_val l
  | _ => []
  end.

Definition formatTagsString (tags : list jstr) : jstr := join (lit ",") tags.
Definition validateModelName (name : jstr) : bool := (0 <? length (trim name))%nat.
Definition isModelEnabled (m : Model) : bool := num_eqb (m_status m) (num_of_Z 1).
Definition isModelSyncOfficial (m : Model) : bool := num_eqb (m_sync_official m) (num_of_Z 1).

End Models.

(** ** What an unchanged form sends *)

Lemma num_floor_Z z : small z -> num_floor (num_of_Z z) = num_of_Z z.
Proof.
  intros Hz. rewrite num_of_Z_exact by done. unfold num_floor.
  pose proof one_units_pos. by rewrite N.Div0.mod_mul.
Qed.

(** The time stamps, in seconds, that are dates. *)
Definition dated (t : Z) : Prop := (0 < t <= 8640000000000)%Z.

Lemma date_of_seconds_Z t : dated t -> date_of_seconds (num_of_Z t) = Some (num_of_Z (t * 1000)).
Proof.
  intros Ht. assert (S1 : small t) by (unfold dated, small in *; lia).
  assert (S2 : small (t * 1000)) by (unfold dated, small in *; lia).
  assert (S0 : small 0) by done. assert (Sk : small 1000) by done. assert (Sm : small 8640000000000000) by done.
  assert (Ha : num_abs (num_of_Z (t * 1000)) = num_of_Z (t * 1000)).
  { rewrite num_of_Z_exact by done. unfold dated in Ht. by rewrite (proj2 (Z.ltb_ge _ _)) by lia. }
  assert (Hmax : num_of_dec false 864 13 = num_of_Z 8640000000000000) by (vm_compute; reflexivity).
  unfold dated in Ht. assert (Hpos : forall x, (0 < x)%Z -> small x -> num_ltb num_zero (num_of_Z x) = true).
  { intros x Hx Sx. unfold num_ltb. change num_zero with (num_of_Z 0). rewrite (num_compare_Z 0 x) by assumption.
    by rewrite (proj2 (Z.compare_lt_iff 0 x)). }
  assert (Hneg : num_ltb (num_of_Z (t * 1000)) num_zero = false).
  { unfold num_ltb. change num_zero with (num_of_Z 0). rewrite (num_compare_Z (t * 1000) 0) by assumption.
    by rewrite (proj2 (Z.compare_gt_iff (t * 1000) 0)) by lia. }
  assert (Hle : num_leb (num_of_Z (t * 1000)) (num_of_Z 8640000000000000) = true).
  { unfold num_leb. rewrite num_compare_Z by assumption. by destruct (Z.compare_spec (t * 1000) 8640000000000000); [| |lia]. }
  unfold date_of_seconds, new_date, num_trunc, num_gtb.
  rewrite (Hpos t) by (assumption || lia). rewrite (num_mul_Z t 1000) by (assumption || lia).
  rewrite num_of_Z_finite, Ha, Hmax, Hle, Hneg by assumption. cbn [andb]. by rewrite num_floor_Z.
Qed.

Lemma date_seconds_Z t : dated t -> date_seconds (num_of_Z (t * 1000)) = num_of_Z t.
Proof.
  intros Ht. unfold date_seconds, dated in *.
  rewrite num_div_Z by (done || (unfold small; lia)). apply num_floor_Z. unfold small. lia.
Qed.

Section stored_config.
Context (stored : option CurrencyConfig).
Hypothesis Hunit : moderate (quotaPerUnit (getConfig stored)) = true.
Hypothesis Hrate : moderate (display_rate stored) = true.

Lemma parse_zero s : parseQuotaFromDollars stored (Fin s 0) = Fin s 0.
Proof.
  pose proof Hunit as Hq. pose proof Hrate as Hr. unfold display_rate, getCurrencyDisplay in Hr. cbn [snd] in Hr.
  unfold parseQuotaFromDollars, getCurrencyDisplay. cbn [is_finite negb].
  apply moderate_within in Hq as (q & -> & Wq). apply moderate_within in Hr as (r & Er & Wr).
  assert (Hr0 : 0 < r) by (destruct Wr as [H _]; pose proof (pow2_pos 874); lia).
  assert (Hgt : num_gtb (Fin false r) num_zero = true).
  { unfold num_gtb, num_ltb, num_compare, num_zero, units. rewrite (proj2 (Z.compare_lt_iff _ _)); [done|lia]. }
  destruct (getDisplayMeta (getConfig stored)) as [? ? rate|? rate|]; [| |done].
  all: unfold rate_of in *; rewrite Er, Hgt; cbn [num_div num_mul]; rewrite (proj2 (N.eqb_neq r 0)) by lia;
    rewrite xorb_false_r, N.mul_0_l, mk_num_zero; cbn [num_mul]; by rewrite xorb_false_r, N.mul_0_l, mk_num_zero.
Qed.

(** The form's [remain_quota_dollars || 0] loses nothing. *)
Lemma dollars_or_zero_back z : (Z.abs z < 2 ^ 49)%Z ->
  parseQuotaFromDollars stored (num_or (quotaUnitsToDollars stored (num_of_Z z)) num_zero) = num_of_Z z.
Proof.
  intros Hz. pose proof (quota_back stored z Hunit Hrate Hz) as H. unfold num_or.
  destruct (truthy_num _) eqn:Et; [done|].
  change num_zero with (Fin false 0). rewrite parse_zero.
  destruct (quotaUnitsToDollars stored (num_of_Z z)) as [| |s [|m]]; [|done| |done].
  - rewrite <- H. reflexivity.
  - rewrite parse_zero, num_of_Z_exact in H by lia. injection H as Hs Hm.
    pose proof one_units_pos. assert (z = 0%Z) as -> by lia. by rewrite num_of_Z_exact.
Qed.

Lemma date_back sentinel t :
  (num_of_Z t = sentinel /\ (t <= 0)%Z /\ small t) \/ dated t ->
  match date_of_seconds (num_of_Z t) with Some d => date_seconds d | None => sentinel end = num_of_Z t.
Proof.
  intros [(<- & Hle & Hs)|Hd].
  - unfold date_of_seconds, num_gtb, num_ltb. change num_zero with (num_of_Z 0).
    rewrite num_compare_Z by done. destruct (Z.compare_spec 0 t); [done|lia|done].
  - rewrite date_of_seconds_Z by done. by apply date_seconds_Z.
Qed.

End stored_config.

(** The names a key may be limited to: not empty, without commas. *)
Definition limit_name (w : jstr) : Prop := w <> [] /\ 44 ∉ w.

Lemma limits_back names : Forall limit_name names ->
  let s := join (lit ",") names in
  (if truthy_str s then List.filter truthy_str (split_on 44 s) else []) = names.
Proof.
  intros H. cbn zeta. destruct names as [|w ws]; [done|].
  assert (Hf : List.filter truthy_str (w :: ws) = w :: ws).
  { induction H as [|x l [Hx _] Hl IH]; [done|]. cbn [List.filter]. destruct x; [done|]. cbn [truthy_str].
    by rewrite IH. }
  assert (Ht : truthy_str (join (lit ",") (w :: ws)) = true).
  { apply Forall_cons_1 in H as [[Hw _] _]. destruct w; [done|]. by destruct ws. }
  rewrite Ht. change (lit ",") with [44%N]. rewrite split_join; [done|done|].
  eapply Forall_impl; [exact H|]. by intros x [_ Hx].
Qed.

(** Saving the editor of an API key without touching it asks the server for
    the key it already holds: with the limits stored as a list of names, an
    expiry that never comes or is a date, and a quota below 2^49 units, every
    member of the request is the key's own, whatever currency the quota was
    shown in; only the flag of the model limits is computed anew, from the list. *)
Theorem unchanged_key_edit stored k z t names g :
  moderate (quotaPerUnit (getConfig stored)) = true -> moderate (display_rate stored) = true ->
  Keys.key_remain_quota k = num_of_Z z -> (Z.abs z < 2 ^ 49)%Z ->
  Keys.key_expired_time k = num_of_Z t -> t = (-1)%Z \/ dated t ->
  Keys.key_model_limits k = Some (join (lit ",") names) -> Forall limit_name names ->
  Keys.key_group k = Some g -> g <> [] ->
  Keys.transformFormDataToPayload stored (Keys.transformApiKeyToFormDefaults stored k) =
  Keys.MkData (Keys.key_name k)
    (if Keys.key_unlimited_quota k then num_zero else Keys.key_remain_quota k)
    (Keys.key_expired_time k) (Keys.key_unlimited_quota k)
    (0 <? length names)%nat (join (lit ",") names) (text_or_empty (Keys.key_allow_ips k)) g
    (bool_decide (g = lit "auto") && Keys.key_cross_group_retry k).
Proof.
  intros Hq Hr Ez Hz Et Ht El Hl Eg Hg.
  unfold Keys.transformFormDataToPayload, Keys.transformApiKeyToFormDefaults.
  cbn [Keys.name Keys.remain_quota_dollars Keys.expired_time Keys.unlimited_quota Keys.model_limits
       Keys.allow_ips Keys.group Keys.cross_group_retry].
  rewrite Ez, Et, El, Eg. pose proof (limits_back names Hl) as Hb. cbn zeta in Hb.
  change (text_or_empty (Some (join (lit ",") names))) with (join (lit ",") names). cbn zeta. rewrite Hb.
  rewrite (date_back (num_of_Z (-1)) t) by (destruct Ht as [->|?]; [left; split_and!; done|by right]).
  replace (text_or (Some g) DEFAULT_GROUP) with g by (by destruct g).
  f_equal.
  - destruct (Keys.key_unlimited_quota k); [done|]. cbn [from_option id default]. by apply dollars_or_zero_back.
  - destruct (decide (g = lit "auto")) as [->|Hn]; [done|].
    rewrite !bool_decide_eq_false_2 by (done || congruence). done.
Qed.

Definition sample_key : Keys.ApiKey :=
  Keys.MkKey (lit "ci") (num_of_Z 123457) false (num_of_Z 1767225600) (Some (lit "auto")) true true
    (Some (lit "gpt-4o,claude-3")) None.

Lemma unchanged_key_edit_witness :
  Keys.transformFormDataToPayload None (Keys.transformApiKeyToFormDefaults None sample_key) =
  Keys.MkData (lit "ci") (num_of_Z 123457) (num_of_Z 1767225600) false true (lit "gpt-4o,claude-3") []
    (lit "auto") true.
Proof.
  refine (unchanged_key_edit None sample_key 123457 1767225600 [lit "gpt-4o"; lit "claude-3"] (lit "auto")
            _ _ _ _ _ _ _ _ _ _).
  - vm_compute. reflexivity.
  - vm_compute. reflexivity.
  - reflexivity.
  - lia.
  - reflexivity.
  - right. unfold dated. lia.
  - vm_compute. reflexivity.
  - repeat constructor; (discriminate || (apply (bool_decide_eq_true_1 _); vm_compute; reflexivity)).
  - reflexivity.
  - discriminate.
Defined.

(** A key that keeps a list of models but has the limits switched off: the
    unchanged form switches them on. *)
Definition paused_limits : Keys.ApiKey :=
  Keys.MkKey (lit "ci") num_zero true (num_of_Z (-1)) (Some (lit "default")) false false (Some (lit "gpt-4o")) None.

Example edit_switches_limits_on :
  Keys.key_model_limits_enabled paused_limits = false /\
  Keys.data_model_limits_enabled
    (Keys.transformFormDataToPayload None (Keys.transformApiKeyToFormDefaults None paused_limits)) = true.
Proof. split; vm_compute; reflexivity. Qed.

(** The creation form of the console cannot ask for anything but one key of
    the default group without retries across groups, whatever state an older
    form left behind; the other members are the form's. *)
Theorem created_key_fixed stored v :
  let p := Keys.transformFormDataToPayload stored (Keys.normalizeApiKeyCreateFormValues v) in
  Keys.data_group p = DEFAULT_GROUP /\ Keys.data_cross_group_retry p = false /\
  Keys.tokenCount (Keys.normalizeApiKeyCreateFormValues v) = Some (num_of_Z 1) /\
  Keys.data_name p = Keys.name v /\ Keys.data_unlimited_quota p = Keys.unlimited_quota v /\
  Keys.data_model_limits p = join (lit ",") (Keys.model_limits v) /\
  Keys.data_remain_quota p = Keys.data_remain_quota (Keys.transformFormDataToPayload stored v).
Proof. cbn zeta. split_and!; try reflexivity. Qed.

(** The editor of a redemption code: an unchanged form sends the code's quota
    and expiry. *)
Lemma unchanged_code_edit stored r z t :
  moderate (quotaPerUnit (getConfig stored)) = true -> moderate (display_rate stored) = true ->
  Redemptions.code_quota r = num_of_Z z -> (Z.abs z < 2 ^ 49)%Z ->
  Redemptions.code_expired_time r = num_of_Z t -> t = 0%Z \/ dated t ->
  Redemptions.transformFormDataToPayload stored (Redemptions.transformRedemptionToFormDefaults stored r) =
  Redemptions.MkData (Redemptions.code_name r) (Redemptions.code_quota r) (Redemptions.code_expired_time r)
    (num_of_Z 1).
Proof.
  intros Hq Hr Ez Hz Et Ht.
  unfold Redemptions.transformFormDataToPayload, Redemptions.transformRedemptionToFormDefaults.
  cbn [Redemptions.name Redemptions.quota_dollars Redemptions.expired_time Redemptions.count].
  rewrite Ez, Et, quota_back by done.
  rewrite (date_back num_zero t) by (destruct Ht as [->|?]; [left; split_and!; done|by right]). done.
Qed.

(** ** Plans *)

Lemma num_or_twice x : num_or (num_or x num_zero) num_zero = num_or x num_zero.
Proof. unfold num_or. destruct (truthy_num x) eqn:E; [by rewrite E|done]. Qed.

(** [z.coerce] and the server leave the numbers of a plan finite; zero is the
    positive zero. *)
Definition plain (x : num) : Prop := num_or x num_zero = x.

(** The plan editor reads back what it sends: a form the schema accepts,
    sent to the server and opened again, shows the same values; only the
    seconds of a custom reset are cleared when the reset is not custom, and
    absent texts come back empty. *)
Theorem plan_roundtrip v :
  Plans.getPlanFormSchema v = true ->
  plain (Plans.price_amount v) -> plain (Plans.sort_order v) -> plain (Plans.max_purchase_per_user v) ->
  plain (Plans.total_amount v) ->
  Plans.planToFormValues (Plans.formValuesToPlanPayload v) =
  Plans.MkForm (Plans.title v) (Some (text_or_empty (Plans.subtitle v))) (Plans.price_amount v)
    (Plans.duration_unit v) (Plans.duration_value v)
    (Some (num_or (default num_zero (Plans.custom_seconds v)) num_zero)) (Plans.quota_reset_period v)
    (Some (if bool_decide (Plans.quota_reset_period v = Plans.PCustom)
           then num_or (default num_zero (Plans.quota_reset_custom_seconds v)) num_zero else num_zero))
    (Plans.enabled v) (Plans.sort_order v) (Plans.max_purchase_per_user v) (Plans.total_amount v)
    (Some (text_or_empty (Plans.upgrade_group v))) (Some (text_or_empty (Plans.stripe_price_id v)))
    (Some (text_or_empty (Plans.creem_product_id v))).
Proof.
  unfold Plans.getPlanFormSchema, plain. rewrite !andb_true_iff.
  intros [[[[[[[_ _] Hd] _] _] _] _] _] Hp Hs Hm Ht.
  assert (Hdt : truthy_num (Plans.duration_value v) = true).
  { unfold at_least in Hd. apply andb_true_iff in Hd as [_ Hd]. by destruct (Plans.duration_value v) as [|[]|[] []]. }
  unfold Plans.planToFormValues, Plans.formValuesToPlanPayload, Plans.number_or. cbn [Plans.values_of
    Plans.title Plans.subtitle Plans.price_amount Plans.duration_unit Plans.duration_value Plans.custom_seconds
    Plans.quota_reset_period Plans.quota_reset_custom_seconds Plans.enabled Plans.sort_order
    Plans.max_purchase_per_user Plans.total_amount Plans.upgrade_group Plans.stripe_price_id
    Plans.creem_product_id from_option id default].
  change (num_of_Z 0) with num_zero.
  rewrite !num_or_twice, Hp, Hs, Hm, Ht.
  replace (num_or (Plans.duration_value v) num_zero) with (Plans.duration_value v) by (unfold num_or; by rewrite Hdt).
  replace (num_or (Plans.duration_value v) (num_of_Z 1)) with (Plans.duration_value v) by (unfold num_or; by rewrite Hdt).
  f_equal. f_equal. destruct (bool_decide _); [by rewrite num_or_twice|done].
Qed.

Definition sample_plan : Plans.PlanFormValues :=
  Plans.MkForm (lit "Pro") None (num_of_Z 9) Plans.UMonth (num_of_Z 1) None Plans.PDaily (Some (num_of_Z 60)) true
    num_zero (num_of_Z 3) num_zero None (Some (lit "price_1")) None.

Lemma plan_roundtrip_witness :
  Plans.planToFormValues (Plans.formValuesToPlanPayload sample_plan) =
  Plans.MkForm (lit "Pro") (Some []) (num_of_Z 9) Plans.UMonth (num_of_Z 1) (Some num_zero) Plans.PDaily
    (Some num_zero) true num_zero (num_of_Z 3) num_zero (Some []) (Some (lit "price_1")) (Some []).
Proof. refine (plan_roundtrip sample_plan _ _ _ _ _); vm_compute; reflexivity. Defined.

(** ** Models *)

Lemma truthy_all (l : list jstr) : Forall (fun w => w <> []) l -> List.filter truthy_str l = l.
Proof. induction 1 as [|w l Hw _ IH]; [done|]. cbn [List.filter]. destruct w; [done|]. by rewrite IH. Qed.

Lemma tags_back ts : Forall (word 44) ts -> Models.parseModelTags (Some (Models.formatTagsArray ts)) = ts.
Proof.
  intros H. unfold Models.parseModelTags, Models.formatTagsArray. cbn [text_or_empty from_option id default].
  rewrite truthy_all by (eapply Forall_impl; [exact H|]; by intros w (Hw & _)).
  destruct ts as [|w ws]; [done|].
  assert (Ht : truthy_str (join (lit ",") (w :: ws)) = true).
  { apply Forall_cons_1 in H as [(Hw & _) _]. destruct w; [done|]. by destruct ws. }
  unfold text_or_empty. cbn [from_option id default]. rewrite Ht. cbn [negb].
  by apply (words_join 44 (w :: ws)).
Qed.

(** What the tag field may hold: whatever the stored text is, its tags are
    words. *)
Lemma parsed_tags_words s : Forall (word 44) (Models.parseModelTags s).
Proof.
  unfold Models.parseModelTags. destruct (negb _); [constructor|]. apply words_word.
Qed.

(** The model editor is a round trip in both directions: a form whose tags
    are words comes back as it was from the model it sends, and the editor
    opened on any stored model holds such a form. *)
Theorem model_form_roundtrip m v :
  Forall (word 44) (Models.tags v) -> truthy_num (Models.name_rule v) || bool_decide (Models.name_rule v = num_zero) = true ->
  Models.transformModelToFormDefaults (Models.transformFormDataToModelPayload v) = v /\
  Forall (word 44) (Models.tags (Models.transformModelToFormDefaults m)) /\
  let w := Models.transformModelToFormDefaults m in
  Models.transformModelToFormDefaults (Models.transformFormDataToModelPayload w) = w.
Proof.
  assert (Hback : forall v, Forall (word 44) (Models.tags v) -> num_or (Models.name_rule v) num_zero = Models.name_rule v ->
    Models.transformModelToFormDefaults (Models.transformFormDataToModelPayload v) = v).
  { intros [i n d ic ts vd ep nr st so gs qs] Hw Hn. cbn in Hw, Hn.
    unfold Models.transformModelToFormDefaults, Models.transformFormDataToModelPayload.
    cbn [Models.form_id Models.model_name Models.description Models.icon Models.tags Models.vendor_id
         Models.endpoints Models.name_rule Models.status Models.sync_official Models.enable_groups Models.quota_types
         Models.model_id Models.m_model_name Models.m_description Models.m_icon Models.m_tags Models.m_vendor_id
         Models.m_endpoints Models.m_name_rule Models.m_status Models.m_sync_official Models.m_enable_groups
         Models.m_quota_types].
    rewrite tags_back, Hn by done. f_equal; [by destruct st|by destruct so]. }
  intros Hw Hn. split_and!.
  - apply Hback; [done|]. unfold num_or. destruct (truthy_num _); [done|]. cbn in Hn.
    by apply bool_decide_eq_true_1 in Hn.
  - apply parsed_tags_words.
  - cbn zeta. apply Hback; [apply parsed_tags_words|]. apply num_or_twice.
Qed.

Definition sample_model : Models.ModelFormValues :=
  Models.MkForm (Some (num_of_Z 7)) (lit "gpt-4o") [] [] [lit "vision"; lit "fast"] None [] num_zero true false [] [].

Lemma model_form_roundtrip_witness :
  Models.transformModelToFormDefaults (Models.transformFormDataToModelPayload sample_model) = sample_model.
Proof.
  refine (proj1 (model_form_roundtrip (Models.transformFormDataToModelPayload sample_model) sample_model _ _)).
  - assert (H : forall w, w <> [] -> Forall (fun c => is_ws c = false) w -> (44%N ∉ w) -> word 44 w)
      by (intros w H1 H2 H3; split_and!; [done|by apply trimmed_no_ws|done]).
    repeat constructor; apply H; (discriminate || (apply (bool_decide_eq_true_1 _); vm_compute; reflexivity)).
  - vm_compute. reflexivity.
Defined.
