(* ===== verification/Wallet.v ===== *)
(** * Wallet payments

    [payment.ts] (module [Payment]), the loading of the top-up settings in
    [use-topup-info.ts] (module [Topup]), the amounts of withdrawals in
    [piggy-withdraw-amounts.ts] (module [Piggy]) and the payment part of the
    wallet page with [use-payment.ts], [use-creem-payment.ts] and
    [use-waffo-payment.ts] (module [Page]): the state of the page
    and its handlers, cut at every [await], so that requests may overlap.  The
    requests are inputs; the toasts and the browser's form submission are not
    modelled. *)

From S2P Require Import Prelude.
From S2P Require Import JsString.
From S2P Require Import JsNumber.
From S2P Require Import JsDecimal.
From S2P Require Import JsValue.

Local Open Scope N_scope.

(** ** Payment methods *)

Module Payment.

Definition ALIPAY : jstr := lit "alipay".
Definition ALIPAY_DIRECT : jstr := lit "alipay_direct".
Definition WECHAT : jstr := lit "wxpay".
Definition WECHAT_DIRECT : jstr := lit "wechat_direct".
Definition STRIPE : jstr := lit "stripe".
Definition CREEM : jstr := lit "creem".
Definition WAFFO : jstr := lit "waffo".
Definition WAFFO_PANCAKE : jstr := lit "waffo_pancake".

Definition DEFAULT_PAYMENT_TYPE : jstr := ALIPAY.
Definition DEFAULT_MIN_TOPUP : num := num_of_Z 1.
Definition DEFAULT_PRESET_MULTIPLIERS : list num := List.map num_of_Z [1; 5; 10; 30; 50; 100; 300; 500]%Z.

Record PaymentMethod := MkMethod {
  name : jstr;
  type : jstr;
  color : option jstr;
  min_topup : option num
}.

(** The discounts are an object whose keys are the texts of amounts. *)
Record TopupInfo := MkInfo {
  enable_online_topup : bool;
  enable_stripe_topup : bool;
  pay_methods : list PaymentMethod;
  info_min_topup : num;
  stripe_min_topup : num;
  amount_options : list num;
  discount : list (jstr * num);
  relation_topup_discount : option num;
  enable_waffo_topup : bool;
  waffo_min_topup : option num;
  enable_waffo_pancake_topup : bool;
  waffo_pancake_min_topup : option num
}.

Record PresetAmount := MkPreset { value : num; preset_discount : option num }.

Inductive WalletPaymentDispatch := Stripe | AlipayDirect | WechatDirect | WaffoPancake | StandardForm.

Definition isStripePayment (t : jstr) : bool := t =?= STRIPE.
Definition isAlipayDirectPayment (t : jstr) : bool := t =?= ALIPAY_DIRECT.
Definition isWechatDirectPayment (t : jstr) : bool := t =?= WECHAT_DIRECT.
Definition isHiddenEpayPayment (t : jstr) : bool := (t =?= ALIPAY) || (t =?= WECHAT).
Definition isCreemPayment (t : jstr) : bool := t =?= CREEM.
Definition isWaffoPayment (t : jstr) : bool := t =?= WAFFO.
Definition isWaffoPancakePayment (t : jstr) : bool := t =?= WAFFO_PANCAKE.

Definition filterVisiblePaymentMethods (methods : list PaymentMethod) : list PaymentMethod :=
  List.filter (fun m => negb (isHiddenEpayPayment (type m))) methods.

Definition isSubscriptionEpayPaymentMethod (m : PaymentMethod) : bool :=
  let t := type m in
  truthy_str t && negb (isHiddenEpayPayment t) && negb (isStripePayment t) && negb (isCreemPayment t) &&
  negb (isAlipayDirectPayment t) && negb (isWechatDirectPayment t) && negb (isWaffoPayment t) &&
  negb (isWaffoPancakePayment t).

Definition getWalletPaymentDispatch (t : jstr) : WalletPaymentDispatch :=
  if isStripePayment t then Stripe
  else if isAlipayDirectPayment t then AlipayDirect
  else if isWechatDirectPayment t then WechatDirect
  else if isWaffoPancakePayment t then WaffoPancake
  else StandardForm.

(** The name shown, with the translation as an argument. *)
Definition getPaymentMethodDisplayName (t : jstr -> jstr) (m : PaymentMethod) : jstr :=
  if isAlipayDirectPayment (type m) then t (lit "Alipay")
  else if isWechatDirectPayment (type m) then t (lit "WeChat")
  else if truthy_str (name m) then name m else type m.

Definition getDefaultPaymentType (topupInfo : option TopupInfo) : jstr :=
  match topupInfo with
  | None => DEFAULT_PAYMENT_TYPE
  | Some info =>
      match pay_methods info with
      | m :: _ => type m
      | [] =>
          if enable_stripe_topup info then STRIPE
          else if enable_waffo_topup info then WAFFO
          else if enable_waffo_pancake_topup info then WAFFO_PANCAKE
          else DEFAULT_PAYMENT_TYPE
      end
  end.

(** [Number.isFinite(x) && x > 0]. *)
Definition positive (x : num) : bool := is_finite x && num_gtb x num_zero.

(** [Math.min(...l)]. *)
Definition math_min (l : list num) : num := fold_left num_min l (Inf false).

(** The minimums that count for the form payments. *)
Definition standardMinimums (info : TopupInfo) : list num :=
  let methodMinTopups :=
    List.filter positive (List.map (fun m => default NaN (min_topup m)) (pay_methods info)) in
  List.filter positive
    ((if enable_online_topup info then [info_min_topup info] else []) ++ methodMinTopups).

Definition getMinTopupAmount (topupInfo : option TopupInfo) : num :=
  match topupInfo with
  | None => DEFAULT_MIN_TOPUP
  | Some info =>
      if (0 <? length (standardMinimums info))%nat then math_min (standardMinimums info)
      else if enable_stripe_topup info then stripe_min_topup info
      else if enable_waffo_topup info then num_or (default NaN (waffo_min_topup info)) DEFAULT_MIN_TOPUP
      else if enable_waffo_pancake_topup info then
        num_or (default NaN (waffo_pancake_min_topup info)) DEFAULT_MIN_TOPUP
      else DEFAULT_MIN_TOPUP
  end.

Definition generatePresetAmounts (minAmount : num) : list PresetAmount :=
  List.map (fun multiplier => MkPreset (num_mul minAmount multiplier) None) DEFAULT_PRESET_MULTIPLIERS.

(** [discounts[amount] || 1.0]. *)
Definition discount_at (discounts : list (jstr * num)) (amount : num) : num :=
  num_or (default NaN (obj_get (string_of_num amount) discounts)) (num_of_Z 1).

Definition mergePresetAmounts (amountOptions : list num) (discounts : list (jstr * num)) : list PresetAmount :=
  List.map (fun amount => MkPreset amount (Some (discount_at discounts amount))) amountOptions.

Definition getEffectiveTopupDiscount (amount : num) (discounts : list (jstr * num)) (userTopupDiscount : option num) : num :=
  let user := default NaN userTopupDiscount in
  if truthy_num user && num_gtb user num_zero && num_ltb user (num_of_Z 1) then user
  else discount_at discounts amount.

End Payment.

(** ** Loading the top-up settings *)

Module Topup.
Import Payment.

Definition parseJsonArray (data : jsval) : list jsval :=
  match data with
  | VArr l => l
  | VStr s => match json_parse s with Some (VArr l) => l | _ => [] end
  | _ => []
  end.

(** [!!item && typeof item === 'object']. *)
Definition is_record (v : jsval) : bool := match v with VArr _ | VObj _ => true | _ => false end.

(** [typeof item.k === 'string' ? item.k : d]. *)
Definition text_field (k : jstr) (item : jsval) : option jstr := as_string (get_prop k item).

Definition payment_method (stripeMinTopup : num) (item : jsval) : PaymentMethod :=
  let rawMinTopup := number_of_val (get_prop (lit "min_topup") item) in
  let normalizedMinTopup := if is_finite rawMinTopup then rawMinTopup else num_zero in
  let t := default [] (text_field (lit "type") item) in
  MkMethod (default [] (text_field (lit "name") item)) t (text_field (lit "color") item)
    (Some (if (t =?= STRIPE) && num_leb normalizedMinTopup num_zero then stripeMinTopup else normalizedMinTopup)).

Definition parsePaymentMethods (data : jsval) (stripeMinTopup : num) : list PaymentMethod :=
  List.filter (fun m => negb (isHiddenEpayPayment (type m)))
    (List.filter (fun m => truthy_str (name m) && truthy_str (type m) && (type m <?> WAFFO))
       (List.map (payment_method stripeMinTopup) (List.filter is_record (parseJsonArray data)))).

Record WaffoPayMethod := MkWaffo {
  waffo_name : jstr;
  icon : option jstr;
  payMethodType : option jstr;
  payMethodName : option jstr
}.

Definition parseWaffoPayMethods (data : jsval) : list WaffoPayMethod :=
  List.filter (fun w => truthy_str (waffo_name w))
    (List.map (fun item =>
         MkWaffo (default [] (text_field (lit "name") item)) (text_field (lit "icon") item)
           (text_field (lit "payMethodType") item) (text_field (lit "payMethodName") item))
       (List.filter is_record (parseJsonArray data))).

Record CreemProduct := MkCreem { creem_name : jstr; productId : jstr; price : num; quota : num; euro : bool }.

Definition parseCreemProducts (data : jsval) : list CreemProduct :=
  List.filter (fun p => truthy_str (creem_name p) && truthy_str (productId p))
    (List.map (fun item =>
         MkCreem (default [] (text_field (lit "name") item)) (default [] (text_field (lit "productId") item))
           (num_or (number_of_val (get_prop (lit "price") item)) num_zero)
           (num_or (number_of_val (get_prop (lit "quota") item)) num_zero)
           (text_field (lit "currency") item =?= Some (lit "EUR")))
       (List.filter is_record (parseJsonArray data))).

Definition parseAmountOptions (data : jsval) : list num :=
  List.filter positive (List.map number_of_val (parseJsonArray data)).

(** One entry of the map of discounts. *)
Definition add_discount (result : list (jstr * num)) (kv : jstr * jsval) : list (jstr * num) :=
  let numericKey := number_of_string kv.1 in
  let numericValue := number_of_val kv.2 in
  if is_finite numericKey && is_finite numericValue
  then obj_set (string_of_num numericKey) numericValue result else result.

Definition parseDiscountMap (data : jsval) : list (jstr * num) :=
  if negb (truthy data) then []
  else
    match (match data with VStr s => default VUndef (json_parse s) | _ => data end) with
    | VObj o => fold_left add_discount o []
    | _ => []
    end.

(** The response's members; the ones that are not parsed are copied. *)
Definition processed (raw : TopupInfo) (payMethods amountOptions discounts : jsval) : TopupInfo :=
  MkInfo (enable_online_topup raw) (enable_stripe_topup raw)
    (parsePaymentMethods payMethods (stripe_min_topup raw)) (info_min_topup raw) (stripe_min_topup raw)
    (parseAmountOptions amountOptions) (parseDiscountMap discounts) (relation_topup_discount raw)
    (enable_waffo_topup raw) (waffo_min_topup raw) (enable_waffo_pancake_topup raw) (waffo_pancake_min_topup raw).

Definition presets_of (info : TopupInfo) : list PresetAmount :=
  if (0 <? length (amount_options info))%nat
  then mergePresetAmounts (amount_options info) (discount info)
  else generatePresetAmounts (getMinTopupAmount (Some info)).

End Topup.

(** ** Amounts of withdrawals *)

Module Piggy.

Record PiggyWithdrawAmountLike := MkOrder {
  fee_amount : option num;
  actual_amount : option num;
  platform_fee_rate : option num;
  platform_fee_amount_cents : option num;
  tax_before_amount_cents : option num;
  piggy_pay_amount_cents : option num;
  piggy_pretax_amount_cents : option num;
  piggy_after_tax_amount_cents : option num;
  piggy_individual_tax_cents : option num;
  piggy_added_tax_cents : option num;
  piggy_fee_amount_cents : option num
}.

Definition isFiniteNumber (value : option num) : bool :=
  match value with Some x => is_finite x | None => false end.

Definition centsToMoneyAmount (value : option num) : option num :=
  x ← value; if negb (is_finite x) || num_leb x num_zero then None else Some (num_div x (num_of_Z 100)).

Definition nonNegativeCentsToMoneyAmount (value : option num) : option num :=
  x ← value; if negb (is_finite x) || num_ltb x num_zero then None else Some (num_div x (num_of_Z 100)).

Fixpoint firstPositiveCentsToMoneyAmount (values : list (option num)) : option num :=
  match values with
  | [] => None
  | value :: rest =>
      match centsToMoneyAmount value with Some amount => Some amount | None => firstPositiveCentsToMoneyAmount rest end
  end.

Definition hasPiggyPlatformFeeSnapshot (order : PiggyWithdrawAmountLike) : bool :=
  isFiniteNumber (platform_fee_rate order) || isFiniteNumber (platform_fee_amount_cents order).

Definition getPiggyPlatformFeeAmount (order : PiggyWithdrawAmountLike) : option num :=
  if negb (hasPiggyPlatformFeeSnapshot order) then None
  else Some (default num_zero (centsToMoneyAmount (platform_fee_amount_cents order))).

Definition getPiggyTaxBeforeAmount (order : PiggyWithdrawAmountLike) : option num :=
  firstPositiveCentsToMoneyAmount
    [tax_before_amount_cents order; piggy_pay_amount_cents order; piggy_pretax_amount_cents order].

(** [a ?? b]. *)
Definition or_else (a b : option num) : option num := match a with Some _ => a | None => b end.

Definition getPiggyActualReceivedAmount (order : PiggyWithdrawAmountLike) : option num :=
  or_else (centsToMoneyAmount (piggy_after_tax_amount_cents order)) (actual_amount order).

Definition getPiggyProviderFeeAmount (order : PiggyWithdrawAmountLike) : option num :=
  or_else (centsToMoneyAmount (piggy_fee_amount_cents order)) (fee_amount order).

(** The two taxes and their sum. *)
Definition getPiggyTaxDetails (order : PiggyWithdrawAmountLike) : option num * option num * option num :=
  let individual := piggy_individual_tax_cents order in
  let added := piggy_added_tax_cents order in
  let totalTaxCents :=
    if isFiniteNumber individual || isFiniteNumber added
    then Some (num_add (num_max (default num_zero individual) num_zero) (num_max (default num_zero added) num_zero))
    else None in
  (nonNegativeCentsToMoneyAmount individual, nonNegativeCentsToMoneyAmount added,
   nonNegativeCentsToMoneyAmount totalTaxCents).

End Piggy.

(** ** The wallet page *)

Module Page.
Import Payment.

(** [parseFloat(s)]: the number the text begins with. *)
Definition parseFloat (s : jstr) : num :=
  let unsigned (neg : bool) (r : jstr) : num :=
    if starts_with (lit "Infinity") r then Inf neg
    else
      let '(i, r1) := span_digits r in
      let '(f, r2) := match r1 with 46 :: t => span_digits t | _ => ([], r1) end in
      match i, f with
      | [], [] => NaN
      | _, _ =>
          let e := match parse_exponent r2 with Some (e, _) => e | None => 0%Z end in
          num_of_dec neg (dec_value (i ++ f)) (e - Z.of_nat (length f))
      end in
  match drop_while is_ws s with
  | 45 :: r => unsigned true r
  | 43 :: r => unsigned false r
  | t => unsigned false t
  end.

(** A settled request: [None] when it was rejected. *)
Definition Response : Type := option jsval.

Definition isApiSuccess (response : jsval) : bool :=
  is_true (get_prop (lit "success") response) ||
  match get_prop (lit "message") response with VStr m => m =?= lit "success" | _ => false end.

(** The routes of the requests; [PancakePay] is the one of
    [processWaffoPancakePayment]. *)
Inductive Route :=
| AmountStripe | AmountAlipay | AmountWechat | AmountPancake | AmountStandard
| PayStripe | PayAlipay | PayWechat | PayStandard | PancakePay.

Definition amount_route (t : jstr) : Route :=
  match getWalletPaymentDispatch t with
  | Stripe => AmountStripe
  | AlipayDirect => AmountAlipay
  | WechatDirect => AmountWechat
  | WaffoPancake => AmountPancake
  | StandardForm => AmountStandard
  end.

Definition pay_route (t : jstr) : Route :=
  match getWalletPaymentDispatch t with
  | Stripe => PayStripe
  | AlipayDirect => PayAlipay
  | WechatDirect => PayWechat
  | WaffoPancake | StandardForm => PayStandard
  end.

(** The [payment_method] member of a payment request. *)
Definition pay_method_sent (t : jstr) : jstr :=
  match getWalletPaymentDispatch t with Stripe => lit "stripe" | _ => t end.

(** What [calculatePaymentAmount] stores when its request settles; reading a
    member of [null] throws, which is caught. *)
Definition calculated_amount (response : Response) : num :=
  match response with
  | Some r =>
      if isApiSuccess r && truthy (get_prop (lit "data") r)
      then parseFloat (string_of_val (get_prop (lit "data") r)) else num_zero
  | None => num_zero
  end.

(** The result of [processPayment] and of [processWaffoPancakePayment]. *)
Inductive PayResult :=
| PayFailed
| PayStarted
| PayQr (amount : num) (code_url : jsval) (trade_no order_id expires_at : jsval).

Definition truthy_member (k : jstr) (v : jsval) : bool := truthy (get_prop k v).

Definition pay_result (t : jstr) (amount : num) (response : Response) : PayResult :=
  match response with
  | None => PayFailed
  | Some r =>
      if negb (isApiSuccess r) then PayFailed
      else
        let data := get_prop (lit "data") r in
        match getWalletPaymentDispatch t with
        | Stripe => if truthy_member (lit "pay_link") data then PayStarted else PayFailed
        | AlipayDirect => if truthy_member (lit "url") data then PayStarted else PayFailed
        | WechatDirect =>
            if truthy_member (lit "code_url") data then
              PayQr amount (get_prop (lit "code_url") data) (get_prop (lit "trade_no") data)
                (get_prop (lit "order_id") data) (get_prop (lit "expires_at") data)
            else PayFailed
        | WaffoPancake | StandardForm =>
            if truthy data && truthy_member (lit "url") r then PayStarted else PayFailed
        end
  end.

(** A calculation that waits for its answer; [opens] when it is awaited by
    [handlePaymentMethodSelect]. *)
Record Calculation := MkCalc { calc_id : N; calc_amount : num; calc_type : jstr; opens : bool }.

(** A payment that waits for its answer; its amount is rounded already. *)
Record PendingPayment := MkPay { pay_id : N; pay_amount : num; pay_type : jstr }.

(** What has happened, latest first. *)
Inductive Entry :=
| Calculating (id : N) (route : Route) (amount : num)
| Answered (id : N) (value : num)
| Paying (id : N) (route : Route) (amount : num) (method : jstr)
| PayingCreem (id : N) (product : jstr)
| PayingWaffo (id : N) (amount : num) (index : N)
| Activated (result : PayResult).

(** Payments that do not pass the confirmation: the product of Creem with its own
    dialog, given by its identifier, and the methods of Waffo; and the requests of
    both that wait for their answers. *)
Record Direct := MkDirect {
  selectedCreemProduct : option jstr;
  creemDialogOpen : bool;
  creemProcessing : bool;
  waffoProcessing : bool;
  creemCalls : list N;
  waffoCalls : list N
}.

Definition direct_initial : Direct := MkDirect None false false false [] [].

Record State := MkState {
  direct : Direct;
  topupInfo : option TopupInfo;
  topupAmount : num;
  selectedPreset : option num;
  selectedPaymentMethod : option PaymentMethod;
  paymentLoading : option jstr;
  confirmDialogOpen : bool;
  qrPayment : option PayResult;
  qrDialogOpen : bool;
  recordRefreshKey : N;
  refreshing : N;
  paymentAmount : num;
  calculating : bool;
  processing : bool;
  pancakeProcessing : bool;
  calculations : list Calculation;
  payments : list PendingPayment;
  fresh : N;
  log : list Entry
}.

Definition initial : State :=
  MkState direct_initial None num_zero None None None false None false 0 0 num_zero false false false [] [] 0 [].

Definition with_info (i : option TopupInfo) (s : State) : State :=
  MkState (direct s) i (topupAmount s) (selectedPreset s) (selectedPaymentMethod s) (paymentLoading s) (confirmDialogOpen s)
    (qrPayment s) (qrDialogOpen s) (recordRefreshKey s) (refreshing s) (paymentAmount s) (calculating s) (processing s) (pancakeProcessing s)
    (calculations s) (payments s) (fresh s) (log s).

Definition with_topup (a : num) (preset : option num) (s : State) : State :=
  MkState (direct s) (topupInfo s) a preset (selectedPaymentMethod s) (paymentLoading s) (confirmDialogOpen s)
    (qrPayment s) (qrDialogOpen s) (recordRefreshKey s) (refreshing s) (paymentAmount s) (calculating s) (processing s) (pancakeProcessing s)
    (calculations s) (payments s) (fresh s) (log s).

Definition with_method (m : option PaymentMethod) (loading : option jstr) (s : State) : State :=
  MkState (direct s) (topupInfo s) (topupAmount s) (selectedPreset s) m loading (confirmDialogOpen s)
    (qrPayment s) (qrDialogOpen s) (recordRefreshKey s) (refreshing s) (paymentAmount s) (calculating s) (processing s) (pancakeProcessing s)
    (calculations s) (payments s) (fresh s) (log s).

Definition with_confirm (b : bool) (s : State) : State :=
  MkState (direct s) (topupInfo s) (topupAmount s) (selectedPreset s) (selectedPaymentMethod s) (paymentLoading s) b
    (qrPayment s) (qrDialogOpen s) (recordRefreshKey s) (refreshing s) (paymentAmount s) (calculating s) (processing s) (pancakeProcessing s)
    (calculations s) (payments s) (fresh s) (log s).

Definition with_qr (q : option PayResult) (b : bool) (s : State) : State :=
  MkState (direct s) (topupInfo s) (topupAmount s) (selectedPreset s) (selectedPaymentMethod s) (paymentLoading s)
    (confirmDialogOpen s) q b (recordRefreshKey s) (refreshing s) (paymentAmount s) (calculating s) (processing s) (pancakeProcessing s)
    (calculations s) (payments s) (fresh s) (log s).

Definition record_ (e : Entry) (s : State) : State :=
  MkState (direct s) (topupInfo s) (topupAmount s) (selectedPreset s) (selectedPaymentMethod s) (paymentLoading s)
    (confirmDialogOpen s) (qrPayment s) (qrDialogOpen s) (recordRefreshKey s) (refreshing s) (paymentAmount s) (calculating s)
    (processing s) (pancakeProcessing s) (calculations s) (payments s) (fresh s) (e :: log s).

(** [calculatePaymentAmount] up to its [await]. *)
Definition calculatePaymentAmount (a : num) (t : jstr) (opening : bool) (s : State) : State :=
  MkState (direct s) (topupInfo s) (topupAmount s) (selectedPreset s) (selectedPaymentMethod s) (paymentLoading s)
    (confirmDialogOpen s) (qrPayment s) (qrDialogOpen s) (recordRefreshKey s) (refreshing s) (paymentAmount s) true (processing s) (pancakeProcessing s)
    (calculations s ++ [MkCalc (fresh s) a t opening]) (payments s) (fresh s + 1)
    (Calculating (fresh s) (amount_route t) a :: log s).

(** The rest of it: the answer is stored and the loading flag is cleared. *)
Definition store_amount (id : N) (v : num) (s : State) : State :=
  MkState (direct s) (topupInfo s) (topupAmount s) (selectedPreset s) (selectedPaymentMethod s) (paymentLoading s)
    (confirmDialogOpen s) (qrPayment s) (qrDialogOpen s) (recordRefreshKey s) (refreshing s) v false (processing s) (pancakeProcessing s)
    (List.filter (fun c => negb (calc_id c =? id)) (calculations s)) (payments s) (fresh s) (Answered id v :: log s).

(** [processPayment] and its neighbour up to the [await], and their [finally]. *)
Definition start_payment (route : Route) (t method : jstr) (s : State) : State :=
  let amount := num_floor (topupAmount s) in
  let pancake := isWaffoPancakePayment t in
  MkState (direct s) (topupInfo s) (topupAmount s) (selectedPreset s) (selectedPaymentMethod s) (paymentLoading s)
    (confirmDialogOpen s) (qrPayment s) (qrDialogOpen s) (recordRefreshKey s) (refreshing s) (paymentAmount s) (calculating s)
    (processing s || negb pancake) (pancakeProcessing s || pancake)
    (calculations s) (payments s ++ [MkPay (fresh s) amount t]) (fresh s + 1)
    (Paying (fresh s) route amount method :: log s).

Definition end_payment (id : N) (pancake : bool) (s : State) : State :=
  MkState (direct s) (topupInfo s) (topupAmount s) (selectedPreset s) (selectedPaymentMethod s) (paymentLoading s)
    (confirmDialogOpen s) (qrPayment s) (qrDialogOpen s) (recordRefreshKey s) (refreshing s) (paymentAmount s) (calculating s)
    (processing s && pancake) (pancakeProcessing s && negb pancake)
    (calculations s) (List.filter (fun p => negb (pay_id p =? id)) (payments s)) (fresh s) (log s).

(** The effect that sets the first amount. *)
Definition init_effect (s : State) : State :=
  match topupInfo s with
  | Some info =>
      if num_eqb (topupAmount s) num_zero then
        let minTopup := getMinTopupAmount (Some info) in
        calculatePaymentAmount minTopup (getDefaultPaymentType (Some info)) false
          (with_topup minTopup (selectedPreset s) s)
      else s
  | None => s
  end.

Definition getCurrentPaymentType (s : State) : jstr :=
  let t := default [] (type <$> selectedPaymentMethod s) in
  if truthy_str t then t else getDefaultPaymentType (topupInfo s).

Definition handleSelectPreset (preset : PresetAmount) (s : State) : State :=
  calculatePaymentAmount (value preset) (getCurrentPaymentType s) false
    (with_topup (value preset) (Some (value preset)) s).

Definition handleTopupAmountChange (amount : num) (s : State) : State :=
  calculatePaymentAmount amount (getCurrentPaymentType s) false (with_topup amount None s).

Definition handlePaymentMethodSelect (m : PaymentMethod) (s : State) : State :=
  if num_ltb (topupAmount s) (getMinTopupAmount (topupInfo s)) then with_method (Some m) None s
  else calculatePaymentAmount (topupAmount s) (type m) true (with_method (Some m) (Some (type m)) s).

(** A calculation is answered; the handler that awaits it opens the dialog. *)
Definition answer (id : N) (response : Response) (s : State) : State :=
  match List.find (fun c => calc_id c =? id) (calculations s) with
  | Some c =>
      let s' := store_amount id (calculated_amount response) s in
      if opens c then with_method (selectedPaymentMethod s') None (with_confirm true s') else s'
  | None => s
  end.

Definition handlePaymentConfirm (s : State) : State :=
  match selectedPaymentMethod s with
  | None => s
  | Some m =>
      if isWaffoPancakePayment (type m) then start_payment PancakePay (type m) [] s
      else start_payment (pay_route (type m)) (type m) (pay_method_sent (type m)) s
  end.

(** [fetchUser] and [refetchWalletAccount] are awaited before the records are
    loaded again. *)
Definition start_refresh (s : State) : State :=
  MkState (direct s) (topupInfo s) (topupAmount s) (selectedPreset s) (selectedPaymentMethod s) (paymentLoading s)
    (confirmDialogOpen s) (qrPayment s) (qrDialogOpen s) (recordRefreshKey s) (refreshing s + 1) (paymentAmount s)
    (calculating s) (processing s) (pancakeProcessing s) (calculations s) (payments s) (fresh s) (log s).

Definition end_refresh (s : State) : State :=
  if refreshing s =? 0 then s
  else MkState (direct s) (topupInfo s) (topupAmount s) (selectedPreset s) (selectedPaymentMethod s) (paymentLoading s)
    (confirmDialogOpen s) (qrPayment s) (qrDialogOpen s) (recordRefreshKey s + 1) (refreshing s - 1) (paymentAmount s)
    (calculating s) (processing s) (pancakeProcessing s) (calculations s) (payments s) (fresh s) (log s).

(** The rest of the handler; [isQrPaymentResult] asks that the code is a text. *)
Definition after_payment (result : PayResult) (s : State) : State :=
  match result with
  | PayQr _ (VStr _) _ _ _ => with_qr (Some result) true (record_ (Activated result) (with_confirm false s))
  | PayQr _ _ _ _ _ | PayStarted => start_refresh (with_confirm false s)
  | PayFailed => s
  end.

(** A payment is answered; the Pancake hook says itself whether it succeeded. *)
Definition paid (id : N) (response : Response) (pancake : bool) (s : State) : State :=
  match List.find (fun p => pay_id p =? id) (payments s) with
  | Some p =>
      let result :=
        if isWaffoPancakePayment (pay_type p) then (if pancake then PayStarted else PayFailed)
        else pay_result (pay_type p) (pay_amount p) response in
      after_payment result (end_payment id (isWaffoPancakePayment (pay_type p)) s)
  | None => s
  end.

(** A state with other direct payments, and one in which such a request is sent. *)
Definition with_direct (d : Direct) (s : State) : State :=
  MkState d (topupInfo s) (topupAmount s) (selectedPreset s) (selectedPaymentMethod s) (paymentLoading s)
    (confirmDialogOpen s) (qrPayment s) (qrDialogOpen s) (recordRefreshKey s) (refreshing s) (paymentAmount s)
    (calculating s) (processing s) (pancakeProcessing s) (calculations s) (payments s) (fresh s) (log s).

Definition send_direct (d : Direct) (e : Entry) (s : State) : State :=
  MkState d (topupInfo s) (topupAmount s) (selectedPreset s) (selectedPaymentMethod s) (paymentLoading s)
    (confirmDialogOpen s) (qrPayment s) (qrDialogOpen s) (recordRefreshKey s) (refreshing s) (paymentAmount s)
    (calculating s) (processing s) (pancakeProcessing s) (calculations s) (payments s) (fresh s + 1) (e :: log s).

Definition handleCreemProductSelect (product : jstr) (s : State) : State :=
  let d := direct s in
  with_direct (MkDirect (Some product) true (creemProcessing d) (waffoProcessing d) (creemCalls d) (waffoCalls d)) s.

Definition setCreemDialogOpen (b : bool) (s : State) : State :=
  let d := direct s in
  with_direct (MkDirect (selectedCreemProduct d) b (creemProcessing d) (waffoProcessing d) (creemCalls d) (waffoCalls d)) s.

(** [handleCreemConfirm] up to the [await] in [processCreemPayment]. *)
Definition handleCreemConfirm (s : State) : State :=
  let d := direct s in
  match selectedCreemProduct d with
  | None => s
  | Some product =>
      send_direct (MkDirect (selectedCreemProduct d) (creemDialogOpen d) true (waffoProcessing d)
                     (creemCalls d ++ [fresh s]) (waffoCalls d))
        (PayingCreem (fresh s) product) s
  end.

Definition creem_result (response : Response) : bool :=
  match response with
  | Some r => isApiSuccess r && truthy (get_prop (lit "checkout_url") (get_prop (lit "data") r))
  | None => false
  end.

(** The rest of both. *)
Definition creem_paid (id : N) (response : Response) (s : State) : State :=
  let d := direct s in
  if includes id (creemCalls d) then
    let left := List.filter (fun i => negb (i =? id)) (creemCalls d) in
    if creem_result response
    then start_refresh (with_direct (MkDirect None false false (waffoProcessing d) left (waffoCalls d)) s)
    else with_direct (MkDirect (selectedCreemProduct d) (creemDialogOpen d) false (waffoProcessing d) left (waffoCalls d)) s
  else s.

(** [handleWaffoMethodSelect] with [processWaffoPayment], up to its [await]. *)
Definition handleWaffoMethodSelect (index : N) (s : State) : State :=
  let d := direct s in
  send_direct (MkDirect (selectedCreemProduct d) (creemDialogOpen d) (creemProcessing d) true
                 (creemCalls d) (waffoCalls d ++ [fresh s]))
    (PayingWaffo (fresh s) (num_floor (topupAmount s)) index)
    (with_method (selectedPaymentMethod s) (Some (lit "waffo-" ++ dec_of_N index)) s).

(** However the request ends, only the loading marks are cleared. *)
Definition waffo_paid (id : N) (s : State) : State :=
  let d := direct s in
  if includes id (waffoCalls d) then
    with_method (selectedPaymentMethod s) None
      (with_direct (MkDirect (selectedCreemProduct d) (creemDialogOpen d) (creemProcessing d) false
                      (creemCalls d) (List.filter (fun i => negb (i =? id)) (waffoCalls d))) s)
  else s.

Inductive Event :=
| InfoLoaded (info : TopupInfo)
| InitEffect
| SelectPreset (preset : PresetAmount)
| ChangeAmount (amount : num)
| SelectMethod (m : PaymentMethod)
| CloseConfirm
| Confirm
| Answer (id : N) (response : Response)
| Paid (id : N) (response : Response) (pancake : bool)
| RefreshDone
| SelectCreem (product : jstr)
| CreemDialog (b : bool)
| CreemConfirm
| CreemPaid (id : N) (response : Response)
| SelectWaffo (index : N)
| WaffoPaid (id : N).

Definition step (e : Event) (s : State) : State :=
  match e with
  | InfoLoaded info => with_info (Some info) s
  | InitEffect => init_effect s
  | SelectPreset preset => handleSelectPreset preset s
  | ChangeAmount amount => handleTopupAmountChange amount s
  | SelectMethod m => handlePaymentMethodSelect m s
  | CloseConfirm => with_confirm false s
  | Confirm => handlePaymentConfirm s
  | Answer id response => answer id response s
  | Paid id response pancake => paid id response pancake s
  | RefreshDone => end_refresh s
  | SelectCreem product => handleCreemProductSelect product s
  | CreemDialog b => setCreemDialogOpen b s
  | CreemConfirm => handleCreemConfirm s
  | CreemPaid id response => creem_paid id response s
  | SelectWaffo index => handleWaffoMethodSelect index s
  | WaffoPaid id => waffo_paid id s
  end.

Definition run (es : list Event) (s : State) : State := fold_left (fun s e => step e s) es s.

(** Whether an event lets an older request be overtaken. *)
Definition in_order (e : Event) (s : State) : Prop :=
  match e with
  | Answer id _ => exists c cs, calculations s = c :: cs /\ calc_id c = id
  | _ => True
  end.

Inductive reachable (ordered : bool) : State -> Prop :=
| reach_initial : reachable ordered initial
| reach_step e s : reachable ordered s -> (ordered = true -> in_order e s) -> reachable ordered (step e s).

End Page.
