(* ===== verification/WalletFacts.v ===== *)
(** * Wallet payments: properties

    The least amount and the discount of a top-up, the payment methods that are
    offered, which requests the page sends, and which answer the page shows
    when requests overlap. *)

From S2P Require Import Prelude.
From S2P Require Import JsString.
From S2P Require Import JsNumber.
From S2P Require Import JsDecimal.
From S2P Require Import JsValue.
From S2P Require Import Wallet.

Local Open Scope N_scope.

(** ** The least amount *)

Import Payment.

Lemma positive_units x : positive x = true -> exists m, x = Fin false m /\ 0 < m.
Proof.
  unfold positive, num_gtb, num_ltb, num_zero. destruct x as [|s|s m]; cbn [is_finite andb]; [done..|].
  cbn [num_compare]. destruct s, m as [|m]; cbn; try done. intros _. eexists. split; [reflexivity|lia].
Qed.

Lemma num_min_units m n : num_min (Fin false m) (Fin false n) = Fin false (N.min m n).
Proof.
  unfold num_min, num_compare, units.
  destruct (Z.compare_spec (Z.of_N m) (Z.of_N n)); f_equal; lia.
Qed.

Lemma min_units ms m :
  fold_left num_min (List.map (Fin false) ms) (Fin false m) = Fin false (fold_left N.min ms m).
Proof. revert m. induction ms as [|n ms IH]; intros m; [done|]. cbn [List.map fold_left]. by rewrite num_min_units, IH. Qed.

Lemma fold_N_min ms m :
  (fold_left N.min ms m = m \/ fold_left N.min ms m ∈ ms) /\
  fold_left N.min ms m <= m /\ Forall (fun n => fold_left N.min ms m <= n) ms.
Proof.
  revert m. induction ms as [|n ms IH]; intros m; cbn [fold_left].
  - split_and!; [by left|lia|constructor].
  - destruct (IH (N.min m n)) as (Hor & Hle & HF). split_and!; [|lia|constructor; [lia|done]].
    destruct Hor as [->|Hin]; [|right; by right].
    destruct (N.min_spec m n) as [[_ ->]|[_ ->]]; [by left|right; by left].
Qed.

Lemma all_units l : Forall (fun x => positive x = true) l -> exists ms, l = List.map (Fin false) ms.
Proof.
  induction 1 as [|x l Hx _ [ms ->]]; [by exists []|].
  apply positive_units in Hx as (m & -> & _). by exists (m :: ms).
Qed.

Lemma math_min_spec l : l <> [] -> Forall (fun x => positive x = true) l ->
  math_min l ∈ l /\ Forall (fun x => num_leb (math_min l) x = true) l.
Proof.
  intros Hne HF. destruct (all_units l HF) as [ms ->]. destruct ms as [|m ms]; [done|].
  assert (E : math_min (List.map (Fin false) (m :: ms)) = Fin false (fold_left N.min ms m)).
  { unfold math_min. cbn [List.map fold_left]. change (num_min (Inf false) (Fin false m)) with (Fin false m). apply min_units. }
  rewrite E. destruct (fold_N_min ms m) as (Hor & Hle & Hall). split.
  - rewrite list_elem_of_In. apply in_map. rewrite <- list_elem_of_In.
    destruct Hor as [->|Hin]; [by left|by right].
  - apply Forall_forall. intros x Hx. rewrite list_elem_of_In in Hx. apply in_map_iff in Hx as (n & <- & Hn).
    rewrite <- list_elem_of_In in Hn. rewrite Forall_forall in Hall.
    assert (Hmn : fold_left N.min ms m <= n) by (apply elem_of_cons in Hn as [->|Hn]; [done|by apply Hall]).
    unfold num_leb, num_compare, units. destruct (Z.compare_spec (Z.of_N (fold_left N.min ms m)) (Z.of_N n)); [done|done|lia].
Qed.

Lemma standard_positive info : Forall (fun x => positive x = true) (standardMinimums info).
Proof. apply Forall_forall. intros x Hx. by apply elem_of_lfilter in Hx as [_ Hx]. Qed.

(** The minimums of a configuration: the general one when the online top-up is
    on, and the ones of the payment methods. *)
Definition asks_minimum (info : TopupInfo) (x : num) : Prop :=
  positive x = true /\
  (enable_online_topup info = true /\ x = info_min_topup info \/
   exists m, m ∈ pay_methods info /\ min_topup m = Some x).

Lemma standard_spec info x : x ∈ standardMinimums info <-> asks_minimum info x.
Proof.
  unfold standardMinimums, asks_minimum. rewrite elem_of_lfilter, elem_of_app, elem_of_lfilter.
  assert (Hm : forall x, positive x = true ->
    x ∈ List.map (fun m => default NaN (min_topup m)) (pay_methods info) <-> exists m, m ∈ pay_methods info /\ min_topup m = Some x).
  { intros y Hy. rewrite list_elem_of_In, in_map_iff. setoid_rewrite <- list_elem_of_In. split.
    - intros (m & E & Hin). exists m. split; [done|]. destruct (min_topup m); cbn in E; by subst.
    - intros (m & Hin & E). exists m. rewrite E. done. }
  split.
  - intros [[Hx|[Hx _]] Hp]; split; try done; [left|right; by apply Hm].
    destruct (enable_online_topup info); [by apply list_elem_of_singleton in Hx|by apply elem_of_nil in Hx].
  - intros [Hp [[-> ->]|Hx]]; (split; [|done]); [left; by left|right; split; [by apply Hm|done]].
Qed.

(** The least amount of a top-up is the least of the positive minimums the
    configuration asks for, and is one of them; only when there is none do the
    minimums of Stripe, Waffo and Pancake count, in this order, and one is the
    amount without any. *)
Theorem min_topup_exact info :
  (forall x, asks_minimum info x ->
     asks_minimum info (getMinTopupAmount (Some info)) /\ num_leb (getMinTopupAmount (Some info)) x = true) /\
  ((forall x, ~ asks_minimum info x) ->
     getMinTopupAmount (Some info) =
     if enable_stripe_topup info then stripe_min_topup info
     else if enable_waffo_topup info then num_or (default NaN (waffo_min_topup info)) DEFAULT_MIN_TOPUP
     else if enable_waffo_pancake_topup info then num_or (default NaN (waffo_pancake_min_topup info)) DEFAULT_MIN_TOPUP
     else DEFAULT_MIN_TOPUP).
Proof.
  pose proof (standard_spec info) as Hs. pose proof (standard_positive info) as Hp.
  unfold getMinTopupAmount. destruct (standardMinimums info) as [|y ys] eqn:E.
  - split; [|done]. intros x Hx. apply Hs, elem_of_nil in Hx. done.
  - cbn [length Nat.ltb Nat.leb]. split.
    + intros x Hx. destruct (math_min_spec (y :: ys)) as [Hin Hall]; [done..|].
      split; [by apply Hs|]. apply Hs in Hx. rewrite Forall_forall in Hall. by apply Hall.
    + intros Hno. exfalso. apply (Hno y), Hs. by left.
Qed.

(** ** Discounts *)

(** A key of the stored map denotes an amount; the text of a number is read
    back, minus zero aside. *)
Definition denotes (k : jstr) (a : num) : Prop := string_of_num (number_of_string k) = string_of_num a.

Lemma discount_step result k v k' :
  obj_get k' (Topup.add_discount result (k, v)) =
  if is_finite (number_of_string k) && is_finite (number_of_val v) && (k' =?= string_of_num (number_of_string k))
  then Some (number_of_val v) else obj_get k' result.
Proof.
  unfold Topup.add_discount. cbn [fst snd]. destruct (_ && _); [|done]. cbn [andb].
  case_bool_decide as E; [subst; by rewrite obj_get_set_eq|by rewrite obj_get_set_ne].
Qed.

Lemma discount_none l result a :
  (forall k v, (k, v) ∈ l -> is_finite (number_of_val v) = true -> ~ denotes k a) ->
  obj_get (string_of_num a) (fold_left Topup.add_discount l result) = obj_get (string_of_num a) result.
Proof.
  revert result. induction l as [|[k v] l IH]; intros result H; [done|]. cbn [fold_left].
  rewrite IH by (intros k' v' Hin; apply H; by right). rewrite discount_step.
  destruct (is_finite (number_of_val v)) eqn:Ev; [|by rewrite andb_false_r].
  assert (~ denotes k a) by (apply (H k v); [by left|done]).
  rewrite bool_decide_eq_false_2 by (unfold denotes in *; congruence). by rewrite andb_false_r.
Qed.

(** The discount of an amount is the user's own when it lies strictly
    between zero and one; otherwise it is the number the stored table holds
    under the only key that denotes the amount, however the key is written
    (10, 10.0, 1e1), and one when there is no such key or the entry is zero. *)
Theorem discount_exact o1 o2 k v a user :
  positive user = false \/ num_ltb user (num_of_Z 1) = false ->
  is_finite (number_of_string k) = true -> denotes k a -> is_finite (number_of_val v) = true ->
  (forall k' v', (k', v') ∈ o1 ++ o2 -> ~ denotes k' a) ->
  (forall u, positive u = true -> num_ltb u (num_of_Z 1) = true ->
     getEffectiveTopupDiscount a (Topup.parseDiscountMap (VObj (o1 ++ (k, v) :: o2))) (Some u) = u) /\
  getEffectiveTopupDiscount a (Topup.parseDiscountMap (VObj (o1 ++ (k, v) :: o2))) (Some user) =
    num_or (number_of_val v) (num_of_Z 1) /\
  getEffectiveTopupDiscount a (Topup.parseDiscountMap (VObj (o1 ++ o2))) None = num_of_Z 1.
Proof.
  intros Hu Hk Hd Hv Hno. split_and!.
  - intros u Hp Hlt. unfold getEffectiveTopupDiscount. cbn [from_option id default].
    unfold positive in Hp. apply andb_true_iff in Hp as [Hf Hp].
    assert (truthy_num u = true) as -> by (destruct u as [|?|[] []]; done). by rewrite Hp, Hlt.
  - unfold getEffectiveTopupDiscount. cbn [from_option id default].
    replace (truthy_num user && num_gtb user num_zero && num_ltb user (num_of_Z 1)) with false.
    + unfold discount_at, Topup.parseDiscountMap. cbn [truthy negb]. rewrite fold_left_app. cbn [fold_left].
      rewrite discount_none by (intros k' v' Hin _; apply (Hno k' v'), elem_of_app; by right).
      rewrite discount_step, Hk, Hv, bool_decide_eq_true_2; [done|by rewrite Hd].
    + symmetry. destruct Hu as [Hp|Hl]; [|by rewrite Hl, andb_false_r]. unfold positive in Hp.
      destruct user as [|[]|s m]; try done. cbn [is_finite andb] in Hp. by rewrite Hp, andb_false_r.
  - unfold getEffectiveTopupDiscount. cbn [from_option id default truthy_num andb].
    unfold discount_at, Topup.parseDiscountMap. cbn [truthy negb].
    rewrite discount_none by (intros k' v' Hin _; by apply (Hno k' v')). done.
Qed.

Lemma discount_exact_witness :
  getEffectiveTopupDiscount (num_of_Z 10)
    (Topup.parseDiscountMap (VObj [(lit "5", VNum (num_of_Z 1)); (lit "1e1", VStr (lit "0.9"))])) (Some num_zero) =
  num_of_dec false 9 (-1).
Proof.
  refine (proj1 (proj2 (discount_exact [(lit "5", VNum (num_of_Z 1))] [] (lit "1e1") (VStr (lit "0.9")) (num_of_Z 10)
            num_zero _ _ _ _ _))).
  - left. vm_compute. reflexivity.
  - vm_compute. reflexivity.
  - vm_compute. reflexivity.
  - vm_compute. reflexivity.
  - intros k' v' Hin. apply list_elem_of_singleton in Hin. injection Hin as -> ->.
    intros E. unfold denotes in E. apply (f_equal (fun x => bool_decide (x = string_of_num (num_of_Z 10)))) in E. vm_compute in E. discriminate.
Defined.

(** ** Methods on offer *)

(** The loaded methods have a name and a type, and none is of a type the wallet
    hides or handles elsewhere; the default type is then one of theirs. *)
Lemma loaded_methods data d m : m ∈ Topup.parsePaymentMethods data d ->
  name m <> [] /\ type m <> [] /\ isHiddenEpayPayment (type m) = false /\ isWaffoPayment (type m) = false.
Proof.
  unfold Topup.parsePaymentMethods. intros Hm. apply elem_of_lfilter in Hm as [Hm Hv].
  apply elem_of_lfilter in Hm as [_ Hf]. rewrite !andb_true_iff in Hf. destruct Hf as [[Hn Ht] Hw].
  split_and!.
  - by destruct (name m).
  - by destruct (type m).
  - by apply negb_true_iff.
  - unfold isWaffoPayment. by apply negb_true_iff.
Qed.

(** ** The requests of the page *)

Module PageFacts.
Import Page.

(** The requests of a log that start a payment, and the latest calculation. *)
Definition is_paying (e : Entry) : bool :=
  match e with Paying _ _ _ _ | PayingCreem _ _ | PayingWaffo _ _ _ => true | _ => false end.
Definition paying (l : list Entry) : list Entry := List.filter is_paying l.

Fixpoint last_calculation (l : list Entry) : option (N * Route * num) :=
  match l with
  | [] => None
  | Calculating id route a :: _ => Some (id, route, a)
  | _ :: l' => last_calculation l'
  end.

(** The request a confirmation sends: the route is the one of the method, the
    amount the page's amount rounded down. *)
Definition confirmed (s : State) : option Entry :=
  m ← selectedPaymentMethod s;
  Some (Paying (fresh s)
          (if isStripePayment (type m) then PayStripe
           else if isAlipayDirectPayment (type m) then PayAlipay
           else if isWechatDirectPayment (type m) then PayWechat
           else if isWaffoPancakePayment (type m) then PancakePay else PayStandard)
          (num_floor (topupAmount s))
          (if isWaffoPancakePayment (type m) then [] else type m)).

Lemma after_payment_paying r s : paying (log (after_payment r s)) = paying (log s).
Proof. by destruct r as [| |? []]. Qed.

Lemma pancake_not_other t : isWaffoPancakePayment t = true ->
  isStripePayment t = false /\ isAlipayDirectPayment t = false /\ isWechatDirectPayment t = false.
Proof. intros E. apply bool_decide_eq_true_1 in E as ->. by vm_compute. Qed.

Lemma confirm_log s :
  log (handlePaymentConfirm s) = match confirmed s with Some e => e :: log s | None => log s end.
Proof.
  unfold handlePaymentConfirm, confirmed. destruct (selectedPaymentMethod s) as [m|]; [|done]. cbn [mbind option_bind].
  destruct (isWaffoPancakePayment (type m)) eqn:Ep.
  - destruct (pancake_not_other _ Ep) as (-> & -> & ->). done.
  - unfold start_payment, pay_route, pay_method_sent, getWalletPaymentDispatch. cbn [log]. rewrite Ep.
    destruct (isStripePayment (type m)) eqn:Es; [by apply bool_decide_eq_true_1 in Es as ->|].
    destruct (isAlipayDirectPayment (type m)); [done|]. by destruct (isWechatDirectPayment (type m)).
Qed.

Lemma effect_paying s : paying (log (init_effect s)) = paying (log s).
Proof. unfold init_effect. destruct (topupInfo s); [|done]. by destruct (num_eqb _ _). Qed.

(** The payment an event starts. *)
Definition started (e : Event) (s : State) : list Entry :=
  match e with
  | Confirm => match confirmed s with Some p => [p] | None => [] end
  | CreemConfirm =>
      match selectedCreemProduct (direct s) with Some product => [PayingCreem (fresh s) product] | None => [] end
  | SelectWaffo index => [PayingWaffo (fresh s) (num_floor (topupAmount s)) index]
  | _ => []
  end.

(** C24: the payments of the wallet page.  Of the handlers of the page (amounts,
    methods, dialogs, answers and refreshes), exactly three start a payment, and
    each starts exactly one.  The confirmation of a top-up, when a method is
    selected: on the route of that method's type and of no other, for the amount of
    the page at that moment rounded down.  The confirmation of a Creem product, when
    one is selected: for that product.  And the choice of a Waffo method, at once
    and without a confirmation: for the amount of the page rounded down and the
    index of that method.  The subscription panel of the page is a component of its
    own and is not covered. *)
Theorem payment_requests_exact e s :
  paying (log (step e s)) = started e s ++ paying (log s).
Proof.
  destruct e as [info| |preset|a|m| | |id r|id r b| |c|b| |id r|i|id]; cbn [step started app]; try done.
  - apply effect_paying.
  - unfold handlePaymentMethodSelect. by destruct (num_ltb _ _).
  - rewrite confirm_log. unfold confirmed. by destruct (selectedPaymentMethod s).
  - unfold answer. destruct (List.find _ _) as [c|]; [|done]. by destruct (opens c).
  - unfold paid. destruct (List.find _ _) as [p|]; [|done]. by rewrite after_payment_paying.
  - unfold end_refresh. by destruct (refreshing s =? 0).
  - unfold handleCreemConfirm. by destruct (selectedCreemProduct (direct s)).
  - unfold creem_paid. destruct (includes _ _); [|done]. by destruct (creem_result r).
  - unfold waffo_paid. by destruct (includes _ _).
Qed.

(** ** The amount that is shown *)

Record inv (ordered : bool) (s : State) : Prop := {
  inv_ids : NoDup (List.map calc_id (calculations s));
  inv_fresh : Forall (fun c => calc_id c < fresh s) (calculations s);
  inv_shown : ordered = true ->
    match last_calculation (log s) with
    | None => calculations s = []
    | Some (id, route, a) =>
        a = topupAmount s /\
        ((exists cs c, calculations s = cs ++ [c] /\ calc_id c = id) \/
         (calculations s = [] /\ Answered id (paymentAmount s) ∈ log s))
    end
}.

(** Events that touch neither the calculations nor the two amounts. *)
Lemma page_inv_same o s s' :
  calculations s' = calculations s -> fresh s <= fresh s' -> topupAmount s' = topupAmount s ->
  paymentAmount s' = paymentAmount s -> last_calculation (log s') = last_calculation (log s) ->
  (forall e, e ∈ log s -> e ∈ log s') -> inv o s -> inv o s'.
Proof.
  intros Ec Ef Et Ep El Hl [Hi Hf Hs]. constructor; rewrite ?Ec, ?Et, ?Ep, ?El.
  - done.
  - eapply Forall_impl; [exact Hf|]. cbn. intros c Hc. lia.
  - intros Ho. specialize (Hs Ho). destruct (last_calculation (log s)) as [[[id route] a]|]; [|done].
    destruct Hs as (Ha & [Hc|[Hc Hin]]); (split; [done|]); [by left|right; split; [done|by apply Hl]].
Qed.

Lemma inv_calculate o a t b s s1 :
  calculations s1 = calculations s -> fresh s1 = fresh s -> topupAmount s1 = a ->
  inv o s -> inv o (calculatePaymentAmount a t b s1).
Proof.
  intros Ec Ef Et [Hi Hf _]. constructor; cbn [calculatePaymentAmount calculations fresh log last_calculation topupAmount].
  - rewrite Ec, List.map_app. apply NoDup_app. split_and!; [done| |apply NoDup_singleton].
    intros x Hx Hin. apply list_elem_of_singleton in Hin. subst x. rewrite list_elem_of_In in Hx.
    apply in_map_iff in Hx as (c & E & Hc). rewrite <- list_elem_of_In in Hc. rewrite Forall_forall in Hf.
    apply Hf in Hc. rewrite Ef in E. cbn in E. lia.
  - rewrite Ec, Ef. apply Forall_app. split; [|constructor; [cbn; lia|constructor]].
    eapply Forall_impl; [exact Hf|]. cbn. intros c Hc. lia.
  - intros _. rewrite Et. split; [done|]. left. by eexists _, _.
Qed.

Lemma filter_ids id (cs : list Calculation) : id ∉ List.map calc_id cs ->
  List.filter (fun c => negb (calc_id c =? id)) cs = cs.
Proof.
  induction cs as [|c cs IH]; intros H; [done|]. cbn [List.map] in H. apply not_elem_of_cons in H as [Hc Hcs].
  cbn [List.filter]. rewrite (proj2 (N.eqb_neq _ _)) by congruence. cbn [negb]. by rewrite IH.
Qed.

Lemma filter_ids_sub id (cs : list Calculation) :
  NoDup (List.map calc_id cs) -> NoDup (List.map calc_id (List.filter (fun c => negb (calc_id c =? id)) cs)).
Proof.
  induction cs as [|c cs IH]; intros H; [done|]. cbn [List.map] in H. apply NoDup_cons in H as [Hc Hcs].
  cbn [List.filter]. destruct (negb _); [|by apply IH]. cbn [List.map]. apply NoDup_cons. split; [|by apply IH].
  intros Hin. apply Hc. rewrite list_elem_of_In in *. apply in_map_iff in Hin as (d & E & Hd).
  apply filter_In in Hd as [Hd _]. apply in_map_iff. eauto.
Qed.

Lemma inv_store o id v s : (o = true -> exists c cs, calculations s = c :: cs /\ calc_id c = id) ->
  inv o s -> inv o (store_amount id v s).
Proof.
  intros Ho [Hi Hf Hs]. constructor; cbn [store_amount calculations fresh log last_calculation topupAmount paymentAmount].
  - by apply filter_ids_sub.
  - rewrite Forall_forall in *. intros c Hc. apply elem_of_lfilter in Hc as [Hc _]. by apply Hf.
  - intros E. specialize (Hs E). destruct (Ho E) as (c & cs & Ec & <-). rewrite Ec in *.
    cbn [List.map] in Hi. apply NoDup_cons in Hi as [Hc Hi]. cbn [List.filter]. rewrite N.eqb_refl. cbn [negb].
    rewrite filter_ids by done. destruct (last_calculation (log s)) as [[[id route] a]|]; [|done].
    destruct Hs as (Ha & [(ds & d & Ed & Eid)|[Hn _]]); [|done]. split; [done|].
    destruct ds as [|d0 ds]; cbn [app] in Ed; injection Ed as -> Ed.
    + right. split; [done|]. subst id. by left.
    + left. by exists ds, d.
Qed.

Lemma inv_method o m l s : inv o s -> inv o (with_method m l s).
Proof. by apply (page_inv_same o s). Qed.

Lemma inv_confirm o b s : inv o s -> inv o (with_confirm b s).
Proof. by apply (page_inv_same o s). Qed.

Lemma inv_after o r s : inv o s -> inv o (after_payment r s).
Proof.
  intros H. destruct r as [| |a [] tn oi ea]; cbn [after_payment]; try done.
  all: try (by apply (page_inv_same o s); [..|exact H]).
  apply (page_inv_same o s); [done..| |exact H]. intros e He. cbn. by right.
Qed.

Lemma page_inv_step o e s : (o = true -> in_order e s) -> inv o s -> inv o (step e s).
Proof.
  intros Ho H. destruct e as [info| |preset|a|m| | |id r|id r b| |c|b| |id r|i|id]; cbn [step].
  - by apply (page_inv_same o s); [..|exact H].
  - unfold init_effect. destruct (topupInfo s); [|done]. destruct (num_eqb _ _); [|done]. by apply (inv_calculate _ _ _ _ s).
  - by apply (inv_calculate _ _ _ _ s).
  - by apply (inv_calculate _ _ _ _ s).
  - unfold handlePaymentMethodSelect. destruct (num_ltb _ _); [by apply inv_method|]. by apply (inv_calculate _ _ _ _ s).
  - by apply inv_confirm.
  - unfold handlePaymentConfirm. destruct (selectedPaymentMethod s) as [m|]; [|done].
    destruct (isWaffoPancakePayment _); (apply (page_inv_same o s); [done|cbn; lia|done..| |exact H]; intros e He; cbn; by right).
  - unfold answer. destruct (List.find _ _) as [c|]; [|done].
    assert (Hst : inv o (store_amount id (calculated_amount r) s)) by (by apply inv_store).
    destruct (opens c); [by apply inv_method, inv_confirm|done].
  - unfold paid. destruct (List.find _ _) as [p|]; [|done]. apply inv_after. by apply (page_inv_same o s); [..|exact H].
  - unfold end_refresh. destruct (refreshing s =? 0); [done|]. by apply (page_inv_same o s); [..|exact H].
  - by apply (page_inv_same o s); [..|exact H].
  - by apply (page_inv_same o s); [..|exact H].
  - unfold handleCreemConfirm. destruct (selectedCreemProduct _); [|done].
    apply (page_inv_same o s); [done|cbn; lia|done..| |exact H]. intros e He. cbn. by right.
  - unfold creem_paid. destruct (includes _ _); [|done].
    destruct (creem_result r); by apply (page_inv_same o s); [..|exact H].
  - apply (page_inv_same o s); [done|cbn; lia|done..| |exact H]. intros e He. cbn. by right.
  - unfold waffo_paid. destruct (includes _ _); [|done]. by apply (page_inv_same o s); [..|exact H].
Qed.

Lemma page_reachable_inv o s : reachable o s -> inv o s.
Proof.
  induction 1 as [|e s Hr IH Ho]; [|by apply page_inv_step].
  constructor; [apply NoDup_nil_2|constructor|done].
Qed.

(** C23: as long as the answers arrive in the order of their requests, the page
    never rests on an outdated price: once no calculation is under way, the
    price shown is the answer to the latest calculation, and that calculation
    was for the amount the page holds. *)
Theorem shown_amount_current s id route a :
  reachable true s -> calculations s = [] -> last_calculation (log s) = Some (id, route, a) ->
  a = topupAmount s /\ Answered id (paymentAmount s) ∈ log s.
Proof.
  intros Hr Hc Hl. apply page_reachable_inv in Hr as [_ _ Hs]. specialize (Hs eq_refl). rewrite Hl in Hs.
  destruct Hs as (Ha & [(cs & c & E & _)|[_ Hin]]); [|done]. rewrite Hc in E. by destruct cs.
Qed.

Lemma page_run_reachable es s : reachable false s -> reachable false (run es s).
Proof. revert s. induction es as [|e es IH]; intros s H; [done|]. by apply IH, reach_step. Qed.

(** Settings with one form method and a minimum of five. *)
Definition sample_method : PaymentMethod := MkMethod (lit "Card") (lit "card") None (Some (num_of_Z 5)).

Definition sample_info : TopupInfo :=
  MkInfo true false [sample_method] (num_of_Z 5) num_zero [] [] None false None false None.

Definition priced (t : jstr) : Response := Some (VObj [(lit "success", VBool true); (lit "data", VStr t)]).

(** Two changes of the amount, answered one after the other. *)
Definition before_answers : State :=
  run [InfoLoaded sample_info; ChangeAmount (num_of_Z 10); ChangeAmount (num_of_Z 20)] initial.

Lemma before_reachable : reachable true before_answers.
Proof. repeat (apply reach_step; [|done]). apply reach_initial. Qed.

Lemma shown_amount_current_witness :
  let s := run [Answer 0 (priced (lit "70")); Answer 1 (priced (lit "140"))] before_answers in
  num_of_Z 20 = topupAmount s /\ Answered 1 (paymentAmount s) ∈ log s.
Proof.
  refine (shown_amount_current (run [Answer 0 (priced (lit "70")); Answer 1 (priced (lit "140"))] before_answers)
            1 AmountStandard (num_of_Z 20) _ _ _).
  - apply (reach_step true (Answer 1 (priced (lit "140")))).
    + apply (reach_step true (Answer 0 (priced (lit "70")))); [apply before_reachable|].
      intros _. eexists _, _. split; reflexivity.
    + intros _. eexists _, _. split; reflexivity.
  - reflexivity.
  - reflexivity.
Defined.

(** The same two answers, the other way round: the page holds 20 and shows the
    price of 10, and nothing is under way that would correct it. *)
Example overtaken_price_shown :
  let s := run [Answer 1 (priced (lit "140")); Answer 0 (priced (lit "70"))] before_answers in
  topupAmount s = num_of_Z 20 /\ paymentAmount s = num_of_Z 70 /\ calculations s = [] /\ calculating s = false.
Proof. split_and!; vm_compute; reflexivity. Qed.

(** The amount is checked against the minimum when the method is chosen, not
    when the payment is confirmed: changed while the price is calculated, it is
    sent below the minimum. *)
Example changed_amount_paid :
  let s := run [InfoLoaded sample_info; ChangeAmount (num_of_Z 10); Answer 0 (priced (lit "70"));
                SelectMethod sample_method; ChangeAmount (num_of_Z 1); Answer 1 (priced (lit "70"));
                Answer 2 (priced (lit "7")); Confirm] initial in
  getMinTopupAmount (topupInfo s) = num_of_Z 5 /\
  paying (log s) = [Paying 3 PayStandard (num_of_Z 1) (lit "card")].
Proof. split; vm_compute; reflexivity. Qed.

End PageFacts.

(** ** Withdrawals *)

Lemma num_max_zero a : small a -> num_max (num_of_Z a) num_zero = num_of_Z (Z.max a 0).
Proof.
  intros Ha. unfold num_max. change num_zero with (num_of_Z 0). rewrite num_compare_Z by done.
  destruct (Z.compare_spec a 0) as [->|Hlt|Hgt].
  - reflexivity.
  - by rewrite Z.max_r by lia.
  - by rewrite Z.max_l by lia.
Qed.

(** The total tax of a withdrawal is the sum of the two taxes in cents, a
    negative one counting as zero and an absent one too. *)
Lemma tax_total_exact order a b :
  (Piggy.piggy_individual_tax_cents order = Some (num_of_Z a) /\
   (Piggy.piggy_added_tax_cents order = Some (num_of_Z b) \/ Piggy.piggy_added_tax_cents order = None /\ b = 0%Z)) ->
  small a -> small b -> small (Z.max a 0 + Z.max b 0) ->
  (Piggy.getPiggyTaxDetails order).2 = Some (num_div (num_of_Z (Z.max a 0 + Z.max b 0)) (num_of_Z 100)).
Proof.
  intros [Ea Eb] Ha Hb Hs. assert (Sa : small (Z.max a 0)) by (unfold small in *; lia).
  assert (Sb : small (Z.max b 0)) by (unfold small in *; lia).
  assert (Ed : default num_zero (Piggy.piggy_added_tax_cents order) = num_of_Z b)
    by (destruct Eb as [E|[E Hz]]; rewrite E; [done|by rewrite Hz]).
  assert (Fz : forall z, small z -> is_finite (num_of_Z z) = true) by (intros z Hz; by rewrite num_of_Z_exact).
  assert (Hneg : num_ltb (num_of_Z (Z.max a 0 + Z.max b 0)) num_zero = false).
  { unfold num_ltb. change num_zero with (num_of_Z 0). rewrite num_compare_Z by done.
    destruct (Z.compare_spec (Z.max a 0 + Z.max b 0) 0); [done|lia|done]. }
  unfold Piggy.getPiggyTaxDetails. cbv zeta. cbn [snd]. rewrite Ea, Ed. cbn [Piggy.isFiniteNumber from_option id default].
  rewrite (Fz a Ha), !num_max_zero, num_add_Z by done. cbn [orb Piggy.nonNegativeCentsToMoneyAmount mbind option_bind].
  by rewrite Fz, Hneg by done.
Qed.
