(* ===== verification/Dashboard.v ===== *)
(** * Dashboard charts and filters

    The data behind the charts of [charts.ts], the statistics of [stats.ts], the
    stored preferences and query parameters of [filters.ts] and the time labels
    and ranges of [time.ts] they use.  A [Map] is a list of entries in insertion
    order.  The date library is the record [Dayjs]; collation, translation and
    the number format of the locale are parameters.  The rest of a chart's
    specification (colours, axes, animation) is data without behaviour. *)

From S2P Require Import Prelude.
From S2P Require Import JsString.
From S2P Require Import JsNumber.
From S2P Require Import JsDecimal.
From S2P Require Import JsValue.
From S2P Require Import Currency.

Local Open Scope N_scope.

(** ** Maps *)

Fixpoint map_get {V} (k : jstr) (m : list (jstr * V)) : option V :=
  match m with
  | [] => None
  | (k', v) :: m' => if k' =?= k then Some v else map_get k m'
  end.

Fixpoint map_set {V} (k : jstr) (v : V) (m : list (jstr * V)) : list (jstr * V) :=
  match m with
  | [] => [(k, v)]
  | (k', v') :: m' => if k' =?= k then (k, v) :: m' else (k', v') :: map_set k v m'
  end.

(** ** Time labels *)

Inductive TimeGranularity := Hour | Day | Week.

#[export] Instance TimeGranularity_eq : EqDecision TimeGranularity.
Proof. solve_decision. Defined.

(** What is used of the date library, on time values in milliseconds: the
    [MM-DD] and [HH] formats and the addition of days. *)
Record Dayjs := MkDayjs { month_day : num -> jstr; hour_text : num -> jstr; add_days : num -> num -> num }.

Definition formatChartTime (dayjs : Dayjs) (timestamp : num) (granularity : TimeGranularity) : jstr :=
  let d := num_mul timestamp (num_of_Z 1000) in
  month_day dayjs d ++
  match granularity with
  | Hour => lit " " ++ hour_text dayjs d ++ lit ":00"
  | Day => []
  | Week => lit " - " ++ month_day dayjs (add_days dayjs d (num_of_Z 6))
  end.

(** ** Aggregation *)

Record QuotaDataItem := MkItem {
  username : option jstr;
  model_name : option jstr;
  created_at : num;
  token_used : option num;
  count : option num;
  quota : option num
}.

Record Stats := MkStats { s_quota : num; s_count : num; s_tokens : num }.

Definition no_stats : Stats := MkStats num_zero num_zero num_zero.

(** [Number(x) || 0] of a member that may be absent. *)
Definition amount (x : option num) : num := num_or (default NaN x) num_zero.

(** [s || d] on an optional text. *)
Definition name_or (s : option jstr) (d : jstr) : jstr :=
  match s with Some t => if truthy_str t then t else d | None => d end.

Definition add_item (s : Stats) (item : QuotaDataItem) : Stats :=
  MkStats (num_add (s_quota s) (amount (quota item))) (num_add (s_count s) (amount (count item)))
    (num_add (s_tokens s) (amount (token_used item))).

Definition calculateDashboardStats (data : list QuotaDataItem) : Stats := fold_left add_item data no_stats.

(** [Math.pow(10, precision)] for a natural precision. *)
Definition safeDivide (value divisor : num) (precision : N) : num :=
  let result := num_div value divisor in
  if is_nan result || negb (is_finite result) then num_zero
  else
    let factor := num_of_Z (10 ^ Z.of_N precision) in
    num_div (num_round (num_mul result factor)) factor.

Definition model_of (item : QuotaDataItem) : jstr := name_or (model_name item) (lit "Unknown").

Section Charts.
Variable dayjs : Dayjs.
Variable timeGranularity : TimeGranularity.
Variable localeLe : jstr -> jstr -> bool.
Variable otherLabel : jstr.
Variable quotaPerUnit : num.

Definition time_of (item : QuotaDataItem) : jstr := formatChartTime dayjs (created_at item) timeGranularity.

(** The two maps after one more item. *)
Definition add_total (m : list (jstr * Stats)) (item : QuotaDataItem) : list (jstr * Stats) :=
  map_set (model_of item) (add_item (default no_stats (map_get (model_of item) m)) item) m.

Definition add_time (m : list (jstr * list (jstr * Stats))) (item : QuotaDataItem)
  : list (jstr * list (jstr * Stats)) :=
  map_set (time_of item) (add_total (default [] (map_get (time_of item) m)) item) m.

Definition modelTotalsMap (data : list QuotaDataItem) : list (jstr * Stats) := fold_left add_total data [].
Definition timeModelMap (data : list QuotaDataItem) : list (jstr * list (jstr * Stats)) := fold_left add_time data [].

Definition allModels (data : list QuotaDataItem) : list jstr := List.map fst (modelTotalsMap data).
Definition sortedModels (data : list QuotaDataItem) : list jstr := sort_by str_leb (allModels data).
Definition sortedTimes (data : list QuotaDataItem) : list jstr := sort_by str_leb (List.map fst (timeModelMap data)).

Definition MAX_TREND_POINTS : nat := 7.

Definition intervalSec : Z := match timeGranularity with Week => 604800 | Day => 86400 | Hour => 3600 end.

(** Few times are replaced by the latest ones, one interval apart. *)
Definition fillTimePoints (data : list QuotaDataItem) (times : list jstr) : list jstr :=
  if (MAX_TREND_POINTS <=? length times)%nat then times
  else
    let lastTime := fold_left num_max (List.map (fun item => num_or (created_at item) num_zero) data) (Inf true) in
    List.map
      (fun i => formatChartTime dayjs
                  (num_sub lastTime (num_of_Z ((Z.of_nat MAX_TREND_POINTS - 1 - Z.of_nat i) * intervalSec)))
                  timeGranularity)
      (seq 0 MAX_TREND_POINTS).

Definition chartTimes (data : list QuotaDataItem) : list jstr := fillTimePoints data (sortedTimes data).

(** [reduce((sum, x) => sum + x, 0)]. *)
Definition num_sum (l : list num) : num := fold_left num_add l num_zero.

(** [Number(x) || 0] of a number. *)
Definition plain_num (x : num) : num := num_or x num_zero.

Definition totalTimes (data : list QuotaDataItem) : num :=
  num_sum (List.map (fun kv => plain_num (s_count kv.2)) (modelTotalsMap data)).
Definition totalQuotaRaw (data : list QuotaDataItem) : num :=
  num_sum (List.map (fun kv => plain_num (s_quota kv.2)) (modelTotalsMap data)).

(** [(a, b) => b - a] on the numbers of two entries. *)
Definition falling {A} (f : A -> num) (a b : A) : bool := negb (num_gtb (num_sub (f b) (f a)) num_zero).

Definition ranked (f : Stats -> num) (data : list QuotaDataItem) : list (jstr * num) :=
  sort_by (falling snd) (List.map (fun kv => (kv.1, plain_num (f kv.2))) (modelTotalsMap data)).

Definition pieValues : list QuotaDataItem -> list (jstr * num) := ranked s_count.

(** ** Rows *)

Record Row := MkRow { Time : jstr; Model : jstr; rawQuota : num; Usage : num; TimeSum : num }.

(** [Number(timeModelMap.get(time)?.get(model)?.f) || 0]. *)
Definition cell (f : Stats -> num) (data : list QuotaDataItem) (time model : jstr) : num :=
  amount (f <$> (map_get time (timeModelMap data) ≫= map_get model)).

(** [Number(x.toFixed(4))]. *)
Definition four_digits (x : num) : num := number_of_string (to_fixed x 4).

Definition usage_of (raw : num) : num :=
  let usd := if truthy_num raw then num_div raw quotaPerUnit else num_zero in
  if truthy_num usd then four_digits usd else num_zero.

Definition line_rows (data : list QuotaDataItem) (time : jstr) : list Row :=
  let timeData :=
    List.map (fun model => let raw := cell s_quota data time model in MkRow time model raw (usage_of raw) num_zero)
      (sortedModels data) in
  let timeSum := num_sum (List.map rawQuota timeData) in
  List.map (fun r => MkRow (Time r) (Model r) (rawQuota r) (Usage r) timeSum) (sort_by (falling rawQuota) timeData).

(** [.sort((a, b) => a.Time.localeCompare(b.Time))]. *)
Definition by_time (a b : Row) : bool := localeLe (Time a) (Time b).

Definition lineValues (data : list QuotaDataItem) : list Row :=
  sort_by by_time (List.flat_map (line_rows data) (chartTimes data)).

Definition MAX_AREA_MODELS : nat := 15.

Definition topAreaModels (data : list QuotaDataItem) : list jstr :=
  List.map fst (take MAX_AREA_MODELS (ranked s_quota data)).

Definition bucket_of (data : list QuotaDataItem) (model : jstr) : jstr :=
  if bool_decide (model ∈ topAreaModels data) then model else otherLabel.

(** Adds a model's quota to its bucket: raw quota and rounded usage. *)
Definition add_bucket (data : list QuotaDataItem) (time : jstr) (buckets : list (jstr * (num * num))) (model : jstr)
  : list (jstr * (num * num)) :=
  let raw := cell s_quota data time model in
  let key := bucket_of data model in
  let prev := default (num_zero, num_zero) (map_get key buckets) in
  map_set key (num_add prev.1 raw, four_digits (num_add prev.2 (usage_of raw))) buckets.

Definition area_rows (data : list QuotaDataItem) (time : jstr) : list Row :=
  let timeSum := num_sum (List.map (cell s_quota data time) (sortedModels data)) in
  List.map (fun b => MkRow time b.1 b.2.1 b.2.2 timeSum)
    (fold_left (add_bucket data time) (sortedModels data) []).

Definition areaValues (data : list QuotaDataItem) : list Row :=
  sort_by by_time (List.flat_map (area_rows data) (chartTimes data)).

Definition MAX_TREND_MODELS : nat := 20.
Definition MAX_RANK_MODELS : nat := 20.

Record CountRow := MkCount { c_time : jstr; c_model : jstr; c_count : num }.

Definition trend_rows (data : list QuotaDataItem) (time : jstr) : list CountRow :=
  let names := List.map fst (ranked s_count data) in
  let top := take MAX_TREND_MODELS names in
  let other := drop MAX_TREND_MODELS names in
  List.map (fun model => MkCount time model (cell s_count data time model)) top ++
  (if (0 <? length other)%nat
   then [MkCount time otherLabel (num_sum (List.map (cell s_count data time) other))] else []).

Definition modelLineValues (data : list QuotaDataItem) : list CountRow :=
  sort_by (fun a b => localeLe (c_time a) (c_time b)) (List.flat_map (trend_rows data) (chartTimes data)).

Definition rankValues (data : list QuotaDataItem) : list (jstr * num) :=
  let all := ranked s_count data in
  if (MAX_RANK_MODELS <? length all)%nat
  then take MAX_RANK_MODELS all ++ [(otherLabel, num_sum (List.map snd (drop MAX_RANK_MODELS all)))]
  else all.

(** ** Charts of the users *)

Definition user_of (item : QuotaDataItem) : jstr := name_or (username item) (lit "unknown").

Definition add_user (key : QuotaDataItem -> jstr) (m : list (jstr * num)) (item : QuotaDataItem) : list (jstr * num) :=
  map_set (key item) (num_add (plain_num (default NaN (map_get (key item) m))) (amount (quota item))) m.

Definition userQuotaTotal (data : list QuotaDataItem) : list (jstr * num) := fold_left (add_user user_of) data [].

Variable limit : nat.

Definition topUserEntries (data : list QuotaDataItem) : list (jstr * num) :=
  take limit (sort_by (falling snd) (userQuotaTotal data)).
Definition topUsers (data : list QuotaDataItem) : list jstr := List.map fst (topUserEntries data).
Definition totalQuota (data : list QuotaDataItem) : num := num_sum (List.map snd (topUserEntries data)).

Definition user_usage (q : num) : num := four_digits (num_div q quotaPerUnit).

Definition userRankValues (data : list QuotaDataItem) : list (jstr * num * num) :=
  List.map (fun e => (e.1, e.2, user_usage e.2)) (topUserEntries data).

(** The times seen, and per time the sums of the users shown. *)
Definition add_user_time (top : list jstr) (m : list (jstr * list (jstr * num))) (item : QuotaDataItem)
  : list (jstr * list (jstr * num)) :=
  if bool_decide (user_of item ∈ top)
  then map_set (time_of item) (add_user user_of (default [] (map_get (time_of item) m)) item) m
  else m.

Definition timeUserMap (data : list QuotaDataItem) : list (jstr * list (jstr * num)) :=
  fold_left (add_user_time (topUsers data)) data [].

Definition user_cell (data : list QuotaDataItem) (time user : jstr) : num :=
  plain_num (default NaN (map_get time (timeUserMap data) ≫= map_get user)).

Definition sortedTimePoints (data : list QuotaDataItem) : list jstr :=
  sort_by str_leb (uniq (List.map time_of data)).

Definition userTrendValues (data : list QuotaDataItem) : list (jstr * jstr * num * num) :=
  List.flat_map
    (fun time => List.map (fun user => let q := user_cell data time user in (time, user, q, user_usage q)) (topUsers data))
    (sortedTimePoints data).

End Charts.

(** ** Tooltips *)

(** A line of a tooltip; the value is a number until it is formatted, the datum
    is the row the line was made from. *)
Record TooltipLineItem := MkLine { key : jstr; line_value : jsval; datum : option (num * num) }.

Section Tooltip.
Variable otherLabel totalLabel : jstr.
Variable formatQuotaValue : num -> jstr.

Definition isOtherTooltipKey (k : jstr) : bool := (k =?= lit "Other") || (k =?= otherLabel).

(** [Number(item.value) || 0]. *)
Definition line_number (i : TooltipLineItem) : num := num_or (number_of_val (line_value i)) num_zero.

Definition format_line (i : TooltipLineItem) : TooltipLineItem :=
  MkLine (key i) (VStr (formatQuotaValue (line_number i))) (datum i).

(** [sum = Number(datum.TimeSum) || sum], when the datum has one. *)
Definition time_sum (sum : num) (i : TooltipLineItem) : num :=
  match datum i with
  | Some (t, _) => if truthy_num t then num_or t sum else sum
  | None => sum
  end.

Definition MAX_TOOLTIP_MODELS : nat := 15.

Definition raw_of (i : TooltipLineItem) : num :=
  match datum i with Some (_, q) => num_or q num_zero | None => num_zero end.

(** The items are formatted in place, so the lines kept below are formatted
    ones. *)
Definition updateContent (collapseOverflow : bool) (array : list TooltipLineItem) : list TooltipLineItem :=
  let modelItems := sort_by (falling line_number) (List.filter (fun i => negb (isOtherTooltipKey (key i))) array) in
  let otherItems := List.filter (fun i => isOtherTooltipKey (key i)) array in
  let sum := fold_left time_sum (modelItems ++ otherItems) num_zero in
  let shown :=
    if collapseOverflow && (MAX_TOOLTIP_MODELS <? length (modelItems ++ otherItems))%nat
    then List.map format_line (take MAX_TOOLTIP_MODELS modelItems) ++
         [MkLine otherLabel
            (VStr (formatQuotaValue (num_sum (List.map raw_of (drop MAX_TOOLTIP_MODELS modelItems ++ otherItems))))) None]
    else List.map format_line (modelItems ++ otherItems) in
  MkLine totalLabel (VStr (formatQuotaValue sum)) None :: shown.

End Tooltip.

(** ** The processed data *)

(** [rawQuota.toLocaleString()] is a parameter. *)
Definition renderQuotaCompat (toLocaleString : num -> jstr) (stored : option CurrencyConfig) (raw : num) (digits : N) : jstr :=
  let '(config, meta) := getCurrencyDisplay stored in
  let in_currency (symbol : jstr) (rate : num) : jstr :=
    let value := num_mul (num_div raw (quotaPerUnit config)) rate in
    let fixed := to_fixed value digits in
    if num_eqb (number_of_string fixed) num_zero && num_gtb raw num_zero && num_gtb value num_zero
    then symbol ++ to_fixed (num_of_dec false 1 (- Z.of_N digits)) digits
    else symbol ++ fixed in
  match meta with
  | MetaTokens _ => toLocaleString raw
  | MetaCurrency symbol _ rate | MetaCustom symbol rate => in_currency symbol rate
  end.

Record ProcessedChartData := MkChartData {
  spec_pie : list (jstr * num);
  spec_line : list Row;
  spec_area : list Row;
  spec_model_line : list CountRow;
  spec_rank_bar : list (jstr * num);
  totalQuotaDisplay : jstr;
  totalCountDisplay : jstr
}.

(** The values of the five charts and the two texts; [formatInt] and
    [toLocaleString] stand for the number formats of the browser. *)
Definition processChartData (dayjs : Dayjs) (g : TimeGranularity) (localeLe : jstr -> jstr -> bool) (otherLabel : jstr)
  (formatInt toLocaleString : num -> jstr) (stored : option CurrencyConfig) (data : list QuotaDataItem) : ProcessedChartData :=
  let per := quotaPerUnit (getConfig stored) in
  let formatQuotaTotal value := renderQuotaCompat toLocaleString stored value 2 in
  match data with
  | [] => MkChartData [] [] [] [] [] (formatQuotaTotal num_zero) (formatInt num_zero)
  | _ =>
      MkChartData (pieValues data) (lineValues dayjs g localeLe per data)
        (areaValues dayjs g localeLe otherLabel per data) (modelLineValues dayjs g localeLe otherLabel data)
        (rankValues otherLabel data) (formatQuotaTotal (totalQuotaRaw data)) (formatInt (totalTimes data))
  end.

Record ProcessedUserChartData := MkUserData {
  spec_user_rank : list (jstr * num * num);
  spec_user_trend : list (jstr * jstr * num * num);
  user_total : option jstr
}.

(** The total is part of the subtitle; without data the subtitle says so instead. *)
Definition processUserChartData (dayjs : Dayjs) (g : TimeGranularity) (toLocaleString : num -> jstr) (stored : option CurrencyConfig) (limit : nat)
  (data : list QuotaDataItem) : ProcessedUserChartData :=
  let per := quotaPerUnit (getConfig stored) in
  match data with
  | [] => MkUserData [] [] None
  | _ => MkUserData (userRankValues per limit data) (userTrendValues dayjs g per limit data)
           (Some (renderQuotaCompat toLocaleString stored (totalQuota limit data) 2))
  end.

(** ** Preferences and query parameters *)

Inductive ConsumptionDistributionChartType := Bar | Area.
Inductive ModelAnalyticsChartTab := Trend | Proportion | Top.

Record DashboardChartPreferences := MkPrefs {
  consumptionDistributionChart : ConsumptionDistributionChartType;
  modelAnalyticsChart : ModelAnalyticsChartTab;
  defaultTimeRangeDays : num;
  defaultTimeGranularity : TimeGranularity
}.

Definition granularity_text (g : TimeGranularity) : jstr :=
  match g with Hour => lit "hour" | Day => lit "day" | Week => lit "week" end.
Definition chart_text (c : ConsumptionDistributionChartType) : jstr :=
  match c with Bar => lit "bar" | Area => lit "area" end.
Definition tab_text (t : ModelAnalyticsChartTab) : jstr :=
  match t with Trend => lit "trend" | Proportion => lit "proportion" | Top => lit "top" end.

(** The value of an enumeration a stored value stands for. *)
Definition pick {A} (text : A -> jstr) (options : list A) (v : jsval) : option A :=
  match v with VStr s => List.find (fun a => text a =?= s) options | _ => None end.

Definition isTimeGranularity : jsval -> option TimeGranularity := pick granularity_text [Hour; Day; Week].
Definition isConsumptionDistributionChartType : jsval -> option ConsumptionDistributionChartType := pick chart_text [Bar; Area].
Definition isModelAnalyticsChartTab : jsval -> option ModelAnalyticsChartTab := pick tab_text [Trend; Proportion; Top].

Definition TIME_RANGE_PRESETS : list num := List.map num_of_Z [1; 7; 14; 29]%Z.

Definition isTimeRangePresetDays (v : jsval) : option num :=
  match v with VNum x => if existsb (fun d => num_eqb d x) TIME_RANGE_PRESETS then Some x else None | _ => None end.

Definition DEFAULT_TIME_GRANULARITY : TimeGranularity := Hour.
Definition DEFAULT_DASHBOARD_CHART_PREFERENCES : DashboardChartPreferences :=
  MkPrefs Bar Trend (num_of_Z 1) DEFAULT_TIME_GRANULARITY.
Definition TIME_RANGE_BY_GRANULARITY (g : TimeGranularity) : num :=
  match g with Hour => num_of_Z 1 | Day => num_of_Z 7 | Week => num_of_Z 30 end.

(** The two keys of the browser's storage the dashboard writes. *)
Record Storage := MkStorage { export_time : option jstr; preferences : option jstr }.

Definition getLegacySavedGranularity (st : Storage) : TimeGranularity :=
  default DEFAULT_TIME_GRANULARITY (s ← export_time st; isTimeGranularity (VStr s)).

Definition getSavedChartPreferences (st : Storage) : DashboardChartPreferences :=
  let fallback :=
    MkPrefs (consumptionDistributionChart DEFAULT_DASHBOARD_CHART_PREFERENCES)
      (modelAnalyticsChart DEFAULT_DASHBOARD_CHART_PREFERENCES)
      (defaultTimeRangeDays DEFAULT_DASHBOARD_CHART_PREFERENCES) (getLegacySavedGranularity st) in
  let raw := default [] (preferences st) in
  if negb (truthy_str raw) then fallback
  else
    match json_parse raw with
    | None => fallback
    | Some parsed =>
        MkPrefs
          (default (consumptionDistributionChart fallback)
             (isConsumptionDistributionChartType (get_prop (lit "consumptionDistributionChart") parsed)))
          (default (modelAnalyticsChart fallback) (isModelAnalyticsChartTab (get_prop (lit "modelAnalyticsChart") parsed)))
          (default (defaultTimeRangeDays fallback) (isTimeRangePresetDays (get_prop (lit "defaultTimeRangeDays") parsed)))
          (default (defaultTimeGranularity fallback) (isTimeGranularity (get_prop (lit "defaultTimeGranularity") parsed)))
    end.

Definition preferences_object (p : DashboardChartPreferences) : jsval :=
  VObj [(lit "consumptionDistributionChart", VStr (chart_text (consumptionDistributionChart p)));
        (lit "modelAnalyticsChart", VStr (tab_text (modelAnalyticsChart p)));
        (lit "defaultTimeRangeDays", VNum (defaultTimeRangeDays p));
        (lit "defaultTimeGranularity", VStr (granularity_text (defaultTimeGranularity p)))].

Definition saveChartPreferences (p : DashboardChartPreferences) (st : Storage) : Storage :=
  MkStorage (export_time st) (stringify (preferences_object p)).

Definition getSavedGranularity (override : option TimeGranularity) (st : Storage) : TimeGranularity :=
  match override with Some g => g | None => defaultTimeGranularity (getSavedChartPreferences st) end.

Definition saveGranularity (g : TimeGranularity) (st : Storage) : Storage :=
  let p := getSavedChartPreferences st in
  let st' := saveChartPreferences (MkPrefs (consumptionDistributionChart p) (modelAnalyticsChart p) (defaultTimeRangeDays p) g) st in
  MkStorage (Some (granularity_text g)) (preferences st').

Definition getDefaultDays (g : option TimeGranularity) (st : Storage) : num :=
  match g with
  | None => defaultTimeRangeDays (getSavedChartPreferences st)
  | Some g => TIME_RANGE_BY_GRANULARITY (getSavedGranularity (Some g) st)
  end.

Definition cleanFilters (filters : jsobj) : jsobj :=
  fold_left
    (fun cleaned kv =>
       match kv.2 with
       | VUndef | VNull => cleaned
       | VStr s => if truthy_str (trim s) then obj_set kv.1 (VStr (trim s)) cleaned else cleaned
       | v => obj_set kv.1 v cleaned
       end) filters [].

(** ** Ranges of time, in milliseconds and seconds *)

Definition dateToUnixTimestamp (date : num) : num := num_floor (num_div date (num_of_Z 1000)).

Definition getRollingDateRange (days from : num) : num * num :=
  (num_sub from (num_mul (num_mul (num_mul (num_mul days (num_of_Z 24)) (num_of_Z 60)) (num_of_Z 60)) (num_of_Z 1000)), from).

(** [toStartOfDay] depends on the time zone and is a parameter; [now] is the
    clock in seconds. *)
Definition computeTimeRange (toStartOfDay : num -> num) (now days : num) (startDate endDate : option num) (useStartOfDay : bool)
  : num * num :=
  let back end_ := num_sub end_ (num_mul (num_mul days (num_of_Z 24)) (num_of_Z 3600)) in
  if useStartOfDay then
    let end_ := match endDate with Some d => toStartOfDay (dateToUnixTimestamp d) | None => toStartOfDay now end in
    let start := match startDate with Some d => toStartOfDay (dateToUnixTimestamp d) | None => back end_ end in
    (start, num_sub (num_add end_ (num_of_Z 86400)) (num_of_Z 1))
  else
    let end_ := match endDate with Some d => dateToUnixTimestamp d | None => num_add now (num_of_Z 3600) end in
    let start := match startDate with Some d => dateToUnixTimestamp d | None => back end_ end in
    (start, end_).

Record DashboardFilters := MkFilters {
  start_timestamp : num;
  end_timestamp : num;
  time_granularity : TimeGranularity;
  filter_username : jstr
}.

Definition buildDefaultDashboardFilters (p : DashboardChartPreferences) (now_ms : num) : DashboardFilters :=
  let '(start, end_) := getRollingDateRange (defaultTimeRangeDays p) now_ms in
  MkFilters start end_ (defaultTimeGranularity p) [].

Definition buildQueryParams (range : num * num) (granularity : option TimeGranularity) (user : option jstr) (st : Storage) : jsobj :=
  [(lit "start_timestamp", VNum range.1); (lit "end_timestamp", VNum range.2);
   (lit "default_time", VStr (granularity_text (getSavedGranularity granularity st)))] ++
  match user with Some u => if truthy_str u then [(lit "username", VStr u)] else [] | None => [] end.
