(* ===== verification/DashboardFacts.v ===== *)
(** * Dashboard charts and filters: properties

    Every loop of the charts that sums into a map is one grouping ([group]),
    and the grouping of a list is a sum per key ([group_spec]).  On whole
    numbers below 2^53 the sums are exact, so nothing that was counted is lost:
    not in the totals, not in the bucket of the other models, not at a time of
    a chart. *)

From S2P Require Import Prelude.
From S2P Require Import JsString.
From S2P Require Import JsNumber.
From S2P Require Import JsDecimal.
From S2P Require Import JsValue.
From S2P Require Import JsJson.
From S2P Require Import Currency.
From S2P Require Import Dashboard.

Local Open Scope Z_scope.

(** ** Sums of whole numbers *)

Definition zsum {A} (f : A -> Z) (l : list A) : Z := fold_right (fun x s => f x + s) 0 l.

Lemma zsum_app {A} (f : A -> Z) l k : zsum f (l ++ k) = zsum f l + zsum f k.
Proof. induction l as [|x l IH]; cbn; [done|]. unfold zsum in *. lia. Qed.

Lemma zsum_perm {A} (f : A -> Z) l k : l ≡ₚ k -> zsum f l = zsum f k.
Proof. induction 1; cbn; unfold zsum in *; lia. Qed.

Lemma zsum_map {A B} (f : B -> Z) (g : A -> B) l : zsum f (List.map g l) = zsum (fun x => f (g x)) l.
Proof. induction l as [|x l IH]; cbn; [done|]. unfold zsum in *. lia. Qed.

Lemma zsum_ext {A} (f g : A -> Z) l : (forall x, x ∈ l -> f x = g x) -> zsum f l = zsum g l.
Proof.
  induction l as [|x l IH]; intros H; [done|]. cbn [zsum fold_right]. rewrite (H x) by (by left).
  f_equal. apply IH. intros y Hy. apply H. by right.
Qed.

Lemma zsum_nonneg {A} (f : A -> Z) l : (forall x, x ∈ l -> 0 <= f x) -> 0 <= zsum f l.
Proof.
  induction l as [|x l IH]; intros H; [done|]. cbn [zsum fold_right].
  assert (0 <= f x) by (apply H; by left). assert (0 <= zsum f l) by (apply IH; intros y Hy; apply H; by right).
  unfold zsum in *. lia.
Qed.

Lemma zsum_filter_le {A} (f : A -> Z) p l : (forall x, x ∈ l -> 0 <= f x) -> zsum f (List.filter p l) <= zsum f l.
Proof.
  induction l as [|x l IH]; intros H; [done|]. assert (Hx : 0 <= f x) by (apply H; by left).
  assert (IHl : zsum f (List.filter p l) <= zsum f l) by (apply IH; intros y Hy; apply H; by right).
  cbn [List.filter]. destruct (p x); cbn [zsum fold_right]; unfold zsum in *; lia.
Qed.

(** A sum over groups is the sum over everything. *)
Lemma zsum_groups {A} (f : A -> Z) (key : A -> jstr) ks l : NoDup ks -> (forall x, x ∈ l -> key x ∈ ks) ->
  zsum (fun k => zsum f (List.filter (fun x => key x =?= k) l)) ks = zsum f l.
Proof.
  intros Hnd. induction l as [|x l IH]; intros H.
  - clear. cbn [List.filter]. induction ks as [|k ks IH]; [done|]. exact IH.
  - assert (Hl : zsum (fun k => zsum f (List.filter (fun x => key x =?= k) l)) ks = zsum f l)
      by (apply IH; intros y Hy; apply H; by right).
    assert (Hx : key x ∈ ks) by (apply H; by left).
    transitivity (f x + zsum (fun k => zsum f (List.filter (fun x => key x =?= k) l)) ks);
      [|rewrite Hl; reflexivity].
    clear IH H Hl. revert Hnd Hx. induction ks as [|k ks IHk]; intros Hnd Hx; [by apply elem_of_nil in Hx|].
    apply NoDup_cons in Hnd as [Hk Hnd]. cbn [zsum fold_right List.filter].
    destruct (decide (key x = k)) as [E|E].
    + rewrite bool_decide_eq_true_2 by done. cbn [zsum fold_right].
      assert (Er : zsum (fun k => zsum f (if key x =?= k then x :: List.filter (fun x => key x =?= k) l
                                           else List.filter (fun x => key x =?= k) l)) ks =
                   zsum (fun k => zsum f (List.filter (fun x => key x =?= k) l)) ks).
      { apply zsum_ext. intros k' Hk'. rewrite bool_decide_eq_false_2; [done|]. intros E'. subst. done. }
      unfold zsum in *. lia.
    + rewrite bool_decide_eq_false_2 by done. apply elem_of_cons in Hx as [Hx|Hx]; [done|].
      specialize (IHk Hnd Hx). cbn [List.filter] in IHk. unfold zsum in *. lia.
Qed.

Definition exact_bound (z : Z) : Prop := z < 2 ^ 53.

Lemma num_sum_from (zs : list Z) a : 0 <= a -> (forall z, z ∈ zs -> 0 <= z) -> exact_bound (a + zsum (fun z => z) zs) ->
  fold_left num_add (List.map num_of_Z zs) (num_of_Z a) = num_of_Z (a + zsum (fun z => z) zs).
Proof.
  unfold exact_bound. revert a. induction zs as [|z zs IH]; intros a Ha Hz Hb; cbn [List.map fold_left].
  - by rewrite Z.add_0_r.
  - assert (0 <= z) by (apply Hz; by left).
    assert (0 <= zsum (fun z => z) zs) by (apply zsum_nonneg; intros y Hy; apply Hz; by right).
    change (zsum (fun z => z) (z :: zs)) with (z + zsum (fun z => z) zs) in *.
    rewrite num_add_Z by (unfold small; lia).
    rewrite IH; [f_equal; lia|lia| |lia]. intros y Hy. apply Hz. by right.
Qed.

Lemma num_sum_Z {A} (f : A -> num) (z : A -> Z) l :
  (forall x, x ∈ l -> f x = num_of_Z (z x) /\ 0 <= z x) -> exact_bound (zsum z l) ->
  num_sum (List.map f l) = num_of_Z (zsum z l).
Proof.
  intros H Hb. replace (List.map f l) with (List.map num_of_Z (List.map z l)).
  - unfold num_sum. change num_zero with (num_of_Z 0). rewrite num_sum_from.
    + by rewrite zsum_map.
    + lia.
    + intros y Hy. rewrite list_elem_of_In in Hy. apply in_map_iff in Hy as (x & <- & Hx).
      rewrite <- list_elem_of_In in Hx. by apply H.
    + by rewrite zsum_map.
  - rewrite List.map_map. apply map_ext_in. intros x Hx. rewrite <- list_elem_of_In in Hx. by apply H, proj1 in Hx.
Qed.

Lemma plain_whole z : small z -> plain_num (num_of_Z z) = num_of_Z z.
Proof.
  intros Hz. unfold plain_num, num_or. rewrite num_of_Z_exact by done.
  destruct (Z.abs_N z * one_units)%N as [|p] eqn:E; [|done]. pose proof one_units_pos.
  assert (z = 0) as -> by lia. done.
Qed.

(** ** Grouping *)

Section Group.
Context {X V : Type} (key : X -> jstr) (zero : V) (add : V -> X -> V).

Definition group (data : list X) : list (jstr * V) :=
  fold_left (fun m x => map_set (key x) (add (default zero (map_get (key x) m)) x) m) data [].

Definition members (k : jstr) (data : list X) : list X := List.filter (fun x => key x =?= k) data.

Lemma map_get_table (g : jstr -> V) ks k :
  map_get k (List.map (fun k => (k, g k)) ks) = if bool_decide (k ∈ ks) then Some (g k) else None.
Proof.
  induction ks as [|k' ks IH]; [by rewrite bool_decide_eq_false_2 by apply not_elem_of_nil|].
  cbn [List.map map_get]. destruct (decide (k' = k)) as [->|E].
  - rewrite !bool_decide_eq_true_2; [done|by left|done].
  - rewrite (bool_decide_eq_false_2 (k' = k)), IH by done.
    rewrite (bool_decide_ext (k ∈ k' :: ks) (k ∈ ks)); [done|]. rewrite elem_of_cons. naive_solver.
Qed.

Lemma map_set_table (g : jstr -> V) ks k v : NoDup ks ->
  map_set k v (List.map (fun k => (k, g k)) ks) =
  List.map (fun k' => (k', if k' =?= k then v else g k')) (ks ++ if bool_decide (k ∈ ks) then [] else [k]).
Proof.
  induction ks as [|k' ks IH]; intros Hnd.
  - rewrite bool_decide_eq_false_2 by apply not_elem_of_nil. cbn. by rewrite bool_decide_eq_true_2.
  - apply NoDup_cons in Hnd as [Hk' Hnd]. cbn [List.map map_set app]. destruct (decide (k' = k)) as [->|E].
    + rewrite !(bool_decide_eq_true_2 (k = k)) by done. rewrite (bool_decide_eq_true_2 (k ∈ k :: ks)) by (by left).
      rewrite app_nil_r. f_equal. apply map_ext_in. intros k'' Hk''. rewrite <- list_elem_of_In in Hk''.
      rewrite bool_decide_eq_false_2; [done|]. intros ->. done.
    + rewrite !(bool_decide_eq_false_2 (k' = k)), IH by done.
      rewrite (bool_decide_ext (k ∈ k' :: ks) (k ∈ ks)); [done|]. rewrite elem_of_cons. naive_solver.
Qed.

Lemma members_none k data : k ∉ List.map key data -> members k data = [].
Proof.
  induction data as [|x data IH]; intros H; [done|]. cbn [List.map] in H. apply not_elem_of_cons in H as [Hx H].
  cbn [members List.filter]. rewrite bool_decide_eq_false_2 by congruence. by apply IH.
Qed.

Lemma members_snoc k data x : members k (data ++ [x]) = members k data ++ (if key x =?= k then [x] else []).
Proof. unfold members. rewrite lfilter_app. cbn [List.filter]. by destruct (key x =?= k). Qed.

(** A grouping holds one entry per key, in the order of first use, and each
    entry folds the items of its key. *)
Lemma group_spec data :
  group data = List.map (fun k => (k, fold_left add (members k data) zero)) (uniq (List.map key data)).
Proof.
  induction data as [|x data IH] using rev_ind; [done|].
  unfold group in *. rewrite fold_left_app. cbn [fold_left]. rewrite IH, map_get_table, map_set_table by apply NoDup_uniq.
  rewrite (List.map_app key data [x]). change (List.map key [x]) with [key x]. rewrite uniq_snoc.
  rewrite !(bool_decide_ext (key x ∈ uniq (List.map key data)) (key x ∈ List.map key data)) by apply elem_of_uniq.
  apply map_ext_in. intros k Hk. f_equal. rewrite members_snoc, fold_left_app.
  destruct (decide (k = key x)) as [->|E].
  - rewrite !bool_decide_eq_true_2 by done. cbn [fold_left]. f_equal.
    destruct (decide (key x ∈ List.map key data)) as [Hin|Hn]; [by rewrite bool_decide_eq_true_2|].
    by rewrite bool_decide_eq_false_2, members_none.
  - rewrite bool_decide_eq_false_2 by done. by rewrite (bool_decide_eq_false_2 (key x = k)) by congruence.
Qed.

Lemma group_get data k :
  map_get k (group data) = if bool_decide (k ∈ List.map key data) then Some (fold_left add (members k data) zero) else None.
Proof.
  rewrite group_spec, map_get_table.
  by rewrite (bool_decide_ext (k ∈ uniq (List.map key data)) (k ∈ List.map key data)) by apply elem_of_uniq.
Qed.

Lemma group_get_default data k : default zero (map_get k (group data)) = fold_left add (members k data) zero.
Proof.
  rewrite group_get. destruct (decide (k ∈ List.map key data)) as [Hin|Hn]; [by rewrite bool_decide_eq_true_2|].
  by rewrite bool_decide_eq_false_2, members_none.
Qed.

End Group.

(** ** Totals *)

Lemma totals_group data :
  modelTotalsMap data =
  List.map (fun k => (k, calculateDashboardStats (members model_of k data))) (uniq (List.map model_of data)).
Proof. apply (group_spec model_of no_stats add_item). Qed.

Section Times.
Variable dayjs : Dayjs.
Variable g : TimeGranularity.

Lemma times_get data t :
  default [] (map_get t (timeModelMap dayjs g data)) = modelTotalsMap (members (time_of dayjs g) t data).
Proof. apply (group_get_default (time_of dayjs g) [] add_total). Qed.

(** A column of the data and the same column of the sums. *)
Section Column.
Variable sel : Stats -> num.
Variable get : QuotaDataItem -> option num.
Hypothesis sel_none : sel no_stats = num_zero.
Hypothesis sel_add : forall s x, sel (add_item s x) = num_add (sel s) (amount (get x)).
Variable z : QuotaDataItem -> Z.

(** The column holds whole numbers whose sum is exact. *)
Definition whole (data : list QuotaDataItem) : Prop :=
  (forall x, x ∈ data -> amount (get x) = num_of_Z (z x) /\ 0 <= z x) /\ exact_bound (zsum z data).

Lemma whole_filter p data : whole data -> whole (List.filter p data).
Proof.
  intros [H Hb]. split; [intros x [Hx _]%elem_of_lfilter; by apply H|].
  unfold exact_bound in *. pose proof (zsum_filter_le z p data). enough (zsum z (List.filter p data) <= zsum z data) by lia.
  apply zsum_filter_le. intros x Hx. by apply H.
Qed.

Lemma whole_small data : whole data -> small (zsum z data).
Proof.
  intros [H Hb]. assert (0 <= zsum z data) by (apply zsum_nonneg; intros x Hx; by apply H).
  unfold small, exact_bound in *. lia.
Qed.

Lemma sel_fold data s : sel (fold_left add_item data s) = fold_left num_add (List.map (fun x => amount (get x)) data) (sel s).
Proof. revert s. induction data as [|x data IH]; intros s; [done|]. cbn [fold_left List.map]. by rewrite IH, sel_add. Qed.

Lemma stats_exact data : whole data -> sel (calculateDashboardStats data) = num_of_Z (zsum z data).
Proof.
  intros [H Hb]. unfold calculateDashboardStats. rewrite sel_fold, sel_none. by apply num_sum_Z.
Qed.

Lemma sel_stats_plain data : whole data -> plain_num (sel (calculateDashboardStats data)) = num_of_Z (zsum z data).
Proof. intros H. rewrite stats_exact by done. by apply plain_whole, whole_small. Qed.

(** The sums per model add up to the sum of everything. *)
Lemma ranked_perm data :
  ranked sel data ≡ₚ
  List.map (fun k => (k, plain_num (sel (calculateDashboardStats (members model_of k data))))) (uniq (List.map model_of data)).
Proof. unfold ranked. by rewrite sort_by_perm, totals_group, List.map_map. Qed.

Definition model_sum (data : list QuotaDataItem) (k : jstr) : Z := zsum z (members model_of k data).

Lemma model_sum_total data ks : NoDup ks -> (forall x, x ∈ data -> model_of x ∈ ks) -> zsum (model_sum data) ks = zsum z data.
Proof. apply zsum_groups. Qed.

Lemma model_sum_nonneg data k : whole data -> 0 <= model_sum data k.
Proof. intros [H _]. apply zsum_nonneg. intros x [Hx _]%elem_of_lfilter. by apply H. Qed.

(** One cell of a chart. *)
Definition cell_sum (data : list QuotaDataItem) (t m : jstr) : Z := model_sum (members (time_of dayjs g) t data) m.

Lemma cell_exact data t m : whole data -> cell dayjs g sel data t m = num_of_Z (cell_sum data t m).
Proof.
  intros H. unfold cell.
  replace (map_get t (timeModelMap dayjs g data) ≫= map_get m) with
    (map_get m (modelTotalsMap (members (time_of dayjs g) t data))) by (rewrite <- times_get; by destruct (map_get t _)).
  set (D := members (time_of dayjs g) t data).
  assert (HD : whole (members model_of m D)) by (by do 2 apply whole_filter).
  change (modelTotalsMap D) with (group model_of no_stats add_item D). rewrite group_get.
  destruct (decide (m ∈ List.map model_of D)) as [Hin|Hn].
  - rewrite bool_decide_eq_true_2 by done. by apply sel_stats_plain.
  - rewrite bool_decide_eq_false_2 by done. unfold cell_sum, model_sum. fold D. by rewrite members_none.
Qed.

Lemma cell_sum_total data t ks : NoDup ks -> (forall x, x ∈ data -> model_of x ∈ ks) ->
  zsum (cell_sum data t) ks = zsum z (members (time_of dayjs g) t data).
Proof. intros Hn H. apply model_sum_total; [done|]. intros x [Hx _]%elem_of_lfilter. by apply H. Qed.

Lemma cells_whole data t : whole data -> exact_bound (zsum z (members (time_of dayjs g) t data)).
Proof. intros H. by apply (whole_filter _ data H). Qed.

Lemma cell_sum_nonneg data t m : whole data -> 0 <= cell_sum data t m.
Proof. intros H. by apply model_sum_nonneg, whole_filter. Qed.

Lemma models_cover data x : x ∈ data -> model_of x ∈ uniq (List.map model_of data).
Proof. intros Hx. rewrite elem_of_uniq, list_elem_of_In. apply in_map. by rewrite <- list_elem_of_In. Qed.

Lemma names_perm data : List.map fst (ranked sel data) ≡ₚ uniq (List.map model_of data).
Proof. rewrite ranked_perm, List.map_map. by rewrite List.map_id. Qed.

(** A list of all models, in any order, sums to everything. *)
Lemma cells_sum data t ks : whole data -> ks ≡ₚ uniq (List.map model_of data) ->
  num_sum (List.map (cell dayjs g sel data t) ks) = num_of_Z (zsum z (members (time_of dayjs g) t data)).
Proof.
  intros H Hp. assert (E : zsum (cell_sum data t) ks = zsum z (members (time_of dayjs g) t data)).
  { rewrite (zsum_perm _ _ _ Hp). apply cell_sum_total; [apply NoDup_uniq|apply models_cover]. }
  rewrite <- E. apply num_sum_Z; [|rewrite E; by apply cells_whole].
  intros m _. split; [by apply cell_exact|by apply cell_sum_nonneg].
Qed.

Lemma cells_part data t a b : whole data -> a ++ b ≡ₚ uniq (List.map model_of data) ->
  num_sum (List.map (cell dayjs g sel data t) b) = num_of_Z (zsum (cell_sum data t) b) /\
  zsum (cell_sum data t) a + zsum (cell_sum data t) b = zsum z (members (time_of dayjs g) t data).
Proof.
  intros H Hp. assert (E : zsum (cell_sum data t) a + zsum (cell_sum data t) b = zsum z (members (time_of dayjs g) t data)).
  { rewrite <- zsum_app, (zsum_perm _ _ _ Hp). apply cell_sum_total; [apply NoDup_uniq|apply models_cover]. }
  split; [|done]. apply num_sum_Z.
  - intros m _. split; [by apply cell_exact|by apply cell_sum_nonneg].
  - pose proof (cells_whole data t H) as Hb. unfold exact_bound in *.
    assert (0 <= zsum (cell_sum data t) a) by (apply zsum_nonneg; intros; by apply cell_sum_nonneg). lia.
Qed.

Lemma ranked_cell data e : whole data -> e ∈ ranked sel data -> e.2 = num_of_Z (model_sum data e.1).
Proof.
  intros H He. rewrite ranked_perm, list_elem_of_In in He. apply in_map_iff in He as (k & <- & _). cbn [fst snd].
  by apply sel_stats_plain, whole_filter.
Qed.

Lemma ranked_sum data : whole data -> num_sum (List.map snd (ranked sel data)) = num_of_Z (zsum z data).
Proof.
  intros H. assert (E : zsum (fun e => model_sum data e.1) (ranked sel data) = zsum z data).
  { rewrite <- (zsum_map (model_sum data) fst), (zsum_perm _ _ _ (names_perm data)).
    apply model_sum_total; [apply NoDup_uniq|apply models_cover]. }
  rewrite <- E. apply num_sum_Z.
  - intros e He. split; [by apply ranked_cell|by apply model_sum_nonneg].
  - rewrite E. apply H.
Qed.

Lemma totals_sum data : whole data ->
  num_sum (List.map (fun kv => plain_num (sel kv.2)) (modelTotalsMap data)) = num_of_Z (zsum z data).
Proof.
  intros H. rewrite totals_group, List.map_map. cbn [snd].
  rewrite <- (model_sum_total data (uniq (List.map model_of data))); [|apply NoDup_uniq|apply models_cover].
  apply num_sum_Z.
  - intros k _. split; [by apply sel_stats_plain, whole_filter|by apply model_sum_nonneg].
  - rewrite model_sum_total; [apply H|apply NoDup_uniq|apply models_cover].
Qed.

(** Collapsing the end of the ranking into one entry keeps the sum. *)
Lemma collapsed_sum data n other : whole data ->
  num_sum (List.map snd (take n (ranked sel data) ++ [(other, num_sum (List.map snd (drop n (ranked sel data))))])) =
  num_of_Z (zsum z data).
Proof.
  intros H. set (l := ranked sel data).
  assert (Hl : forall e, e ∈ l -> e.2 = num_of_Z (model_sum data e.1) /\ 0 <= model_sum data e.1)
    by (intros e He; split; [by apply ranked_cell|by apply model_sum_nonneg]).
  assert (E : zsum (fun e => model_sum data e.1) (take n l) + zsum (fun e => model_sum data e.1) (drop n l) = zsum z data).
  { rewrite <- zsum_app, take_drop. unfold l. rewrite <- (zsum_map (model_sum data) fst), (zsum_perm _ _ _ (names_perm data)).
    apply model_sum_total; [apply NoDup_uniq|apply models_cover]. }
  assert (Ht : forall e, e ∈ take n l -> e ∈ l) by (intros e He; rewrite <- (take_drop n l); apply elem_of_app; by left).
  assert (Hd : forall e, e ∈ drop n l -> e ∈ l) by (intros e He; rewrite <- (take_drop n l); apply elem_of_app; by right).
  assert (Pt : 0 <= zsum (fun e => model_sum data e.1) (take n l)) by (apply zsum_nonneg; intros e He; by apply Hl, Ht).
  assert (Pd : 0 <= zsum (fun e => model_sum data e.1) (drop n l)) by (apply zsum_nonneg; intros e He; by apply Hl, Hd).
  destruct H as [_ Hb]. unfold exact_bound in Hb.
  rewrite List.map_app. cbn [List.map snd]. unfold num_sum at 1. rewrite fold_left_app. cbn [fold_left].
  fold (num_sum (List.map snd (take n l))).
  rewrite (num_sum_Z _ (fun e => model_sum data e.1) (take n l)); [|intros e He; by apply Hl, Ht|unfold exact_bound; lia].
  rewrite (num_sum_Z _ (fun e => model_sum data e.1) (drop n l)); [|intros e He; by apply Hl, Hd|unfold exact_bound; lia].
  rewrite num_add_Z by (unfold small; lia). f_equal. lia.
Qed.

End Column.
End Times.

Lemma count_add s x : s_count (add_item s x) = num_add (s_count s) (amount (count x)).
Proof. done. Qed.

Lemma quota_add s x : s_quota (add_item s x) = num_add (s_quota s) (amount (quota x)).
Proof. done. Qed.

(** Every chart of the calls counts the same calls: the statistics card, the
    total of the page, the pie and the ranking with its bucket of the other
    models all add up to the calls of the data, for whole numbers whose sum is
    below 2^53. *)
Theorem counts_conserved data otherLabel z :
  whole count z data ->
  let total := num_of_Z (zsum z data) in
  s_count (calculateDashboardStats data) = total /\ totalTimes data = total /\
  num_sum (List.map snd (pieValues data)) = total /\ num_sum (List.map snd (rankValues otherLabel data)) = total.
Proof.
  intros H total. split_and!.
  - by apply (stats_exact s_count count eq_refl count_add).
  - by apply (totals_sum s_count count eq_refl count_add).
  - by apply (ranked_sum s_count count eq_refl count_add).
  - unfold rankValues. destruct (_ <? _)%nat; [by apply (collapsed_sum s_count count eq_refl count_add)|].
    by apply (ranked_sum s_count count eq_refl count_add).
Qed.

Section TimeRows.
Variables (dayjs : Dayjs) (g : TimeGranularity) (otherLabel : jstr) (per : num).
Variables (data : list QuotaDataItem) (t : jstr).

Lemma sorted_models_perm : sortedModels data ≡ₚ uniq (List.map model_of data).
Proof.
  unfold sortedModels, allModels. rewrite sort_by_perm, totals_group, List.map_map.
  cbn [fst]. by rewrite List.map_id.
Qed.

(** What the data holds at the time. *)
Definition at_time (z : QuotaDataItem -> Z) : Z := zsum z (members (time_of dayjs g) t data).

Lemma line_rows_sum z : whole quota z data ->
  num_sum (List.map rawQuota (line_rows dayjs g per data t)) = num_of_Z (at_time z) /\
  Forall (fun r => Time r = t /\ TimeSum r = num_of_Z (at_time z)) (line_rows dayjs g per data t).
Proof.
  intros H. pose proof (cells_sum dayjs g s_quota quota eq_refl quota_add z data t) as Hc.
  unfold line_rows. cbv zeta. set (mk := fun model => MkRow t model (cell dayjs g s_quota data t model) _ num_zero).
  assert (Hs : num_sum (List.map rawQuota (List.map mk (sortedModels data))) = num_of_Z (at_time z)).
  { rewrite List.map_map. apply Hc; [done|apply sorted_models_perm]. }
  rewrite Hs. split.
  - rewrite List.map_map. cbn [rawQuota].
    assert (Hp : List.map rawQuota (sort_by (falling rawQuota) (List.map mk (sortedModels data))) =
                 List.map (cell dayjs g s_quota data t) (List.map Model (sort_by (falling rawQuota) (List.map mk (sortedModels data))))).
    { rewrite List.map_map. apply map_ext_in. intros r Hr. rewrite <- list_elem_of_In, elem_of_sort_by, list_elem_of_In in Hr.
      apply in_map_iff in Hr as (m & <- & _). done. }
    etransitivity; [exact (f_equal num_sum Hp)|]. apply Hc; [done|]. rewrite sort_by_perm, List.map_map. cbn [Model mk]. rewrite List.map_id. apply sorted_models_perm.
  - apply Forall_forall. intros r Hr. rewrite list_elem_of_In in Hr. apply in_map_iff in Hr as (r' & <- & Hr').
    rewrite <- list_elem_of_In, elem_of_sort_by, list_elem_of_In in Hr'. apply in_map_iff in Hr' as (m & <- & _). done.
Qed.

Lemma bucket_fold ms acc :
  (fold_left (fun prev model => (num_add prev.1 (cell dayjs g s_quota data t model),
     four_digits (num_add prev.2 (usage_of per (cell dayjs g s_quota data t model))))) ms acc).1 =
  fold_left num_add (List.map (cell dayjs g s_quota data t) ms) acc.1.
Proof. revert acc. induction ms as [|m ms IH]; intros acc; [done|]. cbn [fold_left List.map]. by rewrite IH. Qed.

Lemma area_rows_sum z : whole quota z data ->
  num_sum (List.map rawQuota (area_rows dayjs g otherLabel per data t)) = num_of_Z (at_time z) /\
  Forall (fun r => Time r = t /\ TimeSum r = num_of_Z (at_time z)) (area_rows dayjs g otherLabel per data t).
Proof.
  intros H. unfold area_rows. rewrite (cells_sum dayjs g s_quota quota eq_refl quota_add z) by (done || apply sorted_models_perm).
  split; [|apply Forall_forall; intros r Hr; rewrite list_elem_of_In in Hr; by apply in_map_iff in Hr as (b & <- & _)].
  change (fold_left (add_bucket dayjs g otherLabel per data t) (sortedModels data) []) with
    (group (bucket_of otherLabel data) (num_zero, num_zero)
       (fun prev model => (num_add prev.1 (cell dayjs g s_quota data t model),
          four_digits (num_add prev.2 (usage_of per (cell dayjs g s_quota data t model))))) (sortedModels data)).
  rewrite group_spec, !List.map_map. cbn [rawQuota fst snd].
  set (ks := uniq (List.map (bucket_of otherLabel data) (sortedModels data))).
  assert (E : zsum (fun k => zsum (cell_sum dayjs g z data t) (members (bucket_of otherLabel data) k (sortedModels data))) ks = at_time z).
  { unfold members at 1. rewrite zsum_groups.
    - rewrite (zsum_perm _ _ _ sorted_models_perm). apply cell_sum_total; [apply NoDup_uniq|intros x Hx; by eapply models_cover].
    - apply NoDup_uniq.
    - intros m Hm. unfold ks. rewrite elem_of_uniq, list_elem_of_In. apply in_map. by rewrite <- list_elem_of_In. }
  assert (Hn : forall m, 0 <= cell_sum dayjs g z data t m) by (intros m; by eapply cell_sum_nonneg).
  assert (Hb : exact_bound (at_time z)) by (by eapply cells_whole).
  rewrite <- E. apply num_sum_Z; [|by rewrite E].
  intros k Hk. split; [|by apply zsum_nonneg].
  rewrite bucket_fold. cbn [fst]. apply num_sum_Z.
  - intros m _. split; [by apply (cell_exact dayjs g s_quota quota)|done].
  - assert (Hle : zsum (cell_sum dayjs g z data t) (members (bucket_of otherLabel data) k (sortedModels data)) <=
                  zsum (cell_sum dayjs g z data t) (sortedModels data)) by (by apply zsum_filter_le).
    assert (Ea : zsum (cell_sum dayjs g z data t) (sortedModels data) = at_time z).
    { rewrite (zsum_perm _ _ _ sorted_models_perm). apply cell_sum_total; [apply NoDup_uniq|intros x Hx; by eapply models_cover]. }
    unfold exact_bound in *. lia.
Qed.

Lemma trend_rows_sum z : whole count z data ->
  num_sum (List.map c_count (trend_rows dayjs g otherLabel data t)) = num_of_Z (at_time z).
Proof.
  intros H. unfold trend_rows. cbv zeta. set (names := List.map fst (ranked s_count data)).
  assert (Hn : names ≡ₚ uniq (List.map model_of data)) by apply names_perm.
  destruct (drop MAX_TREND_MODELS names) as [|o os] eqn:Ed.
  - cbn [length Nat.ltb Nat.leb]. rewrite app_nil_r, List.map_map. cbn [c_count].
    apply (cells_sum dayjs g s_count count eq_refl count_add z data t); [done|].
    assert (En : take MAX_TREND_MODELS names = names) by (rewrite <- (take_drop MAX_TREND_MODELS names) at 2; by rewrite Ed, app_nil_r).
    by rewrite En.
  - cbn [length Nat.ltb Nat.leb]. rewrite <- Ed. rewrite List.map_app, List.map_map. cbn [c_count List.map].
    set (a := take MAX_TREND_MODELS names). set (b := drop MAX_TREND_MODELS names).
    assert (Hp : a ++ b ≡ₚ uniq (List.map model_of data)) by (unfold a, b; by rewrite take_drop).
    assert (Hq : b ++ a ≡ₚ uniq (List.map model_of data)) by (by rewrite Permutation_app_comm).
    destruct (cells_part dayjs g s_count count eq_refl count_add z data t a b H Hp) as [Eb Es].
    destruct (cells_part dayjs g s_count count eq_refl count_add z data t b a H Hq) as [Ea _].
    unfold num_sum at 1. rewrite fold_left_app. cbn [fold_left].
    change (fold_left num_add (List.map (fun x => cell dayjs g s_count data t x) a) num_zero) with
      (num_sum (List.map (cell dayjs g s_count data t) a)).
    rewrite Ea, Eb.
    assert (Pa : 0 <= zsum (cell_sum dayjs g z data t) a) by (apply zsum_nonneg; intros; by eapply cell_sum_nonneg).
    assert (Pb : 0 <= zsum (cell_sum dayjs g z data t) b) by (apply zsum_nonneg; intros; by eapply cell_sum_nonneg).
    assert (Hb : exact_bound (at_time z)) by (by eapply cells_whole). unfold at_time, exact_bound in *.
    rewrite num_add_Z by (unfold small; lia). f_equal. lia.
Qed.

(** The height at which a whole quota [q] is drawn when [p] of it are a dollar:
    dollars with four decimals. *)
Definition drawn (p q : Z) : num :=
  if q =? 0 then num_zero else number_of_string (to_fixed (num_div (num_of_Z q) (num_of_Z p)) 4).

(** Heights put on top of each other, rounded after each. *)
Definition stacked (p : Z) (qs : list Z) : num :=
  fold_left (fun u q => number_of_string (to_fixed (num_add u (drawn p q)) 4)) qs num_zero.

Lemma truthy_fin neg m : truthy_num (Fin neg m) = negb (m =? 0)%N.
Proof. by destruct m. Qed.

Lemma usage_drawn p q : 0 <= q -> exact_bound q -> 0 < p -> exact_bound p ->
  usage_of (num_of_Z p) (num_of_Z q) = drawn p q.
Proof.
  unfold exact_bound, usage_of, drawn. intros Hq Hb Hp Hb'. destruct (Z.eqb_spec q 0) as [->|Hne].
  - change (num_of_Z 0) with num_zero. unfold num_zero. by rewrite truthy_fin.
  - assert (Ht : truthy_num (num_of_Z q) = true).
    { rewrite num_of_Z_exact by lia. rewrite truthy_fin. apply negb_true_iff, N.eqb_neq.
      assert (one_units <> 0)%N by (by vm_compute). nia. }
    rewrite Ht. unfold four_digits.
    assert (Hd : exists m, num_div (num_of_Z q) (num_of_Z p) = Fin false m \/ num_div (num_of_Z q) (num_of_Z p) = Inf false).
    { rewrite (num_of_Z_exact q), (num_of_Z_exact p) by lia. unfold num_div.
      rewrite !(proj2 (Z.ltb_ge _ _)) by lia.
      destruct (Z.abs_N p * one_units =? 0)%N; [|unfold mk_num; cbn [xorb]; case_test; [eexists; by left|exists 0%N; by right]].
      destruct (Z.abs_N q * one_units =? 0)%N eqn:E; [|exists 0%N; by right]. exfalso.
      apply N.eqb_eq in E. assert (one_units <> 0)%N by (by vm_compute). nia. }
    destruct Hd as [m [-> | ->]]; [|done]. rewrite truthy_fin. destruct (N.eqb_spec m 0) as [->|Hm]; [|done].
    vm_compute. reflexivity.
Qed.

Section Drawn.
Variables (z : QuotaDataItem -> Z) (p : Z).
Hypotheses (Hz : whole quota z data) (Hp : 0 < p) (Hb : exact_bound p) (Eper : per = num_of_Z p).

Let q := cell_sum dayjs g z data t.

Lemma cell_bounds m : 0 <= q m /\ exact_bound (q m) /\ cell dayjs g s_quota data t m = num_of_Z (q m).
Proof.
  assert (Hn : 0 <= q m) by (by eapply cell_sum_nonneg).
  split_and!; [done| |by apply (cell_exact dayjs g s_quota quota eq_refl quota_add z)].
  assert (Hw : whole quota z (members model_of m (members (time_of dayjs g) t data))) by (by do 2 apply whole_filter).
  apply Hw.
Qed.

Lemma usage_cell m : usage_of per (cell dayjs g s_quota data t m) = drawn p (q m).
Proof. destruct (cell_bounds m) as (H1 & H2 & ->). rewrite Eper. by apply usage_drawn. Qed.

Lemma line_rows_drawn :
  List.map Model (line_rows dayjs g per data t) ≡ₚ uniq (List.map model_of data) /\
  Forall (fun r => rawQuota r = num_of_Z (q (Model r)) /\ Usage r = drawn p (q (Model r))) (line_rows dayjs g per data t).
Proof.
  unfold line_rows. cbv zeta. split.
  - rewrite List.map_map. cbn [Model]. rewrite sort_by_perm, List.map_map. cbn [Model].
    rewrite List.map_id. apply sorted_models_perm.
  - apply Forall_forall. intros r Hr. rewrite list_elem_of_In in Hr. apply in_map_iff in Hr as (r' & <- & Hr').
    rewrite <- list_elem_of_In, elem_of_sort_by, list_elem_of_In in Hr'. apply in_map_iff in Hr' as (m & <- & _).
    cbn [rawQuota Model Usage]. rewrite usage_cell. by destruct (cell_bounds m) as (_ & _ & ->).
Qed.

Lemma bucket_fold_usage ms u v :
  (fold_left (fun prev model => (num_add prev.1 (cell dayjs g s_quota data t model),
     four_digits (num_add prev.2 (usage_of per (cell dayjs g s_quota data t model))))) ms (u, v)).2 =
  fold_left (fun u q => number_of_string (to_fixed (num_add u (drawn p q)) 4)) (List.map q ms) v.
Proof.
  revert u v. induction ms as [|m ms IH]; intros u v; [done|]. cbn [fold_left List.map fst snd].
  rewrite IH, usage_cell. done.
Qed.

Lemma area_rows_drawn :
  List.map Model (area_rows dayjs g otherLabel per data t) = uniq (List.map (bucket_of otherLabel data) (sortedModels data)) /\
  Forall (fun r =>
    let models := members (bucket_of otherLabel data) (Model r) (sortedModels data) in
    rawQuota r = num_of_Z (zsum q models) /\ Usage r = stacked p (List.map q models))
    (area_rows dayjs g otherLabel per data t).
Proof.
  unfold area_rows.
  change (fold_left (add_bucket dayjs g otherLabel per data t) (sortedModels data) []) with
    (group (bucket_of otherLabel data) (num_zero, num_zero)
       (fun prev model => (num_add prev.1 (cell dayjs g s_quota data t model),
          four_digits (num_add prev.2 (usage_of per (cell dayjs g s_quota data t model))))) (sortedModels data)).
  rewrite group_spec. split.
  - rewrite !List.map_map. cbn [Model fst]. apply List.map_id.
  - apply Forall_forall. intros r Hr. rewrite list_elem_of_In in Hr. apply in_map_iff in Hr as (b & <- & Hb').
    apply in_map_iff in Hb' as (k & <- & _). cbn [Usage Model rawQuota fst snd].
    split; [|apply bucket_fold_usage]. rewrite bucket_fold. cbn [fst]. apply num_sum_Z.
    + intros m _. destruct (cell_bounds m) as (? & _ & ?). done.
    + assert (Hle : zsum q (members (bucket_of otherLabel data) k (sortedModels data)) <= zsum q (sortedModels data))
        by (apply zsum_filter_le; intros; apply cell_bounds).
      assert (Ea : zsum q (sortedModels data) = at_time z).
      { rewrite (zsum_perm _ _ _ sorted_models_perm).
        apply cell_sum_total; [apply NoDup_uniq|intros x Hx; by eapply models_cover]. }
      assert (Ht : exact_bound (at_time z)) by (by eapply cells_whole). unfold exact_bound in *. lia.
Qed.

End Drawn.

(** C33: at every time of the charts nothing is lost between the series, for
    quotas and counts that are whole and not negative with a sum below 2^53, and a
    quota per dollar that is whole, positive and below 2^53.  There is one bar per
    model and one area per top model or bucket.  The raw quota of a bar is that of
    its model at that time, the one of an area that of the models of its bucket; the
    raw quotas, which the tooltips show, and the sum in the tooltips are all the
    quota the data holds for that time, and the call trend with its bucket counts
    all its calls.  What is drawn is not the raw quota but dollars: the
    height of a bar is the quota of its own model at that time, divided and rounded
    to four decimals, and the height of an area the sum of such heights of the
    models of its bucket, rounded to four decimals after each; so heights are exact
    only up to this rounding, and a small quota is drawn as zero. *)
Theorem time_rows_conserved zq zc p :
  whole quota zq data -> whole count zc data -> 0 < p -> exact_bound p -> per = num_of_Z p ->
  let q := cell_sum dayjs g zq data t in
  let bars := line_rows dayjs g per data t in
  let areas := area_rows dayjs g otherLabel per data t in
  (num_sum (List.map rawQuota bars) = num_of_Z (at_time zq) /\
   num_sum (List.map rawQuota areas) = num_of_Z (at_time zq) /\
   Forall (fun r => Time r = t /\ TimeSum r = num_of_Z (at_time zq)) (bars ++ areas)) /\
  (List.map Model bars ≡ₚ uniq (List.map model_of data) /\
   Forall (fun r => rawQuota r = num_of_Z (q (Model r)) /\ Usage r = drawn p (q (Model r))) bars) /\
  (List.map Model areas = uniq (List.map (bucket_of otherLabel data) (sortedModels data)) /\
   Forall (fun r =>
     let models := members (bucket_of otherLabel data) (Model r) (sortedModels data) in
     rawQuota r = num_of_Z (zsum q models) /\ Usage r = stacked p (List.map q models)) areas) /\
  num_sum (List.map c_count (trend_rows dayjs g otherLabel data t)) = num_of_Z (at_time zc).
Proof.
  intros Hq Hc Hp Hb E q bars areas. destruct (line_rows_sum zq Hq) as [L1 L2]. destruct (area_rows_sum zq Hq) as [A1 A2].
  split_and!; [done|done|by apply Forall_app| | | | |by apply trend_rows_sum].
  - by apply (line_rows_drawn zq p).
  - by apply (line_rows_drawn zq p).
  - by apply (area_rows_drawn zq p).
  - by apply (area_rows_drawn zq p).
Qed.

End TimeRows.

(** ** Charts of the users *)

Section Users.
Variables (dayjs : Dayjs) (g : TimeGranularity) (limit : nat).
Variable z : QuotaDataItem -> Z.

Definition add_quota (v : num) (x : QuotaDataItem) : num := num_add (plain_num v) (amount (quota x)).

Lemma add_quota_from l a : 0 <= a -> (forall x, x ∈ l -> amount (quota x) = num_of_Z (z x) /\ 0 <= z x) ->
  exact_bound (a + zsum z l) -> fold_left add_quota l (num_of_Z a) = num_of_Z (a + zsum z l).
Proof.
  unfold exact_bound. revert a. induction l as [|x l IH]; intros a Ha H Hb; cbn [fold_left].
  - by rewrite Z.add_0_r.
  - assert (Hx : amount (quota x) = num_of_Z (z x) /\ 0 <= z x) by (apply H; by left). destruct Hx as [Ex Hx].
    assert (Hl : forall y, y ∈ l -> amount (quota y) = num_of_Z (z y) /\ 0 <= z y) by (intros y Hy; apply H; by right).
    assert (0 <= zsum z l) by (apply zsum_nonneg; intros y Hy; by apply Hl).
    change (zsum z (x :: l)) with (z x + zsum z l) in *.
    unfold add_quota at 2. rewrite plain_whole, Ex, num_add_Z by (unfold small; lia).
    rewrite IH; [f_equal; lia|lia|done|lia].
Qed.

Lemma add_quota_sum l : whole quota z l -> plain_num (fold_left add_quota l NaN) = num_of_Z (zsum z l).
Proof.
  intros H. pose proof (whole_small quota z l H) as Hs. destruct H as [H Hb]. destruct l as [|x l]; [done|].
  change (fold_left add_quota (x :: l) NaN) with (fold_left add_quota (x :: l) (num_of_Z 0)).
  rewrite add_quota_from by done. by apply plain_whole.
Qed.

Definition user_sum (data : list QuotaDataItem) (u : jstr) : Z := zsum z (members user_of u data).

Lemma user_totals data :
  userQuotaTotal data =
  List.map (fun u => (u, fold_left add_quota (members user_of u data) NaN)) (uniq (List.map user_of data)).
Proof. apply (group_spec user_of NaN add_quota). Qed.

Lemma user_entry data e : whole quota z data -> e ∈ userQuotaTotal data -> e.2 = num_of_Z (user_sum data e.1).
Proof.
  intros H He. rewrite user_totals, list_elem_of_In in He. apply in_map_iff in He as (u & <- & Hu). cbn [fst snd].
  assert (Hm : members user_of u data <> []).
  { rewrite <- list_elem_of_In, elem_of_uniq, list_elem_of_In in Hu. apply in_map_iff in Hu as (x & Ex & Hx).
    intros E. apply (in_nil (a := x)). rewrite <- E. apply filter_In. split; [done|]. by apply bool_decide_eq_true_2. }
  destruct (whole_filter quota z (fun x => user_of x =?= u) data H) as [Hw Hb]. unfold user_sum.
  change (List.filter (fun x => user_of x =?= u) data) with (members user_of u data) in *.
  destruct (members user_of u data) as [|x l]; [done|].
  change (fold_left add_quota (x :: l) NaN) with (fold_left add_quota (x :: l) (num_of_Z 0)). by rewrite add_quota_from.
Qed.

Lemma user_sum_small data u : whole quota z data -> small (user_sum data u).
Proof. intros H. by eapply whole_small, whole_filter. Qed.

Lemma falling_whole {A} (f : A -> num) a b x y : small x -> small y -> f a = num_of_Z x -> f b = num_of_Z y ->
  0 <= x -> 0 <= y -> falling f a b = (y <=? x).
Proof.
  intros Sx Sy Ea Eb Hx Hy. unfold falling, num_gtb, num_ltb. rewrite Ea, Eb, num_sub_Z by done.
  change num_zero with (num_of_Z 0). rewrite num_compare_Z by (done || (unfold small in *; lia)).
  destruct (Z.compare_spec 0 (y - x)), (Z.leb_spec y x); cbn [negb]; (done || lia).
Qed.

Definition user_order (data : list QuotaDataItem) : list (jstr * num) := sort_by (falling snd) (userQuotaTotal data).

Lemma user_order_sorted data : whole quota z data ->
  StronglySorted (fun a b => user_sum data b.1 <= user_sum data a.1) (user_order data).
Proof.
  intros H. set (P := fun e : jstr * num => e ∈ userQuotaTotal data).
  assert (Hf : forall a b, P a -> P b -> falling snd a b = (user_sum data b.1 <=? user_sum data a.1)).
  { intros a b Pa Pb. assert (Hn : forall u, 0 <= user_sum data u) by (intros u; apply zsum_nonneg; intros x [Hx _]%elem_of_lfilter; by apply H).
    apply falling_whole; [by apply user_sum_small|by apply user_sum_small|by apply user_entry|by apply user_entry|done|done]. }
  assert (Hs : StronglySorted (fun a b => falling snd a b = true) (user_order data)).
  { apply (sort_by_sorted_on _ P).
    - intros x y Px Py. rewrite !Hf by done. lia.
    - intros x y w Px Py Pw. rewrite !Hf by done. lia.
    - by apply Forall_forall. }
  assert (HP : Forall P (user_order data)) by (apply Forall_forall; intros e He; unfold user_order in He; by rewrite elem_of_sort_by in He).
  clear - Hs HP Hf. revert HP. induction Hs as [|e l Hl IH He]; intros HP; constructor.
  - by apply IH; apply Forall_cons_1 in HP as [_ HP].
  - apply Forall_cons_1 in HP as [Pe HP]. rewrite Forall_forall in *. intros e' He'.
    specialize (He e' He'). rewrite Hf in He by (try done; by apply HP). by apply Z.leb_le.
Qed.

Lemma fold_left_filter {A B} (p : A -> bool) (f : B -> A -> B) l b :
  fold_left (fun b x => if p x then f b x else b) l b = fold_left f (List.filter p l) b.
Proof. revert b. induction l as [|x l IH]; intros b; [done|]. cbn [fold_left List.filter]. destruct (p x); by rewrite IH. Qed.

Lemma members_kept data (p : QuotaDataItem -> bool) t u : (forall x, user_of x = u -> p x = true) ->
  members user_of u (members (time_of dayjs g) t (List.filter p data)) = members user_of u (members (time_of dayjs g) t data).
Proof.
  intros Hp. induction data as [|x data IH]; [done|]. unfold members in *. cbn [List.filter].
  destruct (p x) eqn:Ep; cbn [List.filter]; destruct (time_of dayjs g x =?= t); cbn [List.filter]; rewrite ?IH; try done.
  rewrite bool_decide_eq_false_2; [done|]. intros E. by rewrite Hp in Ep.
Qed.

Lemma user_cell_exact data t u : whole quota z data -> u ∈ topUsers limit data ->
  user_cell dayjs g limit data t u = num_of_Z (user_sum (members (time_of dayjs g) t data) u).
Proof.
  intros H Hu. unfold user_cell, timeUserMap, add_user_time.
  rewrite (fold_left_filter (fun x => bool_decide (user_of x ∈ topUsers limit data))).
  set (kept := List.filter _ data).
  replace (map_get t _ ≫= map_get u) with (map_get u (group user_of NaN add_quota (members (time_of dayjs g) t kept))).
  - rewrite group_get_default. unfold kept. rewrite (members_kept data) by (intros x ->; by apply bool_decide_eq_true_2).
    apply add_quota_sum. by do 2 apply whole_filter.
  - change (fold_left (fun m x => map_set (time_of dayjs g x) (add_user user_of (default [] (map_get (time_of dayjs g x) m)) x) m) kept [])
      with (group (time_of dayjs g) [] (add_user user_of) kept).
    change (group user_of NaN add_quota (members (time_of dayjs g) t kept)) with
      (fold_left (add_user user_of) (members (time_of dayjs g) t kept) []).
    rewrite <- (group_get_default (time_of dayjs g) [] (add_user user_of)). by destruct (map_get t _).
Qed.

(** C34: the charts of the users are exact: a user is shown with the whole quota
    of the data, split over the times without loss, and no user who is left out
    has used more than one who is shown; for quotas that are whole and not negative
    with a sum below 2^53. *)
Theorem user_charts_exact data :
  whole quota z data ->
  (forall u q, (u, q) ∈ topUserEntries limit data -> q = num_of_Z (user_sum data u)) /\
  (forall u t, u ∈ topUsers limit data ->
     user_cell dayjs g limit data t u = num_of_Z (user_sum (members (time_of dayjs g) t data) u)) /\
  (forall u, u ∈ topUsers limit data ->
     zsum (fun t => user_sum (members (time_of dayjs g) t data) u) (sortedTimePoints dayjs g data) = user_sum data u) /\
  (forall u v, u ∈ topUsers limit data -> v ∈ List.map user_of data -> v ∉ topUsers limit data ->
     user_sum data v <= user_sum data u).
Proof.
  intros H. split_and!.
  - intros u q He. apply (user_entry data (u, q) H). rewrite <- (elem_of_sort_by (falling snd)).
    unfold topUserEntries in He. rewrite <- (take_drop limit (sort_by _ _)). apply elem_of_app. by left.
  - intros u t. by apply user_cell_exact.
  - intros u _. unfold user_sum. rewrite <- (zsum_groups z (time_of dayjs g) (sortedTimePoints dayjs g data) (members user_of u data)).
    + apply zsum_ext. intros t _. f_equal. unfold members. clear.
      induction data as [|x data IH]; [done|]. cbn [List.filter].
      destruct (time_of dayjs g x =?= t) eqn:Et, (user_of x =?= u) eqn:Eu; cbn [List.filter]; rewrite ?Et, ?Eu, IH; done.
    + unfold sortedTimePoints. rewrite (sort_by_perm str_leb). apply NoDup_uniq.
    + intros x [Hx _]%elem_of_lfilter. unfold sortedTimePoints. rewrite elem_of_sort_by, elem_of_uniq, list_elem_of_In.
      apply in_map. by rewrite <- list_elem_of_In.
  - intros u v Hu Hv Hn. unfold topUsers, topUserEntries in Hu, Hn. fold (user_order data) in *.
    assert (Hall : v ∈ List.map fst (user_order data)).
    { unfold user_order. rewrite (sort_by_perm (falling snd)), user_totals, List.map_map. cbn [fst].
      rewrite List.map_id. by apply elem_of_uniq. }
    rewrite list_elem_of_In in Hu. apply in_map_iff in Hu as (eu & <- & Heu). rewrite <- list_elem_of_In in Heu.
    rewrite <- (take_drop limit (user_order data)), List.map_app in Hall. apply elem_of_app in Hall as [?|Hd]; [done|].
    rewrite list_elem_of_In in Hd. apply in_map_iff in Hd as (ev & <- & Hev). rewrite <- list_elem_of_In in Hev.
    apply (StronglySorted_app_1_elem_of (fun a b => user_sum data b.1 <= user_sum data a.1) (take limit (user_order data)) (drop limit (user_order data))); [|done|done].
    rewrite take_drop. by apply user_order_sorted.
Qed.

End Users.

(** ** Preferences *)

(** The object that is stored is plain data. *)
Lemma preferences_parse p : defaultTimeRangeDays p ∈ TIME_RANGE_PRESETS ->
  stringify (preferences_object p) ≫= json_parse = Some (preferences_object p).
Proof.
  intros Hd. assert (Hx : double (defaultTimeRangeDays p) /\ is_finite (defaultTimeRangeDays p) = true /\ canonical (defaultTimeRangeDays p)).
  { unfold TIME_RANGE_PRESETS in Hd. rewrite list_elem_of_In in Hd. apply in_map_iff in Hd as (n & <- & Hn).
    assert (Hr : 0 < n < 2 ^ 53) by (cbn in Hn; lia). pose proof (num_of_Z_double n) as Hdb. split; [exact Hdb|].
    rewrite num_of_Z_exact in * by lia. split; [reflexivity|]. cbn [double canonical] in *. destruct Hdb as [H1 H2].
    split; [exact H1|]. split; [exact H2|]. intros _. by apply Z.ltb_ge; lia. }
  destruct Hx as (H1 & H2 & H3).
  assert (Hu : forall s, forallb (fun c => N.ltb c 65536) s = true -> units_ok s).
  { intros s Hs. apply Forall_forall. intros c Hc. rewrite forallb_forall in Hs. apply N.ltb_lt, Hs. by rewrite <- list_elem_of_In. }
  assert (Hok : val_ok (preferences_object p)).
  { apply val_ok_obj. repeat constructor; cbn [fst snd val_ok]; try exact H1; try (apply Hu; vm_compute; reflexivity);
      apply Hu; [destruct (consumptionDistributionChart p)|destruct (modelAnalyticsChart p)|destruct (defaultTimeGranularity p)];
      vm_compute; reflexivity. }
  assert (Hp : plain (preferences_object p)).
  { cbn [preferences_object plain]. split; [vm_compute; reflexivity|]. split_and!; (exact I || exact H2 || exact H3). }
  destruct (stringify (preferences_object p)) as [t|] eqn:E; [|discriminate].
  cbn [mbind option_bind]. rewrite (json_roundtrip _ t Hok E). by apply plain_norm.
Qed.

Lemma saved_reopened p st : defaultTimeRangeDays p ∈ TIME_RANGE_PRESETS ->
  getSavedChartPreferences (saveChartPreferences p st) = p.
Proof.
  intros Hd. pose proof (preferences_parse p Hd) as Hp. unfold getSavedChartPreferences, saveChartPreferences.
  cbn [preferences]. destruct (stringify (preferences_object p)) as [t|] eqn:E; [|discriminate].
  cbn [mbind option_bind] in Hp. cbn [from_option id default]. rewrite Hp.
  assert (Ht : truthy_str t = true) by (cbn in E; injection E as <-; reflexivity). rewrite Ht. cbn [negb].
  unfold TIME_RANGE_PRESETS in Hd. rewrite list_elem_of_In in Hd. apply in_map_iff in Hd as (n & En & Hn).
  destruct p as [c tb d gr]. cbn [defaultTimeRangeDays] in En. subst d.
  assert (Hi : isTimeRangePresetDays (VNum (num_of_Z n)) = Some (num_of_Z n)).
  { cbn in Hn. destruct Hn as [<-|[<-|[<-|[<-|[]]]]]; vm_compute; reflexivity. }
  change (get_prop (lit "defaultTimeRangeDays") (preferences_object (MkPrefs c tb (num_of_Z n) gr))) with (VNum (num_of_Z n)).
  rewrite Hi. by destruct c, tb, gr.
Qed.

Lemma eqb_whole n x : (0 < n < 2 ^ 53) -> num_eqb (num_of_Z n) x = true -> x = num_of_Z n.
Proof.
  intros Hn. rewrite num_of_Z_exact by lia. rewrite (proj2 (Z.ltb_ge n 0)) by lia.
  unfold num_eqb. destruct x as [|s|s m]; cbn [num_compare]; [done|by destruct s|].
  pose proof one_units_pos as Hu. revert Hu. generalize one_units. intros u Hu. unfold units.
  destruct (Z.compare_spec (Z.of_N (Z.abs_N n * u)) (if s then - Z.of_N m else Z.of_N m)) as [E| |]; [|done..].
  intros _. destruct s; [nia|]. f_equal. lia.
Qed.

(** Whatever the storage holds, the preferences read from it are valid. *)
Lemma saved_valid st : defaultTimeRangeDays (getSavedChartPreferences st) ∈ TIME_RANGE_PRESETS.
Proof.
  assert (Hp : forall v x, isTimeRangePresetDays v = Some x -> x ∈ TIME_RANGE_PRESETS).
  { intros v x. unfold isTimeRangePresetDays. destruct v as [| | |y| | |]; [discriminate|discriminate|discriminate| |discriminate..].
    destruct (existsb _ _) eqn:E; [|discriminate]. intros [= ->]. apply existsb_exists in E as (d & Hin & Hd). rewrite list_elem_of_In.
    enough (x = d) by (subst; exact Hin). unfold TIME_RANGE_PRESETS in Hin. apply in_map_iff in Hin as (n & <- & Hn).
    apply eqb_whole; [|exact Hd]. cbn in Hn. lia. }
  assert (H1 : num_of_Z 1 ∈ TIME_RANGE_PRESETS) by (left).
  unfold getSavedChartPreferences. destruct (negb _); [exact H1|]. destruct (json_parse _) as [parsed|]; [|exact H1].
  cbn [defaultTimeRangeDays]. destruct (isTimeRangePresetDays _) eqn:E; [exact (Hp _ _ E)|exact H1].
Qed.

(** The dashboard reopens with the preferences that were saved, and saving
    another granularity changes nothing else, whatever was stored before. *)
Theorem preferences_kept p gr st :
  defaultTimeRangeDays p ∈ TIME_RANGE_PRESETS ->
  getSavedChartPreferences (saveChartPreferences p st) = p /\
  getSavedGranularity None (saveGranularity gr st) = gr /\
  getSavedChartPreferences (saveGranularity gr st) =
    let q := getSavedChartPreferences st in
    MkPrefs (consumptionDistributionChart q) (modelAnalyticsChart q) (defaultTimeRangeDays q) gr.
Proof.
  intros Hp. assert (Hg : getSavedChartPreferences (saveGranularity gr st) =
    let q := getSavedChartPreferences st in
    MkPrefs (consumptionDistributionChart q) (modelAnalyticsChart q) (defaultTimeRangeDays q) gr).
  { cbv zeta. set (q := getSavedChartPreferences st).
    rewrite <- (saved_reopened (MkPrefs (consumptionDistributionChart q) (modelAnalyticsChart q) (defaultTimeRangeDays q) gr)
                  (MkStorage (Some (granularity_text gr)) None)) by apply saved_valid. reflexivity. }
  split; [exact (saved_reopened p st Hp)|]. split; [|exact Hg]. unfold getSavedGranularity. rewrite Hg. reflexivity.
Qed.

Lemma preferences_kept_witness :
  getSavedChartPreferences (saveChartPreferences (MkPrefs Area Top (num_of_Z 29) Week) (MkStorage None None)) =
  MkPrefs Area Top (num_of_Z 29) Week.
Proof.
  refine (proj1 (preferences_kept (MkPrefs Area Top (num_of_Z 29) Week) Day (MkStorage None None) _)).
  do 3 right. left.
Defined.

(** ** Samples *)

(** The whole number of a member. *)
Definition whole_part (x : option num) : Z :=
  match x with Some (Fin false m) => Z.of_N (m / one_units)%N | _ => 0 end.

Definition sample_item (user model : jstr) (day q c : Z) : QuotaDataItem :=
  MkItem (Some user) (Some model) (num_of_Z (day * 86400)) None (Some (num_of_Z c)) (Some (num_of_Z q)).

(** A stand-in for the date library: the label is the number of the day. *)
Definition day_number : Dayjs :=
  MkDayjs (fun ms => match ms with Fin _ m => dec_of_N (m / one_units / 86400000)%N | _ => [] end) (fun _ => lit "00") (fun ms _ => ms).

Definition sample_data : list QuotaDataItem :=
  [sample_item (lit "ann") (lit "gpt-4o") 30 500 3; sample_item (lit "bob") (lit "claude-3") 30 700 2;
   sample_item (lit "ann") (lit "claude-3") 1 40 1].

Lemma sample_quota : whole quota (fun x => whole_part (quota x)) sample_data.
Proof.
  split; [|vm_compute; reflexivity]. intros x Hx. rewrite list_elem_of_In in Hx.
  destruct Hx as [<-|[<-|[<-|[]]]]; (split; [vm_compute; reflexivity|vm_compute; discriminate]).
Qed.

Lemma sample_count : whole count (fun x => whole_part (count x)) sample_data.
Proof.
  split; [|vm_compute; reflexivity]. intros x Hx. rewrite list_elem_of_In in Hx.
  destruct Hx as [<-|[<-|[<-|[]]]]; (split; [vm_compute; reflexivity|vm_compute; discriminate]).
Qed.

Lemma counts_conserved_witness : totalTimes sample_data = num_of_Z 6.
Proof.
  refine (proj1 (proj2 (counts_conserved sample_data (lit "Other") (fun x => whole_part (count x)) _))).
  exact sample_count.
Defined.

Lemma time_rows_conserved_witness :
  num_sum (List.map rawQuota (line_rows day_number Day (num_of_Z 500000) sample_data (lit "30"))) =
  num_of_Z (at_time day_number Day sample_data (lit "30") (fun x => whole_part (quota x))).
Proof.
  refine (proj1 (proj1 (time_rows_conserved day_number Day (lit "Other") (num_of_Z 500000) sample_data (lit "30")
            (fun x => whole_part (quota x)) (fun x => whole_part (count x)) 500000 _ _ _ _ eq_refl)));
    [exact sample_quota|exact sample_count|reflexivity|reflexivity].
Defined.

(** Ten units of quota are a fifty-thousandth of a dollar and are drawn as zero;
    fifty are drawn. *)
Example small_quota_drawn_as_zero :
  drawn 500000 10 = num_zero /\ drawn 500000 50 = num_of_dec false 1 (-4).
Proof. split; vm_compute; reflexivity. Qed.

Lemma user_charts_exact_witness :
  num_of_Z 700 = num_of_Z (user_sum (fun x => whole_part (quota x)) sample_data (lit "bob")).
Proof.
  refine (proj1 (user_charts_exact day_number Day 1 (fun x => whole_part (quota x)) sample_data _) (lit "bob") _ _);
    [exact sample_quota|].
  apply list_elem_of_In. vm_compute. left. reflexivity.
Defined.

(** With fewer than seven times the charts show the last seven days instead of
    the times of the data: what was used on the first day is in the totals and
    in no bar. *)
Example early_usage_not_drawn :
  (lit "1" ∈ sortedTimes day_number Day sample_data) /\ (lit "1" ∉ chartTimes day_number Day sample_data) /\
  totalQuotaRaw sample_data = num_of_Z 1240 /\
  cell day_number Day s_quota sample_data (lit "1") (lit "claude-3") = num_of_Z 40.
Proof.
  split_and!; [apply (bool_decide_eq_true_1 _)|apply (bool_decide_eq_true_1 _)|..]; vm_compute; reflexivity.
Qed.

(** The labels leave out the year and are sorted as texts: the first of January
    comes before the last of December. *)
Definition new_year : Dayjs :=
  MkDayjs (fun ms => (if num_ltb ms (num_of_Z 1767225600000) then lit "12-31" else lit "01-01")) (fun _ => lit "00") (fun ms _ => ms).

Example new_year_first :
  sortedTimes new_year Day
    [sample_item (lit "ann") (lit "gpt-4o") 20453 1 1; sample_item (lit "ann") (lit "gpt-4o") 20454 1 1] =
  [lit "01-01"; lit "12-31"].
Proof. vm_compute. reflexivity. Qed.
