(* ===== verification/UsageLogs.v ===== *)
(** * Usage logs

    The queries of the log tables ([lib/utils.ts], [lib/filter.ts] and [api.ts]
    of [features/usage-logs]): what a role may ask for, how the URL and the
    column filters become parameters, and which route is called.  Then the
    reading of a log record ([lib/format.ts]): the billing expression it carries
    in base 64, the tier that was matched, and the texts shown for it.  The
    start of the local day and Unicode lower casing are parameters. *)

From S2P Require Import Prelude.
From S2P Require Import JsString.
From S2P Require Import JsNumber.
From S2P Require Import JsDecimal.
From S2P Require Import JsRegex.
From S2P Require Import JsValue.
From S2P Require Import JsBase64.
From S2P Require Import BillingExpr.
From S2P Require Import Pricing.

Local Open Scope N_scope.

(** ** Types of a log record *)

Record LogType := MkLogType { type_value : num; type_label : jstr; type_color : jstr }.

Definition MANAGE : num := num_of_Z 3.

Definition LOG_TYPES : list LogType :=
  [ MkLogType (num_of_Z 0) (lit "Unknown") (lit "default");
    MkLogType (num_of_Z 1) (lit "Top-up") (lit "cyan");
    MkLogType (num_of_Z 2) (lit "Consume") (lit "green");
    MkLogType (num_of_Z 3) (lit "Manage") (lit "orange");
    MkLogType (num_of_Z 4) (lit "System") (lit "purple");
    MkLogType (num_of_Z 5) (lit "Error") (lit "red");
    MkLogType (num_of_Z 6) (lit "Refund") (lit "blue") ].

Definition DISPLAYABLE_LOG_TYPES : list num := List.map num_of_Z [0; 2; 5; 6]%Z.
Definition TIMING_LOG_TYPES : list num := List.map num_of_Z [2; 5]%Z.

Definition isDisplayableLogType (type : num) : bool := existsb (num_eqb type) DISPLAYABLE_LOG_TYPES.
Definition isTimingLogType (type : num) : bool := existsb (num_eqb type) TIMING_LOG_TYPES.

Definition getLogTypeConfig (type : num) : LogType :=
  default (MkLogType (num_of_Z 0) (lit "Unknown") (lit "default"))
    (List.find (fun t => num_eqb (type_value t) type) LOG_TYPES).

Definition getVisibleLogTypes (isAdmin : bool) : list LogType :=
  if isAdmin then LOG_TYPES
  else List.filter (fun t => negb (num_eqb (type_value t) MANAGE)) LOG_TYPES.

Definition normalizeLogTypeFilter (value : jsval) (isAdmin : bool) : option num :=
  match value with
  | VArr [v] =>
      let logType := number_of_val v in
      if existsb (fun t => num_eqb (type_value t) logType) (getVisibleLogTypes isAdmin) then Some logType else None
  | _ => None
  end.

Definition isPerCallBilling (modelPrice : option num) : bool := num_gtb (default num_zero modelPrice) num_zero.

(** ** Parameters of a query *)

(** [v === undefined || v === null || v === '']. *)
Definition blank (v : jsval) : bool := match v with VUndef | VNull | VStr [] => true | _ => false end.

(** The text of an entry that is sent. *)
Definition queried (v : jsval) : option jstr := if blank v then None else Some (string_of_val v).

Definition buildQueryParams (params : jsobj) : list (jstr * jstr) :=
  omap (fun kv => pair kv.1 <$> queried kv.2) params.

Section Queries.
(** [Date.now()] in milliseconds, and [setHours(0, 0, 0, 0)]. *)
Variables (now : num) (startOfDay : num -> num).

Definition getDefaultTimeRange : num * num := (startOfDay now, num_add now (num_of_Z 3600000)).

Definition timestampToSeconds (ms : jsval) : num := num_floor (num_div (number_of_val ms) (num_of_Z 1000)).

Definition convertTimestamp (useMilliseconds : bool) (timestamp : jsval) : jsval :=
  if useMilliseconds then timestamp else VNum (timestampToSeconds timestamp).

Definition getTimestamp (useMilliseconds : bool) (paramTime : jsval) (defaultTime : option num) : jsval :=
  let time := val_or paramTime (match defaultTime with Some d => VNum d | None => VUndef end) in
  if truthy time then convertTimestamp useMilliseconds time else VUndef.

Definition buildTimeRangeParams (searchParams : jsval) (useMilliseconds : bool) : jsobj :=
  let startTime := get_prop (lit "startTime") searchParams in
  let endTime := get_prop (lit "endTime") searchParams in
  let hasTimeParams := truthy (if is_nullish startTime then endTime else startTime) in
  let defaultTimeRange := if hasTimeParams then None else Some getDefaultTimeRange in
  [ (lit "start_timestamp", getTimestamp useMilliseconds startTime (fst <$> defaultTimeRange));
    (lit "end_timestamp", getTimestamp useMilliseconds endTime (snd <$> defaultTimeRange)) ].

(** [...(v ? { k: f(v) } : {})]. *)
Definition member_if (v : jsval) (k : jstr) (f : jsval -> jsval) (o : jsobj) : jsobj :=
  if truthy v then obj_set k (f v) o else o.

Definition buildBaseParams (page pageSize : num) (searchParams : jsval) (useMilliseconds : bool) : jsobj :=
  obj_merge
    (member_if (get_prop (lit "channel") searchParams) (lit "channel_id") (fun v => VStr (string_of_val v))
       [ (lit "p", VNum page); (lit "page_size", VNum pageSize) ])
    (buildTimeRangeParams searchParams useMilliseconds).

Definition opt_num (x : option num) : jsval := match x with Some x => VNum x | None => VUndef end.

(** The conversion of a value under each filterable parameter. *)
Definition text_param (v : jsval) : jsval := VStr (string_of_val v).
Definition channel_param (v : jsval) : jsval := VNum (num_or (number_of_val v) num_zero).
Definition type_param (isAdmin : bool) (v : jsval) : jsval := opt_num (normalizeLogTypeFilter v isAdmin).

(** The parameters of the URL. *)
Definition search_members (searchParams : jsval) (isAdmin : bool) (o : jsobj) : jsobj :=
  let read k := get_prop k searchParams in
  let for_admin (v : jsval) := if isAdmin then v else VBool false in
  member_if (read (lit "upstreamRequestId")) (lit "upstream_request_id") text_param
    (member_if (read (lit "requestId")) (lit "request_id") text_param
      (member_if (for_admin (read (lit "username"))) (lit "username") text_param
        (member_if (for_admin (read (lit "channel"))) (lit "channel") channel_param
          (member_if (read (lit "group")) (lit "group") text_param
            (member_if (read (lit "token")) (lit "token_name") text_param
              (member_if (read (lit "model")) (lit "model_name") text_param
                (member_if (read (lit "type")) (lit "type") (type_param isAdmin) o))))))).

(** One column filter: blank values are skipped, unknown columns ignored. *)
Definition apply_filter (isAdmin : bool) (params : jsobj) (filter : jstr * jsval) : jsobj :=
  let '(id, value) := filter in
  if blank value then params
  else if id =?= lit "type" then obj_set id (type_param isAdmin value) params
  else if (id =?= lit "model_name") || (id =?= lit "token_name") || (id =?= lit "group")
  then obj_set id (text_param value) params
  else if id =?= lit "channel" then if isAdmin then obj_set id (channel_param value) params else params
  else if id =?= lit "username" then if isAdmin then obj_set id (text_param value) params else params
  else params.

Definition buildApiParams (page pageSize : num) (searchParams : jsval) (columnFilters : list (jstr * jsval))
  (isAdmin : bool) : jsobj :=
  let params :=
    obj_merge
      (search_members searchParams isAdmin [ (lit "p", VNum page); (lit "page_size", VNum pageSize) ])
      (buildTimeRangeParams searchParams false) in
  fold_left (apply_filter isAdmin) columnFilters params.

(** ** Requests *)

Record Request := MkRequest { path : jstr; query : list (jstr * jstr) }.

Definition buildApiPath (endpoint : jstr) (isAdmin : bool) : jstr :=
  if isAdmin then endpoint else endpoint ++ lit "/self".

Definition fetchLogs (endpoint : jstr) (params : jsobj) (isAdmin : bool) : Request :=
  let read k := get_prop k (VObj params) in
  MkRequest (buildApiPath endpoint isAdmin)
    (buildQueryParams
       (obj_merge
          [ (lit "p", val_or (read (lit "p")) (VNum (num_of_Z 1)));
            (lit "page_size", val_or (read (lit "page_size")) (VNum (num_of_Z 20))) ]
          params)).

Definition fetchLogStats (endpoint : jstr) (params : jsobj) (isAdmin : bool) : Request :=
  MkRequest (buildApiPath endpoint isAdmin ++ lit "/stat") (buildQueryParams params).

Definition getAllLogs (params : jsobj) : Request := fetchLogs (lit "/api/log") params true.
Definition getUserLogs (params : jsobj) : Request := fetchLogs (lit "/api/log") params false.
Definition getLogStats (params : jsobj) : Request := fetchLogStats (lit "/api/log") params true.
Definition getUserLogStats (params : jsobj) : Request := fetchLogStats (lit "/api/log") params false.
Definition getAllMidjourneyLogs (params : jsobj) : Request := fetchLogs (lit "/api/mj") params true.
Definition getUserMidjourneyLogs (params : jsobj) : Request := fetchLogs (lit "/api/mj") params false.
Definition getAllTaskLogs (params : jsobj) : Request := fetchLogs (lit "/api/task") params true.
Definition getUserTaskLogs (params : jsobj) : Request := fetchLogs (lit "/api/task") params false.

Inductive LogCategory := CommonLogs | DrawingLogs | TaskLogs.

(** The request of a table. *)
Definition fetchLogsByCategory (logCategory : LogCategory) (isAdmin : bool) (page pageSize : num) (searchParams : jsval)
  (columnFilters : list (jstr * jsval)) : Request :=
  let base := buildBaseParams page pageSize searchParams in
  let filter := get_prop (lit "filter") searchParams in
  match logCategory with
  | CommonLogs =>
      let params := buildApiParams page pageSize searchParams columnFilters isAdmin in
      if isAdmin then getAllLogs params else getUserLogs params
  | DrawingLogs =>
      let params := obj_set (lit "mj_id") filter (base true) in
      if isAdmin then getAllMidjourneyLogs params else getUserMidjourneyLogs params
  | TaskLogs =>
      let params := obj_set (lit "task_id") filter (base false) in
      if isAdmin then getAllTaskLogs params else getUserTaskLogs params
  end.

End Queries.

(** ** Filters of the dialog *)

Record LogFilters := MkLogFilters {
  startTime : option num;
  endTime : option num;
  f_channel : option jstr;
  f_model : option jstr;
  f_token : option jstr;
  f_group : option jstr;
  f_username : option jstr;
  f_requestId : option jstr;
  f_upstreamRequestId : option jstr;
  f_mjId : option jstr;
  f_taskId : option jstr
}.

(** [...(s && { k: s })]: an empty text adds nothing. *)
Definition text_member (k : jstr) (s : option jstr) : jsobj :=
  match s with Some (c :: r) => [(k, VStr (c :: r))] | _ => [] end.

Definition time_member (k : jstr) (t : option num) : jsobj :=
  match t with Some t => [(k, VNum t)] | None => [] end.

Definition buildSearchParams (filters : LogFilters) (logCategory : LogCategory) : jsobj :=
  time_member (lit "startTime") (startTime filters) ++ time_member (lit "endTime") (endTime filters) ++
  text_member (lit "channel") (f_channel filters) ++
  match logCategory with
  | CommonLogs =>
      text_member (lit "model") (f_model filters) ++ text_member (lit "token") (f_token filters) ++
      text_member (lit "group") (f_group filters) ++ text_member (lit "username") (f_username filters) ++
      text_member (lit "requestId") (f_requestId filters) ++
      text_member (lit "upstreamRequestId") (f_upstreamRequestId filters)
  | DrawingLogs => text_member (lit "filter") (f_mjId filters)
  | TaskLogs => text_member (lit "filter") (f_taskId filters)
  end.

(** ** The billing expression of a record *)

Definition decodeBillingExprB64 (exprB64 : jsval) : jstr :=
  if negb (truthy exprB64) then []
  else match atob (string_of_val exprB64) with Some bytes => text_decode bytes | None => [] end.

(** ** Tiered billing of a record *)

Definition prop_is (other : jsval) (k w : jstr) : bool :=
  match get_prop k other with VStr s => s =?= w | _ => false end.

Definition prop_true (other : jsval) (k : jstr) : bool := is_true (get_prop k other).

Section Summary.
Variable toLowerCase : jstr -> jstr.

(** A label that is no text makes the comparison throw. *)
Definition resolveMatchedTier (tiers : list ParsedTier) (matchedLabel : jsval) : outcome (option ParsedTier) :=
  match tiers with
  | [] => Ret None
  | _ =>
      if negb (truthy matchedLabel) then Ret None
      else
        match matchedLabel with
        | VStr m =>
            Ret (List.find
                   (fun tier =>
                      let l1 := normalizeTierLabel toLowerCase (Some (tier_label tier)) in
                      let l2 := normalizeTierLabel toLowerCase (Some m) in
                      (l1 =?= l2) && truthy_str l1) tiers)
        | _ => Throws
        end
  end.

Definition positive_member (other : jsval) (k : jstr) : bool :=
  num_gtb (number_of_val (val_or (get_prop k other) (VNum num_zero))) num_zero.

Definition hasAnyCacheTokens (other : jsval) : bool :=
  truthy other &&
  (positive_member other (lit "cache_tokens") || positive_member other (lit "cache_creation_tokens") ||
   positive_member other (lit "cache_creation_tokens_5m") || positive_member other (lit "cache_creation_tokens_1h")).

Record PriceEntry := MkPriceEntry { p_field : jstr; p_shortLabel : jstr; p_price : num }.

Record TieredBillingSummary := MkTiered { sum_tiers : list ParsedTier; sum_tier : ParsedTier; priceEntries : list PriceEntry }.

Definition price_entry (tier : ParsedTier) (cacheTokensPresent : bool) (v : BillingVar) : option PriceEntry :=
  f ← field v;
  if negb (truthy_str f) then None
  else if bool_decide (BillingExpr.group v = Some (js "cache")) && negb cacheTokensPresent then None
  else
    let price := default NaN (obj_get f (tier_prices tier)) in
    if is_finite price && num_gtb price num_zero then Some (MkPriceEntry f (shortLabel v) price) else None.

Definition getTieredBillingSummary (other : jsval) : outcome (option TieredBillingSummary) :=
  if negb (truthy other) || negb (prop_is other (lit "billing_mode") (lit "tiered_expr")) then Ret None
  else
    let exprStr := decodeBillingExprB64 (get_prop (lit "expr_b64") other) in
    if negb (truthy_str exprStr) then Ret None
    else
      let tiers := parseTiersFromExpr exprStr in
      match resolveMatchedTier tiers (get_prop (lit "matched_tier") other) with
      | Throws => Throws
      | Ret None => Ret None
      | Ret (Some tier) =>
          Ret (Some (MkTiered tiers tier (omap (price_entry tier (hasAnyCacheTokens other)) BILLING_PRICING_VARS)))
      end.

End Summary.

(** ** What a record shows *)

Definition PARAM_OVERRIDE_ACTION_MAP : list (jstr * jstr) :=
  [ (lit "set", lit "Set"); (lit "delete", lit "Delete"); (lit "copy", lit "Copy"); (lit "move", lit "Move");
    (lit "append", lit "Append"); (lit "prepend", lit "Prepend"); (lit "trim_prefix", lit "Trim Prefix");
    (lit "trim_suffix", lit "Trim Suffix"); (lit "ensure_prefix", lit "Ensure Prefix");
    (lit "ensure_suffix", lit "Ensure Suffix"); (lit "trim_space", lit "Trim Space"); (lit "to_lower", lit "To Lower");
    (lit "to_upper", lit "To Upper"); (lit "replace", lit "Replace"); (lit "regex_replace", lit "Regex Replace");
    (lit "set_header", lit "Set Header"); (lit "delete_header", lit "Delete Header");
    (lit "copy_header", lit "Copy Header"); (lit "move_header", lit "Move Header");
    (lit "pass_headers", lit "Pass Headers"); (lit "sync_fields", lit "Sync Fields");
    (lit "return_error", lit "Return Error") ].

Definition getParamOverrideActionLabel (toLowerCase t : jstr -> jstr) (action : jstr) : jstr :=
  match obj_get (toLowerCase action) PARAM_OVERRIDE_ACTION_MAP with Some key => t key | None => action end.

(** The action and the content of a line. *)
Definition parseAuditLine (line : jstr) : jstr * jstr :=
  match index_of (lit " ") line with
  | None | Some O => (line, line)
  | Some firstSpace => (take firstSpace line, drop (S firstSpace) line)
  end.

Definition isViolationFeeLog (other : jsval) : bool :=
  truthy other &&
  (prop_true other (lit "violation_fee") || truthy (get_prop (lit "violation_fee_code") other) ||
   truthy (get_prop (lit "violation_fee_marker") other)).

Definition isQiniuLocalOfficialLedgerObservation (other : jsval) : bool :=
  prop_is other (lit "billing_source") (lit "qiniu_official_ledger") &&
  prop_true other (lit "qiniu_official_ledger_pending") && negb (prop_true other (lit "qiniu_official_ledger_log")).

Definition isQiniuOfficialLedgerLog (other : jsval) : bool :=
  prop_is other (lit "billing_source") (lit "qiniu_official_ledger") && prop_true other (lit "qiniu_official_ledger_log").

Definition isQiniuMarketRealtimeLog (other : jsval) : bool :=
  prop_is other (lit "billing_source") (lit "qiniu_market_realtime") &&
  prop_is other (lit "price_source") (lit "qiniu_market").

Definition isQiniuCostDetailBucketLog (other : jsval) : bool :=
  prop_is other (lit "billing_source") (lit "qiniu_cost_detail_bucket").

Definition ledger_regex : regex :=
  seq_of [RBegin; ROpt (RLit (js "七牛")); RLit (js "官方用量同步"); RAlt (RLit (js "消费")) (RLit (js "退款")); RLit (js "：")].

Definition sanitizeQiniuOfficialLedgerContent (content : jstr) : jstr := replace_first ledger_regex (fun _ => []) content.

(** The content under a label, which is put in front when it is missing. *)
Definition labelled (lbl content : jstr) : jstr :=
  if includes_sub lbl content then content else lbl ++ js " · " ++ content.

Definition getUsageLogDisplayContent (log_content : option jstr) (other : jsval) : jstr :=
  let content := default [] log_content in
  if isQiniuMarketRealtimeLog other then
    let label := js "市场价实时扣费" in
    labelled label (replace_all (RLit (js "七牛市场价实时扣费")) label content)
  else if isQiniuCostDetailBucketLog other then
    labelled (js "账单延迟对账调整") (replace_all (RLit (js "七牛 cost-detail 延迟对账")) (js "账单延迟对账") content)
  else if negb (isQiniuOfficialLedgerLog other) then content
  else sanitizeQiniuOfficialLedgerContent content.

(** The first input and the first output price of the items. *)
Definition ledger_step (prices : list (jstr * jstr)) (item : PriceItem) : list (jstr * jstr) :=
  let k := detailKey item in
  if negb ((k =?= lit "input") || (k =?= lit "output")) || includes k (List.map fst prices) then prices
  else prices ++ [(k, formatted item)].

Definition getQiniuOfficialLedgerPriceItems (model : option PricingModel) : list (jstr * jstr) :=
  match model with
  | None => []
  | Some m => fold_left ledger_step (formatQiniuMarketPriceItems m (Some UnitM)) []
  end.

(** [x.toPrecision(p)]: the [p] digits nearest to [|x|], for a tie the larger. *)
Definition to_precision (x : num) (p : N) : jstr :=
  match x with
  | Fin s m =>
      let point_after (k : nat) (ds : jstr) : jstr :=
        match drop k ds with [] => ds | r => take k ds ++ 46 :: r end in
      if m =? 0 then point_after 1%nat (zeros (N.to_nat p))
      else
        let e0 := dec_exp m in
        let k := (Z.of_N p - 1 - e0)%Z in
        let '(a, b) := if (0 <=? k)%Z then (m * 10 ^ Z.to_N k, one_units) else (m, one_units * 10 ^ Z.to_N (- k)) in
        let n0 := (2 * a + b) / (2 * b) in
        let '(n, e) := if n0 =? 10 ^ p then (10 ^ (p - 1), (e0 + 1)%Z) else (n0, e0) in
        let ds := dec_of_N n in
        let sign := if s then [45] else [] in
        sign ++
        (if (e <? -6)%Z || (Z.of_N p <=? e)%Z then
           point_after 1%nat ds ++ lit "e" ++ (if (e <? 0)%Z then [45] else [43]) ++ dec_of_N (Z.abs_N e)
         else if (0 <=? e)%Z then point_after (S (Z.to_nat e)) ds
         else lit "0." ++ zeros (Z.to_nat (- e - 1)) ++ ds)
  | _ => string_of_num x
  end.

Definition realtime_zeros_regex : regex := seq_of [ROpt (RLit (lit ".")); RPlus (RLit (lit "0")); REnd].

Definition stripQiniuRealtimeTrailingZeros (value : num) : jstr :=
  if num_eqb value num_zero then lit "0"
  else if num_geb (num_abs value) (num_of_Z 1) then replace_first realtime_zeros_regex (fun _ => []) (to_fixed value 6)
  else replace_first realtime_zeros_regex (fun _ => []) (to_precision value 6).

(** A price and its size, when both are usable. *)
Definition sized_price (unitPrice unitSize : jsval) : option (num * num) :=
  if is_nullish unitPrice || is_nullish unitSize || num_leb (number_of_val unitSize) num_zero then None
  else
    let value := number_of_val unitPrice in
    let size := number_of_val unitSize in
    if negb (is_finite value) || negb (is_finite size) then None else Some (value, size).

Definition formatQiniuMarketRealtimeCNYTokenPrice (unitPrice unitSize : jsval) : jstr :=
  match sized_price unitPrice unitSize with
  | None => []
  | Some (value, size) =>
      js "¥" ++ stripQiniuRealtimeTrailingZeros (num_div (num_mul value (num_of_Z 1000)) size) ++ lit "/k"
  end.

Definition formatQiniuMarketRealtimeCNYUnitPrice (unitPrice unitSize unitName : jsval) : jstr :=
  match sized_price unitPrice unitSize with
  | None => []
  | Some (value, size) =>
      let normalizedUnitName :=
        match unitName with VStr n => if truthy_str (trim n) then trim n else lit "unit" | _ => lit "unit" end in
      let unitLabel :=
        if num_eqb size (num_of_Z 1) then normalizedUnitName else string_of_num size ++ lit " " ++ normalizedUnitName in
      js "¥" ++ stripQiniuRealtimeTrailingZeros value ++ lit "/" ++ unitLabel
  end.

Definition getQiniuMarketRealtimePriceItems (other : jsval) : list (jstr * jstr) :=
  if negb (isQiniuMarketRealtimeLog other) then []
  else
    let read k := get_prop k other in
    let shown k s := if truthy_str s then [(k, s)] else [] in
    let unit :=
      formatQiniuMarketRealtimeCNYUnitPrice (read (lit "qiniu_market_unit_price"))
        (read (lit "qiniu_market_unit_size")) (read (lit "qiniu_market_unit_name")) in
    if truthy_str unit then [(lit "unit", unit)]
    else
      shown (lit "input")
        (formatQiniuMarketRealtimeCNYTokenPrice (read (lit "qiniu_market_input_unit_price"))
           (read (lit "qiniu_market_input_unit_size"))) ++
      shown (lit "output")
        (formatQiniuMarketRealtimeCNYTokenPrice (read (lit "qiniu_market_output_unit_price"))
           (read (lit "qiniu_market_output_unit_size"))).

Definition getQiniuMarketRealtimeBillingModeLabel (other : jsval) : jstr :=
  if prop_is other (lit "qiniu_market_billing_mode") (lit "unit") then lit "Per-call" else lit "Per-token".

(** Text that is no JSON, and no text, is [null]. *)
Definition parseLogOther (other : jstr) : jsval :=
  if negb (truthy_str other) then VNull else default VNull (json_parse other).

Inductive Variant := Success | Warning | Danger.

Definition getTimeColor (seconds : num) : Variant :=
  if num_ltb seconds (num_of_Z 10) then Success else if num_ltb seconds (num_of_Z 30) then Warning else Danger.

Definition getFirstResponseTimeColor (seconds : num) : Variant :=
  if num_ltb seconds (num_of_Z 5) then Success else if num_ltb seconds (num_of_Z 10) then Warning else Danger.

Definition getThroughputColor (tokensPerSecond : num) : Variant :=
  if num_geb tokensPerSecond (num_of_Z 30) then Success
  else if num_geb tokensPerSecond (num_of_Z 15) then Warning else Danger.

Definition getResponseTimeColor (seconds completionTokens : num) : Variant :=
  if num_ltb completionTokens (num_of_Z 100) || num_leb seconds num_zero then getTimeColor seconds
  else getThroughputColor (num_div completionTokens seconds).

(** The name shown, and the model a mapped request was sent to. *)
Definition formatModelName (model_name other : jstr) : jstr * bool * jsval :=
  let other := parseLogOther other in
  let upstream := get_prop (lit "upstream_model_name") other in
  let isMapped := truthy (get_prop (lit "is_model_mapped") other) && truthy upstream in
  (if model_name =?= lit "qiniu_cost_detail_bucket" then lit "billing-settlement" else model_name,
   isMapped, if isMapped then upstream else VUndef).

Definition formatDuration (submitTime finishTime : option num) (milliseconds : bool) : option (num * bool) :=
  match submitTime, finishTime with
  | Some s, Some f =>
      if negb (truthy_num s) || negb (truthy_num f) then None
      else
        let d := num_sub f s in
        let durationSec := if milliseconds then num_div d (num_of_Z 1000) else d in
        Some (durationSec, num_gtb durationSec (num_of_Z 60))
  | _, _ => None
  end.
