(* ===== verification/UsageLogsFacts.v ===== *)
(** * Facts about the usage logs

    What a role can ask for, the exact query of a table of common logs, the
    reading of the billing expression the server stores in a record, and the
    prices shown for it. *)

From S2P Require Import Prelude.
From S2P Require Import JsString.
From S2P Require Import JsNumber.
From S2P Require Import JsDecimal.
From S2P Require Import JsRegex.
From S2P Require Import JsValue.
From S2P Require Import JsBase64.
From S2P Require Import BillingExpr.
From S2P Require Import UsageLogs.

Local Open Scope N_scope.

(** ** Queries *)

Lemma query_get k (o : jsobj) : NoDup (obj_keys o) -> obj_get k (buildQueryParams o) = obj_get k o ≫= queried.
Proof.
  induction o as [|[k1 v1] o IH]; intros Hn; [done|].
  cbn [obj_keys List.map fst] in Hn. apply NoDup_cons in Hn as [Hk Hn]. specialize (IH Hn).
  unfold buildQueryParams in *. cbn [omap list_omap fst snd obj_get]. case_bool_decide as E.
  - subst k1. cbn [mbind option_bind]. destruct (queried v1) as [s|]; cbn [fmap option_fmap option_map].
    + cbn [obj_get]. by rewrite bool_decide_true.
    + rewrite IH. destruct (obj_get k o) eqn:Eg; [exfalso; apply Hk, obj_keys_get; by eexists|done].
  - destruct (queried v1) as [s|]; cbn [fmap option_fmap option_map]; [|done].
    cbn [obj_get]. by rewrite bool_decide_false.
Qed.

Lemma member_get k v k' f (o : jsobj) :
  obj_get k (member_if v k' f o) = if k =?= k' then (if truthy v then Some (f v) else obj_get k o) else obj_get k o.
Proof. unfold member_if. destruct (truthy v); [|by case_bool_decide]. by rewrite obj_get_set. Qed.

Lemma member_NoDup v k f (o : jsobj) : NoDup (obj_keys o) -> NoDup (obj_keys (member_if v k f o)).
Proof. unfold member_if. destruct (truthy v); eauto using obj_set_NoDup. Qed.

Lemma merge_keys (a b : jsobj) : NoDup (obj_keys a) -> NoDup (obj_keys (obj_merge a b)).
Proof. unfold obj_merge. revert a. induction b as [|[k v] b IH]; intros a Ha; cbn; [done|]. by apply IH, obj_set_NoDup. Qed.

(** A parameter with a column: its name, the name in the URL, whether it is
    reserved to administrators, and how a value is converted. *)
Record Param := MkParam { p_name : jstr; p_url : jstr; p_admin : bool; p_conv : bool -> jsval -> jsval }.

Definition PARAMS : list Param :=
  [ MkParam (lit "type") (lit "type") false type_param;
    MkParam (lit "model_name") (lit "model") false (fun _ => text_param);
    MkParam (lit "token_name") (lit "token") false (fun _ => text_param);
    MkParam (lit "group") (lit "group") false (fun _ => text_param);
    MkParam (lit "channel") (lit "channel") true (fun _ => channel_param);
    MkParam (lit "username") (lit "username") true (fun _ => text_param) ].

Definition allowed (p : Param) (isAdmin : bool) : bool := isAdmin || negb (p_admin p).

(** The last usable filter of the column. *)
Definition column_value (p : Param) (filters : list (jstr * jsval)) : option jsval :=
  last (omap (fun f => if (f.1 =?= p_name p) && negb (blank f.2) then Some f.2 else None) filters).

(** The value that counts: the column's filter, or else that of the URL. *)
Definition chosen (p : Param) (filters : list (jstr * jsval)) (searchParams : jsval) : option jsval :=
  match column_value p filters with
  | Some v => Some v
  | None => let v := get_prop (p_url p) searchParams in if truthy v then Some v else None
  end.

(** Decides the tests of literal names. *)
Ltac decide_names :=
  repeat match goal with
  | |- context [bool_decide (?a = ?b)] =>
      first [ rewrite (bool_decide_false (a = b)) by (intros ?; discriminate)
            | rewrite (bool_decide_true (a = b)) by reflexivity ]
  end.

Lemma PARAMS_ind (P : Param -> Prop) : Forall P PARAMS -> forall p, p ∈ PARAMS -> P p.
Proof. intros H. by rewrite Forall_forall in H. Qed.

Lemma filter_get isAdmin params f p : p ∈ PARAMS ->
  obj_get (p_name p) (apply_filter isAdmin params f) =
  if allowed p isAdmin && ((f.1 =?= p_name p) && negb (blank f.2)) then Some (p_conv p isAdmin f.2)
  else obj_get (p_name p) params.
Proof.
  revert p. apply PARAMS_ind. destruct f as [id v]. unfold apply_filter. cbn [fst snd].
  destruct (blank v); [by repeat constructor; cbn [negb]; rewrite !andb_false_r|].
  unfold PARAMS, allowed; repeat constructor; cbn [p_name p_admin p_conv negb];
  repeat (case_bool_decide; [subst id; decide_names; cbn [orb andb negb]; destruct isAdmin;
                             rewrite ?obj_get_set; decide_names; reflexivity|]);
  cbn [orb andb]; rewrite ?andb_false_r; reflexivity.
Qed.

Lemma filters_get isAdmin filters params p : p ∈ PARAMS ->
  obj_get (p_name p) (fold_left (apply_filter isAdmin) filters params) =
  if allowed p isAdmin then
    match column_value p filters with Some v => Some (p_conv p isAdmin v) | None => obj_get (p_name p) params end
  else obj_get (p_name p) params.
Proof.
  intros Hp. induction filters as [|f filters IH] using rev_ind; [by destruct (allowed p isAdmin)|].
  rewrite fold_left_app. cbn [fold_left]. rewrite filter_get, IH by done. unfold column_value. rewrite omap_app, last_app.
  destruct (allowed p isAdmin); [|done]. cbn [andb omap list_omap].
  by destruct ((f.1 =?= p_name p) && negb (blank f.2)).
Qed.

Lemma filter_NoDup isAdmin filters params :
  NoDup (obj_keys params) -> NoDup (obj_keys (fold_left (apply_filter isAdmin) filters params)).
Proof.
  revert params. induction filters as [|[id v] filters IH]; intros params H; [done|]. cbn [fold_left]. apply IH.
  unfold apply_filter. repeat case_test; auto using obj_set_NoDup.
Qed.

Section Requests.
Variables (now : num) (startOfDay : num -> num) (page pageSize : num).
Variables (searchParams : jsval) (filters : list (jstr * jsval)) (isAdmin : bool).

Let url_params := search_members searchParams isAdmin [(lit "p", VNum page); (lit "page_size", VNum pageSize)].

Lemma url_NoDup : NoDup (obj_keys url_params).
Proof.
  unfold url_params, search_members. do 8 apply member_NoDup. apply (bool_decide_eq_true_1 _). vm_compute. reflexivity.
Qed.

Lemma url_get p : p ∈ PARAMS ->
  obj_get (p_name p) url_params =
  if allowed p isAdmin then
    let v := get_prop (p_url p) searchParams in if truthy v then Some (p_conv p isAdmin v) else None
  else None.
Proof.
  revert p. apply PARAMS_ind. unfold PARAMS, url_params, search_members, allowed.
  repeat constructor; cbn [p_name p_url p_admin p_conv negb orb]; rewrite !member_get; decide_names;
  destruct isAdmin; cbn [orb]; cbn [obj_get]; decide_names; reflexivity.
Qed.

Lemma params_NoDup : NoDup (obj_keys (buildApiParams now startOfDay page pageSize searchParams filters isAdmin)).
Proof. unfold buildApiParams. apply filter_NoDup, merge_keys, url_NoDup. Qed.

Lemma params_get p : p ∈ PARAMS ->
  obj_get (p_name p) (buildApiParams now startOfDay page pageSize searchParams filters isAdmin) =
  if allowed p isAdmin then p_conv p isAdmin <$> chosen p filters searchParams else None.
Proof.
  intros Hp. unfold buildApiParams. rewrite filters_get by done. fold url_params.
  rewrite obj_get_merge by (apply (bool_decide_eq_true_1 _); reflexivity).
  replace (obj_get (p_name p) (buildTimeRangeParams now startOfDay searchParams false)) with (@None jsval).
  2: { revert p Hp. apply PARAMS_ind. unfold buildTimeRangeParams, PARAMS.
       repeat constructor; cbn [p_name obj_get]; decide_names; reflexivity. }
  rewrite url_get by done. unfold chosen. destruct (allowed p isAdmin); [|done].
  destruct (column_value p filters); [done|]. cbv zeta. by destruct (truthy _).
Qed.

Lemma common_query p : p ∈ PARAMS ->
  obj_get (p_name p) (query (fetchLogsByCategory now startOfDay CommonLogs isAdmin page pageSize searchParams filters)) =
  if allowed p isAdmin then chosen p filters searchParams ≫= (fun v => queried (p_conv p isAdmin v)) else None.
Proof.
  intros Hp. unfold fetchLogsByCategory, getAllLogs, getUserLogs.
  assert (H : forall e (b : bool), obj_get (p_name p) (query (fetchLogs e
    (buildApiParams now startOfDay page pageSize searchParams filters isAdmin) b)) =
    obj_get (p_name p) (buildApiParams now startOfDay page pageSize searchParams filters isAdmin) ≫= queried).
  { intros e b. unfold fetchLogs. cbn [query]. rewrite query_get.
    - rewrite obj_get_merge by apply params_NoDup. destruct (obj_get (p_name p) _); [done|].
      revert p Hp. apply PARAMS_ind. unfold PARAMS. repeat constructor; cbn [p_name obj_get]; decide_names; reflexivity.
    - apply merge_keys. apply (bool_decide_eq_true_1 _). reflexivity. }
  transitivity (obj_get (p_name p) (buildApiParams now startOfDay page pageSize searchParams filters isAdmin) ≫= queried);
    [destruct isAdmin; apply H|].
  rewrite params_get by done. destruct (allowed p isAdmin); [|done]. by destruct (chosen p filters searchParams).
Qed.

End Requests.

(** Equal numbers print alike. *)
Lemma string_of_eqb x y : num_eqb x y = true -> string_of_num x = string_of_num y.
Proof.
  intros H. assert (E : x = y \/ (exists s t, x = Fin s 0 /\ y = Fin t 0)).
  { unfold num_eqb, num_compare in H. destruct x as [|[]|s m], y as [|[]|t n]; try discriminate; [by left..|].
    destruct (Z.compare_spec (units s m) (units t n)) as [E|?|?]; try discriminate.
    destruct (N.eq_dec m 0) as [->|Hm], (N.eq_dec n 0) as [->|Hn]; [right; by eexists _, _|..];
      destruct s, t; cbn [units] in E; try lia; left; f_equal; lia. }
  destruct E as [->|(s & t & -> & ->)]; reflexivity.
Qed.

Lemma log_type_texts : List.map (fun t => string_of_num (type_value t)) (getVisibleLogTypes false) =
  List.map dec_of_N [0; 1; 2; 4; 5; 6].
Proof. vm_compute. reflexivity. Qed.

Lemma visible_type v : queried (type_param false v) = None \/
  exists n, queried (type_param false v) = Some (dec_of_N n) /\ n ∈ [0; 1; 2; 4; 5; 6].
Proof.
  unfold type_param, normalizeLogTypeFilter.
  destruct v as [| | | | |[|x [|? ?]]|]; try (by left). cbv zeta.
  destruct (existsb _ _) eqn:E; [right|by left]. cbn [opt_num queried blank string_of_val].
  apply existsb_exists in E as (t & Ht & E). rewrite <- (string_of_eqb _ _ E).
  assert (Hs : string_of_num (type_value t) ∈ List.map dec_of_N [0; 1; 2; 4; 5; 6]).
  { rewrite <- log_type_texts. apply list_elem_of_In, (in_map (fun t => string_of_num (type_value t))), Ht. }
  apply list_elem_of_In, in_map_iff in Hs as (n & Hn & Hin). exists n. split; [by rewrite Hn|by apply list_elem_of_In].
Qed.

(** The query of the common logs is exact: for every parameter with a column
    it holds the last filter of that column that is not blank, and otherwise the
    value of the URL, converted for the server; the channel and the user are
    asked for by administrators only, and a type the role may not see is left
    out, even when another value would have been in the URL. *)
Theorem log_query_exact now startOfDay page pageSize searchParams filters isAdmin :
  Forall (fun p =>
      obj_get (p_name p)
        (query (fetchLogsByCategory now startOfDay CommonLogs isAdmin page pageSize searchParams filters)) =
      if allowed p isAdmin then chosen p filters searchParams ≫= (fun v => queried (p_conv p isAdmin v)) else None)
    PARAMS.
Proof. apply Forall_forall. intros p. apply common_query. Qed.

(** C30: whatever the URL and the table say, a user who is no administrator calls
    the routes for the own records only, never names a user or a channel in a
    query of the common logs, and asks for no other type than the six that are
    visible, so never for the records of the administration. *)
Theorem user_query_restricted now startOfDay page pageSize searchParams filters :
  let request category := fetchLogsByCategory now startOfDay category false page pageSize searchParams filters in
  let asked k := obj_get k (query (request CommonLogs)) in
  (forall category, path (request category) ∈ [lit "/api/log/self"; lit "/api/mj/self"; lit "/api/task/self"]) /\
  asked (lit "username") = None /\ asked (lit "channel") = None /\
  (asked (lit "type") = None \/ exists n, asked (lit "type") = Some (dec_of_N n) /\ n ∈ [0; 1; 2; 4; 5; 6]).
Proof.
  assert (H := common_query now startOfDay page pageSize searchParams filters false).
  intros request asked. split_and!.
  - intros category. apply (bool_decide_eq_true_1 _). by destruct category.
  - refine (H (MkParam (lit "username") (lit "username") true (fun _ => text_param)) _). do 5 right; left.
  - refine (H (MkParam (lit "channel") (lit "channel") true (fun _ => channel_param)) _). do 4 right; left.
  - assert (Ht : asked (lit "type") = chosen (MkParam (lit "type") (lit "type") false type_param) filters searchParams ≫=
                  (fun v => queried (type_param false v))).
    { refine (H (MkParam (lit "type") (lit "type") false type_param) _). left. }
    rewrite Ht. destruct (chosen _ _ _) as [v|]; [apply visible_type|by left].
Qed.

(** ** The stored billing expression *)

(** What the server writes: the standard base 64 of the UTF-8 of the text. *)
Definition stored_expr (l : list N) : jstr := b64_encode (List.flat_map utf8_of_point l).

Lemma decode_stored l : Forall scalar l -> head l <> Some 65279 ->
  decodeBillingExprB64 (VStr (stored_expr l)) = utf16_of_points l.
Proof.
  intros Hl Hh. unfold decodeBillingExprB64. cbn [truthy string_of_val].
  assert (E : atob (stored_expr l) = Some (List.flat_map utf8_of_point l)) by (apply atob_encoded, utf8_points, Hl).
  rewrite E, text_decode_points by done. destruct (stored_expr l); [|done].
  change (atob []) with (Some (@nil N)) in E. injection E as E. rewrite <- (text_decode_points l Hl Hh), <- E. reflexivity.
Qed.

(** C31: the billing expression that the server stores in a record (the base 64
    of its UTF-8) is read back unchanged, whatever characters it holds, unless
    it starts with a byte order mark. *)
Theorem stored_expr_roundtrip l :
  Forall scalar l -> head l <> Some 65279 -> decodeBillingExprB64 (VStr (stored_expr l)) = utf16_of_points l.
Proof. apply decode_stored. Qed.

Lemma stored_expr_roundtrip_witness :
  decodeBillingExprB64 (VStr (js "dGllcigi5Z+6IiwgcCAqIDIp")) = jq "tier('基', p * 2)".
Proof.
  refine (stored_expr_roundtrip (jq "tier('基', p * 2)") _ _).
  - apply (bool_decide_eq_true_1 (Forall (fun p => p < 55296 \/ 57344 <= p < 1114112) _)). vm_compute. reflexivity.
  - vm_compute. discriminate.
Defined.

(** ** Prices of a tiered record *)

Section Tiered.
Variable toLowerCase : jstr -> jstr.

(** The tier carries the label the server matched, up to the normalization. *)
Definition labelled_as (m : jstr) (t : ParsedTier) : Prop :=
  let l := normalizeTierLabel toLowerCase (Some (tier_label t)) in
  l = normalizeTierLabel toLowerCase (Some m) /\ l <> [].

Lemma resolve_text tiers m : m <> [] ->
  exists found, resolveMatchedTier toLowerCase tiers (VStr m) = Ret found /\
  match found with
  | Some t => exists before after, tiers = before ++ t :: after /\ labelled_as m t /\ Forall (fun u => ~ labelled_as m u) before
  | None => Forall (fun u => ~ labelled_as m u) tiers
  end.
Proof.
  intros Hm. set (test := fun tier : ParsedTier =>
    (normalizeTierLabel toLowerCase (Some (tier_label tier)) =?= normalizeTierLabel toLowerCase (Some m)) &&
    truthy_str (normalizeTierLabel toLowerCase (Some (tier_label tier)))).
  assert (Hs : forall t, test t = true <-> labelled_as m t).
  { intros t. unfold test, labelled_as. rewrite andb_true_iff, bool_decide_eq_true. cbv zeta.
    destruct (normalizeTierLabel toLowerCase (Some (tier_label t))); cbn [truthy_str]; split; intros [? ?]; by split. }
  exists (List.find test tiers). split; [destruct tiers; [done|by destruct m]|].
  induction tiers as [|t tiers IH]; [by constructor|]. cbn [List.find]. destruct (test t) eqn:E.
  - exists [], tiers. split_and!; [done|by apply Hs|constructor].
  - assert (Hn : ~ labelled_as m t) by (rewrite <- Hs, E; discriminate).
    destruct (List.find test tiers) as [u|]; [|by constructor].
    destruct IH as (before & after & -> & Hu & Hb). exists (t :: before), after. split_and!; [done|done|by constructor].
Qed.

(** The variables with a price, each with its field. *)
Lemma entry_exact t cached e :
  e ∈ omap (price_entry t cached) BILLING_PRICING_VARS <->
  exists v, v ∈ BILLING_PRICING_VARS /\ field v = Some (p_field e) /\ shortLabel v = p_shortLabel e /\
    obj_get (p_field e) (tier_prices t) = Some (p_price e) /\ is_finite (p_price e) = true /\
    num_gtb (p_price e) num_zero = true /\ (BillingExpr.group v = Some (js "cache") -> cached = true).
Proof.
  rewrite list_elem_of_omap. assert (Hf : forall v f, v ∈ BILLING_PRICING_VARS -> field v = Some f -> truthy_str f = true).
  { intros v f Hv Hf. assert (Hall : forallb (fun v => match field v with Some f => truthy_str f | None => true end)
      BILLING_PRICING_VARS = true) by (vm_compute; reflexivity).
    rewrite forallb_forall in Hall. apply list_elem_of_In in Hv. apply Hall in Hv. by rewrite Hf in Hv. }
  split; intros (v & Hv & H).
  - exists v. split; [done|]. unfold price_entry in H. destruct (field v) as [f|] eqn:Ef; [|discriminate H].
    cbn [mbind option_bind] in H. rewrite (Hf v f Hv Ef) in H. cbn [negb] in H.
    destruct (_ && negb cached) eqn:Ec; [discriminate H|]. destruct (obj_get f (tier_prices t)) as [x|] eqn:Ex; [|discriminate H].
    cbn [default from_option id] in H. destruct (is_finite x && num_gtb x num_zero) eqn:Ep; [|discriminate H].
    injection H as <-. cbn [p_field p_shortLabel p_price]. apply andb_true_iff in Ep as [? ?]. split_and!; try assumption; [reflexivity..|].
    intros Hg. rewrite bool_decide_true in Ec by exact Hg. cbn in Ec. by apply negb_false_iff.
  - destruct H as (Ef & El & Ex & Hfin & Hpos & Hc). exists v. split; [done|]. unfold price_entry. rewrite Ef. cbn [mbind option_bind].
    rewrite (Hf v _ Hv Ef), Ex. cbn [negb default from_option id]. rewrite Hfin, Hpos, El. cbn [andb].
    replace (_ && negb cached) with false; [by destruct e|]. symmetry. destruct (decide (BillingExpr.group v = Some (js "cache"))) as [Hg|Hg].
    + by rewrite (Hc Hg), andb_false_r.
    + by rewrite bool_decide_false.
Qed.

(** C32: for a record billed by a tiered expression the page shows a summary
    exactly when the expression has a tier with the matched label, and never a
    guessed one: the tier is the first with that label among the tiers of the
    stored text, and the prices listed are its finite prices above zero, with
    those of the cache only when the request used the cache. *)
Theorem tiered_summary_exact other l m :
  Forall scalar l -> head l <> Some 65279 -> l <> [] -> m <> [] ->
  get_prop (lit "billing_mode") other = VStr (lit "tiered_expr") ->
  get_prop (lit "expr_b64") other = VStr (stored_expr l) ->
  get_prop (lit "matched_tier") other = VStr m ->
  let tiers := parseTiersFromExpr (utf16_of_points l) in
  exists summary, getTieredBillingSummary toLowerCase other = Ret summary /\
  match summary with
  | None => Forall (fun u => ~ labelled_as m u) tiers
  | Some s =>
      sum_tiers s = tiers /\ labelled_as m (sum_tier s) /\
      (exists before after, tiers = before ++ sum_tier s :: after /\ Forall (fun u => ~ labelled_as m u) before) /\
      forall e, e ∈ priceEntries s <->
        exists v, v ∈ BILLING_PRICING_VARS /\ field v = Some (p_field e) /\ shortLabel v = p_shortLabel e /\
          obj_get (p_field e) (tier_prices (sum_tier s)) = Some (p_price e) /\ is_finite (p_price e) = true /\
          num_gtb (p_price e) num_zero = true /\
          (BillingExpr.group v = Some (js "cache") -> hasAnyCacheTokens other = true)
  end.
Proof.
  intros Hl Hh Hne Hm Hb He Ht tiers. unfold getTieredBillingSummary, prop_is. rewrite Hb, He, Ht.
  assert (Ho : truthy other = true) by (destruct other; try discriminate Hb; reflexivity).
  rewrite Ho, bool_decide_true, decode_stored by done. cbn [negb orb]. fold tiers.
  assert (Hx : truthy_str (utf16_of_points l) = true).
  { destruct l as [|p l]; [done|]. apply Forall_cons in Hl as [Hp _]. unfold utf16_of_points. cbn [List.flat_map].
    unfold utf16_of_point. by destruct (p <? 65536). }
  rewrite Hx. cbn [negb]. destruct (resolve_text tiers m Hm) as ([t|] & -> & H); eexists; (split; [reflexivity|]); [|exact H].
  destruct H as (before & after & E & Hlab & Hbefore). cbn [sum_tiers sum_tier priceEntries].
  split_and!; [done|done|by exists before, after|]. intros e. apply entry_exact.
Qed.

End Tiered.

Definition sample_expr : jstr := jq "tier('base', p * 2 + c * 8 + cr * 1)".

Definition sample_other : jsval :=
  VObj [ (lit "billing_mode", VStr (lit "tiered_expr")); (lit "expr_b64", VStr (stored_expr sample_expr));
         (lit "matched_tier", VStr (lit "base")); (lit "cache_tokens", VNum num_zero) ].

Lemma tiered_summary_exact_witness :
  exists s, getTieredBillingSummary to_lower sample_other = Ret (Some s) /\ sum_tiers s = parseTiersFromExpr sample_expr.
Proof.
  destruct (tiered_summary_exact to_lower sample_other sample_expr (lit "base")) as ([s|] & E & H);
    [apply (bool_decide_eq_true_1 (Forall (fun p => p < 55296 \/ 57344 <= p < 1114112) _)); vm_compute; reflexivity
    |vm_compute; discriminate|vm_compute; discriminate|discriminate|reflexivity|reflexivity|reflexivity| |].
  - exists s. split; [exact E|]. rewrite (proj1 H). vm_compute. reflexivity.
  - exfalso. vm_compute in E. discriminate E.
Defined.

(** A price without cache usage lists no cache price. *)
Example sample_prices :
  match getTieredBillingSummary to_lower sample_other with
  | Ret (Some s) => List.map p_shortLabel (priceEntries s) = [js "Input"; js "Output"]
  | _ => False
  end.
Proof. vm_compute. reflexivity. Qed.

(** A price far below one is printed with an exponent, and the removal of the
    trailing zeros then removes a digit of the exponent. *)
Example exponent_zero_lost :
  to_precision (num_of_dec false 1 (-10)) 6 = lit "1.00000e-10" /\
  stripQiniuRealtimeTrailingZeros (num_of_dec false 1 (-10)) = lit "1.00000e-1".
Proof. split; vm_compute; reflexivity. Qed.

(** The channel a user names in the URL is left out of the common logs but sent
    with the drawing logs. *)
Example drawing_channel_sent :
  let asked category :=
    obj_get (lit "channel_id") (query (fetchLogsByCategory num_zero id category false (num_of_Z 1) (num_of_Z 20)
      (VObj [(lit "channel", VStr (lit "7"))]) [])) in
  asked CommonLogs = None /\ asked DrawingLogs = Some (lit "7").
Proof. split; vm_compute; reflexivity. Qed.
