(* ===== verification/Notifications.v ===== *)
(** * Notifications

    The notice and the announcements of the console: the store of what was read
    ([stores/notification-store.ts], module [Store]) and the hook that counts
    what was not ([hooks/use-notifications.ts], module [Hook]).  The text of
    today's date and the answers of the server are inputs of the events. *)

From S2P Require Import Prelude.
From S2P Require Import JsString.
From S2P Require Import JsNumber.
From S2P Require Import JsValue.
From S2P Require Import Currency.

Local Open Scope N_scope.

(** ** Store *)

Module Store.

Record State := MkState {
  lastReadNotice : jstr;
  readAnnouncementKeys : list jstr;
  closedUntilDate : option jstr
}.

Definition initial : State := MkState [] [] None.

Definition markNoticeRead (noticeContent : jstr) (s : State) : State :=
  MkState (trim noticeContent) (readAnnouncementKeys s) (closedUntilDate s).

Definition markAnnouncementsRead (keys : list jstr) (s : State) : State :=
  MkState (lastReadNotice s) (uniq (readAnnouncementKeys s ++ keys)) (closedUntilDate s).

Definition setClosedUntilDate (date : option jstr) (s : State) : State :=
  MkState (lastReadNotice s) (readAnnouncementKeys s) date.

Definition isAnnouncementRead (key : jstr) (s : State) : bool := includes key (readAnnouncementKeys s).

Definition isNoticeClosed (today : jstr) (s : State) : bool :=
  match closedUntilDate s with
  | None | Some [] => false
  | Some d => d =?= today
  end.

End Store.

(** ** Hook *)

Module Hook.
Import Store.

(** [n.toString(36)]. *)
Definition digit36 (n : N) : N := if n <? 10 then 48 + n else 87 + n.

Fixpoint digits36 (fuel : nat) (n : N) (acc : jstr) : jstr :=
  match fuel with
  | O => acc
  | S f => let acc' := digit36 (n mod 36) :: acc in if n / 36 =? 0 then acc' else digits36 f (n / 36) acc'
  end.

Definition to_base36 (z : Z) : jstr :=
  (if (z <? 0)%Z then [45] else []) ++ digits36 7 (Z.abs_N z) [].

Definition hashString (input : jstr) : jstr :=
  if negb (truthy_str input) then lit "0" else to_base36 (fold_left hash_step input 0%Z).

Record Announcement := MkAnnouncement {
  a_id : jsval;
  publishDate : option jstr;
  content : option jstr;
  extra : option jstr;
  type : option jstr;
  title : option jstr;
  link : option jstr
}.

Definition fingerprint (item : Announcement) : jstr :=
  let text (s : option jstr) := VStr (default [] s) in
  let trimmed_text (s : option jstr) := VStr (trim (default [] s)) in
  default []
    (stringify (VObj
      [ (lit "publishDate", text (publishDate item)); (lit "content", trimmed_text (content item));
        (lit "extra", trimmed_text (extra item)); (lit "type", text (type item));
        (lit "title", trimmed_text (title item)); (lit "link", trimmed_text (link item)) ])).

Definition getAnnouncementKey (item : Announcement) : jstr :=
  if negb (is_nullish (a_id item)) then lit "id:" ++ string_of_val (a_id item)
  else lit "hash:" ++ hashString (fingerprint item).

Inductive Tab := NoticeTab | AnnouncementsTab.

(** What the server answered at the time of an event. *)
Record Status := MkStatus {
  noticeResponse : option (bool * option jstr);
  announcements_enabled : option bool;
  announcements_sent : option (list Announcement)
}.

Definition announcements (st : Status) : list Announcement :=
  if default false (announcements_enabled st) then take 20 (default [] (announcements_sent st)) else [].

Definition noticeContent (st : Status) : jstr :=
  match noticeResponse st with
  | Some (true, data) => trim (default [] data)
  | _ => []
  end.

Record State := MkHook { store : Store.State; dialogOpen : bool; activeTab : Tab }.

Definition mount (s : Store.State) : State := MkHook s false NoticeTab.

Definition unreadNotice (st : Status) (h : State) : nat :=
  if truthy_str (noticeContent st) && (noticeContent st <?> lastReadNotice (store h)) then 1 else 0.

Definition unreadAnnouncements (st : Status) (h : State) : nat :=
  length (List.filter (fun item => negb (isAnnouncementRead (getAnnouncementKey item) (store h))) (announcements st)).

Definition unreadCount (st : Status) (h : State) : nat := unreadNotice st h + unreadAnnouncements st h.

Definition handleOpenDialog (st : Status) (tab : option Tab) (h : State) : State :=
  let s := if truthy_str (noticeContent st) then markNoticeRead (noticeContent st) (store h) else store h in
  MkHook s true (default NoticeTab tab).

Definition handleTabChange (st : Status) (tab : Tab) (h : State) : State :=
  match tab, announcements st with
  | AnnouncementsTab, _ :: _ =>
      MkHook (markAnnouncementsRead (List.map getAnnouncementKey (announcements st)) (store h)) (dialogOpen h) tab
  | _, _ => MkHook (store h) (dialogOpen h) tab
  end.

Definition handleCloseToday (today : jstr) (h : State) : State :=
  MkHook (setClosedUntilDate (Some today) (store h)) false (activeTab h).

Definition closeDialog (h : State) : State := MkHook (store h) false (activeTab h).

Inductive Event :=
| OpenDialog (st : Status) (tab : option Tab)
| TabChange (st : Status) (tab : Tab)
| CloseToday (today : jstr)
| CloseDialog
| Reload.

(** The store outlives a reload, the state of the dialog does not. *)
Definition step (h : State) (e : Event) : State :=
  match e with
  | OpenDialog st tab => handleOpenDialog st tab h
  | TabChange st tab => handleTabChange st tab h
  | CloseToday today => handleCloseToday today h
  | CloseDialog => closeDialog h
  | Reload => mount (store h)
  end.

Definition run (events : list Event) : State := fold_left step events (mount Store.initial).

End Hook.

(** * Facts *)

Module HookFacts.
Import Store Hook.

(** The keys of the announcements listed when the user changed to their tab. *)
Definition shown_keys (e : Event) : list jstr :=
  match e with TabChange st AnnouncementsTab => List.map getAnnouncementKey (announcements st) | _ => [] end.

(** The notice the dialog was opened with. *)
Definition shown_notice (e : Event) : option jstr :=
  match e with
  | OpenDialog st _ => if truthy_str (noticeContent st) then Some (noticeContent st) else None
  | _ => None
  end.

Lemma content_trimmed st : trim (noticeContent st) = noticeContent st.
Proof. unfold noticeContent. repeat case_match; by rewrite ?trim_idemp. Qed.

Lemma run_snoc es e : run (es ++ [e]) = step (run es) e.
Proof. unfold run. by rewrite fold_left_app. Qed.

Lemma step_notice h e :
  lastReadNotice (store (step h e)) = default (lastReadNotice (store h)) (shown_notice e).
Proof.
  destruct e as [st tab|st [] |today| |]; cbn [step shown_notice]; try reflexivity.
  - unfold handleOpenDialog. destruct (truthy_str _); cbn [store]; [apply content_trimmed|done].
  - unfold handleTabChange. by destruct (announcements st).
Qed.

Lemma step_keys h e k :
  k ∈ readAnnouncementKeys (store (step h e)) <-> k ∈ readAnnouncementKeys (store h) \/ k ∈ shown_keys e.
Proof.
  destruct e as [st tab|st []|today| |]; cbn [step shown_keys].
  - unfold handleOpenDialog. rewrite elem_of_nil. destruct (truthy_str _); cbn; tauto.
  - rewrite elem_of_nil. cbn. tauto.
  - unfold handleTabChange. destruct (announcements st) as [|a l]; [cbn; rewrite elem_of_nil; tauto|].
    cbn [store markAnnouncementsRead readAnnouncementKeys]. by rewrite elem_of_uniq, elem_of_app.
  - rewrite elem_of_nil. cbn. tauto.
  - rewrite elem_of_nil. cbn. tauto.
  - rewrite elem_of_nil. cbn. tauto.
Qed.

Lemma run_keys es k : k ∈ readAnnouncementKeys (store (run es)) <-> k ∈ List.flat_map shown_keys es.
Proof.
  induction es as [|e es IH] using rev_ind; [done|].
  rewrite run_snoc, step_keys, IH, flat_map_app, elem_of_app. cbn [List.flat_map]. by rewrite app_nil_r.
Qed.

Lemma run_notice es : lastReadNotice (store (run es)) = default [] (last (omap shown_notice es)).
Proof.
  induction es as [|e es IH] using rev_ind; [done|]. rewrite run_snoc, step_notice, IH, omap_app, last_app.
  cbn [omap list_omap]. by destruct (shown_notice e).
Qed.

(** An announcement with an identifier shares its key with those that have the
    same one, and with no others. *)
Lemma identified_key a b :
  is_nullish (a_id a) = false ->
  getAnnouncementKey a = getAnnouncementKey b <->
  is_nullish (a_id b) = false /\ string_of_val (a_id a) = string_of_val (a_id b).
Proof.
  intros Ha. unfold getAnnouncementKey. rewrite Ha. cbn [negb]. destruct (is_nullish (a_id b)); cbn [negb].
  - split; [discriminate|by intros [? _]].
  - split; [intros H; split; [done|]; by apply app_inv_head in H|by intros [_ ->]].
Qed.

(** C29: the unread counts, for every history of the page, reloads included.
    Announcements are told apart by their keys: the identifier where there is one,
    and otherwise a 32 bit hash of the texts, which different announcements may
    share.  Each announcement of the list is counted exactly as long as the user has
    not changed to the tab of the announcements while one with its key was listed;
    opening the dialog, on whichever tab, marks no announcement as read.  For an
    announcement with an identifier that means one with the same identifier.  The
    notice is counted exactly when it is not empty and differs from the last one the
    dialog was opened with (on whichever tab). *)
Theorem unread_exact es st :
  unreadAnnouncements st (run es) =
    length (List.filter (fun a => negb (bool_decide (getAnnouncementKey a ∈ List.flat_map shown_keys es))) (announcements st)) /\
  (forall a, is_nullish (a_id a) = false ->
     getAnnouncementKey a ∈ List.flat_map shown_keys es <->
     exists st' b, TabChange st' AnnouncementsTab ∈ es /\ b ∈ announcements st' /\
       is_nullish (a_id b) = false /\ string_of_val (a_id a) = string_of_val (a_id b)) /\
  unreadNotice st (run es) =
    (if truthy_str (noticeContent st) && (noticeContent st <?> default [] (last (omap shown_notice es))) then 1 else 0)%nat.
Proof.
  split_and!.
  - unfold unreadAnnouncements. f_equal. apply filter_ext. intros a. unfold isAnnouncementRead, includes.
    f_equal. apply bool_decide_ext, run_keys.
  - intros a Ha. rewrite list_elem_of_In, in_flat_map. split.
    + intros (e & He & Hk). destruct e as [| st' []| | |]; try by destruct Hk.
      cbn [shown_keys] in Hk. apply in_map_iff in Hk as (b & Hb & Hin). symmetry in Hb.
      apply (identified_key a b Ha) in Hb as [? ?]. exists st', b. rewrite !list_elem_of_In. done.
    + intros (st' & b & He & Hb & Hk). exists (TabChange st' AnnouncementsTab).
      apply (identified_key a b Ha) in Hk. apply list_elem_of_In in He, Hb. split; [done|].
      cbn [shown_keys]. rewrite Hk. by apply in_map.
  - unfold unreadNotice. by rewrite run_notice.
Qed.

(** The dialog opened on the tab of the announcements lists them and leaves them
    unread; only a change to the tab marks them. *)
Example opened_list_stays_unread :
  let st := MkStatus None (Some true) (Some [MkAnnouncement (VNum (num_of_Z 1)) None (Some (lit "News")) None None None None]) in
  let h := run [OpenDialog st (Some AnnouncementsTab)] in
  dialogOpen h = true /\ activeTab h = AnnouncementsTab /\ unreadAnnouncements st h = 1%nat /\
  unreadAnnouncements st (run [OpenDialog st None; TabChange st AnnouncementsTab]) = 0%nat.
Proof. split_and!; vm_compute; reflexivity. Qed.

(** Opening the list empties its count, opening the dialog that of the notice. *)
Lemma opened_all_read es st tab :
  unreadAnnouncements st (run (es ++ [TabChange st AnnouncementsTab])) = 0%nat /\
  unreadNotice st (run (es ++ [OpenDialog st tab])) = 0%nat.
Proof.
  split.
  - unfold unreadAnnouncements. rewrite filter_none; [done|]. apply Forall_forall. intros a Ha.
    apply negb_false_iff, includes_true, run_keys. rewrite flat_map_app. apply elem_of_app. right. cbn. rewrite app_nil_r.
    apply list_elem_of_In, in_map. by apply list_elem_of_In.
  - unfold unreadNotice. rewrite run_snoc, step_notice. cbn [shown_notice].
    destruct (truthy_str (noticeContent st)); [|done]. cbn. by rewrite bool_decide_true.
Qed.

(** Two announcements without identifiers whose texts collide under the 32 bit
    hash have one key: reading the first marks the second as read. *)
Example colliding_announcements :
  let a text := MkAnnouncement VUndef None (Some text) None None None None in
  getAnnouncementKey (a (lit "Aa")) = getAnnouncementKey (a (lit "BB")).
Proof. vm_compute. reflexivity. Qed.

End HookFacts.
