(* ===== verification/ApiClient.v ===== *)
(** * The client of the server

    [lib/api.ts]: every GET request goes through [api_get], which shares the
    promise of a running request with the same key; the interceptors decide what
    the user is told and when the session is dropped.  A request is known by its
    number, the index in the list of all requests sent; the network settles
    requests in any order ([step]). *)

From S2P Require Import Prelude.
From S2P Require Import JsString.
From S2P Require Import JsNumber.
From S2P Require Import JsValue.

(** ** Deduplication *)

(** A request handed to the network: its key is recorded when it is shared, and
    [running] holds until its promise settles. *)
Record Request := MkRequest { url : jstr; config : jsval; shared_key : option jstr; running : bool }.

Record Client := MkClient { inFlightGet : list (jstr * nat); requests : list Request }.

Definition initial : Client := MkClient [] [].

Definition originalGet (u : jstr) (c : jsval) (k : option jstr) (s : Client) : nat * Client :=
  (length (requests s), MkClient (inFlightGet s) (requests s ++ [MkRequest u c k true])).

Definition request_key (u : jstr) (c : jsval) : jstr :=
  let params := get_prop (lit "params") c in
  u ++ lit "?" ++ (if truthy params then default (lit "undefined") (stringify params) else lit "{}").

(** The number of the request whose promise the caller gets, and the client. *)
Definition api_get (u : jstr) (c : jsval) (s : Client) : nat * Client :=
  if truthy (get_prop (lit "disableDuplicate") c) then originalGet u c None s
  else
    let k := request_key u c in
    match obj_get k (inFlightGet s) with
    | Some n => (n, s)
    | None =>
        let '(n, s') := originalGet u c (Some k) s in
        (n, MkClient (inFlightGet s' ++ [(k, n)]) (requests s'))
    end.

Definition stop (r : Request) : Request := MkRequest (url r) (config r) (shared_key r) false.

(** The promise of a request settles; [finally] removes the entry of its key. *)
Definition settle (n : nat) (s : Client) : Client :=
  match requests s !! n with
  | None => s
  | Some r =>
      MkClient
        (match shared_key r with Some k => obj_delete k (inFlightGet s) | None => inFlightGet s end)
        (<[n := stop r]> (requests s))
  end.

(** A promise settles once. *)
Inductive step : Client -> Client -> Prop :=
| step_get u c s : step s (api_get u c s).2
| step_settle n r s : requests s !! n = Some r -> running r = true -> step s (settle n s).

Inductive reachable : Client -> Prop :=
| reach_init : reachable initial
| reach_step s s' : reachable s -> step s s' -> reachable s'.

(** ** Interceptors *)

(** The text of the toast for an answer of the server, if there is one. *)
Definition response_toast (config data : jsval) : option jstr :=
  if truthy (get_prop (lit "skipBusinessError") config) then None
  else
    match get_prop (lit "success") data with
    | VBool false => Some (string_of_val (val_or (get_prop (lit "message") data) (VStr (lit "Request failed"))))
    | _ => None
    end.

(** The toast for a failed request, and whether the session is dropped. *)
Definition error_effect (t : jstr -> jstr) (config : jsval) (status : option num) (data message : jsval)
  : option jstr * bool :=
  if truthy (get_prop (lit "skipErrorHandler") config) then (None, false)
  else
    match status with
    | Some x =>
        if num_eqb x (num_of_Z 401) then (Some (t (lit "Session expired!")), true)
        else (Some (string_of_val (val_or (get_prop (lit "message") data) (val_or message (VStr (lit "Request error"))))), false)
    | None => (Some (string_of_val (val_or (get_prop (lit "message") data) (val_or message (VStr (lit "Request error"))))), false)
    end.

(** The headers of a request of the user with the stored identifier. *)
Definition getCommonHeaders (uid : option jstr) : list (jstr * jstr) :=
  (lit "Content-Type", lit "application/json") ::
  match uid with Some (c :: r) => [(lit "New-Api-User", c :: r)] | _ => [] end.

(** * Facts *)

(** The map holds exactly the running requests that are shared. *)
Definition client_inv (s : Client) : Prop :=
  NoDup (obj_keys (inFlightGet s)) /\
  forall k n, obj_get k (inFlightGet s) = Some n <->
    exists r, requests s !! n = Some r /\ shared_key r = Some k /\ running r = true.

(** The key that was recorded is that of the request. *)
Definition keys_inv (s : Client) : Prop :=
  Forall (fun r => forall k, shared_key r = Some k -> k = request_key (url r) (config r)) (requests s).

Lemma get_snoc {V} k k' (v : V) o : obj_get k' o = None ->
  obj_get k (o ++ [(k', v)]) = if k =?= k' then Some v else obj_get k o.
Proof.
  intros H. induction o as [|[k1 v1] o IH]; cbn [app obj_get] in *.
  - repeat case_bool_decide; congruence.
  - destruct (bool_decide (k' = k1)) eqn:E1; [discriminate H|]. rewrite IH by exact H.
    repeat case_bool_decide; congruence.
Qed.

Lemma lookup_sent (l : list Request) r n q :
  (l ++ [r]) !! n = Some q <-> l !! n = Some q \/ (n = length l /\ q = r).
Proof.
  rewrite lookup_app_Some, list_lookup_singleton_Some. split.
  - intros [?|[? [? ?]]]; [by left|right; split; [lia|done]].
  - intros [?|[-> ->]]; [by left|right; split; [lia|split; [lia|done]]].
Qed.

Lemma sent_unshared u c s : client_inv s -> client_inv (originalGet u c None s).2.
Proof.
  intros [Hn H]. split; [exact Hn|]. intros k n. cbn [originalGet snd inFlightGet requests]. rewrite H. split; intros (r & Hr & Hk & Ho).
  - exists r. split; [apply lookup_sent; by left|done].
  - apply lookup_sent in Hr as [Hr|[-> ->]]; [by exists r|discriminate Hk].
Qed.

Lemma sent_shared u c k s : client_inv s -> obj_get k (inFlightGet s) = None ->
  client_inv (MkClient (inFlightGet s ++ [(k, length (requests s))]) (requests s ++ [MkRequest u c (Some k) true])).
Proof.
  intros [Hn H] Hk. split.
  - cbn [inFlightGet]. unfold obj_keys. rewrite List.map_app. cbn [List.map fst]. apply NoDup_app. split_and!; [exact Hn| |apply NoDup_singleton].
    intros k' Hin ->%list_elem_of_singleton. apply obj_keys_get in Hin as [x Hx]. congruence.
  - intros k' n. cbn [inFlightGet requests]. rewrite get_snoc by exact Hk. case_bool_decide as E.
    + subst k'. split.
      * intros [= <-]. eexists. split; [apply lookup_sent; by right|done].
      * intros (r & Hr & Hs & Ho). apply lookup_sent in Hr as [Hr|[-> _]]; [|done].
        assert (obj_get k (inFlightGet s) = Some n) by (apply H; by exists r). congruence.
    + rewrite H. split; intros (r & Hr & Hs & Ho).
      * exists r. split; [apply lookup_sent; by left|done].
      * apply lookup_sent in Hr as [Hr|[-> ->]]; [by exists r|]. cbn in Hs. congruence.
Qed.

Lemma inv_get u c s : client_inv s -> client_inv (api_get u c s).2.
Proof.
  intros H. unfold api_get. destruct (truthy _); [by apply sent_unshared|]. cbv zeta.
  destruct (obj_get (request_key u c) (inFlightGet s)) eqn:E; [done|exact (sent_shared u c _ s H E)].
Qed.

Lemma inv_settle n r s : requests s !! n = Some r -> running r = true -> client_inv s -> client_inv (settle n s).
Proof.
  intros Hr Ho [Hn H]. unfold settle. rewrite Hr.
  assert (Hl : forall m q, <[n := stop r]> (requests s) !! m = Some q /\ running q = true <->
                           m <> n /\ requests s !! m = Some q /\ running q = true).
  { intros m q. destruct (decide (m = n)) as [->|Hmn].
    - rewrite list_lookup_insert_eq by (by eapply lookup_lt_Some). split; [intros [[= <-] E]; discriminate E|by intros []].
    - rewrite list_lookup_insert_ne by done. naive_solver. }
  split; cbn [inFlightGet requests].
  - destruct (shared_key r); [by apply obj_delete_NoDup|done].
  - intros k m. transitivity (m <> n /\ obj_get k (inFlightGet s) = Some m).
    + destruct (shared_key r) as [k0|] eqn:Ek.
      * rewrite obj_get_delete. assert (Hk0 : obj_get k0 (inFlightGet s) = Some n) by (apply H; by exists r).
        case_bool_decide as E; [subst; rewrite Hk0; naive_solver|]. split; [|naive_solver]. intros Hm. split; [|done]. intros ->.
        apply H in Hm as (q & Hq & Hs & _). congruence.
      * split; [|naive_solver]. intros Hm. split; [|done]. intros ->. apply H in Hm as (q & Hq & Hs & _). congruence.
    + rewrite H. split.
      * intros (Hmn & q & Hq & Hs & Hrun). exists q. assert (Hx := proj2 (Hl m q) (conj Hmn (conj Hq Hrun))). naive_solver.
      * intros (q & Hq & Hs & Hrun). apply (conj Hq) in Hrun. apply Hl in Hrun as (? & ? & ?). naive_solver.
Qed.

Lemma client_reachable s : reachable s -> client_inv s /\ keys_inv s.
Proof.
  induction 1 as [|s s' Hs [IH IHk] Hst]; [|destruct Hst as [u c s|n r s Hr Ho]].
  - split; [split; [constructor|]|by constructor]. intros k n. split; [discriminate|by intros (r & ? & _)].
  - split; [by apply inv_get|]. unfold keys_inv, api_get in *. destruct (truthy _); [|destruct (obj_get _ _)];
      cbn [snd originalGet requests]; try exact IHk; apply Forall_app; (split; [exact IHk|]); apply Forall_singleton; cbn [shared_key url config]; intros k; first [discriminate | by intros [= <-]].
  - split; [by eapply inv_settle|]. unfold keys_inv, settle in *. rewrite Hr. cbn [requests]. apply Forall_insert; [exact IHk|].
    rewrite Forall_lookup in IHk. exact (IHk n r Hr).
Qed.

(** C28: identical GET requests are never in the network twice, and sharing is
    sound: in every reachable state at most one running request has a key; a
    caller gets the promise of a running request (so no answer from before the
    call) with the key of the call, a new one exactly when none was running; and
    a call that disables sharing always gets a request of its own. *)
Theorem deduplication_exact s u c :
  reachable s ->
  let k := request_key u c in
  let '(n, s') := api_get u c s in
  (forall i j ri rj, requests s !! i = Some ri -> requests s !! j = Some rj ->
     shared_key ri = Some k -> shared_key rj = Some k -> running ri = true -> running rj = true -> i = j) /\
  (exists r, requests s' !! n = Some r /\ running r = true /\
     if truthy (get_prop (lit "disableDuplicate") c) then r = MkRequest u c None true /\ n = length (requests s)
     else request_key (url r) (config r) = k /\
          (requests s' = requests s <->
           exists i ri, requests s !! i = Some ri /\ shared_key ri = Some k /\ running ri = true)).
Proof.
  intros [[Hn Hi] Hk]%client_reachable k. unfold api_get. fold k.
  assert (Hone : forall i j ri rj, requests s !! i = Some ri -> requests s !! j = Some rj ->
     shared_key ri = Some k -> shared_key rj = Some k -> running ri = true -> running rj = true -> i = j).
  { intros i j ri rj Hri Hrj Ki Kj Oi Oj.
    assert (E1 : obj_get k (inFlightGet s) = Some i) by (apply Hi; by exists ri).
    assert (E2 : obj_get k (inFlightGet s) = Some j) by (apply Hi; by exists rj). congruence. }
  destruct (truthy _); [|destruct (obj_get k (inFlightGet s)) as [n|] eqn:E].
  - cbn. split; [exact Hone|]. eexists. split; [apply lookup_sent; by right|done].
  - split; [exact Hone|]. apply Hi in E as (r & Hr & Kr & Or). exists r. split_and!; [done|done| |].
    + unfold keys_inv in Hk. rewrite Forall_lookup in Hk. symmetry. exact (Hk n r Hr k Kr).
    + split; [intros _; by exists n, r|done].
  - cbn. split; [exact Hone|]. eexists. split; [apply lookup_sent; by right|]. split; [done|]. split; [done|]. split.
    + intros H. apply (f_equal length) in H. rewrite length_app in H. cbn in H. lia.
    + intros (i & ri & Hri & Kri & Ori). assert (obj_get k (inFlightGet s) = Some i) by (apply Hi; by exists ri). congruence.
Qed.

Definition after_one : Client := (api_get (lit "/api/status") (VObj []) initial).2.

Lemma deduplication_exact_witness :
  exists r, requests after_one !! 0%nat = Some r /\ running r = true /\ request_key (url r) (config r) = lit "/api/status?{}".
Proof.
  assert (Hr : reachable after_one) by (eapply reach_step; [apply reach_init|apply step_get]).
  destruct (proj2 (deduplication_exact after_one (lit "/api/status") (VObj []) Hr)) as (r & H1 & H2 & H3 & _).
  exists r. split; [exact H1|]. split; [exact H2|exact H3].
Defined.

(** The key leaves the options of the request out: a caller that asks for the
    errors to be left alone shares a request that reports them. *)
Example options_of_first_used :
  let quiet := VObj [(lit "skipErrorHandler", VBool true)] in
  let '(n, s) := api_get (lit "/api/user/self") quiet (api_get (lit "/api/user/self") (VObj []) initial).2 in
  match requests s !! n with
  | Some r => (error_effect id (config r) (Some (num_of_Z 401)) VUndef VUndef).2 = true /\
              (error_effect id quiet (Some (num_of_Z 401)) VUndef VUndef).2 = false
  | None => False
  end.
Proof. vm_compute. split; reflexivity. Qed.
