(* ===== verification/PlaygroundSession.v ===== *)
(** * Streams and stored state of the playground

    [hooks/use-stream-request.ts] (module [Stream]) turns the events of a stream
    of server-sent events into updates of the conversation, and
    [lib/storage.ts] with [hooks/use-playground-state.ts] (module [Settings]) keeps
    the configuration across reloads.  The stream itself is a library: a source
    is known by its number, and its events may come at any time, messages only
    while it is open. *)

From S2P Require Import Prelude.
From S2P Require Import JsString.
From S2P Require Import JsNumber.
From S2P Require Import JsDecimal.
From S2P Require Import JsValue.
From S2P Require Import JsJson.
From S2P Require Import Playground.

(** ** Streams *)

Module Stream.

Definition PARSE_ERROR : jstr := js "Error parsing response data".
Definition STREAM_START_ERROR : jstr := js "Error establishing connection".
Definition CONNECTION_CLOSED : jstr := js "Connection closed".

(** The refs of the hook, which sources were closed, and the conversation its
    callbacks update. *)
Record Session := MkSession {
  sseSourceRef : option nat;
  isStreamCompleteRef : bool;
  closed : list bool;
  conversation : list Message
}.

Definition with_conversation (f : list Message -> list Message) (s : Session) : Session :=
  MkSession (sseSourceRef s) (isStreamCompleteRef s) (closed s) (f (conversation s)).

(** The callbacks of the chat handler. *)
Definition callback (e : StreamEvent) : Session -> Session := with_conversation (fun l => stream_step l e).

Definition closeSource (n : nat) (s : Session) : Session :=
  MkSession None (isStreamCompleteRef s) (<[n := true]> (closed s)) (conversation s).

Definition handleError (n : nat) (message : jstr) (code : option jstr) (s : Session) : Session :=
  if isStreamCompleteRef s then s else closeSource n (callback (EvError message code) s).

(** [chunk.choices?.[0]?.delta]; reading a member of [null] throws. *)
Definition delta_of (chunk : jsval) : outcome jsval :=
  if is_nullish chunk then Throws
  else
    Ret (get_prop (lit "delta")
           (match get_prop (lit "choices") chunk with
            | VArr (x :: _) => x
            | VObj o => get_prop (lit "0") (VObj o)
            | _ => VUndef
            end)).

(** An update for a member that is not empty. *)
Definition update_with (v : jsval) (event : jstr -> StreamEvent) (s : Session) : Session :=
  if truthy v then callback (event (string_of_val v)) s else s.

Definition on_message (n : nat) (data : jstr) (s : Session) : Session :=
  if data =?= lit "[DONE]" then
    callback EvComplete (closeSource n (MkSession (sseSourceRef s) true (closed s) (conversation s)))
  else
    let read := match json_parse data with Some chunk => delta_of chunk | None => Throws end in
    match read with
    | Throws => handleError n PARSE_ERROR None s
    | Ret delta =>
        if truthy delta then
          update_with (get_prop (lit "content") delta) EvContent
            (update_with (get_prop (lit "reasoning_content") delta) EvReasoning s)
        else s
    end.

(** The message and the code of a failure: those of the server when the data is
    its JSON error, and otherwise the data. *)
Definition failure_text (data : jstr) : jstr * option jstr :=
  let error := match json_parse data with Some v => get_prop (lit "error") v | None => VUndef end in
  if truthy error then
    (string_of_val (val_or (get_prop (lit "message") error) (VStr data)),
     let code := get_prop (lit "code") error in if truthy code then Some (string_of_val code) else None)
  else (data, None).

Definition on_error (n : nat) (readyState : num) (data : option jstr) (s : Session) : Session :=
  if num_eqb readyState (num_of_Z 2) then s
  else
    let '(message, code) :=
      match data with
      | None | Some [] => (API_REQUEST_ERROR, None)
      | Some d => failure_text d
      end in
    handleError n message code s.

Definition on_readystatechange (n : nat) (readyState status : option num) (s : Session) : Session :=
  match readyState, status with
  | Some r, Some c =>
      if num_geb r (num_of_Z 2) && negb (num_eqb c (num_of_Z 200))
      then handleError n (lit "HTTP " ++ string_of_num c ++ lit ": " ++ CONNECTION_CLOSED) None s
      else s
  | _, _ => s
  end.

(** The new source gets the next number; [started] tells whether [stream()] threw. *)
Definition sendStreamRequest (started : bool) (s : Session) : Session :=
  let n := length (closed s) in
  let s' := MkSession (Some n) false (closed s ++ [false]) (conversation s) in
  if started then s'
  else let s'' := callback (EvError STREAM_START_ERROR None) s' in
       MkSession None (isStreamCompleteRef s'') (closed s'') (conversation s'').

Definition stopStream (s : Session) : Session :=
  match sseSourceRef s with
  | Some n => closeSource n s
  | None => s
  end.

Definition stopGeneration (s : Session) : Session := callback EvStop (stopStream s).

Definition isStreaming (s : Session) : bool := bool_decide (is_Some (sseSourceRef s)).

Inductive Event :=
| Send (started : bool)
| OnMessage (n : nat) (data : jstr)
| OnError (n : nat) (readyState : num) (data : option jstr)
| OnReadyState (n : nat) (readyState status : option num)
| Stop.

Definition handle (s : Session) (e : Event) : Session :=
  match e with
  | Send started => sendStreamRequest started s
  | OnMessage n data => on_message n data s
  | OnError n r data => on_error n r data s
  | OnReadyState n r c => on_readystatechange n r c s
  | Stop => stopGeneration s
  end.

Definition opened (s : Session) (n : nat) : Prop := closed s !! n = Some false.

(** What the library may deliver: messages of an open source only. *)
Definition deliverable (s : Session) (e : Event) : Prop :=
  match e with OnMessage n _ => opened s n | _ => True end.

Inductive steps : Session -> list Event -> Session -> Prop :=
| steps_nil s : steps s [] s
| steps_cons s e es s' : deliverable s e -> steps (handle s e) es s' -> steps s (e :: es) s'.

End Stream.

(** ** Settings *)

Module Settings.

Record Storage := MkStorage { saved_config : option jstr; saved_enabled : option jstr }.

Definition DEFAULT_CONFIG : jsobj :=
  [ (lit "model", VStr (lit "gpt-4o")); (lit "group", VStr (lit "default"));
    (lit "temperature", VNum (num_of_dec false 7 (-1))); (lit "top_p", VNum (num_of_Z 1));
    (lit "max_tokens", VNum (num_of_Z 4096)); (lit "frequency_penalty", VNum num_zero);
    (lit "presence_penalty", VNum num_zero); (lit "seed", VNull); (lit "stream", VBool true) ].

Definition DEFAULT_PARAMETER_ENABLED : jsobj :=
  [ (lit "temperature", VBool true); (lit "top_p", VBool true); (lit "max_tokens", VBool false);
    (lit "frequency_penalty", VBool true); (lit "presence_penalty", VBool true); (lit "seed", VBool false) ].

(** The parsed text, and an empty object without one or when it is no JSON. *)
Definition load (saved : option jstr) : jsval :=
  match saved with
  | None | Some [] => VObj []
  | Some text => default (VObj []) (json_parse text)
  end.

(** The storage of the browser may refuse an access, and then the call throws: a
    reading one is caught and gives an empty object, a writing one is caught and
    leaves the storage as it is.  The flags tell whether the access works. *)
Definition loadConfig (ok : bool) (st : Storage) : jsval :=
  if ok then load (saved_config st) else VObj [].

Definition loadParameterEnabled (ok : bool) (st : Storage) : jsval :=
  if ok then load (saved_enabled st) else VObj [].

(** [JSON.stringify] of an object always has a text. *)
Definition saveConfig (ok : bool) (config : jsobj) (st : Storage) : Storage :=
  if ok then MkStorage (Some (default [] (stringify (VObj config)))) (saved_enabled st) else st.

Definition saveParameterEnabled (ok : bool) (enabled : jsobj) (st : Storage) : Storage :=
  if ok then MkStorage (saved_config st) (Some (default [] (stringify (VObj enabled)))) else st.

(** The first removal that throws ends the function. *)
Definition clearPlaygroundData (ok1 ok2 : bool) (st : Storage) : Storage :=
  if ok1 then MkStorage None (if ok2 then None else saved_enabled st) else st.

Record State := MkState { config : jsobj; parameterEnabled : jsobj; storage : Storage }.

Definition mount (ok1 ok2 : bool) (st : Storage) : State :=
  MkState (obj_merge DEFAULT_CONFIG (spread (loadConfig ok1 st)))
    (obj_merge DEFAULT_PARAMETER_ENABLED (spread (loadParameterEnabled ok2 st))) st.

Definition updateConfig (ok : bool) (k : jstr) (v : jsval) (s : State) : State :=
  let updated := obj_set k v (config s) in
  MkState updated (parameterEnabled s) (saveConfig ok updated (storage s)).

Definition updateParameterEnabled (ok : bool) (k : jstr) (v : bool) (s : State) : State :=
  let updated := obj_set k (VBool v) (parameterEnabled s) in
  MkState (config s) updated (saveParameterEnabled ok updated (storage s)).

Definition resetConfig (ok1 ok2 : bool) (s : State) : State :=
  MkState DEFAULT_CONFIG DEFAULT_PARAMETER_ENABLED
    (saveParameterEnabled ok2 DEFAULT_PARAMETER_ENABLED (saveConfig ok1 DEFAULT_CONFIG (storage s))).

Inductive Event :=
| UpdateConfig (ok : bool) (k : jstr) (v : jsval)
| UpdateEnabled (ok : bool) (k : jstr) (v : bool)
| ResetConfig (ok1 ok2 : bool)
| Reload (ok1 ok2 : bool).

Definition step (s : State) (e : Event) : State :=
  match e with
  | UpdateConfig ok k v => updateConfig ok k v s
  | UpdateEnabled ok k v => updateParameterEnabled ok k v s
  | ResetConfig ok1 ok2 => resetConfig ok1 ok2 s
  | Reload ok1 ok2 => mount ok1 ok2 (storage s)
  end.

End Settings.

(** * Facts *)

Module StreamFacts.
Import Stream.

(** A member of a message that is a text, or is missing or null. *)
Definition text_member (v : jsval) (t : jstr) : Prop :=
  v = VStr t \/ (is_nullish v = true /\ t = []).

(** The content and the reasoning that a message brings.  A message without a
    delta, or with one that has neither (the role that opens an answer, the reason
    that ends it), brings two empty texts. *)
Definition carries (data : jstr) (piece : jstr * jstr) : Prop :=
  data <> lit "[DONE]" /\
  exists chunk delta, json_parse data = Some chunk /\ delta_of chunk = Ret delta /\
    (truthy delta = false /\ piece = ([], []) \/
     truthy delta = true /\ text_member (get_prop (lit "content") delta) piece.1 /\
     text_member (get_prop (lit "reasoning_content") delta) piece.2).

Lemma update_member v t event s :
  text_member v t ->
  update_with v event s =
  with_conversation (fold_left stream_step (if truthy_str t then [event t] else [])) s.
Proof.
  unfold update_with, with_conversation. intros [-> | [Hv ->]]; cbn [truthy].
  - destruct t; [by destruct s|done].
  - destruct v; try done; by destruct s.
Qed.

Lemma message_piece n data piece s :
  carries data piece ->
  on_message n data s = with_conversation (fold_left stream_step (piece_events piece)) s.
Proof.
  intros (Hd & chunk & delta & Hp & Ht & Hc). unfold on_message.
  rewrite bool_decide_false, Hp, Ht by done. destruct Hc as [[-> ->]|(-> & Hc & Hr)].
  - by destruct s.
  - rewrite (update_member _ _ _ _ Hc), (update_member _ _ _ _ Hr). unfold with_conversation, piece_events.
    cbn. by rewrite fold_left_app.
Qed.

Lemma messages_pieces n datas ps s : Forall2 carries datas ps -> opened s n ->
  steps s (List.map (OnMessage n) datas)
    (with_conversation (fold_left stream_step (List.flat_map piece_events ps)) s).
Proof.
  intros H. revert s. induction H as [|data piece datas ps Hd H IH]; intros s Ho.
  - destruct s. constructor.
  - cbn [List.map]. constructor; [exact Ho|]. cbn [handle]. rewrite (message_piece n data piece s Hd).
    assert (IH' := IH (with_conversation (fold_left stream_step (piece_events piece)) s) Ho).
    cbn [List.flat_map]. revert IH'. unfold with_conversation. cbn. by rewrite fold_left_app.
Qed.

Lemma steps_app s es s1 es' s' : steps s es s1 -> steps s1 es' s' -> steps s (es ++ es') s'.
Proof. induction 1; [done|]. intros. cbn. constructor; auto. Qed.

(** C8: the answer of a stream.  The server may cut its answer into messages at
    any place, and send messages without text; each message may bring content,
    reasoning (as its own member), both or neither.  When the stream ends, the last
    message of the conversation is complete and shows exactly the visible text of
    the whole content, the pieces put together; every earlier message is as it was,
    the stream is closed and nothing is generating any more.  Its reasoning, when
    the content has no reasoning tag, is exactly the reasoning sent as such (none
    if there was none); when nothing was sent as such and the tags of the content
    hold a reasoning that is not empty, exactly that one.  Not covered: reasoning
    both in tags and sent as such, and tags around an empty reasoning, where a cut
    inside the closing tag can leave a part of it as the reasoning. *)
Theorem streamed_answer_exact s n ms m datas ps :
  conversation s = ms ++ [m] -> opened s n ->
  from m = Assistant -> status m = Some Loading -> current m = [] -> reasoning m = None ->
  Forall2 carries datas ps ->
  let content := concat (List.map fst ps) in
  let sent := concat (List.map snd ps) in
  let p := parseThinkTags content in
  exists s' m',
    steps s (List.map (OnMessage n) datas ++ [OnMessage n (lit "[DONE]")]) s' /\
    conversation s' = ms ++ [m'] /\ key m' = key m /\
    status m' = Some Complete /\ isReasoningStreaming m' = Some false /\
    current m' = visibleContent p /\
    (includes_sub open_tag content = false ->
       reasoning m' = if truthy_str sent then Some (MkReasoning sent num_zero) else None) /\
    (sent = [] -> p_reasoning p <> [] -> reasoning m' = Some (MkReasoning (p_reasoning p) num_zero)) /\
    isStreaming s' = false /\ isStreamCompleteRef s' = true /\ ~ opened s' n.
Proof.
  intros Hcv Ho Ha Hs Hc Hr Hd content sent p.
  destruct (finished_stream ms m ps Ha Hs Hc Hr) as (m' & E & Hk & Hst & Hrs & Hcur & Hn & Ht).
  eexists _, m'. split; [eapply steps_app; [by apply messages_pieces|]|].
  { econstructor; [exact Ho|]. cbn [handle]. constructor. }
  unfold on_message. rewrite bool_decide_true by done. cbn [callback with_conversation conversation closeSource].
  split_and!; try done.
  - rewrite Hcv, <- E, fold_left_app. done.
  - unfold opened. cbn. rewrite list_lookup_insert_eq by (by eapply lookup_lt_Some). discriminate.
Qed.

(** A session in which the answer is final: the completion is recorded, no
    source is open, and the last answer is complete, failed or none. *)
Definition settled (s : Session) : Prop :=
  isStreamCompleteRef s = true /\ (forall n, ~ opened s n) /\ stream_step (conversation s) EvStop = conversation s.

Lemma closed_more n s : (forall m, ~ opened s m) -> forall m, ~ opened (closeSource n s) m.
Proof.
  intros H m. unfold opened in *. cbn. destruct (decide (n = m)) as [->|Hn].
  - destruct (decide (m < length (closed s))%nat); [rewrite list_lookup_insert_eq by done; discriminate|].
    rewrite list_insert_ge by lia. apply H.
  - rewrite list_lookup_insert_ne by done. apply H.
Qed.

Lemma settled_step s e : settled s -> deliverable s e -> (forall b, e <> Send b) ->
  settled (handle s e) /\ conversation (handle s e) = conversation s.
Proof.
  intros (Hc & Ho & Hs) Hd Hb. destruct e as [b|n data|n r data|n r c|]; cbn [handle].
  - by destruct (Hb b).
  - by destruct (Ho n).
  - unfold on_error, handleError. rewrite Hc. repeat case_match; by repeat split.
  - unfold on_readystatechange, handleError. rewrite Hc. repeat case_match; by repeat split.
  - unfold stopGeneration, stopStream, callback, with_conversation, settled. destruct (sseSourceRef s) as [n|]; cbn [conversation closeSource];
      rewrite !Hs; (split; [|done]); split_and!; try done. exact (closed_more n s Ho).
Qed.

Lemma complete_stops l : stream_step (stream_step l EvComplete) EvStop = stream_step l EvComplete.
Proof.
  destruct l as [|m l _] using rev_ind; [done|]. rewrite !stream_step_last.
  destruct (decide (from m = Assistant)) as [Ha|Ha]; [|by rewrite !(bool_decide_false (from m = Assistant))].
  rewrite (bool_decide_true _ Ha), (proj2 (message_step_frame m EvComplete)), (bool_decide_true _ Ha). do 2 f_equal.
  cbn [message_step]. destruct (status_is Complete m || status_is Error m) eqn:E; [|done].
  unfold status_is in *. apply orb_true_iff in E as [E|E]; apply bool_decide_eq_true in E; by rewrite E.
Qed.

(** C9: the end of a stream is final: after its end mark, whatever the library still
    reports (errors, closed connections, a stop by the user), nothing changes the
    conversation until the next request, when no other stream was open. *)
Theorem end_is_final s n es s' :
  opened s n -> (forall m, opened s m -> m = n) ->
  Forall (fun e => forall b, e <> Send b) es ->
  steps (handle s (OnMessage n (lit "[DONE]"))) es s' ->
  conversation s' = stream_step (conversation s) EvComplete.
Proof.
  intros Ho Hone Hes Hst.
  assert (Hset : settled (handle s (OnMessage n (lit "[DONE]")))).
  { cbn [handle]. unfold on_message. rewrite bool_decide_true by done. split_and!; [done| |apply complete_stops].
    intros m Hm. unfold opened in Hm. cbn in Hm. destruct (decide (m = n)) as [->|Hmn].
    - rewrite list_lookup_insert_eq in Hm by (by eapply lookup_lt_Some). discriminate.
    - rewrite list_lookup_insert_ne in Hm by done. apply Hmn, Hone, Hm. }
  transitivity (conversation (handle s (OnMessage n (lit "[DONE]")))).
  - revert Hset. induction Hst as [|s0 e es s' Hd Hst IH]; intros Hset; [done|].
    apply Forall_cons in Hes as [He Hes]. destruct (settled_step _ e Hset Hd He) as [Hset' <-]. by apply IH.
  - cbn [handle]. unfold on_message. by rewrite bool_decide_true.
Qed.

(** A conversation with a request whose answer is being streamed. *)
Definition sample_session : Session :=
  sendStreamRequest true
    (MkSession None false []
       [createUserMessage (lit "u") (lit "v") (lit "Hi"); createLoadingAssistantMessage (lit "a") (lit "w")]).

Definition sample_messages : list jstr :=
  [jq "{'choices':[{'delta':{'role':'assistant','content':''}}]}";
   jq "{'choices':[{'delta':{'content':'<think>plan</thi'}}]}";
   jq "{'choices':[{'delta':{'content':'nk>Hello','reasoning_content':null}}]}";
   jq "{'choices':[{'delta':{},'finish_reason':'stop'}]}"; jq "{'choices':[],'usage':{}}"].

Definition sample_pieces : list (jstr * jstr) :=
  [([], []); (lit "<think>plan</thi", []); (lit "nk>Hello", []); ([], []); ([], [])].

Lemma sample_carries : Forall2 carries sample_messages sample_pieces.
Proof.
  repeat constructor; try discriminate;
    (eexists _, _; split; [vm_compute; reflexivity|split; [vm_compute; reflexivity|]]);
    first [right; split; [reflexivity|split; first [left; reflexivity|right; split; reflexivity]]|left; split; reflexivity].
Qed.

Lemma streamed_answer_exact_witness :
  exists s' m',
    steps sample_session (List.map (OnMessage 0) sample_messages ++ [OnMessage 0 (lit "[DONE]")]) s' /\
    last (conversation s') = Some m' /\ current m' = lit "Hello" /\
    reasoning m' = Some (MkReasoning (lit "plan") num_zero).
Proof.
  destruct (streamed_answer_exact sample_session 0 [createUserMessage (lit "u") (lit "v") (lit "Hi")]
    (createLoadingAssistantMessage (lit "a") (lit "w")) sample_messages sample_pieces)
    as (s' & m' & Hs & Hc & _ & _ & _ & Hm & _ & Hr & _);
    [reflexivity|reflexivity|reflexivity|reflexivity|reflexivity|reflexivity|exact sample_carries|].
  exists s', m'. split; [exact Hs|]. split; [rewrite Hc; reflexivity|]. split.
  - rewrite Hm. vm_compute. reflexivity.
  - rewrite Hr; [vm_compute; reflexivity|reflexivity|]. vm_compute. discriminate.
Defined.

Lemma end_is_final_witness :
  conversation (stopGeneration (on_message 0 (lit "[DONE]") sample_session)) =
  stream_step (conversation sample_session) EvComplete.
Proof.
  refine (end_is_final sample_session 0 [Stop] _ _ _ _ _).
  - reflexivity.
  - intros [|m] Hm; [reflexivity|]. discriminate Hm.
  - constructor; [discriminate|constructor].
  - constructor; [exact I|]. constructor.
Defined.

(** A stop does not record that the stream is over: an error the library reports
    afterwards still replaces the answer that was kept. *)
Example late_error_replaces_stopped_answer :
  let s := stopGeneration (on_message 0 (nth 2 sample_messages []) sample_session) in
  option_map status (last (conversation s)) = Some (Some Complete) /\
  option_map status (last (conversation (on_readystatechange 0 (Some (num_of_Z 2)) (Some num_zero) s))) = Some (Some Error).
Proof. split; vm_compute; reflexivity. Qed.

End StreamFacts.

Module SettingsFacts.
Import Settings.

(** The values that survive JSON, with [D] the defaults. *)
Section Kept.
Variable D : jsobj.
Hypotheses (D_ordered : ordered D) (D_normal : members normal D).

Definition fine (o : jsobj) : Prop := ordered o /\ members normal o /\ forall k, k ∈ obj_keys D -> k ∈ obj_keys o.

Definition same (a b : jsobj) : Prop := forall k, obj_get k a = obj_get k b.

(** What a page reads from the storage when it opens. *)
Definition kept (saved : option jstr) (o : jsobj) : Prop :=
  fine (obj_merge D (spread (load saved))) /\ same (obj_merge D (spread (load saved))) o.

Lemma fine_D : fine D.
Proof. by split_and!. Qed.

Lemma fine_set k v o : units_ok k -> normal v -> fine o -> fine (obj_set k v o).
Proof.
  intros Hk Hv (Ho & Hm & Hd). split_and!; [by apply obj_set_ordered|by apply obj_set_members|].
  intros k' [x Hx]%Hd%obj_keys_get. apply obj_keys_get. rewrite obj_get_set. case_bool_decide; by eexists.
Qed.

Lemma fine_fold o a : members normal o -> fine a -> fine (obj_merge a o).
Proof.
  intros Hm. unfold obj_merge. revert a. induction Hm as [|[k v] o [Hk Hv] Hm IH]; intros a Ha; [done|]. cbn [fold_left fst snd].
  by apply IH, fine_set.
Qed.

Lemma fine_merge o : members normal o -> fine (obj_merge D o).
Proof. intros Hm. by apply fine_fold, fine_D. Qed.

Lemma saved_kept o : fine o -> kept (Some (default [] (stringify (VObj o)))) o.
Proof.
  intros Hf. destruct Hf as (Ho & Hm & Hd). destruct (normal_reads (VObj o) (normal_obj o Ho Hm)) as (c & t & E & _ & Hp).
  assert (El : load (Some (default [] (stringify (VObj o)))) = VObj o) by
    (rewrite E; change (load (Some (default [] (Some (c :: t))))) with (default (VObj []) (json_parse (c :: t))); by rewrite Hp).
  unfold kept. rewrite El. cbn [spread]. split; [by apply fine_merge|].
  intros k. rewrite obj_get_merge by apply Ho. destruct (obj_get k o) eqn:Eo; [done|].
  destruct (obj_get k D) eqn:Ed; [|done]. exfalso.
  assert (Hin : k ∈ obj_keys D) by (apply obj_keys_get; by eexists).
  apply Hd, obj_keys_get in Hin as [x Hx]. congruence.
Qed.

Lemma first_kept : kept None D.
Proof. split; [apply fine_merge; constructor|done]. Qed.

Lemma kept_same saved o o' : kept saved o -> same o o' -> kept saved o'.
Proof. intros [Hf Hs] H. split; [done|]. intros k. by rewrite Hs, H. Qed.

(** The page and the storage, part by part. *)
Definition part_ok (saved : option jstr) (o page disk : jsobj) : Prop :=
  fine o /\ same o page /\ kept saved disk.

Lemma part_write (ok : bool) saved o page disk k v :
  units_ok k -> normal v -> part_ok saved o page disk ->
  part_ok (if ok then Some (default [] (stringify (VObj (obj_set k v o)))) else saved) (obj_set k v o)
    (obj_set k v page) (if ok then obj_set k v page else disk).
Proof.
  intros Hk Hv (Hf & Hs & Hd).
  assert (Hs' : same (obj_set k v o) (obj_set k v page)) by (intros k'; rewrite !obj_get_set; by case_bool_decide).
  assert (Hf' := fine_set k v o Hk Hv Hf). split_and!; [done|done|].
  destruct ok; [|done]. by eapply kept_same; [apply saved_kept|].
Qed.

Lemma part_reset (ok : bool) saved o page disk :
  part_ok saved o page disk ->
  part_ok (if ok then Some (default [] (stringify (VObj D))) else saved) D D (if ok then D else disk).
Proof.
  intros (_ & _ & Hd). split_and!; [apply fine_D|done|]. destruct ok; [|done]. apply saved_kept, fine_D.
Qed.

Lemma part_reload (ok : bool) saved o page disk :
  part_ok saved o page disk ->
  part_ok saved (obj_merge D (spread (if ok then load saved else VObj []))) (if ok then disk else D) disk.
Proof.
  intros (_ & _ & Hf & Hs). destruct ok; [by split_and!|]. split_and!; [apply fine_merge; constructor|done|done].
Qed.

End Kept.

Lemma defaults_fine : (ordered DEFAULT_CONFIG /\ members normal DEFAULT_CONFIG) /\
  (ordered DEFAULT_PARAMETER_ENABLED /\ members normal DEFAULT_PARAMETER_ENABLED).
Proof.
  assert (Hn : forall x, double x -> num_norm x = VNum x -> normal (VNum x)) by (intros x Hd Hx; split; [exact Hd|cbn [json_norm]; by rewrite Hx]).
  assert (Hs : forall t, units_ok t -> normal (VStr t)) by (intros t Ht; by apply normal_str).
  split; (split; [apply ordered_names; units|]); unfold DEFAULT_CONFIG, DEFAULT_PARAMETER_ENABLED, members;
    rewrite !Forall_cons, Forall_nil; cbn [fst snd]; split_and!;
    match goal with
    | |- units_ok _ => units
    | |- normal VNull => split; exact I || reflexivity
    | |- normal (VBool _) => apply normal_bool
    | |- normal (VStr _) => apply Hs; units
    | |- normal (VNum _) => apply Hn; [units|vm_compute; reflexivity]
    | |- True => exact I
    end.
Qed.

(** What the page promises, without texts and parsing: the settings it shows and
    the ones last written to the storage. *)
Record Promise := MkPromise {
  shown_config : jsobj;
  shown_enabled : jsobj;
  written_config : jsobj;
  written_enabled : jsobj
}.

Definition promise_step (p : Promise) (e : Event) : Promise :=
  match e with
  | UpdateConfig ok k v =>
      let c := obj_set k v (shown_config p) in
      MkPromise c (shown_enabled p) (if ok then c else written_config p) (written_enabled p)
  | UpdateEnabled ok k v =>
      let c := obj_set k (VBool v) (shown_enabled p) in
      MkPromise (shown_config p) c (written_config p) (if ok then c else written_enabled p)
  | ResetConfig ok1 ok2 =>
      MkPromise DEFAULT_CONFIG DEFAULT_PARAMETER_ENABLED
        (if ok1 then DEFAULT_CONFIG else written_config p)
        (if ok2 then DEFAULT_PARAMETER_ENABLED else written_enabled p)
  | Reload ok1 ok2 =>
      MkPromise (if ok1 then written_config p else DEFAULT_CONFIG)
        (if ok2 then written_enabled p else DEFAULT_PARAMETER_ENABLED)
        (written_config p) (written_enabled p)
  end.

Definition promise_start : Promise :=
  MkPromise DEFAULT_CONFIG DEFAULT_PARAMETER_ENABLED DEFAULT_CONFIG DEFAULT_PARAMETER_ENABLED.

Definition state_kept (s : State) (p : Promise) : Prop :=
  part_ok DEFAULT_CONFIG (saved_config (storage s)) (config s) (shown_config p) (written_config p) /\
  part_ok DEFAULT_PARAMETER_ENABLED (saved_enabled (storage s)) (parameterEnabled s) (shown_enabled p)
    (written_enabled p).

(** The values the controls of the page set: printable names, and values that
    JSON keeps (texts, finite numbers, switches). *)
Definition usable (e : Event) : Prop :=
  match e with
  | UpdateConfig _ k v => units_ok k /\ normal v
  | UpdateEnabled _ k _ => units_ok k
  | _ => True
  end.

(** Every access to the storage works. *)
Definition accesses_work (e : Event) : Prop :=
  match e with
  | UpdateConfig ok _ _ | UpdateEnabled ok _ _ => ok = true
  | ResetConfig ok1 ok2 | Reload ok1 ok2 => ok1 = true /\ ok2 = true
  end.

Lemma step_kept s p e : usable e -> state_kept s p -> state_kept (step s e) (promise_step p e).
Proof.
  destruct defaults_fine as [[Hc1 Hc2] [Hp1 Hp2]]. intros Hu [H1 H2].
  destruct e as [ok k v|ok k v|ok1 ok2|ok1 ok2]; cbn [step promise_step].
  - destruct Hu as [Hk Hv]. assert (Hw := part_write _ Hc1 Hc2 ok _ _ _ _ k v Hk Hv H1).
    split; cbn; destruct ok; done.
  - assert (Hw := part_write _ Hp1 Hp2 ok _ _ _ _ k (VBool v) Hu (normal_bool v) H2).
    split; cbn; destruct ok; done.
  - assert (Hw1 := part_reset _ Hc1 Hc2 ok1 _ _ _ _ H1). assert (Hw2 := part_reset _ Hp1 Hp2 ok2 _ _ _ _ H2).
    split; cbn; destruct ok1, ok2; done.
  - assert (Hw1 := part_reload _ Hc1 Hc2 ok1 _ _ _ _ H1). assert (Hw2 := part_reload _ Hp1 Hp2 ok2 _ _ _ _ H2).
    split; cbn; [destruct ok1|destruct ok2]; done.
Qed.

Lemma run_kept es s p :
  Forall usable es -> state_kept s p -> state_kept (fold_left step es s) (fold_left promise_step es p).
Proof.
  intros Hu. revert s p. induction Hu as [|e es He Hu IH]; intros s p Hs; [done|].
  cbn [fold_left]. by apply IH, step_kept.
Qed.

Lemma promise_current es p :
  Forall accesses_work es ->
  written_config p = shown_config p -> written_enabled p = shown_enabled p ->
  let p' := fold_left promise_step es p in
  written_config p' = shown_config p' /\ written_enabled p' = shown_enabled p'.
Proof.
  intros Hw. revert p. induction Hw as [|e es He Hw IH]; intros p H1 H2; [done|]. cbn [fold_left].
  apply IH; destruct e as [ok k v|ok k v|ok1 ok2|ok1 ok2]; cbn in He |- *;
    try subst ok; try destruct He as [-> ->]; done.
Qed.

(** C25: the settings of the playground and their storage.  For any sequence of
    changes (with values that JSON keeps: texts, finite numbers, switches), resets
    and reloads, in which any write to the storage and any reading of it may fail,
    the page shows the changes made since it was last opened or reset, whether they
    could be written or not, and opening the page again shows, for each of the two
    stored objects, every setting as it was when that object was last written with
    success (the defaults if it never was).  When every access works, opening the
    page again shows every setting as it was last. *)
Theorem settings_reopened es s p :
  Forall usable es ->
  s = fold_left step es (mount true true (MkStorage None None)) ->
  p = fold_left promise_step es promise_start ->
  let s' := mount true true (storage s) in
  (same (config s) (shown_config p) /\ same (parameterEnabled s) (shown_enabled p)) /\
  (same (config s') (written_config p) /\ same (parameterEnabled s') (written_enabled p)) /\
  (Forall accesses_work es ->
     same (config s') (config s) /\ same (parameterEnabled s') (parameterEnabled s)).
Proof.
  intros Hu -> -> s'.
  assert (H0 : state_kept (mount true true (MkStorage None None)) promise_start).
  { destruct defaults_fine as [[? ?] [? ?]].
    split; (split_and!; [apply fine_merge; [done..|constructor]|done|by apply first_kept]). }
  destruct (run_kept es _ _ Hu H0) as [(_ & H1 & _ & H2) (_ & H3 & _ & H4)].
  split_and!; [done|done|done|done|]. intros Hw.
  destruct (promise_current es promise_start Hw eq_refl eq_refl) as [E1 E2].
  rewrite E1 in H2. rewrite E2 in H4.
  split; intros k; [by rewrite H1, <- H2|by rewrite H3, <- H4].
Qed.

(** A model chosen and written, then another one while the storage is full. *)
Lemma settings_reopened_witness :
  let s := fold_left step [UpdateConfig true (lit "model") (VStr (lit "o3")); Reload true true;
                           UpdateConfig false (lit "model") (VStr (lit "o4"))]
             (mount true true (MkStorage None None)) in
  obj_get (lit "model") (config s) = Some (VStr (lit "o4")) /\
  obj_get (lit "model") (config (mount true true (storage s))) = Some (VStr (lit "o3")).
Proof.
  intros s.
  destruct (settings_reopened [UpdateConfig true (lit "model") (VStr (lit "o3")); Reload true true;
    UpdateConfig false (lit "model") (VStr (lit "o4"))] s _ ltac:(
      repeat constructor; apply (bool_decide_eq_true_1 (units_ok _)) || apply (bool_decide_eq_true_1 (val_ok _));
      vm_compute; reflexivity) eq_refl eq_refl) as ([H1 _] & [H2 _] & _).
  split; [rewrite (H1 (lit "model"))|rewrite (H2 (lit "model"))]; vm_compute; reflexivity.
Defined.

End SettingsFacts.
