(* ===== verification/UpstreamUpdates.v ===== *)
(** * Upstream model updates of the channels

    [features/channels/hooks/use-channel-upstream-updates.ts]: the dialog in which
    an administrator takes over or ignores the models an upstream offers, and the
    four requests of the page.  An asynchronous operation is cut at its awaits:
    a running call is a task that waits for the answer of the server or for the
    refresh of the list. *)

From S2P Require Import Prelude.
From S2P Require Import JsString.
From S2P Require Import JsNumber.
From S2P Require Import JsValue.
From S2P Require Import ModelMapping.

Inductive Op := ApplyOp | ApplyAllOp | DetectOp | DetectAllOp.
Inductive Tab := AddTab | RemoveTab.

#[export] Instance Op_eq : EqDecision Op.
Proof. solve_decision. Defined.

(** What is posted. *)
Inductive Request :=
| ApplyRequest (id : num) (add_models ignore_models remove_models : list jstr)
| ApplyAllRequest
| DetectRequest (id : num)
| DetectAllRequest.

Inductive Phase := AwaitPost | AwaitRefresh.

(** The refs that guard the operations and the loading states, per operation;
    the calls that are running; and the requests sent so far. *)
Record State := MkState {
  showModal : bool;
  channel : option num;
  addModels : list jstr;
  removeModels : list jstr;
  preferredTab : Tab;
  busy : Op -> bool;
  loading : Op -> bool;
  tasks : list (Op * Phase);
  sent : list Request
}.

Definition initial : State := MkState false None [] [] AddTab (fun _ => false) (fun _ => false) [] [].

(** [normalizeModelList] of a list of texts. *)
Definition normalized (l : list jstr) : list jstr :=
  match normalizeModelList (VArr (List.map VStr l)) with Ret r => r | Throws => [] end.

Definition assign (op : Op) (b : bool) (f : Op -> bool) : Op -> bool := fun o => if o =?= op then b else f o.

(** The detection of one channel has no loading state. *)
Definition has_loading (op : Op) : bool := match op with DetectOp => false | _ => true end.

(** The dialog opens only for a channel with something to decide. *)
Definition openModal (record : option num) (pendingAdd pendingRemove : list jstr) (tab : Tab) (s : State) : State :=
  let normAdd := normalized pendingAdd in
  let normRemove := normalized pendingRemove in
  match record with
  | Some id =>
      if negb (truthy_num id) || ((length normAdd =? 0)%nat && (length normRemove =? 0)%nat) then s
      else MkState true (Some id) normAdd normRemove tab (busy s) (loading s) (tasks s) (sent s)
  | None => s
  end.

Definition closeModal (s : State) : State :=
  MkState false None [] [] AddTab (busy s) (loading s) (tasks s) (sent s).

(** Up to the await of [api.post]. *)
Definition start (op : Op) (r : Request) (s : State) : State :=
  MkState (showModal s) (channel s) (addModels s) (removeModels s) (preferredTab s)
    (assign op true (busy s)) (if has_loading op then assign op true (loading s) else loading s)
    (tasks s ++ [(op, AwaitPost)]) (sent s ++ [r]).

(** The [finally] of an operation. *)
Definition finish (op : Op) (s : State) : State :=
  MkState (showModal s) (channel s) (addModels s) (removeModels s) (preferredTab s)
    (assign op false (busy s)) (if has_loading op then assign op false (loading s) else loading s) (tasks s) (sent s).

Definition with_tasks (l : list (Op * Phase)) (s : State) : State :=
  MkState (showModal s) (channel s) (addModels s) (removeModels s) (preferredTab s) (busy s) (loading s) l (sent s).

Definition applyUpdates (selectedAdd selectedRemove : list jstr) (s : State) : State :=
  if busy s ApplyOp then s
  else
    match channel s with
    | Some id =>
        if negb (truthy_num id) then closeModal s
        else
          let normSelectedAdd := normalized selectedAdd in
          let ignoreModels := List.filter (fun m => negb (includes m normSelectedAdd)) (addModels s) in
          start ApplyOp (ApplyRequest id normSelectedAdd ignoreModels (normalized selectedRemove)) s
    | None => closeModal s
    end.

Definition applyAllUpdates (s : State) : State :=
  if busy s ApplyAllOp then s else start ApplyAllOp ApplyAllRequest s.

Definition detectChannelUpdates (ch : option num) (s : State) : State :=
  match ch with
  | Some id => if busy s DetectOp || negb (truthy_num id) then s else start DetectOp (DetectRequest id) s
  | None => s
  end.

Definition detectAllUpdates (s : State) : State :=
  if busy s DetectAllOp then s else start DetectAllOp DetectAllRequest s.

(** The answer of the server: [success], or a failure or an exception. *)
Definition posted (n : nat) (op : Op) (success : bool) (s : State) : State :=
  if success then
    let s' := match op with ApplyOp => closeModal s | _ => s end in
    with_tasks (<[n := (op, AwaitRefresh)]> (tasks s')) s'
  else finish op (with_tasks (delete n (tasks s)) s).

(** The refresh of the list ended, with or without an exception. *)
Definition refreshed (n : nat) (op : Op) (s : State) : State := finish op (with_tasks (delete n (tasks s)) s).

Inductive step : State -> State -> Prop :=
| step_open record add remove tab s : step s (openModal record add remove tab s)
| step_close s : step s (closeModal s)
| step_apply add remove s : step s (applyUpdates add remove s)
| step_apply_all s : step s (applyAllUpdates s)
| step_detect ch s : step s (detectChannelUpdates ch s)
| step_detect_all s : step s (detectAllUpdates s)
| step_posted n op success s : tasks s !! n = Some (op, AwaitPost) -> step s (posted n op success s)
| step_refreshed n op s : tasks s !! n = Some (op, AwaitRefresh) -> step s (refreshed n op s).

Inductive reachable : State -> Prop :=
| reach_initial : reachable initial
| reach_next s s' : reachable s -> step s s' -> reachable s'.

(** * Facts *)

(** The running calls of an operation. *)
Definition running (op : Op) (s : State) : nat := length (List.filter (fun t => t.1 =?= op) (tasks s)).

Definition guarded (s : State) : Prop :=
  forall op, running op s = (if busy s op then 1 else 0)%nat /\ loading s op = (busy s op && has_loading op).

(** A dialog that is open has a channel and models without blanks or doubles. *)
Definition dialog_ok (s : State) : Prop :=
  (showModal s = true -> exists id, channel s = Some id /\ truthy_num id = true) /\
  NoDup (addModels s) /\ NoDup (removeModels s).

Lemma filter_delete {A} (f : A -> bool) l n x : l !! n = Some x ->
  length (List.filter f l) = (length (List.filter f (delete n l)) + if f x then 1 else 0)%nat.
Proof.
  intros H. rewrite <- (take_drop_middle l n x H) at 1. rewrite delete_take_drop, !lfilter_app, !length_app.
  cbn [List.filter]. destruct (f x); cbn [length]; lia.
Qed.

Lemma filter_insert {A} (f : A -> bool) l n x y : l !! n = Some x -> f x = f y ->
  length (List.filter f (<[n := y]> l)) = length (List.filter f l).
Proof.
  intros H E. rewrite <- (take_drop_middle l n x H) at 2. rewrite insert_take_drop by (by eapply lookup_lt_Some).
  rewrite !lfilter_app, !length_app. cbn [List.filter]. rewrite E. by destruct (f y).
Qed.

Lemma guarded_start op r s : busy s op = false -> guarded s -> guarded (start op r s).
Proof.
  intros Hb H o. destruct (H o) as [H1 H2]. unfold running, start, assign in *. cbn [tasks busy loading].
  rewrite lfilter_app, length_app. cbn [List.filter fst]. destruct (decide (o = op)) as [->|Ho].
  - rewrite !(bool_decide_true (op = op)) by done. rewrite Hb in H1. cbn [length]. split; [lia|].
    destruct (has_loading op) eqn:El; [by rewrite bool_decide_true|]. by rewrite H2, Hb.
  - rewrite (bool_decide_false (op = o)), !(bool_decide_false (o = op)) by congruence. cbn [length]. split; [lia|].
    destruct (has_loading op); [by rewrite bool_decide_false|done].
Qed.

Lemma guarded_finish n op p s : tasks s !! n = Some (op, p) -> guarded s -> guarded (finish op (with_tasks (delete n (tasks s)) s)).
Proof.
  intros Hn H o. destruct (H o) as [H1 H2]. unfold running, finish, with_tasks, assign in *. cbn [tasks busy loading].
  rewrite (filter_delete _ _ n _ Hn) in H1. cbn [fst] in H1. destruct (decide (o = op)) as [->|Ho].
  - rewrite (bool_decide_true (op = op)) in * by done. destruct (busy s op); [|lia]. split; [lia|].
    destruct (has_loading op) eqn:El; [by rewrite bool_decide_true|]. by rewrite H2, andb_false_r.
  - rewrite (bool_decide_false (op = o)) in H1 by congruence. rewrite (bool_decide_false (o = op)) by done. split; [lia|].
    destruct (has_loading op); [by rewrite bool_decide_false|done].
Qed.

Lemma guarded_step s s' : step s s' -> guarded s -> guarded s'.
Proof.
  intros Hst H. destruct Hst as [record add remove tab s|s|add remove s|s|ch s|s|n op success s Hn|n op s Hn].
  - unfold openModal. repeat case_match; exact H.
  - exact H.
  - unfold applyUpdates. destruct (busy s ApplyOp) eqn:E; [exact H|]. repeat case_match; try exact H. by apply guarded_start.
  - unfold applyAllUpdates. destruct (busy s ApplyAllOp) eqn:E; [exact H|]. by apply guarded_start.
  - unfold detectChannelUpdates. destruct ch; [|exact H]. destruct (busy s DetectOp) eqn:E; cbn [orb]; [exact H|].
    destruct (negb _); [exact H|]. by apply guarded_start.
  - unfold detectAllUpdates. destruct (busy s DetectAllOp) eqn:E; [exact H|]. by apply guarded_start.
  - unfold posted. destruct success; [|by eapply guarded_finish]. intros o.
    assert (E : forall t, running o (with_tasks (<[n := (op, AwaitRefresh)]> (tasks t)) t) =
      length (List.filter (fun t => t.1 =?= o) (<[n := (op, AwaitRefresh)]> (tasks t)))) by done.
    destruct (H o) as [H1 H2]. unfold running in H1.
    destruct op; (split; [rewrite E; cbn [tasks closeModal]; by rewrite (filter_insert _ _ n _ _ Hn)|exact H2]).
  - by eapply guarded_finish.
Qed.

Lemma guarded_reachable s : reachable s -> guarded s.
Proof. induction 1 as [|s s' Hs IH Hst]; [by intros []|]. by eapply guarded_step. Qed.

Lemma normalized_clean l : NoDup (normalized l) /\ Forall (fun m => m <> []) (normalized l).
Proof.
  unfold normalized, normalizeModelList. cbn [truthy]. split; [apply NoDup_uniq|].
  apply uniq_Forall, Forall_forall. intros m Hm%elem_of_lfilter. destruct Hm as [_ Hm]. by intros ->.
Qed.

Lemma dialog_step s s' : step s s' -> dialog_ok s -> dialog_ok s'.
Proof.
  assert (Hclosed : forall t, dialog_ok (closeModal t)) by (intros t; split; [discriminate|split; constructor]).
  intros Hst H. destruct Hst as [record add remove tab s|s|add remove s|s|ch s|s|n op success s Hn|n op s Hn].
  - unfold openModal. destruct record as [id|]; [|exact H]. destruct (truthy_num id) eqn:Et; cbn [negb orb]; [|exact H].
    destruct (_ && _); [exact H|]. split; [intros _; by exists id|]. split; apply normalized_clean.
  - apply Hclosed.
  - unfold applyUpdates. repeat case_match; try apply Hclosed; exact H.
  - unfold applyAllUpdates. by destruct (busy s ApplyAllOp).
  - unfold detectChannelUpdates. repeat case_match; exact H.
  - unfold detectAllUpdates. by destruct (busy s DetectAllOp).
  - unfold posted. destruct success; [|exact H]. destruct op; [apply Hclosed|exact H..].
  - exact H.
Qed.

Lemma dialog_reachable s : reachable s -> dialog_ok s.
Proof.
  induction 1 as [|s s' Hs IH Hst]; [|by eapply dialog_step]. split; [discriminate|split; constructor].
Qed.

(** C26: in every reachable state, for every interleaving of clicks and answers, each
    of the four operations (apply, apply all, detect for one channel, detect all)
    runs at most once at a time.  Three of them (apply, apply all and detect all)
    are shown as loading exactly while they run; the detection for one channel has
    no loading state and is never shown as loading, also while it runs.  And none
    can stay blocked: a guard that is set belongs to a running call whose next
    answer can release it. *)
Theorem operations_guarded s op :
  reachable s ->
  running op s = (if busy s op then 1 else 0)%nat /\
  loading s op = match op with DetectOp => false | _ => busy s op end /\
  (busy s op = true -> exists n : nat,
     (tasks s !! n = Some (op, AwaitPost) /\ busy (posted n op false s) op = false) \/
     (tasks s !! n = Some (op, AwaitRefresh) /\ busy (refreshed n op s) op = false)).
Proof.
  intros H. destruct (guarded_reachable s H op) as [H1 H2].
  split_and!; [done|rewrite H2; destruct op; cbn; by rewrite ?andb_true_r, ?andb_false_r|]. intros Hb. rewrite Hb in H1.
  unfold running in H1. destruct (List.filter _ (tasks s)) as [|t l] eqn:E; [discriminate H1|].
  assert (Ht : t ∈ List.filter (fun t => t.1 =?= op) (tasks s)) by (rewrite E; left).
  apply elem_of_lfilter in Ht as [Ht Hop]. apply list_elem_of_lookup in Ht as [n Hn].
  destruct t as [op' p]. apply bool_decide_eq_true in Hop. cbn in Hop. subst op'. exists n.
  assert (Ha : forall b f, assign op b f op = b) by (intros; unfold assign; by rewrite bool_decide_true).
  destruct p; [left|right]; (split; [exact Hn|]); apply Ha.
Qed.

(** C27: the request of the dialog decides every pending addition (every model listed
    to be added), once: each
    is taken over or ignored and never both, nothing else is ignored, and the
    models taken over and removed are sent without blanks and doubles; no second
    request is sent while one is running. *)
Theorem apply_request_exact s selectedAdd selectedRemove :
  reachable s -> showModal s = true ->
  let s' := applyUpdates selectedAdd selectedRemove s in
  if busy s ApplyOp then s' = s
  else exists id add ignore remove,
    sent s' = sent s ++ [ApplyRequest id add ignore remove] /\ channel s = Some id /\
    (forall m, m ∈ addModels s -> (m ∈ add /\ m ∉ ignore) \/ (m ∈ ignore /\ m ∉ add)) /\
    (forall m, m ∈ ignore -> m ∈ addModels s) /\ NoDup ignore /\
    add = normalized selectedAdd /\ remove = normalized selectedRemove /\
    Forall (fun m => m <> []) (add ++ remove) /\ NoDup add /\ NoDup remove.
Proof.
  intros Hr Hs s'. destruct (dialog_reachable s Hr) as (Hd & Ha & _). unfold s', applyUpdates.
  destruct (busy s ApplyOp); [done|]. destruct (Hd Hs) as (id & -> & Hid). rewrite Hid. cbn [negb].
  destruct (normalized_clean selectedAdd) as [N1 F1]. destruct (normalized_clean selectedRemove) as [N2 F2].
  eexists id, _, _, _. split; [reflexivity|]. split_and!; [done| | |by apply NoDup_lfilter|done|done|by apply Forall_app|done|done].
  - intros m Hm. rewrite elem_of_lfilter, negb_true_iff, includes_false.
    destruct (decide (m ∈ normalized selectedAdd)); [left|right]; tauto.
  - by intros m [Hm _]%elem_of_lfilter.
Qed.

Definition opened : State := openModal (Some (num_of_Z 7)) [lit "gpt-4o"; lit "o3"] [] AddTab initial.

Lemma opened_reachable : reachable opened.
Proof. eapply reach_next; [apply reach_initial|apply step_open]. Qed.

Lemma operations_guarded_witness : running ApplyOp (applyUpdates [lit "o3"] [] opened) = 1%nat.
Proof.
  refine (proj1 (operations_guarded (applyUpdates [lit "o3"] [] opened) ApplyOp _)).
  eapply reach_next; [exact opened_reachable|apply step_apply].
Defined.

Lemma apply_request_exact_witness :
  exists id add ignore remove,
    sent (applyUpdates [lit "o3"] [] opened) = [ApplyRequest id add ignore remove] /\ lit "gpt-4o" ∈ ignore.
Proof.
  assert (Hs : showModal opened = true) by (vm_compute; reflexivity).
  assert (Hb : busy opened ApplyOp = false) by (vm_compute; reflexivity).
  assert (Hp : addModels opened = [lit "gpt-4o"; lit "o3"]) by (vm_compute; reflexivity).
  assert (Hsent : sent opened = []) by (vm_compute; reflexivity).
  pose proof (apply_request_exact opened [lit "o3"] [] opened_reachable Hs) as T. cbv zeta in T. rewrite Hb, Hp, Hsent in T.
  destruct T as (id & add & ignore & remove & E & _ & H & _ & _ & Ha & _).
  exists id, add, ignore, remove. split; [exact E|].
  destruct (H (lit "gpt-4o")) as [[Hin _]|[Hin _]]; [left| |exact Hin].
  exfalso. rewrite Ha in Hin. apply (bool_decide_eq_true_2 (lit "gpt-4o" ∈ normalized [lit "o3"])) in Hin. vm_compute in Hin. discriminate Hin.
Defined.

(** A request that is answered late closes whatever dialog is open by then: here
    the dialog of another channel. *)
Example late_answer_closes_next :
  let s1 := applyUpdates [lit "o3"] [] opened in
  let s2 := openModal (Some (num_of_Z 8)) [lit "claude-3"] [] AddTab (closeModal s1) in
  showModal s2 = true /\ channel s2 = Some (num_of_Z 8) /\ showModal (posted 0 ApplyOp true s2) = false.
Proof. vm_compute. split_and!; reflexivity. Qed.
