(* ===== verification/ChatLinks.v ===== *)
(** * Links to chat clients

    [features/chat/lib/chat-links.ts]: the presets an administrator configures,
    and the links built from them with the address of the server and a key of the
    user.  [encodeURIComponent] and [btoa] throw on texts they cannot encode. *)

From S2P Require Import Prelude.
From S2P Require Import JsString.
From S2P Require Import JsNumber.
From S2P Require Import JsDecimal.
From S2P Require Import JsValue.
From S2P Require Import JsJson.
From S2P Require Import JsBase64.

Local Open Scope N_scope.

(** ** encodeURIComponent *)

Definition unreserved (c : N) : bool := is_word c || includes c (jq "-.!~*()") || (c =? 39).

(** The code points of a text; a lone surrogate has none. *)
Fixpoint code_points (s : jstr) : option (list N) :=
  match s with
  | [] => Some []
  | c :: r =>
      if is_high_surrogate c then
        match r with
        | d :: r' => if is_low_surrogate d then cons ((c - 55296) * 1024 + (d - 56320) + 65536) <$> code_points r' else None
        | [] => None
        end
      else if is_low_surrogate c then None
      else cons c <$> code_points r
  end.

Definition upper_hex (n : N) : N := if n <? 10 then 48 + n else 55 + n.

Definition percent (b : N) : jstr := [37; upper_hex (b / 16); upper_hex (b mod 16)].

Definition encode_point (p : N) : jstr :=
  if unreserved p then [p] else List.flat_map percent (utf8_of_point p).

Definition encodeURIComponent (s : jstr) : outcome jstr :=
  match code_points s with Some l => Ret (List.flat_map encode_point l) | None => Throws end.

Definition toBase64 (value : jstr) : outcome jstr :=
  match btoa value with Some t => Ret t | None => Throws end.

(** ** Presets *)

Inductive ChatLinkType := Web | CustomProtocol | Fluent.

Record ChatPreset := MkPreset { preset_id : jstr; preset_name : jstr; preset_url : jstr; preset_type : ChatLinkType }.

Section Presets.
Variable toLowerCase : jstr -> jstr.

(** The test of the scheme ignores the case of the Latin letters. *)
Definition detectChatLinkType (url : jstr) : ChatLinkType :=
  if starts_with (lit "http://") (to_lower url) || starts_with (lit "https://") (to_lower url) then Web
  else if starts_with (lit "fluent") (toLowerCase url) then Fluent
  else CustomProtocol.

(** The preset of an entry: an object with one member, whose value is a text that
    is not blank. *)
Definition preset_of (index : nat) (entry : jsval) : option ChatPreset :=
  match entry with
  | VObj [(name, VStr value)] =>
      let url := trim value in
      if truthy_str url then Some (MkPreset (dec_of_N (N.of_nat index)) name url (detectChatLinkType url)) else None
  | _ => None
  end.

Definition parseChatConfig (raw : jsval) : list ChatPreset :=
  let parsed := match raw with VStr s => json_parse s | _ => Some raw end in
  match parsed with
  | Some (VArr l) => omap id (imap preset_of l)
  | _ => []
  end.

End Presets.

Definition KEY : jstr := lit "{key}".
Definition ADDRESS : jstr := lit "{address}".
Definition CHERRY : jstr := lit "{cherryConfig}".
Definition AIONUI : jstr := lit "{aionuiConfig}".
Definition DEEPCHAT : jstr := lit "{deepchatConfig}".

Definition chatLinkRequiresApiKey (url : jstr) : bool :=
  includes_sub KEY url || includes_sub CHERRY url || includes_sub AIONUI url || includes_sub DEEPCHAT url.

(** ** Links *)

(** [source.split(token)] for a token that is not empty. *)
Fixpoint split_sub (fuel : nat) (token source : jstr) : list jstr :=
  match fuel with
  | O => [source]
  | S f =>
      match index_of token source with
      | Some i => take i source :: split_sub f token (drop (i + length token) source)
      | None => [source]
      end
  end.

Definition replaceToken (source token value : jstr) : jstr := join value (split_sub (S (length source)) token source).

Definition normalizeApiKey (apiKey : jstr) : jstr :=
  let trimmed := trim apiKey in
  if negb (truthy_str trimmed) then []
  else if starts_with (lit "sk-") trimmed then trimmed else lit "sk-" ++ trimmed.

(** The settings a client reads from the link. *)
Definition config_payload (idKey serverAddress apiKey : jstr) : jsval :=
  VObj [(idKey, VStr (lit "new-api")); (lit "baseUrl", VStr serverAddress); (lit "apiKey", VStr apiKey)].

Definition encoded_payload (v : jsval) : outcome jstr :=
  b ← toBase64 (default [] (stringify v)); encodeURIComponent b.

Definition resolveChatUrl (template : jstr) (apiKey : option jstr) (serverAddress : jstr) : outcome jstr :=
  let safeApiKey := normalizeApiKey (default [] apiKey) in
  let with_config token idKey :=
    encoded ← encoded_payload (config_payload idKey serverAddress safeApiKey); Ret (replaceToken template token encoded) in
  if includes_sub CHERRY template then with_config CHERRY (lit "id")
  else if includes_sub AIONUI template then with_config AIONUI (lit "platform")
  else if includes_sub DEEPCHAT template then with_config DEEPCHAT (lit "id")
  else
    url ← (if truthy_str serverAddress then
             encoded ← encodeURIComponent serverAddress; Ret (replaceToken template ADDRESS encoded)
           else Ret template);
    Ret (if truthy_str safeApiKey then replaceToken url KEY safeApiKey else url).

Record ActiveApiKey := MkKey { k_key : jstr; k_status : num }.

Definition ENABLED : num := num_of_Z 1.

Definition getFirstActiveKey (keys : option (list ActiveApiKey)) : option ActiveApiKey :=
  match keys with
  | None => None
  | Some l => List.find (fun item => num_eqb (k_status item) ENABLED) l
  end.

(** * Facts *)

(** What a client does with the value of a link: percent decoding. *)
Definition hex_of (c : N) : N := if c <? 58 then c - 48 else c - 55.

Fixpoint percent_decode (s : jstr) : list N :=
  match s with
  | c :: (h :: l :: r) as rest => if c =? 37 then (hex_of h * 16 + hex_of l) :: percent_decode r else c :: percent_decode rest
  | c :: rest => c :: percent_decode rest
  | [] => []
  end.

Definition b64_text (c : N) : bool := is_word c && negb (c =? 95) || includes c [43; 47; 61].

Lemma decode_plain c r : c <> 37 -> percent_decode (c :: r) = c :: percent_decode r.
Proof. intros H. destruct r as [|h [|l r]]; [done..|]. cbn [percent_decode]. by rewrite (proj2 (N.eqb_neq c 37)). Qed.

(** The characters of base 64 are below 128, are no surrogates, and are kept or
    written with two hexadecimal digits. *)
Lemma b64_text_cases c : b64_text c = true ->
  is_high_surrogate c = false /\ is_low_surrogate c = false /\
  ((encode_point c = [c] /\ c <> 37) \/ (exists h l, encode_point c = [37; h; l] /\ hex_of h * 16 + hex_of l = c)).
Proof.
  intros H. assert (Hc : c < 128).
  { unfold b64_text, is_word, is_digit in H. destruct (N.ltb_spec c 128); [done|]. exfalso.
    rewrite orb_true_iff, includes_true, !andb_true_iff, !orb_true_iff, !andb_true_iff, !N.leb_le, N.eqb_eq, !elem_of_cons, elem_of_nil in H. lia. }
  assert (Hall : forallb (fun c => negb (b64_text c) ||
      (negb (is_high_surrogate c) && negb (is_low_surrogate c) &&
       ((bool_decide (encode_point c = [c]) && negb (c =? 37)) ||
        bool_decide (encode_point c = [37; upper_hex (c / 16); upper_hex (c mod 16)] /\
                     hex_of (upper_hex (c / 16)) * 16 + hex_of (upper_hex (c mod 16)) = c))))
    (List.map N.of_nat (seq 0 128)) = true) by (vm_compute; reflexivity).
  rewrite forallb_forall in Hall. specialize (Hall c). rewrite H in Hall. cbn [negb orb] in Hall.
  rewrite !andb_true_iff, orb_true_iff, !andb_true_iff, !negb_true_iff, !bool_decide_eq_true, N.eqb_neq in Hall.
  destruct Hall as [[? ?] Hc'].
  - rewrite <- (N2Nat.id c). apply in_map, in_seq. lia.
  - split_and!; [done|done|]. destruct Hc' as [?|[? ?]]; [by left|right; by eexists _, _].
Qed.

Lemma encode_b64 t : Forall (fun c => b64_text c = true) t ->
  code_points t = Some t /\ percent_decode (List.flat_map encode_point t) = t.
Proof.
  induction 1 as [|c t Hc Ht [IH1 IH2]]; [done|]. destruct (b64_text_cases c Hc) as (H1 & H2 & H3).
  cbn [code_points List.flat_map]. rewrite H1, H2, IH1. split; [done|].
  destruct H3 as [[-> Hn]|(h & l & -> & E)]; cbn [app].
  - by rewrite decode_plain, IH2.
  - cbn [percent_decode]. rewrite N.eqb_refl, IH2. by rewrite E.
Qed.

Lemma b64_encode_text l : Forall (fun b => b < 256) l -> Forall (fun c => b64_text c = true) (b64_encode l).
Proof.
  intros H. apply Forall_app. split; [|by apply Forall_replicate].
  apply Forall_map. eapply Forall_impl; [exact (b64_quads_bound l H)|]. cbn beta. intros n Hn.
  assert (Hall : forallb (fun n => b64_text (b64_char n)) (List.map N.of_nat (seq 0 64)) = true) by (vm_compute; reflexivity).
  rewrite forallb_forall in Hall. apply Hall. rewrite <- (N2Nat.id n). apply in_map, in_seq. lia.
Qed.

(** Texts of characters below 256. *)
Definition latin1 (s : jstr) : Prop := Forall (fun c => c < 256) s.

Lemma latin1_units s : latin1 s -> units_ok s.
Proof. intros H. eapply Forall_impl; [exact H|]. cbn beta. lia. Qed.

Lemma quote_latin1 s : latin1 s -> latin1 (quote s).
Proof.
  intros H. constructor; [done|]. apply Forall_app. split; [|by repeat constructor].
  induction H as [|c s Hc Hs IH]; [constructor|]. cbn [quote_body].
  assert (E1 : is_high_surrogate c = false) by (apply andb_false_iff; left; apply N.leb_gt; lia).
  assert (E2 : is_low_surrogate c = false) by (apply andb_false_iff; left; apply N.leb_gt; lia).
  rewrite E1, E2. apply Forall_app. split; [|exact IH].
  assert (Hh : forall n, n < 16 -> hex_digit n < 256) by (intros n Hn; unfold hex_digit; destruct (n <? 10); lia).
  unfold quote_unit, unicode_escape. repeat case_test; rewrite !Forall_cons, Forall_nil; split_and!; try done;
    try (apply Hh; divlia). 
Qed.

Lemma link_payload_text idKey a k : latin1 idKey -> latin1 a -> latin1 k ->
  exists t, stringify (config_payload idKey a k) = Some t /\ latin1 t.
Proof.
  intros Hi Ha Hk. eexists. split; [reflexivity|]. cbn [config_payload List.flat_map stringify fst snd app join].
  repeat (apply Forall_app; split); try apply quote_latin1; try done;
    try (apply (bool_decide_eq_true_1 (Forall (fun c => c < 256) _)); vm_compute; reflexivity).
Qed.

Lemma link_payload_normal idKey a k : idKey = lit "id" \/ idKey = lit "platform" -> units_ok a -> units_ok k ->
  normal (config_payload idKey a k).
Proof.
  intros Hi Ha Hk. apply normal_obj.
  - destruct Hi as [-> | ->]; apply ordered_names; units.
  - destruct Hi as [-> | ->]; repeat (constructor; [split; [units|apply normal_str; first [assumption|units]]|]); constructor.
Qed.

Lemma link_payload_decodes idKey a k : idKey = lit "id" \/ idKey = lit "platform" -> latin1 a -> latin1 k ->
  exists e, encoded_payload (config_payload idKey a k) = Ret e /\
    atob (percent_decode e) ≫= json_parse = Some (config_payload idKey a k).
Proof.
  intros Hi Ha Hk. assert (Hl : latin1 idKey) by (destruct Hi as [-> | ->]; apply (bool_decide_eq_true_1 (Forall (fun c => c < 256) _)); vm_compute; reflexivity).
  destruct (link_payload_text idKey a k Hl Ha Hk) as (t & E & Ht).
  destruct (link_payload_normal idKey a k Hi (latin1_units a Ha) (latin1_units k Hk)) as [Hv Hn].
  pose proof (json_roundtrip _ t Hv E) as Hp. rewrite Hn in Hp.
  destruct (encode_b64 (b64_encode t) (b64_encode_text t Ht)) as [H1 H2].
  exists (List.flat_map encode_point (b64_encode t)). split.
  - unfold encoded_payload, toBase64, btoa. rewrite E. cbn [default from_option id].
    replace (List.forallb _ t) with true; [cbn; unfold encodeURIComponent; by rewrite H1|].
    symmetry. apply forallb_Forall. eapply Forall_impl; [exact Ht|]. cbn beta. intros c Hc. by apply N.ltb_lt.
  - rewrite H2, (atob_encoded t Ht). exact Hp.
Qed.

Lemma replace_once source token value i : index_of token source = Some i -> token <> [] ->
  index_of token (drop (i + length token) source) = None ->
  replaceToken source token value = take i source ++ value ++ drop (i + length token) source.
Proof.
  intros H1 Ht H2. unfold replaceToken. cbn [split_sub]. rewrite H1.
  destruct (length source) as [|n] eqn:El; [apply nil_length_inv in El; subst source; destruct token; [done|discriminate H1]|].
  cbn [split_sub]. rewrite H2. reflexivity.
Qed.

(** A link with a configuration carries exactly the address of the server and
    the key, with the prefix of the gateway: the placeholder is replaced, the rest
    of the template is kept, and a client that undoes the percent encoding, the
    base 64 and the JSON reads them back. *)
Theorem config_link_decodes template apiKey a i :
  index_of CHERRY template = Some i -> includes_sub CHERRY (drop (i + length CHERRY) template) = false ->
  latin1 a -> latin1 (normalizeApiKey (default [] apiKey)) ->
  exists e, resolveChatUrl template apiKey a = Ret (take i template ++ e ++ drop (i + length CHERRY) template) /\
    atob (percent_decode e) ≫= json_parse =
    Some (config_payload (lit "id") a (normalizeApiKey (default [] apiKey))).
Proof.
  intros Hi Hr Ha Hk. destruct (link_payload_decodes (lit "id") a _ (or_introl eq_refl) Ha Hk) as (e & E & Hd).
  exists e. split; [|exact Hd]. unfold resolveChatUrl, includes_sub. rewrite Hi.
  unfold mbind, outcome_bind. rewrite E. f_equal. apply replace_once; [done|discriminate|].
  unfold includes_sub in Hr. by destruct (index_of CHERRY (drop _ template)).
Qed.

Lemma config_link_decodes_witness :
  exists e, resolveChatUrl (lit "cherrystudio://providers/api-keys?v=1&data={cherryConfig}") (Some (lit "abc")) (lit "https://a.b") =
    Ret (lit "cherrystudio://providers/api-keys?v=1&data=" ++ e ++ []) /\
    atob (percent_decode e) ≫= json_parse = Some (config_payload (lit "id") (lit "https://a.b") (lit "sk-abc")).
Proof.
  refine (config_link_decodes (lit "cherrystudio://providers/api-keys?v=1&data={cherryConfig}") (Some (lit "abc")) (lit "https://a.b") 43 _ _ _ _).
  - vm_compute. reflexivity.
  - vm_compute. reflexivity.
  - apply (bool_decide_eq_true_1 (Forall (fun c => c < 256) _)). vm_compute. reflexivity.
  - apply (bool_decide_eq_true_1 (Forall (fun c => c < 256) _)). vm_compute. reflexivity.
Defined.

(** An address or a key with a character above 255 makes [btoa] throw, and the link
    with it. *)
Example wide_address_throws :
  resolveChatUrl CHERRY (Some (lit "abc")) (js "https://例え.jp") = Throws.
Proof. vm_compute. reflexivity. Qed.
